(* ===== verification/_CoqProject ===== *)
-Q . S2P
Prelude.v
Types.v
DeepCopy.v
MemHeap.v
GoFloat.v
Cluster.v
Workload.v
Metrics.v
Notify.v
Status.v
Health.v
Cycles.v
Reconciler.v
Safety.v
Phases.v
Requeue.v
Finalizer.v
Accounting.v
Watch.v
Pattern.v
Schema.v
ApiServer.v
Lifecycle.v
MemCluster.v
Admission.v
Validator.v
Wire.v
Gate.v
Tls.v
Server.v
Trust.v
MemTls.v
Flags.v
Manager.v
Wiring.v
Scenarios.v
Tenancy.v
MemWire.v
