(* ===== verification/Prelude.v ===== *)
(** * klink: a verification library for the workload-dependency operator

    klink is a Kubernetes operator.  A WorkloadDependency names a dependent
    workload and the workloads it depends on; while one of these is unhealthy for
    longer than a window, klink scales the dependent to zero (or suspends the
    CronJob), and it brings it back after they have been healthy for a recovery
    window.  An admission webhook blocks scale-ups in gate mode.

    ** The program and its model

    - API types, [api/v1alpha1/workloaddependency_types.go]: Types.  The markers
      on them (enumerations, bounds, list keys) are the decidable schema of Schema,
      with the limits of the CRD in charts/klink on conditions (their patterns are
      regular expressions of Pattern); the JSON field tags and the defaults that the API server fills in are Wire,
      with apimachinery's encodings as the class [MetaJSON].
    - Generated deep copies, [zz_generated.deepcopy.go]: DeepCopy, on a heap with
      pointers and slices; apimachinery's own copies are the class [MetaCopies].
    - The cluster: the Kubernetes API behind controller-runtime's client is not
      part of the repository.  Cluster has the objects klink reads and writes and
      the class [KubeClient W], the client's calls on an arbitrary world [W]; each
      call is recorded with its answer in a trace of [Eff].  What the reconciler
      relies on beyond the calls is the class [ApiServer] of ApiServer with its
      [ApiServerLaws]: reads through a cache that has caught up, status writes that
      store times to the second, finalizers, merge patches, in a cluster that is
      calm, so that no call fails or conflicts.
    - Workload accessors, [workloadAccessor] of workloaddependency_controller.go
      and internal/controller/rollout.go: Workload.  Unstructured objects are
      library code, the class [UnstructuredLib] with its laws.
    - float64 and the ready percentage of [depStatus] and [checkReplicaHealth]:
      GoFloat, on the Standard Library's IEEE 754 [SpecFloat].  What Go leaves to
      the platform is the class [GoPlatform].
    - Health of a dependency, [depStatus] and [isSuspendedByKlink]: Health.
    - Status writes, [setStatus] and [setCondition], with conflict retries: Status.
    - Metrics, internal/controller/metrics.go: Metrics.
    - Notifications, internal/controller/notify.go: Notify.
    - Cycle detection, internal/controller/cycles.go: Cycles.
    - The reconciler, [Reconcile], its handlers, [suspendWorkload] and
      [restoreWorkload]: Reconciler.  Safety, Phases, Requeue, Finalizer, Accounting
      and Lifecycle hold its theorems.  controller-runtime's finalizer helpers are
      the class [ControllerUtil].
    - Watches, the field indexes of [SetupWithManager] and [findWDsForWorkload]:
      Watch.
    - The program, [cmd/main.go]: Flags has the command line and its parsing by the
      flag package; Manager has the options, [SetupWithManager] and [main] as the
      sequence of calls on controller-runtime's manager (class [ManagerLib]).  Wiring
      connects what startup sets up with what the controller later does.
    - Admission, internal/webhook: Admission (requests, responses, JSON values),
      Validator (wd_validator.go), Gate (gate.go).  JSON decoding is the class
      [Codec].
    - Webhook certificates, internal/webhook/tls.go and the certificate holder of
      server.go: Tls.  Cryptography is the class [CryptoLib].
    - The webhook server, internal/webhook/server.go: Server, with [http.ServeMux]
      on its patterns and the goroutines of [Start] as a step relation.  Trust is
      about what both write.

    The instances that show that the interfaces can be implemented, and the
    concrete runs, are in MemHeap (memory), MemCluster (an API server in memory with
    resource versions and a status subresource; no theorem is about it), MemTls
    (certificates), MemWire (codecs and a validating API server), Tenancy (a client
    behind a cache, as an installation of the chart configures it) and Scenarios.

    Go code with effects becomes a computation in the monad [M W E] below: it
    reads and changes the world only through interface calls and extends a trace.
    The pointer to the WorkloadDependency that the handlers mutate is threaded as
    a value.  Strings stay strings, pointers become options, int32 and int64 are
    Z with their wrap-around where arithmetic happens, instants and durations are
    nanoseconds, and [time.Sub] saturates as in Go.  Log lines are left out.

    ** What the theorems show

    - Safety, in every world and so under any failure, race or stale read:
      [Safety.workload_writes_due] (why a workload is ever written),
      [Safety.hands_off_no_write], [Phases.phase_machine] (the state machine of
      the phases, with the evidence each transition needs),
      [Finalizer.deletion_gives_back], [Finalizer.first_admission],
      [Requeue.always_requeued] (no dependency is forgotten),
      [Status.setStatus_outcome], [Status.notify_on_change],
      [Accounting.reconcile_accounts] (every change of a workload is reported, once),
      [Gate.gate_decides], [Gate.gate_http_reply], [Trust.tls_writes_justified].
    - Types: [Schema.reconcile_stays_typed] (no write leaves the schema),
      [Wire.wire_roundtrip] (what storing an object does to it),
      [DeepCopy.DeepCopy_independent] (copies share nothing).
    - The program around the controller: [Flags.flags_roundtrip],
      [Manager.main_startup], [Wiring.startup_covers_controller],
      [Wiring.single_namespace_mode], [Server.server_routes], [Server.server_lifecycle] (all interleavings of
      handshakes, rotation and shutdown).
    - Progress and refinement, against any API server that keeps the laws of
      ApiServer, while it is calm and the cache has caught up:
      [Lifecycle.reconcile_refines] (one reconcile is one step of the abstract
      machine [Lifecycle.astep]), [Lifecycle.full_cycle] (an outage from the
      first sight to the restored scale), [Lifecycle.deletion_completes].
    - Functional correctness of the parts: [Cycles.DetectCycle_decides] (sound,
      complete, terminating), [Health.depStatus_threshold] (the float computation
      against exact arithmetic), [Finalizer.suspend_restore_roundtrip],
      [Watch.findWDs_exact], [Status.setCondition_ready],
      [Validator.wd_webhook_exact], [Gate.gate_agrees_with_reconciler],
      [Notify.sendNotification_bounded], [Status.phase_gauges_follow_status],
      [Tls.EnsureCert_sound], [Tls.caBundle_published].
    - Scenarios applies them to a concrete cluster, and runs the reconciler on
      situations where it departs from its documentation.

    ** Fuel

    The depth-first search of Cycles runs with [dfs_fuel], one more than the
    number of nodes; [detect_loop_total] shows that it never runs out.  The retry
    loops of [setStatus] and [sendNotification] are bounded by the source's own
    constants, three in both.  The certificate rotation loops run forever; their
    models observe any number of rounds, and the steps of Server any run.

    ** What is not modelled

    Scheme registration and the logger setup of main.go, log lines, and what
    belongs to the libraries: the work queue and caches of controller-runtime
    beyond the laws stated, sockets and TLS handshakes, cryptography.  The charts
    and manifests are data.  A webhook configuration is reduced to its name and the
    names and CA bundles of its webhooks.  The length of a condition's message is
    bounded only with that of the status message, which quotes names and errors.

    This file holds the shared ground: errors, machine integers and time, the
    trace monad with its specification [m ⊨ Q] and rules, its automation
    ([emit_auto], [trace_auto], the hint database [emits]), and generic lemmas. *)

From stdpp Require Export base gmap strings list pretty.
From Stdlib Require Export ZArith Lia.

#[export] Set Default Goal Selector "!".
#[export] Set Warnings "-clear-no-such-hyp".
#[global] Open Scope string_scope.
#[global] Open Scope Z_scope.
(* [++] below is list append; strings are concatenated with [+:+]. *)
#[global] Open Scope list_scope.

(** ** Results of fallible calls *)

(** An API error as the source inspects it: [errors.IsNotFound],
    [errors.IsConflict], or anything else. *)
Inductive api_error :=
  | ErrNotFound (what : string)
  | ErrConflict (what : string)
  | ErrOther (what : string).

#[export] Instance api_error_eq_dec : EqDecision api_error.
Proof. solve_decision. Defined.

Definition IsNotFound (e : api_error) : bool :=
  match e with ErrNotFound _ => true | _ => false end.

Definition IsConflict (e : api_error) : bool :=
  match e with ErrConflict _ => true | _ => false end.

(** Go's [(value, error)] pair when the value is only meaningful without error. *)
Inductive result (A : Type) :=
  | Ok (a : A)
  | Err (e : api_error).
Arguments Ok {A} a.
Arguments Err {A} e.

Definition err_of {A} (r : result A) : option api_error :=
  match r with Ok _ => None | Err e => Some e end.

Definition is_ok {A} (r : result A) : bool :=
  match r with Ok _ => true | Err _ => false end.

(** ** Machine integers, durations and instants *)

Definition wrap (w z : Z) : Z := (z + 2 ^ (w - 1)) mod 2 ^ w - 2 ^ (w - 1).
Definition int32 (z : Z) : Z := wrap 32 z.
Definition int64 (z : Z) : Z := wrap 64 z.
Definition in_int32 (z : Z) : Prop := - 2 ^ 31 <= z < 2 ^ 31.
Definition in_int64 (z : Z) : Prop := - 2 ^ 63 <= z < 2 ^ 63.

Lemma wrap_range w z : 0 < w -> - 2 ^ (w - 1) <= wrap w z < 2 ^ (w - 1).
Proof.
  intros Hw. unfold wrap.
  assert (2 ^ w = 2 * 2 ^ (w - 1)) as Hp.
  { rewrite <- Z.pow_succ_r by lia. f_equal. lia. }
  pose proof (Z.mod_pos_bound (z + 2 ^ (w - 1)) (2 ^ w)
    ltac:(apply Z.pow_pos_nonneg; lia)). lia.
Qed.

Lemma wrap_id w z : 0 < w -> - 2 ^ (w - 1) <= z < 2 ^ (w - 1) -> wrap w z = z.
Proof.
  intros Hw Hz. unfold wrap.
  assert (2 ^ w = 2 * 2 ^ (w - 1)) as Hp.
  { rewrite <- Z.pow_succ_r by lia. f_equal. lia. }
  rewrite Z.mod_small by lia. lia.
Qed.

Lemma int32_id z : in_int32 z -> int32 z = z.
Proof. intros H. apply (wrap_id 32); [lia | exact H]. Qed.
Lemma int64_id z : in_int64 z -> int64 z = z.
Proof. intros H. apply (wrap_id 64); [lia | exact H]. Qed.
Lemma int32_range z : in_int32 (int32 z).
Proof. apply (wrap_range 32). lia. Qed.
Lemma int64_range z : in_int64 (int64 z).
Proof. apply (wrap_range 64). lia. Qed.

(** [time.Duration]: an int64 count of nanoseconds. *)
Definition Millisecond : Z := 1000000.
Definition Second : Z := 1000 * Millisecond.
Definition Minute : Z := 60 * Second.
Definition Hour : Z := 60 * Minute.

(** An instant is a count of nanoseconds; [time.Time.Sub], and so [time.Since],
    saturates at the ends of the int64 range. *)
Definition time_sub (t u : Z) : Z := Z.max (- 2 ^ 63) (Z.min (2 ^ 63 - 1) (t - u)).

Lemma time_sub_range t u : in_int64 (time_sub t u).
Proof. unfold time_sub, in_int64. lia. Qed.

Lemma time_sub_ge t u d : in_int64 d -> d <= time_sub t u -> d <= 0 \/ u + d <= t.
Proof. unfold time_sub, in_int64. lia. Qed.

(** ** Effectful code: a state monad that records every interaction

    [Sys W E] pairs the state [W] of the outside world, which only the
    operations of an interface read or change, with the trace of interactions
    made so far.  Go functions with effects become [M W E A]. *)

Record Sys (W E : Type) := MkSys { env : W; out : list E }.
Arguments MkSys {W E} env out.
Arguments env {W E} s.
Arguments out {W E} s.

Definition M (W E A : Type) : Type := Sys W E -> A * Sys W E.

#[export] Instance M_ret W E : MRet (M W E) := fun A a s => (a, s).
#[export] Instance M_bind W E : MBind (M W E) :=
  fun A B k m s => let '(a, s') := m s in k a s'.

(** One interaction: run the world's operation and record what was exchanged. *)
Definition interact {W E A} (ev : A -> E) (f : W -> A * W) : M W E A :=
  fun s => let '(a, w) := f (env s) in (a, MkSys w (out s ++ [ev a])).

(** An output the program does not wait on. *)
Definition emit {W E} (e : E) : M W E unit :=
  fun s => (tt, MkSys (env s) (out s ++ [e])).

(** [for _, x := range l { f(x) }]. *)
Fixpoint for_range {W E A} (l : list A) (f : A -> M W E unit) : M W E unit :=
  match l with
  | [] => mret tt
  | x :: l' => f x ≫= fun _ => for_range l' f
  end.

(** ** Trace specifications

    [m ⊨ Q]: in every world, from every state, [m] extends the trace by some
    [tr] with [Q r tr], where [r] is its result.  The world is arbitrary, so a
    statement of this form holds whatever the cluster answers. *)

Definition tspec {W E A} (m : M W E A) (Q : A -> list E -> Prop) : Prop :=
  forall s, exists tr, out (m s).2 = out s ++ tr /\ Q (m s).1 tr.

Declare Scope klink_scope.
Delimit Scope klink_scope with klink.
#[global] Open Scope klink_scope.

Notation "m ⊨ Q" := (tspec m Q) (at level 75, Q at level 74, no associativity) : klink_scope.

Section TraceRules.
Context {W E : Type}.

Lemma tspec_ret {A} (a : A) (Q : A -> list E -> Prop) :
  Q a [] -> (mret a : M W E A) ⊨ Q.
Proof. intros HQ s. exists []. rewrite app_nil_r. done. Qed.

Lemma tspec_interact {A} (ev : A -> E) (f : W -> A * W) (Q : A -> list E -> Prop) :
  (forall a, Q a [ev a]) -> interact ev f ⊨ Q.
Proof.
  intros HQ s. unfold interact. destruct (f (env s)) as [a w]. by exists [ev a].
Qed.

Lemma tspec_emit (e : E) (Q : unit -> list E -> Prop) :
  Q tt [e] -> (emit e : M W E unit) ⊨ Q.
Proof. intros HQ s. by exists [e]. Qed.

Lemma tspec_bind {A B} (m : M W E A) (k : A -> M W E B)
    (P : A -> list E -> Prop) (Q : B -> list E -> Prop) :
  m ⊨ P ->
  (forall a tr, P a tr -> k a ⊨ fun b tr' => Q b (tr ++ tr')) ->
  (m ≫= k) ⊨ Q.
Proof.
  intros Hm Hk s. unfold mbind, M_bind.
  destruct (Hm s) as (tr & Hout & HP). destruct (m s) as [a s1]; simpl in *.
  destruct (Hk a tr HP s1) as (tr' & Hout' & HQ).
  exists (tr ++ tr'). rewrite Hout', Hout, app_assoc. done.
Qed.

Lemma tspec_mono {A} (m : M W E A) (P Q : A -> list E -> Prop) :
  m ⊨ P -> (forall a tr, P a tr -> Q a tr) -> m ⊨ Q.
Proof. intros Hm HPQ s. destruct (Hm s) as (tr & ? & ?). eauto. Qed.

Lemma tspec_conj {A} (m : M W E A) (P Q : A -> list E -> Prop) :
  m ⊨ P -> m ⊨ Q -> m ⊨ fun a tr => P a tr /\ Q a tr.
Proof.
  intros HP HQ s. destruct (HP s) as (tr & Ho & ?), (HQ s) as (tr' & Ho' & ?).
  rewrite Ho in Ho'. apply app_inv_head in Ho' as <-. eauto.
Qed.

Lemma tspec_bind_ret {A B} (a : A) (k : A -> M W E B) (Q : B -> list E -> Prop) :
  k a ⊨ Q -> ((mret a : M W E A) ≫= k) ⊨ Q.
Proof. done. Qed.

Lemma tspec_bind_interact {A B} (ev : A -> E) (f : W -> A * W) (k : A -> M W E B)
    (Q : B -> list E -> Prop) :
  (forall a, k a ⊨ fun b tr => Q b (ev a :: tr)) -> (interact ev f ≫= k) ⊨ Q.
Proof.
  intros Hk. eapply tspec_bind; [by apply tspec_interact with (Q := fun a tr => tr = [ev a])|].
  intros a tr ->. apply Hk.
Qed.

(** The same when laws constrain the answers of the operation. *)
Lemma tspec_bind_interact_from {A B} (ev : A -> E) (f : W -> A * W) (k : A -> M W E B)
    (Q : B -> list E -> Prop) :
  (forall a, (exists w, (f w).1 = a) -> k a ⊨ fun b tr => Q b (ev a :: tr)) ->
  (interact ev f ≫= k) ⊨ Q.
Proof.
  intros Hk s. unfold mbind, M_bind, interact. destruct (f (env s)) as [a w] eqn:Hf.
  destruct (Hk a (ex_intro _ (env s) (f_equal fst Hf)) (MkSys w (out s ++ [ev a])))
    as (tr & Ho & HQ).
  exists (ev a :: tr). simpl in Ho. rewrite Ho, <- app_assoc. done.
Qed.

Lemma tspec_bind_emit {B} (e : E) (k : unit -> M W E B) (Q : B -> list E -> Prop) :
  k tt ⊨ (fun b tr => Q b (e :: tr)) -> ((emit e : M W E unit) ≫= k) ⊨ Q.
Proof.
  intros Hk. eapply tspec_bind; [by apply tspec_emit with (Q := fun _ tr => tr = [e])|].
  intros [] tr ->. apply Hk.
Qed.

Lemma tspec_bind_assoc {A B C} (m : M W E A) (f : A -> M W E B) (g : B -> M W E C)
    (Q : C -> list E -> Prop) :
  (m ≫= (fun a => f a ≫= g)) ⊨ Q -> ((m ≫= f) ≫= g) ⊨ Q.
Proof.
  intros H s. specialize (H s). unfold mbind, M_bind in *.
  destruct (m s) as [a s1]. done.
Qed.
End TraceRules.

(** What a computation emits, when only the set of its interactions matters. *)
Definition emits {W E A} (P : E -> Prop) (m : M W E A) : Prop :=
  m ⊨ fun _ tr => Forall P tr.

Section EmitRules.
Context {W E : Type}.

Lemma emits_ret {A} (P : E -> Prop) (a : A) : emits P (mret a : M W E A).
Proof. by apply tspec_ret. Qed.

Lemma emits_interact {A} (P : E -> Prop) (ev : A -> E) (f : W -> A * W) :
  (forall a, P (ev a)) -> emits P (interact ev f).
Proof. intros HP. apply tspec_interact. intros a. by repeat constructor. Qed.

Lemma emits_emit (P : E -> Prop) (e : E) : P e -> emits P (emit e : M W E unit).
Proof. intros HP. apply tspec_emit. by repeat constructor. Qed.

Lemma emits_bind {A B} (P : E -> Prop) (m : M W E A) (k : A -> M W E B) :
  emits P m -> (forall a, emits P (k a)) -> emits P (m ≫= k).
Proof.
  intros Hm Hk. eapply tspec_bind; [exact Hm|]. intros a tr Htr.
  eapply tspec_mono; [apply Hk|]. intros b tr' Htr'. by apply Forall_app_2.
Qed.

Lemma emits_mono {A} (P Q : E -> Prop) (m : M W E A) :
  emits P m -> (forall e, P e -> Q e) -> emits Q m.
Proof.
  intros Hm HPQ. eapply tspec_mono; [exact Hm|].
  intros a tr Htr. simpl in *. eapply List.Forall_impl; eauto.
Qed.

Lemma emits_for_range {A} (P : E -> Prop) (l : list A) (f : A -> M W E unit) :
  (forall x, x ∈ l -> emits P (f x)) -> emits P (for_range l f).
Proof.
  induction l as [|x l IH]; intros Hf; simpl; [apply emits_ret|].
  apply emits_bind; [apply Hf; left | intros _; apply IH; intros; apply Hf; by right].
Qed.

(** Emission bounds combine with any other trace specification. *)
Lemma tspec_bind_emits {A B} (P : E -> Prop) (m : M W E A) (k : A -> M W E B)
    (Q : B -> list E -> Prop) :
  emits P m ->
  (forall a tr, Forall P tr -> k a ⊨ fun b tr' => Q b (tr ++ tr')) ->
  (m ≫= k) ⊨ Q.
Proof. intros Hm Hk. eapply tspec_bind; [exact Hm|]. eauto. Qed.
End EmitRules.

Create HintDb emits.
#[export] Hint Resolve emits_ret emits_emit emits_interact emits_bind : emits.

(** Case split on the innermost scrutinee of the program under analysis. *)
Ltac prog_case :=
  match goal with
  | |- context [match ?x with _ => _ end] =>
      lazymatch x with
      | context [match _ with _ => _ end] => fail
      | _ => destruct x eqn:?
      end
  end.

(** Symbolic execution of an emission goal: binds, branches, primitive steps. *)
Ltac emit_step :=
  lazymatch goal with
  | |- emits _ (mret _) => apply emits_ret
  | |- emits _ (emit _) => apply emits_emit
  | |- emits _ (interact _ _) => apply emits_interact; intros ?
  | |- emits _ (_ ≫= _) => apply emits_bind; [| intros ?]
  | |- emits _ (let '(_, _) := ?p in _) => destruct p eqn:?
  | |- emits _ (match ?x with _ => _ end) => destruct x eqn:?
  | |- emits _ ((match ?x with _ => _ end) _) => destruct x eqn:?
  | |- emits _ _ => solve [eauto with emits]
  end.
Ltac emit_auto := repeat (emit_step; simpl).

(** Symbolic execution of a trace specification down to the first call that has
    its own specification. *)
Ltac trace_step :=
  lazymatch goal with
  | |- (mret _) ⊨ _ => apply tspec_ret
  | |- (emit _) ⊨ _ => apply tspec_emit
  | |- (interact _ _) ⊨ _ => apply tspec_interact; intros ?
  | |- (mret _ ≫= _) ⊨ _ => apply tspec_bind_ret
  | |- (emit _ ≫= _) ⊨ _ => apply tspec_bind_emit
  | |- (interact _ _ ≫= _) ⊨ _ => apply tspec_bind_interact; intros ?
  | |- ((_ ≫= _) ≫= _) ⊨ _ => apply tspec_bind_assoc
  | |- (let '(_, _) := ?p in _) ⊨ _ => destruct p eqn:?
  | |- (match ?x with _ => _ end) ⊨ _ => destruct x eqn:?
  | |- ((match ?x with _ => _ end) ≫= _) ⊨ _ => destruct x eqn:?
  end.
Ltac trace_auto := repeat (trace_step; simpl).

(** ** Strings *)

(** [fmt]'s %d verb. *)
Definition fmt_d (z : Z) : string := pretty z.

(** [strings.Join]. *)
Fixpoint strings_Join (l : list string) (sep : string) : string :=
  match l with
  | [] => ""
  | [x] => x
  | x :: l' => x +:+ sep +:+ strings_Join l' sep
  end.

(** A namespace field left empty means the default one. *)
Definition ns_or (ns default : string) : string :=
  if decide (ns = "") then default else ns.

Lemma ns_or_empty d : ns_or "" d = d.
Proof. done. Qed.
Lemma ns_or_set ns d : ns <> "" -> ns_or ns d = ns.
Proof. intros. unfold ns_or. by rewrite decide_False. Qed.

(** ** Generic list lemmas *)

Lemma elem_of_snoc {A} (l : list A) x y : x ∈ l ++ [y] <-> x ∈ l \/ x = y.
Proof. rewrite elem_of_app, list_elem_of_singleton. done. Qed.

Lemma Forall_not_elem {A} (P : A -> Prop) (l : list A) x :
  Forall P l -> ~ P x -> x ∉ l.
Proof. rewrite Forall_forall. naive_solver. Qed.

Lemma forallb_pointwise {A} (f g : A -> bool) l : (forall x, f x = g x) -> forallb f l = forallb g l.
Proof. intros Hfg. induction l as [|x l IH]; simpl; [done|]. by rewrite Hfg, IH. Qed.
