(* ===== verification/Types.v ===== *)
(** * The WorkloadDependency API types

    [api/v1alpha1/workloaddependency_types.go], with the parts of the
    Kubernetes metadata that klink reads or writes.  Go string types stay
    strings (a zero value is the empty string, and nothing but the API server's
    schema keeps other strings out), pointers become options, [metav1.Time] an
    instant in nanoseconds and [metav1.Duration] an int64 of nanoseconds. *)

From S2P Require Import Prelude.

(** ** Metadata *)

Record NamespacedName := mkNN { nn_Namespace : string; nn_Name : string }.

#[export] Instance NamespacedName_eq_dec : EqDecision NamespacedName.
Proof. solve_decision. Defined.

#[export] Instance NamespacedName_countable : Countable NamespacedName.
Proof.
  refine (inj_countable' (fun k => (nn_Namespace k, nn_Name k))
    (fun p => mkNN p.1 p.2) _). by intros [].
Defined.

Record ObjectMeta := mkMeta {
  om_Name : string;
  om_Namespace : string;
  om_ResourceVersion : string;
  om_Generation : Z;
  om_DeletionTimestamp : option Z;
  om_Annotations : gmap string string;
  om_Finalizers : list string
}.

#[export] Instance ObjectMeta_eq_dec : EqDecision ObjectMeta.
Proof. solve_decision. Defined.

(** [metav1.Condition]. *)
Record Condition := mkCondition {
  c_Type : string;
  c_Status : string;
  c_Reason : string;
  c_Message : string;
  c_LastTransitionTime : Z;
  c_ObservedGeneration : Z
}.

#[export] Instance Condition_eq_dec : EqDecision Condition.
Proof. solve_decision. Defined.

(** ** Spec *)

Record WorkloadRef := mkRef {
  ref_Kind : string;
  ref_Name : string;
  ref_Namespace : string
}.

Record HealthCondition := mkHealthCondition {
  MinReadyPercent : Z;
  Window : Z;
  RecoveryWindow : Z
}.

Record DependsOnEntry := mkDependsOn {
  dep_Kind : string;
  dep_Name : string;
  dep_Namespace : string;
  dep_Condition : HealthCondition
}.

Abbreviation DegradedAction := string (only parsing).
Definition ActionScaleToZero : DegradedAction := "ScaleToZero".

Record OnDegradedSpec := mkOnDegraded {
  Action : DegradedAction;
  MaxSuspendDuration : Z
}.

Abbreviation EnforcementMode := string (only parsing).
Definition ModeStrict : EnforcementMode := "strict".
Definition ModeSoft : EnforcementMode := "soft".
Definition ModeGate : EnforcementMode := "gate".
Definition ModeObserve : EnforcementMode := "observe".

Definition AnnotationPaused : string := "klink.dev/paused".
Definition FinalizerName : string := "klink.dev/finalizer".

Abbreviation DependencyPhase := string (only parsing).
Definition PhaseHealthy : DependencyPhase := "Healthy".
Definition PhaseDegraded : DependencyPhase := "Degraded".
Definition PhaseSuspended : DependencyPhase := "Suspended".
Definition PhaseReleased : DependencyPhase := "Released".
Definition PhasePaused : DependencyPhase := "Paused".
Definition PhaseObserved : DependencyPhase := "Observed".
Definition PhaseUnknown : DependencyPhase := "Unknown".

Record SecretKeyRef := mkSecretKeyRef { sk_Name : string; sk_Key : string }.

Record NotifySpec := mkNotify {
  Webhook : string;
  WebhookSecretRef : option SecretKeyRef;
  OnPhases : list DependencyPhase
}.

Record WorkloadDependencySpec := mkSpec {
  Dependent : WorkloadRef;
  DependsOn : list DependsOnEntry;
  OnDegraded : OnDegradedSpec;
  Mode : EnforcementMode;
  Notify : option NotifySpec
}.

(** ** Status *)

Record WorkloadDependencyStatus := mkStatus {
  Phase : DependencyPhase;
  SavedReplicas : option Z;
  DegradedSince : option Z;
  SuspendedAt : option Z;
  HealthySince : option Z;
  Message : string;
  Conditions : list Condition
}.

Record WorkloadDependency := mkWD {
  wd_Meta : ObjectMeta;
  wd_Spec : WorkloadDependencySpec;
  wd_Status : WorkloadDependencyStatus
}.

#[export] Instance WorkloadRef_eq_dec : EqDecision WorkloadRef.
Proof. solve_decision. Defined.
#[export] Instance HealthCondition_eq_dec : EqDecision HealthCondition.
Proof. solve_decision. Defined.
#[export] Instance DependsOnEntry_eq_dec : EqDecision DependsOnEntry.
Proof. solve_decision. Defined.
#[export] Instance OnDegradedSpec_eq_dec : EqDecision OnDegradedSpec.
Proof. solve_decision. Defined.
#[export] Instance SecretKeyRef_eq_dec : EqDecision SecretKeyRef.
Proof. solve_decision. Defined.
#[export] Instance NotifySpec_eq_dec : EqDecision NotifySpec.
Proof. solve_decision. Defined.
#[export] Instance WorkloadDependencySpec_eq_dec : EqDecision WorkloadDependencySpec.
Proof. solve_decision. Defined.
#[export] Instance WorkloadDependencyStatus_eq_dec : EqDecision WorkloadDependencyStatus.
Proof. solve_decision. Defined.
#[export] Instance WorkloadDependency_eq_dec : EqDecision WorkloadDependency.
Proof. solve_decision. Defined.

(** ** Field access and assignment

    [wd.Status.F = v] on the object behind the pointer. *)

Definition wd_Name (wd : WorkloadDependency) : string := om_Name (wd_Meta wd).
Definition wd_Namespace (wd : WorkloadDependency) : string := om_Namespace (wd_Meta wd).
Definition wd_key (wd : WorkloadDependency) : NamespacedName :=
  mkNN (wd_Namespace wd) (wd_Name wd).

Definition with_Status (wd : WorkloadDependency) (st : WorkloadDependencyStatus) :=
  mkWD (wd_Meta wd) (wd_Spec wd) st.
Definition with_Finalizers (wd : WorkloadDependency) (fs : list string) :=
  let m := wd_Meta wd in
  mkWD (mkMeta (om_Name m) (om_Namespace m) (om_ResourceVersion m) (om_Generation m)
          (om_DeletionTimestamp m) (om_Annotations m) fs) (wd_Spec wd) (wd_Status wd).

Definition set_Phase (p : DependencyPhase) (st : WorkloadDependencyStatus) :=
  mkStatus p (SavedReplicas st) (DegradedSince st) (SuspendedAt st) (HealthySince st)
    (Message st) (Conditions st).
Definition set_SavedReplicas (v : option Z) (st : WorkloadDependencyStatus) :=
  mkStatus (Phase st) v (DegradedSince st) (SuspendedAt st) (HealthySince st)
    (Message st) (Conditions st).
Definition set_DegradedSince (v : option Z) (st : WorkloadDependencyStatus) :=
  mkStatus (Phase st) (SavedReplicas st) v (SuspendedAt st) (HealthySince st)
    (Message st) (Conditions st).
Definition set_SuspendedAt (v : option Z) (st : WorkloadDependencyStatus) :=
  mkStatus (Phase st) (SavedReplicas st) (DegradedSince st) v (HealthySince st)
    (Message st) (Conditions st).
Definition set_HealthySince (v : option Z) (st : WorkloadDependencyStatus) :=
  mkStatus (Phase st) (SavedReplicas st) (DegradedSince st) (SuspendedAt st) v
    (Message st) (Conditions st).
Definition set_Message (m : string) (st : WorkloadDependencyStatus) :=
  mkStatus (Phase st) (SavedReplicas st) (DegradedSince st) (SuspendedAt st)
    (HealthySince st) m (Conditions st).
Definition set_Conditions (cs : list Condition) (st : WorkloadDependencyStatus) :=
  mkStatus (Phase st) (SavedReplicas st) (DegradedSince st) (SuspendedAt st)
    (HealthySince st) (Message st) cs.

Definition upd_Status (f : WorkloadDependencyStatus -> WorkloadDependencyStatus)
    (wd : WorkloadDependency) : WorkloadDependency :=
  with_Status wd (f (wd_Status wd)).

(** The namespace a reference of [wd] points into. *)
Definition dependent_ns (wd : WorkloadDependency) : string :=
  ns_or (ref_Namespace (Dependent (wd_Spec wd))) (wd_Namespace wd).
Definition dep_ns (wd : WorkloadDependency) (d : DependsOnEntry) : string :=
  ns_or (dep_Namespace d) (wd_Namespace wd).

(** ** What storage keeps of a status

    [metav1.Time] is written to the second. *)

Definition trunc (t : Z) : Z := t / Second * Second.

Definition normal_Cond (c : Condition) : Condition :=
  mkCondition (c_Type c) (c_Status c) (c_Reason c) (c_Message c) (trunc (c_LastTransitionTime c)) (c_ObservedGeneration c).
Definition normal_Status (st : WorkloadDependencyStatus) : WorkloadDependencyStatus :=
  mkStatus (Phase st) (SavedReplicas st) (trunc <$> DegradedSince st) (trunc <$> SuspendedAt st)
    (trunc <$> HealthySince st) (Message st) (normal_Cond <$> Conditions st).

Lemma trunc_idem t : trunc (trunc t) = trunc t.
Proof. unfold trunc. by rewrite Z.div_mul. Qed.

Lemma trunc_fmap_idem (o : option Z) : trunc <$> (trunc <$> o) = trunc <$> o.
Proof. destruct o; simpl; by rewrite ?trunc_idem. Qed.

Lemma fmap_idem {A} (f : A -> A) (l : list A) : (forall x, f (f x) = f x) -> f <$> (f <$> l) = f <$> l.
Proof. intros Hf. induction l as [|x l IH]; [done|]. cbn. by rewrite Hf, IH. Qed.

Lemma trunc_le t : trunc t <= t.
Proof. unfold trunc. rewrite Z.mul_comm. by apply Z.mul_div_le. Qed.

Lemma normal_Status_idem st : normal_Status (normal_Status st) = normal_Status st.
Proof.
  unfold normal_Status. cbn. rewrite !trunc_fmap_idem, fmap_idem; [done|].
  intros c. unfold normal_Cond. cbn. by rewrite trunc_idem.
Qed.
