(* ===== verification/DeepCopy.v ===== *)
(** * Deep copies (api/v1alpha1/zz_generated.deepcopy.go)

    Go structs share memory through pointers, slices and maps; controller-runtime
    hands out objects of a shared cache, and only the generated deep copies keep a
    reconcile from changing what others read.  Here the memory is explicit: a heap
    of typed cells, structs that hold pointers and slices into it, and the
    generated functions, statement by statement.  A [DeepCopyInto(in, out)] is a
    function from the struct at [in] to the struct it leaves at [out].

    [load] reads a struct with all it points to as the value of Types that the
    rest of the development uses, [locs] lists the cells it owns. *)

From S2P Require Import Prelude Types.

(** ** Memory *)

Definition loc := positive.

(** [*T] and [[]T]; a slice is a window of a backing array. *)
Inductive ptr (T : Type) := NilPtr | Ptr (l : loc).
Arguments NilPtr {T}.
Arguments Ptr {T} l.
Inductive slice (T : Type) := NilSlice | Slice (arr : loc) (off len : nat).
Arguments NilSlice {T}.
Arguments Slice {T} arr off len.

(** [metav1.Time], [metav1.TypeMeta]. *)
Record Time := mkTime { time_ns : Z }.
Record TypeMeta := mkTypeMeta { tm_Kind : string; tm_APIVersion : string }.

(** The metadata structs of apimachinery are library code: their memory layout
    is abstract. *)
Class MetaLayout := {
  gObjectMeta : Type;
  gListMeta : Type;
  ListMeta : Type;
  MetaCell : Type;
  zero_ObjectMeta : gObjectMeta;
  zero_ListMeta : gListMeta
}.

(** ** The structs as they lie in memory *)

Record gNotifySpec := mkgNotify {
  gn_Webhook : string;
  gn_WebhookSecretRef : ptr SecretKeyRef;
  gn_OnPhases : slice string
}.

Record gSpec := mkgSpec {
  gs_Dependent : WorkloadRef;
  gs_DependsOn : slice DependsOnEntry;
  gs_OnDegraded : OnDegradedSpec;
  gs_Mode : string;
  gs_Notify : ptr gNotifySpec
}.

Record gStatus := mkgStatus {
  gt_Phase : string;
  gt_SavedReplicas : ptr Z;
  gt_DegradedSince : ptr Time;
  gt_SuspendedAt : ptr Time;
  gt_HealthySince : ptr Time;
  gt_Message : string;
  gt_Conditions : slice Condition
}.

Record gWorkloadDependency `{MetaLayout} := mkgWD {
  gw_TypeMeta : TypeMeta;
  gw_ObjectMeta : gObjectMeta;
  gw_Spec : gSpec;
  gw_Status : gStatus
}.

Record gWorkloadDependencyList `{MetaLayout} := mkgWDList {
  gl_TypeMeta : TypeMeta;
  gl_ListMeta : gListMeta;
  gl_Items : slice gWorkloadDependency
}.

Arguments mkgWD {_} _ _ _ _.
Arguments mkgWDList {_} _ _ _.

(** Zero values. *)
Definition zero_Ref : WorkloadRef := mkRef "" "" "".
Definition zero_Health : HealthCondition := mkHealthCondition 0 0 0.
Definition zero_Entry : DependsOnEntry := mkDependsOn "" "" "" zero_Health.
Definition zero_OnDegraded : OnDegradedSpec := mkOnDegraded "" 0.
Definition zero_Condition : Condition := mkCondition "" "" "" "" 0 0.
Definition zero_gNotify : gNotifySpec := mkgNotify "" NilPtr NilSlice.
Definition zero_gSpec : gSpec := mkgSpec zero_Ref NilSlice zero_OnDegraded "" NilPtr.
Definition zero_gStatus : gStatus := mkgStatus "" NilPtr NilPtr NilPtr NilPtr "" NilSlice.
Definition zero_gWD `{MetaLayout} : gWorkloadDependency :=
  mkgWD (mkTypeMeta "" "") zero_ObjectMeta zero_gSpec zero_gStatus.
Definition zero_gWDList `{MetaLayout} : gWorkloadDependencyList :=
  mkgWDList (mkTypeMeta "" "") zero_ListMeta NilSlice.

(** A cell holds a variable of one type, or the backing array of a slice. *)
Inductive cell `{MetaLayout} :=
  | CInt32 (z : Z)
  | CTime (t : Time)
  | CSecretKeyRef (r : SecretKeyRef)
  | CWorkloadRef (r : WorkloadRef)
  | CHealth (c : HealthCondition)
  | CEntry (d : DependsOnEntry)
  | COnDegraded (o : OnDegradedSpec)
  | CNotify (n : gNotifySpec)
  | CSpec (s : gSpec)
  | CStatus (s : gStatus)
  | CWD (wd : gWorkloadDependency)
  | CWDList (l : gWorkloadDependencyList)
  | CPhases (l : list string)
  | CEntries (l : list DependsOnEntry)
  | CConditions (l : list Condition)
  | CWDs (l : list gWorkloadDependency)
  | CMeta (m : MetaCell).

Abbreviation heap := (gmap loc cell).

(** The types that have cells. *)
Class Stored `{MetaLayout} (T : Type) := {
  to_cell : T -> cell;
  of_cell : cell -> option T;
  of_to_cell x : of_cell (to_cell x) = Some x
}.

Section Cells.
Context `{ML : MetaLayout}.
#[local] Obligation Tactic := done.

#[export] Program Instance stored_int32 : Stored Z :=
  { to_cell := CInt32; of_cell c := match c with CInt32 z => Some z | _ => None end }.
#[export] Program Instance stored_time : Stored Time :=
  { to_cell := CTime; of_cell c := match c with CTime z => Some z | _ => None end }.
#[export] Program Instance stored_secretref : Stored SecretKeyRef :=
  { to_cell := CSecretKeyRef; of_cell c := match c with CSecretKeyRef z => Some z | _ => None end }.
#[export] Program Instance stored_ref : Stored WorkloadRef :=
  { to_cell := CWorkloadRef; of_cell c := match c with CWorkloadRef z => Some z | _ => None end }.
#[export] Program Instance stored_health : Stored HealthCondition :=
  { to_cell := CHealth; of_cell c := match c with CHealth z => Some z | _ => None end }.
#[export] Program Instance stored_entry : Stored DependsOnEntry :=
  { to_cell := CEntry; of_cell c := match c with CEntry z => Some z | _ => None end }.
#[export] Program Instance stored_ondegraded : Stored OnDegradedSpec :=
  { to_cell := COnDegraded; of_cell c := match c with COnDegraded z => Some z | _ => None end }.
#[export] Program Instance stored_notify : Stored gNotifySpec :=
  { to_cell := CNotify; of_cell c := match c with CNotify z => Some z | _ => None end }.
#[export] Program Instance stored_spec : Stored gSpec :=
  { to_cell := CSpec; of_cell c := match c with CSpec z => Some z | _ => None end }.
#[export] Program Instance stored_status : Stored gStatus :=
  { to_cell := CStatus; of_cell c := match c with CStatus z => Some z | _ => None end }.
#[export] Program Instance stored_wd : Stored gWorkloadDependency :=
  { to_cell := CWD; of_cell c := match c with CWD z => Some z | _ => None end }.
#[export] Program Instance stored_wdlist : Stored gWorkloadDependencyList :=
  { to_cell := CWDList; of_cell c := match c with CWDList z => Some z | _ => None end }.
#[export] Program Instance stored_phases : Stored (list string) :=
  { to_cell := CPhases; of_cell c := match c with CPhases z => Some z | _ => None end }.
#[export] Program Instance stored_entries : Stored (list DependsOnEntry) :=
  { to_cell := CEntries; of_cell c := match c with CEntries z => Some z | _ => None end }.
#[export] Program Instance stored_conditions : Stored (list Condition) :=
  { to_cell := CConditions; of_cell c := match c with CConditions z => Some z | _ => None end }.
#[export] Program Instance stored_wds : Stored (list gWorkloadDependency) :=
  { to_cell := CWDs; of_cell c := match c with CWDs z => Some z | _ => None end }.
End Cells.

(** ** Programs on the heap: [None] is a panic *)

Definition HM `{MetaLayout} (A : Type) : Type := heap -> option (A * heap).

#[export] Instance HM_ret `{MetaLayout} : MRet HM := fun A a h => Some (a, h).
#[export] Instance HM_bind `{MetaLayout} : MBind HM :=
  fun A B k m h => match m h with Some (a, h') => k a h' | None => None end.

Section Memory.
Context `{ML : MetaLayout}.

Definition new {T} `{!Stored T} (zero : T) : HM loc := fun h =>
  let l := fresh (dom h) in Some (l, <[l := to_cell zero]> h).
Definition deref {T} `{!Stored T} (l : loc) : HM T := fun h =>
  match h !! l ≫= of_cell with Some x => Some (x, h) | None => None end.
Definition assign {T} `{!Stored T} (l : loc) (x : T) : HM unit := fun h =>
  match h !! l with Some _ => Some (tt, <[l := to_cell x]> h) | None => None end.

(** The elements of a slice; a window that leaves its array does not exist. *)
Definition elements_of {T} `{!Stored (list T)} (h : heap) (s : slice T) : option (list T) :=
  match s with
  | NilSlice => Some []
  | Slice arr off len =>
      l ← h !! arr ≫= of_cell;
      if decide (off + len <= length l)%nat then Some (take len (drop off l)) else None
  end.

(** [in[i]] and [out[i] = x] on a fresh array. *)
Definition index {T} `{!Stored (list T)} (s : slice T) (i : nat) : HM T := fun h =>
  match elements_of h s ≫= (.!! i) with Some x => Some (x, h) | None => None end.
Definition set_index {T} `{!Stored (list T)} (arr : loc) (i : nat) (x : T) : HM unit :=
  l ← deref arr;
  if decide (i < length l)%nat then assign arr (<[i := x]> l) else fun _ => None.

(** [copy(out, in)]. *)
Definition copy {T} `{!Stored (list T)} (arr : loc) (s : slice T) : HM unit := fun h =>
  match elements_of h s with
  | Some l => assign arr l h
  | None => None
  end.

Fixpoint range_loop {T} `{!Stored (list T)} (into : T -> HM T) (s : slice T) (arr : loc)
    (idxs : list nat) : HM unit :=
  match idxs with
  | [] => mret tt
  | i :: idxs' =>
      x ← index s i;
      y ← into x;
      _ ← set_index arr i y;
      range_loop into s arr idxs'
  end.
End Memory.

(** apimachinery's own copies. *)
Class MetaCopies `{MetaLayout} := {
  ObjectMeta_DeepCopyInto : gObjectMeta -> HM gObjectMeta;
  ListMeta_DeepCopyInto : gListMeta -> HM gListMeta;
  Time_DeepCopy : ptr Time -> HM (ptr Time);
  Condition_DeepCopyInto : Condition -> HM Condition
}.

(** ** The generated functions *)

Section Generated.
Context `{MC : MetaCopies}.

(** [if in.F != nil { *out = new(T); **out = **in }] *)
Definition copy_pointer {T} `{!Stored T} (zero : T) (p : ptr T) : HM (ptr T) :=
  match p with
  | NilPtr => mret NilPtr
  | Ptr l =>
      q ← new zero;
      x ← deref l;
      _ ← assign q (x : T);
      mret (Ptr q)
  end.

(** [if in.F != nil { *out = make([]T, len(in)); copy(out, in) }] *)
Definition copy_slice {T} `{!Stored (list T)} (zero : T) (s : slice T) : HM (slice T) :=
  match s with
  | NilSlice => mret NilSlice
  | Slice arr off len =>
      q ← new (replicate len zero);
      _ ← copy q s;
      mret (Slice q 0 len)
  end.

(** [if in.F != nil { *out = make([]T, len(in)); for i := range *in {
    in[i].DeepCopyInto(&out[i]) } }] *)
Definition copy_elements {T} `{!Stored (list T)} (zero : T) (into : T -> HM T) (s : slice T)
    : HM (slice T) :=
  match s with
  | NilSlice => mret NilSlice
  | Slice arr off len =>
      q ← new (replicate len zero);
      _ ← range_loop into s q (seq 0 len);
      mret (Slice q 0 len)
  end.

(** [if in == nil { return nil }; out := new(T); in.DeepCopyInto(out); return out] *)
Definition deep_copy {T} `{!Stored T} (zero : T) (into : T -> HM T) (p : ptr T) : HM (ptr T) :=
  match p with
  | NilPtr => mret NilPtr
  | Ptr l =>
      q ← new zero;
      x ← deref l;
      y ← into (x : T);
      _ ← assign q y;
      mret (Ptr q)
  end.

Definition HealthCondition_DeepCopyInto (x : HealthCondition) : HM HealthCondition :=
  mret (mkHealthCondition (MinReadyPercent x) (Window x) (RecoveryWindow x)).
Definition HealthCondition_DeepCopy : ptr HealthCondition -> HM (ptr HealthCondition) :=
  deep_copy zero_Health HealthCondition_DeepCopyInto.

Definition DependsOnEntry_DeepCopyInto (x : DependsOnEntry) : HM DependsOnEntry :=
  mret (mkDependsOn (dep_Kind x) (dep_Name x) (dep_Namespace x) (dep_Condition x)).
Definition DependsOnEntry_DeepCopy : ptr DependsOnEntry -> HM (ptr DependsOnEntry) :=
  deep_copy zero_Entry DependsOnEntry_DeepCopyInto.

Definition OnDegradedSpec_DeepCopyInto (x : OnDegradedSpec) : HM OnDegradedSpec :=
  mret (mkOnDegraded (Action x) (MaxSuspendDuration x)).
Definition OnDegradedSpec_DeepCopy : ptr OnDegradedSpec -> HM (ptr OnDegradedSpec) :=
  deep_copy zero_OnDegraded OnDegradedSpec_DeepCopyInto.

Definition SecretKeyRef_DeepCopyInto (x : SecretKeyRef) : HM SecretKeyRef := mret x.
Definition SecretKeyRef_DeepCopy : ptr SecretKeyRef -> HM (ptr SecretKeyRef) :=
  deep_copy (mkSecretKeyRef "" "") SecretKeyRef_DeepCopyInto.

Definition WorkloadRef_DeepCopyInto (x : WorkloadRef) : HM WorkloadRef := mret x.
Definition WorkloadRef_DeepCopy : ptr WorkloadRef -> HM (ptr WorkloadRef) :=
  deep_copy zero_Ref WorkloadRef_DeepCopyInto.

Definition NotifySpec_DeepCopyInto (x : gNotifySpec) : HM gNotifySpec :=
  ref ← copy_pointer (mkSecretKeyRef "" "") (gn_WebhookSecretRef x);
  phases ← copy_slice "" (gn_OnPhases x);
  mret (mkgNotify (gn_Webhook x) ref phases).
Definition NotifySpec_DeepCopy : ptr gNotifySpec -> HM (ptr gNotifySpec) :=
  deep_copy zero_gNotify NotifySpec_DeepCopyInto.

Definition WorkloadDependencySpec_DeepCopyInto (x : gSpec) : HM gSpec :=
  deps ← copy_slice zero_Entry (gs_DependsOn x);
  notify ← deep_copy zero_gNotify NotifySpec_DeepCopyInto (gs_Notify x);
  mret (mkgSpec (gs_Dependent x) deps (gs_OnDegraded x) (gs_Mode x) notify).
Definition WorkloadDependencySpec_DeepCopy : ptr gSpec -> HM (ptr gSpec) :=
  deep_copy zero_gSpec WorkloadDependencySpec_DeepCopyInto.

(** [if in.F != nil { *out = ( *in).DeepCopy() }]: [Time]'s copy of nil is nil. *)
Definition copy_time (p : ptr Time) : HM (ptr Time) :=
  match p with
  | NilPtr => mret NilPtr
  | Ptr _ => Time_DeepCopy p
  end.

Definition WorkloadDependencyStatus_DeepCopyInto (x : gStatus) : HM gStatus :=
  saved ← copy_pointer 0 (gt_SavedReplicas x);
  degraded ← copy_time (gt_DegradedSince x);
  suspended ← copy_time (gt_SuspendedAt x);
  healthy ← copy_time (gt_HealthySince x);
  conds ← copy_elements zero_Condition Condition_DeepCopyInto (gt_Conditions x);
  mret (mkgStatus (gt_Phase x) saved degraded suspended healthy (gt_Message x) conds).
Definition WorkloadDependencyStatus_DeepCopy : ptr gStatus -> HM (ptr gStatus) :=
  deep_copy zero_gStatus WorkloadDependencyStatus_DeepCopyInto.

Definition WorkloadDependency_DeepCopyInto (x : gWorkloadDependency) : HM gWorkloadDependency :=
  meta ← ObjectMeta_DeepCopyInto (gw_ObjectMeta x);
  spec ← WorkloadDependencySpec_DeepCopyInto (gw_Spec x);
  status ← WorkloadDependencyStatus_DeepCopyInto (gw_Status x);
  mret (mkgWD (gw_TypeMeta x) meta spec status).
Definition WorkloadDependency_DeepCopy : ptr gWorkloadDependency -> HM (ptr gWorkloadDependency) :=
  deep_copy zero_gWD WorkloadDependency_DeepCopyInto.

Definition WorkloadDependencyList_DeepCopyInto (x : gWorkloadDependencyList)
    : HM gWorkloadDependencyList :=
  meta ← ListMeta_DeepCopyInto (gl_ListMeta x);
  items ← copy_elements zero_gWD WorkloadDependency_DeepCopyInto (gl_Items x);
  mret (mkgWDList (gl_TypeMeta x) meta items).
Definition WorkloadDependencyList_DeepCopy
    : ptr gWorkloadDependencyList -> HM (ptr gWorkloadDependencyList) :=
  deep_copy zero_gWDList WorkloadDependencyList_DeepCopyInto.

(** [runtime.Object], an interface: nil, or one of the registered types. *)
Inductive Object := NilObject | WDObject (l : loc) | WDListObject (l : loc).

Definition WorkloadDependency_DeepCopyObject (p : ptr gWorkloadDependency) : HM Object :=
  c ← WorkloadDependency_DeepCopy p;
  mret (match c with Ptr l => WDObject l | NilPtr => NilObject end).
Definition WorkloadDependencyList_DeepCopyObject (p : ptr gWorkloadDependencyList) : HM Object :=
  c ← WorkloadDependencyList_DeepCopy p;
  mret (match c with Ptr l => WDListObject l | NilPtr => NilObject end).
End Generated.

(** ** What a struct in memory means

    [load] follows every pointer; it is [None] when one dangles.  [locs] are the
    cells the struct owns, in the order they are reached. *)

Class Layout `{MetaLayout} (G V : Type) := {
  load : heap -> G -> option V;
  locs : heap -> G -> list loc
}.

(** The value depends on the owned cells only, and these exist. *)
Class LayoutLaws `{MetaLayout} (G V : Type) `{!Layout G V} : Prop := {
  load_frame (h h' : heap) (g : G) : (forall l, l ∈ locs h g -> h' !! l = h !! l) ->
    load h' g = load h g /\ locs h' g = locs h g;
  load_dom (h : heap) (g : G) (v : V) : load h g = Some v ->
    forall l, l ∈ locs h g -> is_Some (h !! l)
}.

Section Layouts.
Context `{ML : MetaLayout}.

(** A struct without pointers. *)
Definition flat (T : Type) : Layout T T := {| load _ x := Some x; locs _ _ := [] |}.
Lemma flat_laws T : @LayoutLaws _ T T (flat T).
Proof. split; [done|]. by intros h g v _ l ?%not_elem_of_nil. Qed.

(** A struct whose pointers are the part [part g], with value [mk g v]. *)
Definition via {G P V U} `{!Layout P U} (part : G -> P) (mk : G -> U -> V) : Layout G V :=
  {| load h g := mk g <$> load h (part g); locs h g := locs h (part g) |}.
Lemma via_laws {G P V U} `{!Layout P U} `{!LayoutLaws P U} (part : G -> P) (mk : G -> U -> V) :
  @LayoutLaws _ G V (via part mk).
Proof.
  split; simpl; intros h.
  - intros h' g [-> ->]%load_frame. done.
  - intros g v (u & Hu & _)%fmap_Some. by apply (load_dom _ _ _ Hu).
Qed.

#[export] Instance prod_layout {G1 V1 G2 V2} `{!Layout G1 V1} `{!Layout G2 V2} :
    Layout (G1 * G2) (V1 * V2) :=
  {| load h g := v1 ← load h g.1; v2 ← load h g.2; Some (v1, v2);
     locs h g := locs h g.1 ++ locs h g.2 |}.
#[export] Instance prod_laws {G1 V1 G2 V2} `{!Layout G1 V1} `{!Layout G2 V2}
    `{!LayoutLaws G1 V1} `{!LayoutLaws G2 V2} : LayoutLaws (G1 * G2) (V1 * V2).
Proof.
  split; simpl; intros h.
  - intros h' [g1 g2] Hag; simpl in *.
    destruct (load_frame h h' g1) as [-> ->]; [intros; apply Hag, elem_of_app; by left|].
    destruct (load_frame h h' g2) as [-> ->]; [intros; apply Hag, elem_of_app; by right|]. done.
  - intros [g1 g2] v Hv l Hl; simpl in *.
    destruct (load h g1) eqn:H1; [|done]. destruct (load h g2) eqn:H2; [|done].
    apply elem_of_app in Hl as [Hl|Hl]; [by apply (load_dom _ _ _ H1)|by apply (load_dom _ _ _ H2)].
Qed.

#[export] Instance list_layout {G V} `{!Layout G V} : Layout (list G) (list V) :=
  {| load h l := mapM (load h) l; locs h l := concat (locs h <$> l) |}.
#[export] Instance list_laws {G V} `{!Layout G V} `{!LayoutLaws G V} : LayoutLaws (list G) (list V).
Proof.
  split; intros h.
  - intros h' l. induction l as [|g l IH]; intros Hag; [done|]. cbn [load locs list_layout mapM fmap list_fmap concat] in *.
    destruct (load_frame h h' g) as [-> ->]; [intros; apply Hag, elem_of_app; by left|].
    destruct IH as [-> ->]; [intros; apply Hag, elem_of_app; by right|]. done.
  - intros l. induction l as [|g l IH]; intros vs Hv k Hk; [by apply not_elem_of_nil in Hk|].
    cbn [load locs list_layout mapM fmap list_fmap concat] in *.
    destruct (load h g) eqn:Hg; [|done]. simpl in Hv. destruct (mapM (load h) l) eqn:Hl; [|done].
    apply elem_of_app in Hk as [Hk|Hk]; [by apply (load_dom _ _ _ Hg)|by eapply IH].
Qed.

(** A pointer owns its target; nil is [None]. *)
#[export] Instance ptr_layout {G V} `{!Stored G} `{!Layout G V} : Layout (ptr G) (option V) :=
  {| load h p := match p with
                 | NilPtr => Some None
                 | Ptr l => x ← h !! l ≫= of_cell; Some <$> load h (x : G)
                 end;
     locs h p := match p with
                 | NilPtr => []
                 | Ptr l => l :: match h !! l ≫= of_cell with
                                 | Some x => locs h (x : G)
                                 | None => []
                                 end
                 end |}.
#[export] Instance ptr_laws {G V} `{!Stored G} `{!Layout G V} `{!LayoutLaws G V} :
  LayoutLaws (ptr G) (option V).
Proof.
  split; intros h.
  - intros h' [|l] Hag; [done|]. simpl in *. rewrite (Hag l) by left.
    destruct (h !! l ≫= of_cell) as [x|] eqn:Hx; [|done]. simpl.
    destruct (load_frame h h' x) as [-> ->]; [|done]. intros k Hk. apply Hag. by right.
  - intros [|l] v Hv k Hk; [by apply not_elem_of_nil in Hk|]. simpl in *.
    destruct (h !! l) as [c|] eqn:Hl; [|done]. simpl in *. destruct (of_cell c) as [x|]; [|done].
    simpl in *. apply fmap_Some in Hv as (u & Hu & _).
    apply elem_of_cons in Hk as [-> |Hk]; [done|by apply (load_dom _ _ _ Hu)].
Qed.

(** A slice owns its backing array and what the elements in its window own. *)
#[export] Instance slice_layout {G V} `{!Stored (list G)} `{!Layout G V} : Layout (slice G) (list V) :=
  {| load h s := l ← elements_of h s; load h l;
     locs h s := match s with
                 | NilSlice => []
                 | Slice arr _ _ => arr :: match elements_of h s with
                                           | Some l => locs h l
                                           | None => []
                                           end
                 end |}.
Lemma elements_of_frame {G} `{!Stored (list G)} (h h' : heap) (s : slice G) :
  (forall arr off len, s = Slice arr off len -> h' !! arr = h !! arr) ->
  elements_of h' s = elements_of h s.
Proof. destruct s as [|arr off len]; intros He; [done|]. simpl. by rewrite (He arr off len). Qed.
#[export] Instance slice_laws {G V} `{!Stored (list G)} `{!Layout G V} `{!LayoutLaws G V} :
  LayoutLaws (slice G) (list V).
Proof.
  split; intros h.
  - intros h' [|arr off len] Hag; [done|]. cbn [load locs slice_layout] in *.
    rewrite (elements_of_frame h h') by (intros ? ? ? [= <- <- <-]; apply Hag; left).
    destruct (elements_of h (Slice arr off len)) as [l|]; [|done]. cbn [mbind option_bind].
    destruct (load_frame h h' l) as [-> ->]; [|done]. intros k Hk. apply Hag. by right.
  - intros [|arr off len] v Hv k Hk; [by apply not_elem_of_nil in Hk|]. cbn [load locs slice_layout] in *.
    destruct (elements_of h (Slice arr off len)) as [l|] eqn:Hl; [|done]. cbn [mbind option_bind] in *.
    apply elem_of_cons in Hk as [-> |Hk]; [|by apply (load_dom _ _ _ Hv)].
    simpl in Hl. destruct (h !! arr); [done|discriminate].
Qed.
End Layouts.

(** ** Copying

    [into] copies: it returns, leaves every existing cell as it was, and its
    result has the same value and owns only new cells, none of them twice. *)

Section Copying.
Context `{ML : MetaLayout}.

Definition fresh_in (h h' : heap) (ls : list loc) : Prop :=
  NoDup ls /\ forall l, l ∈ ls -> h !! l = None /\ is_Some (h' !! l).

Definition copies {G V} `{!Layout G V} (into : G -> HM G) : Prop :=
  forall h g v, load h g = Some v ->
    exists g' h', into g h = Some (g', h') /\ h ⊆ h' /\ load h' g' = Some v /\
      fresh_in h h' (locs h' g').

Lemma load_mono {G V} `{!Layout G V} `{!LayoutLaws G V} (h h' : heap) (g : G) (v : V) :
  load h g = Some v -> h ⊆ h' -> load h' g = Some v /\ locs h' g = locs h g.
Proof.
  intros Hv Hsub. destruct (load_frame h h' g) as [-> ->]; [|done].
  intros l Hl. destruct (load_dom _ _ _ Hv l Hl) as [c Hc].
  rewrite Hc. by eapply lookup_weaken.
Qed.

Lemma fresh_in_nil h h' : fresh_in h h' [].
Proof. split; [constructor|]. by intros l ?%not_elem_of_nil. Qed.

(** Cells allocated in two stages. *)
Lemma fresh_in_app h h1 h2 l1 l2 : h ⊆ h1 -> h1 ⊆ h2 ->
  fresh_in h h1 l1 -> fresh_in h1 h2 l2 -> fresh_in h h2 (l1 ++ l2).
Proof.
  intros S1 S2 [N1 F1] [N2 F2]. split.
  - apply NoDup_app. split; [done|]. split; [|done]. intros l Hl1 Hl2.
    destruct (F1 l Hl1) as [_ [c Hc]]. destruct (F2 l Hl2) as [? _]. congruence.
  - intros l [Hl|Hl]%elem_of_app.
    + destruct (F1 l Hl) as [? [c Hc]]. split; [done|]. exists c. by eapply lookup_weaken.
    + destruct (F2 l Hl) as [Hn ?]. split; [|done]. by eapply lookup_weaken_None.
Qed.

Lemma copies_ext {G V} `{!Layout G V} (f f' : G -> HM G) :
  (forall g h, f g h = f' g h) -> copies f -> copies f'.
Proof. intros Hff Hf h g v Hv. rewrite <- Hff. by apply Hf. Qed.

Lemma copies_flat T : @copies T T (flat T) (fun x => mret x).
Proof. intros h g v Hv. exists g, h. do 3 (split; [done|]). apply fresh_in_nil. Qed.

Lemma copies_prod {G1 V1 G2 V2} `{!Layout G1 V1} `{!Layout G2 V2} `{!LayoutLaws G1 V1}
    `{!LayoutLaws G2 V2} (f1 : G1 -> HM G1) (f2 : G2 -> HM G2) :
  copies f1 -> copies f2 ->
  copies (fun g => g1 ← f1 g.1; g2 ← f2 g.2; mret (g1, g2)).
Proof.
  intros C1 C2 h [g1 g2] v Hv. simpl in *.
  destruct (load h g1) as [v1|] eqn:H1; [|done]. destruct (load h g2) as [v2|] eqn:H2; [|done].
  simpl in Hv. injection Hv as <-.
  destruct (C1 h g1 v1 H1) as (g1' & h1 & E1 & S1 & L1 & F1).
  destruct (load_mono h h1 g2 v2 H2 S1) as [H2' _].
  destruct (C2 h1 g2 v2 H2') as (g2' & h2 & E2 & S2 & L2 & F2).
  destruct (load_mono h1 h2 g1' v1 L1 S2) as [L1' Eq].
  exists (g1', g2'), h2. unfold mbind, HM_bind. rewrite E1, E2. split; [done|].
  split; [by etrans|]. simpl. rewrite L1', L2, Eq. split; [done|]. by eapply fresh_in_app.
Qed.

(** A struct is copied by copying the part that has pointers. *)
Lemma copies_via {G P V U} `{!Layout P U} (part : G -> P) (mk : G -> U -> V) (set : G -> P -> G)
    (f : P -> HM P) :
  (forall g p, part (set g p) = p) -> (forall g p, mk (set g p) = mk g) -> copies f ->
  @copies G V (via part mk) (fun g => p ← f (part g); mret (set g p)).
Proof.
  intros Hset Hmk Hf h g v Hv. simpl in Hv. apply fmap_Some in Hv as (u & Hu & ->).
  destruct (Hf h (part g) u Hu) as (p & h' & E & S & L & F).
  exists (set g p), h'. unfold mbind, HM_bind. rewrite E. split; [done|]. split; [done|].
  simpl. rewrite Hset, Hmk, L. done.
Qed.

Lemma new_fresh (h : heap) : h !! fresh (dom h) = None.
Proof. apply not_elem_of_dom, is_fresh. Qed.

Lemma copies_deep_copy {G V} `{!Stored G} `{!Layout G V} `{!LayoutLaws G V} zero (into : G -> HM G) :
  copies into -> copies (deep_copy zero into).
Proof.
  intros Hc h [|l] v Hv.
  { exists NilPtr, h. do 3 (split; [done|]). apply fresh_in_nil. }
  simpl in Hv. destruct (h !! l) as [c|] eqn:Hl; [|done]. simpl in Hv.
  destruct (of_cell c) as [x|] eqn:Hx; [|done]. simpl in Hv. apply fmap_Some in Hv as (u & Hu & ->).
  pose proof (new_fresh h) as Hq. set (q := fresh (dom h)) in *.
  set (h1 := <[q := to_cell zero]> h).
  assert (h ⊆ h1) as S1 by by apply insert_subseteq.
  destruct (Hc h1 x u) as (y & h2 & E & S2 & L & N & F); [by apply (load_mono h h1 x)|].
  assert (is_Some (h2 !! q)) as [c2 Hq2].
  { exists (to_cell zero). eapply lookup_weaken; [|exact S2]. apply lookup_insert_eq. }
  assert (q ∉ locs h2 y) as Hnot.
  { intros Hin. destruct (F q Hin) as [Hn _]. unfold h1 in Hn. by rewrite lookup_insert_eq in Hn. }
  destruct (load_frame h2 (<[q := to_cell y]> h2) y) as [L' Eq].
  { intros k Hk. apply lookup_insert_ne. set_solver. }
  exists (Ptr q), (<[q := to_cell y]> h2).
  unfold deep_copy, mbind, HM_bind, new. fold q. fold h1. unfold deref.
  assert (h1 !! l = Some c) as -> by (unfold h1; rewrite lookup_insert_ne; [done|congruence]).
  simpl. rewrite Hx, E. unfold assign. rewrite Hq2. split; [done|].
  split; [by apply insert_subseteq_r; [|etrans]|].
  rewrite lookup_insert_eq. simpl. rewrite of_to_cell. simpl. rewrite L', L, Eq. split; [done|].
  split; [by constructor|]. intros k [-> |Hk]%elem_of_cons; [by rewrite lookup_insert_eq|].
  destruct (F k Hk) as [Hn Hs]. split; [by eapply lookup_weaken_None|].
  by rewrite lookup_insert_ne by set_solver.
Qed.

(** *** Slices *)

Lemma load_snoc {G V} `{!Layout G V} (h : heap) (l : list G) x vs v :
  load h l = Some vs -> load h x = Some v -> load h (l ++ [x]) = Some (vs ++ [v]).
Proof.
  cbn [load list_layout]. intros Hl Hx. rewrite mapM_Some in *. apply Forall2_app; [done|].
  by repeat constructor.
Qed.

Lemma locs_snoc {G V} `{!Layout G V} (h : heap) (l : list G) x :
  locs h (l ++ [x]) = locs h l ++ locs h x.
Proof. cbn [locs list_layout]. rewrite fmap_app, concat_app. simpl. by rewrite app_nil_r. Qed.

Lemma index_elements {G} `{!Stored (list G)} (h : heap) (s : slice G) l i x :
  elements_of h s = Some l -> l !! i = Some x -> index s i h = Some (x, h).
Proof. intros Hl Hx. unfold index. rewrite Hl. simpl. by rewrite Hx. Qed.

Lemma elements_of_mono {G} `{!Stored (list G)} (h h' : heap) (s : slice G) l :
  elements_of h s = Some l -> h ⊆ h' -> elements_of h' s = Some l.
Proof.
  intros Hl Hsub. rewrite (elements_of_frame h h'); [done|]. intros arr off len ->.
  simpl in Hl. destruct (h !! arr) eqn:Ha; [|done]. by eapply lookup_weaken.
Qed.

Lemma elements_of_length {G} `{!Stored (list G)} (h : heap) arr off len (l : list G) :
  elements_of h (Slice arr off len) = Some l -> length l = len.
Proof.
  simpl. destruct (h !! arr ≫= of_cell) as [l0|]; [|done]. simpl. case_decide; [|done].
  intros [= <-]. rewrite length_take, length_drop. lia.
Qed.

Lemma elements_of_whole {G} `{!Stored (list G)} (h : heap) q (l : list G) len :
  h !! q = Some (to_cell l) -> length l = len -> elements_of h (Slice q 0 len) = Some l.
Proof.
  intros Hq <-. simpl. rewrite Hq. simpl. rewrite of_to_cell. simpl. rewrite decide_True by lia.
  rewrite drop_0, take_ge by lia. done.
Qed.

(** Where the loop stands: [ys] are copied into the array at [q], [k] zeros remain. *)
Definition loop_at {G V} `{!Stored (list G)} `{!Layout G V} (h hk : heap) (q : loc) (zero : G)
    (ys : list G) (k : nat) (vs : list V) : Prop :=
  h ⊆ hk /\ hk !! q = Some (to_cell (ys ++ replicate k zero)) /\
  load hk ys = Some vs /\ fresh_in h hk (q :: locs hk ys).

Lemma loop_step {G V} `{!Stored (list G)} `{!Layout G V} `{!LayoutLaws G V} (into : G -> HM G)
    h hk q zero ys k vs x v :
  copies into -> loop_at h hk q zero ys (S k) vs -> load h x = Some v ->
  exists y h1 hk', into x hk = Some (y, h1) /\
    set_index q (length ys) y h1 = Some (tt, hk') /\
    loop_at h hk' q zero (ys ++ [y]) k (vs ++ [v]).
Proof.
  intros Hc (S0 & Hq & L0 & F0) Hx.
  destruct (Hc hk x v) as (y & h1 & E & S1 & L1 & F1); [by apply (load_mono h hk x)|].
  assert (h1 !! q = Some (to_cell (ys ++ replicate (S k) zero))) as Hq1 by by eapply lookup_weaken.
  destruct (load_mono hk h1 ys vs L0 S1) as [L0' Eq0].
  assert (fresh_in h h1 ((q :: locs h1 ys) ++ locs h1 y)) as [N F].
  { rewrite Eq0. by eapply fresh_in_app. }
  set (h2 := <[q := to_cell (ys ++ y :: replicate k zero)]> h1).
  assert (forall l, l ∈ locs h1 ys ++ locs h1 y -> h2 !! l = h1 !! l) as Hag.
  { intros l Hl. apply lookup_insert_ne. intros ->. by apply NoDup_cons in N as [? _]. }
  destruct (load_frame h1 h2 ys) as [L2 E2]; [intros; apply Hag, elem_of_app; by left|].
  destruct (load_frame h1 h2 y) as [L3 E3]; [intros; apply Hag, elem_of_app; by right|].
  exists y, h1, h2. split; [done|]. split.
  { unfold set_index, mbind, HM_bind, deref. rewrite Hq1. simpl. rewrite of_to_cell.
    rewrite decide_True by (rewrite length_app; simpl; lia). unfold assign. rewrite Hq1.
    unfold h2. by rewrite insert_app_r_alt, Nat.sub_diag by done. }
  split; [apply insert_subseteq_r; [by apply F; left|by etrans]|].
  unfold h2. rewrite lookup_insert_eq. split; [by rewrite <- app_assoc|]. fold h2.
  split; [apply load_snoc; congruence|]. rewrite locs_snoc, E2, E3. split; [done|].
  intros l Hl. destruct (F l Hl) as [? ?]. split; [done|]. unfold h2.
  destruct (decide (l = q)) as [-> |]; [by rewrite lookup_insert_eq|by rewrite lookup_insert_ne].
Qed.

Lemma range_loop_copies {G V} `{!Stored (list G)} `{!Layout G V} `{!LayoutLaws G V}
    (into : G -> HM G) h s l (vs : list V) q zero :
  copies into -> elements_of h s = Some l -> load h l = Some vs ->
  forall k hk ys, loop_at h hk q zero ys k (take (length ys) vs) -> (length ys + k = length l)%nat ->
  exists h' ys', range_loop into s q (seq (length ys) k) hk = Some (tt, h') /\
    length ys' = length l /\ loop_at h h' q zero ys' 0 vs.
Proof.
  intros Hc Hs Hl. assert (length vs = length l) as Hlen.
  { cbn [load list_layout] in Hl. symmetry. by eapply length_mapM. }
  induction k as [|k IH]; intros hk ys Hat Hk.
  { exists hk, ys. split; [done|]. split; [lia|]. by rewrite take_ge in Hat by lia. }
  destruct (lookup_lt_is_Some_2 l (length ys)) as [x Hx]; [lia|].
  destruct (lookup_lt_is_Some_2 vs (length ys)) as [v Hv]; [lia|].
  assert (load h x = Some v) as Hxv.
  { cbn [load list_layout] in Hl. rewrite mapM_Some in Hl. exact (Forall2_lookup_lr _ _ _ _ _ _ Hl Hx Hv). }
  destruct (loop_step into h hk q zero ys k _ x v Hc Hat Hxv) as (y & h1 & hk' & E1 & E2 & Hat').
  rewrite <- take_S_r in Hat' by done.
  assert (length (ys ++ [y]) = S (length ys)) as Hly by (rewrite length_app; simpl; lia).
  destruct (IH hk' (ys ++ [y])) as (h' & ys' & E & Hfin); [by rewrite Hly|lia|].
  exists h', ys'. split; [|done]. cbn [range_loop seq]. unfold mbind at 1, HM_bind at 1.
  rewrite (index_elements hk s l _ x) by (done || by eapply elements_of_mono; [|apply Hat]).
  unfold mbind at 1, HM_bind at 1. rewrite E1. unfold mbind, HM_bind. rewrite E2. by rewrite Hly in E.
Qed.

Lemma copies_elements {G V} `{!Stored (list G)} `{!Layout G V} `{!LayoutLaws G V} zero
    (into : G -> HM G) : copies into -> copies (copy_elements zero into).
Proof.
  intros Hc h [|arr off len] vs Hv.
  { exists NilSlice, h. do 3 (split; [done|]). apply fresh_in_nil. }
  cbn [load slice_layout] in Hv. destruct (elements_of h _) as [l|] eqn:Hl; [|done]. cbn in Hv.
  pose proof (elements_of_length _ _ _ _ _ Hl) as Hlen.
  pose proof (new_fresh h) as Hq. set (q := fresh (dom h)) in *.
  destruct (range_loop_copies into h _ l vs q zero Hc Hl Hv len
              (<[q := to_cell (replicate len zero)]> h) []) as (h' & ys & E & Hys & S & Hq' & L & F).
  - split; [by apply insert_subseteq|]. split; [by rewrite lookup_insert_eq|]. split; [done|].
    split; [apply NoDup_singleton|]. intros k ->%list_elem_of_singleton. by rewrite lookup_insert_eq.
  - done.
  - exists (Slice q 0 len), h'. unfold copy_elements, mbind, HM_bind, new. fold q. simpl in E.
    rewrite E. split; [done|]. split; [done|]. rewrite app_nil_r in Hq'.
    cbn [load locs slice_layout]. rewrite (elements_of_whole _ _ ys) by (done || congruence). done.
Qed.

(** [copy] of a slice of flat elements is the loop of flat copies. *)
Lemma copies_slice {T} `{!Stored (list T)} (zero : T) :
  @copies (slice T) (list T) (@slice_layout _ T T _ (flat T)) (copy_slice zero).
Proof.
  intros h [|arr off len] vs Hv.
  { exists NilSlice, h. do 3 (split; [done|]). apply fresh_in_nil. }
  cbn [load slice_layout] in Hv. destruct (elements_of h _) as [l|] eqn:Hl; [|done]. cbn in Hv.
  pose proof (elements_of_length _ _ _ _ _ Hl) as Hlen.
  pose proof (new_fresh h) as Hq. set (q := fresh (dom h)) in *.
  set (h1 := <[q := to_cell (replicate len zero)]> h).
  assert (h ⊆ h1) as S1 by by apply insert_subseteq.
  exists (Slice q 0 len), (<[q := to_cell l]> h).
  unfold copy_slice, mbind, HM_bind, new. fold q h1. unfold copy.
  rewrite (elements_of_mono h h1 _ l Hl S1). unfold assign, h1. rewrite lookup_insert_eq, insert_insert_eq.
  split; [done|]. split; [by apply insert_subseteq|].
  cbn [load locs slice_layout]. rewrite (elements_of_whole _ _ l) by (done || by rewrite lookup_insert_eq).
  split; [done|]. cbn [locs list_layout flat]. assert (concat ((fun _ : T => [] : list loc) <$> l) = []) as ->.
  { clear. by induction l. }
  split; [apply NoDup_singleton|]. intros k ->%list_elem_of_singleton. by rewrite lookup_insert_eq.
Qed.
End Copying.

(** ** The API types *)

Section Instances.
Context `{ML : MetaLayout}.

#[export] Instance flat_int32 : Layout Z Z := flat Z.
#[export] Instance flat_time : Layout Time Time := flat Time.
#[export] Instance flat_phase : Layout string string := flat string.
#[export] Instance flat_secretref : Layout SecretKeyRef SecretKeyRef := flat SecretKeyRef.
#[export] Instance flat_ref : Layout WorkloadRef WorkloadRef := flat WorkloadRef.
#[export] Instance flat_health : Layout HealthCondition HealthCondition := flat HealthCondition.
#[export] Instance flat_entry : Layout DependsOnEntry DependsOnEntry := flat DependsOnEntry.
#[export] Instance flat_ondegraded : Layout OnDegradedSpec OnDegradedSpec := flat OnDegradedSpec.
#[export] Instance flat_condition : Layout Condition Condition := flat Condition.

#[export] Instance flat_int32_laws : LayoutLaws Z Z := flat_laws Z.
#[export] Instance flat_time_laws : LayoutLaws Time Time := flat_laws Time.
#[export] Instance flat_phase_laws : LayoutLaws string string := flat_laws string.
#[export] Instance flat_secretref_laws : LayoutLaws SecretKeyRef SecretKeyRef := flat_laws _.
#[export] Instance flat_ref_laws : LayoutLaws WorkloadRef WorkloadRef := flat_laws _.
#[export] Instance flat_health_laws : LayoutLaws HealthCondition HealthCondition := flat_laws _.
#[export] Instance flat_entry_laws : LayoutLaws DependsOnEntry DependsOnEntry := flat_laws _.
#[export] Instance flat_ondegraded_laws : LayoutLaws OnDegradedSpec OnDegradedSpec := flat_laws _.
#[export] Instance flat_condition_laws : LayoutLaws Condition Condition := flat_laws _.

Definition notify_part (g : gNotifySpec) : ptr SecretKeyRef * slice string :=
  (gn_WebhookSecretRef g, gn_OnPhases g).
#[export] Instance notify_layout : Layout gNotifySpec NotifySpec :=
  via notify_part (fun g p => mkNotify (gn_Webhook g) p.1 p.2).
#[export] Instance notify_laws : LayoutLaws gNotifySpec NotifySpec := via_laws _ _.

Definition spec_part (g : gSpec) : slice DependsOnEntry * ptr gNotifySpec := (gs_DependsOn g, gs_Notify g).
#[export] Instance spec_layout : Layout gSpec WorkloadDependencySpec :=
  via spec_part (fun g p => mkSpec (gs_Dependent g) p.1 (gs_OnDegraded g) (gs_Mode g) p.2).
#[export] Instance spec_laws : LayoutLaws gSpec WorkloadDependencySpec := via_laws _ _.

Definition status_part (g : gStatus)
    : ptr Z * (ptr Time * (ptr Time * (ptr Time * slice Condition))) :=
  (gt_SavedReplicas g, (gt_DegradedSince g, (gt_SuspendedAt g, (gt_HealthySince g, gt_Conditions g)))).
#[export] Instance status_layout : Layout gStatus WorkloadDependencyStatus :=
  via status_part (fun g '(saved, (degraded, (suspended, (healthy, conds)))) =>
    mkStatus (gt_Phase g) saved (time_ns <$> degraded) (time_ns <$> suspended) (time_ns <$> healthy)
      (gt_Message g) conds).
#[export] Instance status_laws : LayoutLaws gStatus WorkloadDependencyStatus := via_laws _ _.
End Instances.

(** The documented behaviour of apimachinery's copies. *)
Class MetaCopyLaws `{MC : MetaCopies} := {
  om_layout :: Layout gObjectMeta ObjectMeta;
  om_layout_laws :: LayoutLaws gObjectMeta ObjectMeta;
  lm_layout :: Layout gListMeta ListMeta;
  lm_layout_laws :: LayoutLaws gListMeta ListMeta;
  ObjectMeta_copies : copies ObjectMeta_DeepCopyInto;
  ListMeta_copies : copies ListMeta_DeepCopyInto;
  Time_copies : copies Time_DeepCopy;
  Condition_copies : copies Condition_DeepCopyInto
}.

Section DeepCopySpec.
Context `{MCL : MetaCopyLaws}.

Definition wd_part (g : gWorkloadDependency) : gObjectMeta * (gSpec * gStatus) :=
  (gw_ObjectMeta g, (gw_Spec g, gw_Status g)).
#[export] Instance wd_layout : Layout gWorkloadDependency (TypeMeta * WorkloadDependency) :=
  via wd_part (fun g '(meta, (spec, status)) => (gw_TypeMeta g, mkWD meta spec status)).
#[export] Instance wd_laws : LayoutLaws gWorkloadDependency (TypeMeta * WorkloadDependency) := via_laws _ _.

Definition wdlist_part (g : gWorkloadDependencyList) : gListMeta * slice gWorkloadDependency :=
  (gl_ListMeta g, gl_Items g).
#[export] Instance wdlist_layout :
    Layout gWorkloadDependencyList (TypeMeta * (ListMeta * list (TypeMeta * WorkloadDependency))) :=
  via wdlist_part (fun g p => (gl_TypeMeta g, p)).
#[export] Instance wdlist_laws :
  LayoutLaws gWorkloadDependencyList (TypeMeta * (ListMeta * list (TypeMeta * WorkloadDependency))) := via_laws _ _.

Lemma copies_pointer {T} `{!Stored T} (zero : T) :
  @copies _ (ptr T) (option T) (@ptr_layout _ T T _ (flat T)) (copy_pointer zero).
Proof.
  eapply copies_ext; [|apply (@copies_deep_copy _ T T _ (flat T) (flat_laws T) zero), copies_flat].
  by intros [|l] h.
Qed.

Lemma copies_time : copies copy_time.
Proof.
  intros h [|l] v Hv; [|by apply Time_copies].
  exists NilPtr, h. do 3 (split; [done|]). apply fresh_in_nil.
Qed.

(** Equality of two programs: run both, splitting on every call. *)
Ltac same_program :=
  intros; unfold mbind, HM_bind, mret, HM_ret; repeat (simpl; case_match; simplify_eq/=); done.

Lemma NotifySpec_copies : copies NotifySpec_DeepCopyInto.
Proof.
  eapply copies_ext; [|eapply (copies_via notify_part _
    (fun g p => mkgNotify (gn_Webhook g) p.1 p.2));
    [by intros ? []|done|apply copies_prod; [apply (copies_pointer (mkSecretKeyRef "" ""))|apply (copies_slice "")]]].
  unfold NotifySpec_DeepCopyInto. same_program.
Qed.

Lemma Spec_copies : copies WorkloadDependencySpec_DeepCopyInto.
Proof.
  eapply copies_ext; [|eapply (copies_via spec_part _
    (fun g p => mkgSpec (gs_Dependent g) p.1 (gs_OnDegraded g) (gs_Mode g) p.2));
    [by intros ? []|done|apply copies_prod;
      [apply (copies_slice zero_Entry)|apply (copies_deep_copy zero_gNotify), NotifySpec_copies]]].
  unfold WorkloadDependencySpec_DeepCopyInto. same_program.
Qed.

Lemma Status_copies : copies WorkloadDependencyStatus_DeepCopyInto.
Proof.
  eapply copies_ext; [|eapply (copies_via status_part _
    (fun g '(saved, (degraded, (suspended, (healthy, conds)))) =>
       mkgStatus (gt_Phase g) saved degraded suspended healthy (gt_Message g) conds));
    [by intros ? (?&?&?&?&?)|by intros ? (?&?&?&?&?)|
     apply copies_prod; [apply (copies_pointer 0)|];
     do 3 (apply copies_prod; [apply copies_time|]);
     apply (copies_elements zero_Condition), Condition_copies]].
  unfold WorkloadDependencyStatus_DeepCopyInto. same_program.
Qed.

Lemma WD_copies : copies WorkloadDependency_DeepCopyInto.
Proof.
  eapply copies_ext; [|eapply (copies_via wd_part _
    (fun g '(meta, (spec, status)) => mkgWD (gw_TypeMeta g) meta spec status));
    [by intros ? (?&?&?)|by intros ? (?&?&?)|
     apply copies_prod; [apply ObjectMeta_copies|]; apply copies_prod; [apply Spec_copies|apply Status_copies]]].
  unfold WorkloadDependency_DeepCopyInto. same_program.
Qed.

Lemma WDList_copies : copies WorkloadDependencyList_DeepCopyInto.
Proof.
  eapply copies_ext; [|eapply (copies_via wdlist_part _
    (fun g p => mkgWDList (gl_TypeMeta g) p.1 p.2));
    [by intros ? []|done|apply copies_prod;
      [apply ListMeta_copies|apply (copies_elements zero_gWD), WD_copies]]].
  unfold WorkloadDependencyList_DeepCopyInto. same_program.
Qed.

(** [copy] of a pointer: nil for nil; otherwise a new object with the same value,
    the old heap intact, and no cell shared, neither with anything that existed
    nor between two parts of the copy.  So whatever is then written through the
    copy, the original reads the same, and whatever is written to cells that
    existed before, the copy reads the same. *)
Definition independent_copy {G V} `{!Stored G} `{!Layout G V} (copy : ptr G -> HM (ptr G)) : Prop :=
  (forall h, copy NilPtr h = Some (NilPtr, h)) /\
  forall h p (v : V), load h p = Some (Some v) ->
    exists q h', copy p h = Some (Ptr q, h') /\ h ⊆ h' /\
      load h' (Ptr q : ptr G) = Some (Some v) /\ NoDup (locs h' (Ptr q : ptr G)) /\
      (forall h'', (forall l, l ∉ locs h' (Ptr q : ptr G) -> h'' !! l = h' !! l) ->
         load h'' p = Some (Some v)) /\
      (forall h'', (forall l, h !! l = None -> h'' !! l = h' !! l) ->
         load h'' (Ptr q : ptr G) = Some (Some v)).

Lemma deep_copy_independent {G V} `{!Stored G} `{!Layout G V} `{!LayoutLaws G V} zero into :
  copies into -> independent_copy (deep_copy zero into).
Proof.
  intros Hc. split; [done|]. intros h p v Hv.
  destruct (copies_deep_copy zero into Hc h p (Some v) Hv) as (q & h' & E & S & L & N & F).
  destruct q as [|q]; [done|]. exists q, h'. do 4 (split; [done|]). split; intros h'' Hag.
  - destruct (load_mono h h' p _ Hv S) as [L' Eq]. rewrite <- L'. apply load_frame.
    intros l Hl. rewrite Eq in Hl. apply Hag. intros Hin. destruct (F l Hin) as [Hn _].
    destruct (load_dom _ _ _ Hv l Hl) as [c Hc']. congruence.
  - rewrite <- L. apply load_frame. intros l Hl. apply Hag. by apply F.
Qed.

(** C34: the generated deep copies are faithful and independent.  For a
    WorkloadDependency, a list of them, and each of their component types,
    [DeepCopy] terminates without a panic on every object whose pointers are
    valid, and yields an object with the same value that shares no memory with
    the original or with anything else; writes through one are never seen through
    the other.  [DeepCopyObject] wraps exactly that copy. *)
Theorem DeepCopy_independent :
  independent_copy WorkloadDependency_DeepCopy /\
  independent_copy WorkloadDependencyList_DeepCopy /\
  independent_copy WorkloadDependencySpec_DeepCopy /\
  independent_copy WorkloadDependencyStatus_DeepCopy /\
  independent_copy NotifySpec_DeepCopy /\
  independent_copy DependsOnEntry_DeepCopy /\
  independent_copy HealthCondition_DeepCopy /\
  independent_copy OnDegradedSpec_DeepCopy /\
  independent_copy SecretKeyRef_DeepCopy /\
  independent_copy WorkloadRef_DeepCopy /\
  (forall p h q h', WorkloadDependency_DeepCopy p h = Some (q, h') ->
     WorkloadDependency_DeepCopyObject p h =
       Some (match q with Ptr l => WDObject l | NilPtr => NilObject end, h')).
Proof.
  unfold WorkloadDependency_DeepCopy, WorkloadDependencyList_DeepCopy, WorkloadDependencySpec_DeepCopy,
    WorkloadDependencyStatus_DeepCopy, NotifySpec_DeepCopy, DependsOnEntry_DeepCopy,
    HealthCondition_DeepCopy, OnDegradedSpec_DeepCopy, SecretKeyRef_DeepCopy, WorkloadRef_DeepCopy.
  repeat split; try apply deep_copy_independent;
    try apply WD_copies; try apply WDList_copies; try apply Spec_copies; try apply Status_copies;
    try apply NotifySpec_copies; try (eapply copies_ext; [|apply copies_flat]; by intros []).
  intros p h q h' E. unfold WorkloadDependency_DeepCopyObject, mbind, HM_bind.
  unfold WorkloadDependency_DeepCopy. by rewrite E.
Qed.
End DeepCopySpec.
