(* ===== verification/MemHeap.v ===== *)
(** * Object metadata in memory

    One layout of apimachinery's metadata with the laws DeepCopy relies on: the
    annotations are a map behind a reference, the rest of the metadata is flat.
    On it the generated copy of a suspended WorkloadDependency is run. *)

From S2P Require Import Prelude Types DeepCopy.

(** ObjectMeta without its annotations, which lie behind [mo_Annotations]. *)
Record MemMeta := mkMemMeta { mo_Fields : ObjectMeta; mo_Annotations : ptr (gmap string string) }.

#[export] Instance mem_layout : MetaLayout := {
  gObjectMeta := MemMeta;
  gListMeta := string;
  ListMeta := string;
  MetaCell := gmap string string;
  zero_ObjectMeta := mkMemMeta (mkMeta "" "" "" 0 None ∅ []) NilPtr;
  zero_ListMeta := ""
}.

#[export] Instance stored_annotations : Stored (gmap string string) :=
  {| to_cell := CMeta; of_cell c := match c with CMeta m => Some m | _ => None end;
     of_to_cell _ := eq_refl |}.
#[export] Instance flat_annotations : Layout (gmap string string) (gmap string string) := flat _.
#[export] Instance flat_annotations_laws :
  LayoutLaws (gmap string string) (gmap string string) := flat_laws _.

Definition set_Annotations (m : ObjectMeta) (a : gmap string string) : ObjectMeta :=
  mkMeta (om_Name m) (om_Namespace m) (om_ResourceVersion m) (om_Generation m)
    (om_DeletionTimestamp m) a (om_Finalizers m).

#[export] Instance mem_meta_copies : MetaCopies := {
  ObjectMeta_DeepCopyInto m :=
    a ← copy_pointer ∅ (mo_Annotations m); mret (mkMemMeta (mo_Fields m) a);
  ListMeta_DeepCopyInto m := mret m;
  Time_DeepCopy := copy_pointer (mkTime 0);
  Condition_DeepCopyInto c := mret c
}.

#[export] Instance mem_meta_layout : Layout gObjectMeta ObjectMeta :=
  via mo_Annotations (fun g a => set_Annotations (mo_Fields g) (default ∅ a)).

#[export] Instance mem_meta_laws : MetaCopyLaws.
Proof.
  refine {| om_layout := mem_meta_layout; om_layout_laws := via_laws _ _;
            lm_layout := flat string; lm_layout_laws := flat_laws string |}.
  - eapply copies_ext; [|eapply (copies_via mo_Annotations _ (fun g p => mkMemMeta (mo_Fields g) p));
      [done|done|apply (copies_deep_copy ∅), copies_flat]].
    intros [m [|l]] h; [done|]. unfold mbind, HM_bind, mret, HM_ret; simpl.
    unfold mbind, HM_bind, mret, HM_ret; repeat (simpl; case_match; simplify_eq/=); done.
  - apply copies_flat.
  - eapply copies_ext; [|apply (copies_deep_copy (mkTime 0)), copies_flat]. by intros [|l] h.
  - apply copies_flat.
Defined.

(** ** A suspended dependency and its copy *)

Definition mem_wd : gWorkloadDependency :=
  mkgWD (mkTypeMeta "WorkloadDependency" "deps.klink.dev/v1alpha1")
    (mkMemMeta (mkMeta "api-needs-db" "prod" "7" 2 None ∅ ["klink.dev/finalizer"]) (Ptr 1%positive))
    (mkgSpec (mkRef "Deployment" "api" "") (Slice 2%positive 1 1) (mkOnDegraded ActionScaleToZero 0) ModeSoft
       (Ptr 3%positive))
    (mkgStatus PhaseSuspended (Ptr 4%positive) NilPtr (Ptr 5%positive) NilPtr "db is down" (Slice 6%positive 0 1)).

Definition mem_heap : gmap loc cell :=
  <[1%positive := CMeta {[ "team" := "storage" ]}]>
  (<[2%positive := CEntries [zero_Entry; mkDependsOn "Deployment" "db" "" (mkHealthCondition 80 0 0)]]>
  (<[3%positive := CNotify (mkgNotify "https://hooks.example" NilPtr NilSlice)]>
  (<[4%positive := CInt32 3]>
  (<[5%positive := CTime (mkTime 950)]>
  (<[6%positive := CConditions [mkCondition "Ready" "False" "DependentSuspended" "" 950 2]]>
  (<[7%positive := CWD mem_wd]> ∅)))))).

Definition mem_value : TypeMeta * WorkloadDependency :=
  (mkTypeMeta "WorkloadDependency" "deps.klink.dev/v1alpha1",
   mkWD (mkMeta "api-needs-db" "prod" "7" 2 None {[ "team" := "storage" ]} ["klink.dev/finalizer"])
     (mkSpec (mkRef "Deployment" "api" "") [mkDependsOn "Deployment" "db" "" (mkHealthCondition 80 0 0)]
        (mkOnDegraded ActionScaleToZero 0) ModeSoft (Some (mkNotify "https://hooks.example" None [])))
     (mkStatus PhaseSuspended (Some 3) None (Some 950) None "db is down"
        [mkCondition "Ready" "False" "DependentSuspended" "" 950 2])).

Lemma mem_loads : load mem_heap (Ptr 7%positive : ptr gWorkloadDependency) = Some (Some mem_value).
Proof. vm_compute. reflexivity. Defined.

(** The copy of it, after which clearing the saved count of the copy leaves the
    original's three replicas. *)
Lemma DeepCopy_independent_witness :
  exists q h', WorkloadDependency_DeepCopy (Ptr 7%positive) mem_heap = Some (Ptr q, h') /\
    load h' (Ptr q : ptr gWorkloadDependency) = Some (Some mem_value) /\
    forall h'', (forall l, l ∉ locs h' (Ptr q : ptr gWorkloadDependency) -> h'' !! l = h' !! l) ->
      load h'' (Ptr 7%positive : ptr gWorkloadDependency) = Some (Some mem_value).
Proof.
  destruct (proj1 DeepCopy_independent) as [_ Hc].
  destruct (Hc mem_heap (Ptr 7%positive) mem_value mem_loads) as (q & h' & E & _ & L & _ & Ho & _).
  exists q, h'. split; [exact E|]. split; [exact L|exact Ho].
Defined.

(** The same by evaluation: the copy's count is cleared through its own pointer. *)
Definition clear_saved (p : ptr gWorkloadDependency) : HM unit :=
  match p with
  | NilPtr => mret tt
  | Ptr l =>
      wd ← deref l;
      match gt_SavedReplicas (gw_Status wd) with
      | NilPtr => mret tt
      | Ptr k => assign k 0
      end
  end.

Example clear_in_copy_only :
  (snd <$> (q ← WorkloadDependency_DeepCopy (Ptr 7%positive); clear_saved q) mem_heap) ≫=
    (fun h => load h (Ptr 7%positive : ptr gWorkloadDependency)) = Some (Some mem_value) /\
  (snd <$> clear_saved (Ptr 7%positive) mem_heap) ≫=
    (fun h => load h (Ptr 7%positive : ptr gWorkloadDependency)) <> Some (Some mem_value).
Proof. split; [vm_compute; reflexivity|vm_compute; discriminate]. Qed.
