(* ===== verification/GoFloat.v ===== *)
(** * Go's float64, and the ready-percentage computation

    Both the reconciler ([depStatus]) and the gate webhook
    ([checkReplicaHealth]) compute
    [int32(float64(ready) / float64(desired) * 100)].  Go's float64 is IEEE 754
    binary64 with round-to-nearest-even, which is the Standard Library's
    [SpecFloat] at precision 53 and exponent bound 1024.  The main results bound
    the truncated percentage against exact integer arithmetic. *)

From S2P Require Import Prelude.
From Stdlib Require Import SpecFloat.

(** The conversion of a float64 that does not fit an int32 is left to the
    implementation by the Go specification. *)
Class GoPlatform := { float64_to_int32_unspecified : spec_float -> Z }.

Definition prec64 : Z := 53.
Definition emax64 : Z := 1024.

Definition float64 (z : Z) : spec_float := binary_normalize prec64 emax64 z 0 false.
Definition fdiv (x y : spec_float) : spec_float := SFdiv prec64 emax64 x y.
Definition fmul (x y : spec_float) : spec_float := SFmul prec64 emax64 x y.

(** The integer part of a finite float. *)
Definition ftrunc (f : spec_float) : option Z :=
  match f with
  | S754_zero _ => Some 0
  | S754_finite s m e =>
      let a := if 0 <=? e then Zpos m * 2 ^ e else Zpos m / 2 ^ (- e) in
      Some (if s then - a else a)
  | _ => None
  end.

(** The conversion [int32(f)]. *)
Definition int32_of_float64 `{GoPlatform} (f : spec_float) : Z :=
  match ftrunc f with
  | Some z => if decide (- 2 ^ 31 <= z < 2 ^ 31) then z
              else float64_to_int32_unspecified f
  | None => float64_to_int32_unspecified f
  end.

(** [int32(float64(ready) / float64(desired) * 100)]. *)
Definition readyPercent `{GoPlatform} (ready desired : Z) : Z :=
  int32_of_float64 (fmul (fdiv (float64 ready) (float64 desired)) (float64 100)).

(** ** Shifts and rounding *)

Section Rounding.
Lemma shr_1_m mrs : 0 <= shr_m mrs -> shr_m (shr_1 mrs) = shr_m mrs / 2.
Proof.
  rewrite <- Z.div2_div. destruct mrs as [[|[p|p|]|p] r s]; done.
Qed.

Lemma iter_pos_add {A} (f : A -> A) p x :
  iter_pos f p x = Nat.iter (Pos.to_nat p) f x.
Proof.
  revert x. induction p as [p IH|p IH|]; intros x; cbn [iter_pos].
  - rewrite !IH. rewrite Pos2Nat.inj_xI.
    replace (S (2 * Pos.to_nat p)) with (Pos.to_nat p + (Pos.to_nat p + 1))%nat by lia.
    by rewrite !Nat.iter_add.
  - rewrite !IH. rewrite Pos2Nat.inj_xO.
    replace (2 * Pos.to_nat p)%nat with (Pos.to_nat p + Pos.to_nat p)%nat by lia.
    by rewrite Nat.iter_add.
  - done.
Qed.

Lemma shr_iter_m n mrs :
  0 <= shr_m mrs ->
  shr_m (Nat.iter n shr_1 mrs) = shr_m mrs / 2 ^ Z.of_nat n.
Proof.
  intros Hm. induction n as [|n IH].
  - simpl. by rewrite Z.div_1_r.
  - rewrite Nat.iter_succ. rewrite shr_1_m; rewrite IH.
    + rewrite Z.div_div by lia. f_equal. rewrite Nat2Z.inj_succ, Z.pow_succ_r by lia. lia.
    + apply Z.div_pos; lia.
Qed.

(** Shifting right by a non-negative amount divides the mantissa. *)
Lemma shr_spec mrs e n :
  0 <= shr_m mrs -> 0 <= n ->
  shr_m (shr mrs e n).1 = shr_m mrs / 2 ^ n /\ (shr mrs e n).2 = e + n.
Proof.
  intros Hm Hn. destruct n as [|p|p]; cbn [shr fst snd]; [|split; [|done]|lia].
  - rewrite Z.div_1_r. lia.
  - rewrite iter_pos_add, shr_iter_m by done. by rewrite positive_nat_Z.
Qed.

Lemma shr_record_of_loc_m m l : shr_m (shr_record_of_loc m l) = m.
Proof. by destruct l as [|[]]. Qed.

(** Rounding picks one of the two neighbours. *)
Lemma round_nearest_even_near m l :
  exists d, round_nearest_even m l = m + d /\ (d = 0 \/ d = 1).
Proof.
  destruct l as [|[]]; simpl; [exists 0|destruct (Z.even m); [exists 0|exists 1]|exists 0|exists 1]; lia.
Qed.

Lemma Zdigits2_bounds m : 0 < m -> 2 ^ (Zdigits2 m - 1) <= m < 2 ^ Zdigits2 m.
Proof.
  destruct m as [|p|p]; cbn [Zdigits2]; try lia. intros _.
  induction p as [p IH|p IH|]; cbn [digits2_pos].
  - rewrite Pos2Z.inj_succ, Pos2Z.inj_xI.
    rewrite Z.pow_succ_r by lia.
    replace (Z.succ (Z.pos (digits2_pos p)) - 1) with (Z.succ (Z.pos (digits2_pos p) - 1)) by lia.
    rewrite Z.pow_succ_r by lia. lia.
  - rewrite Pos2Z.inj_succ, (Pos2Z.inj_xO p).
    rewrite Z.pow_succ_r by lia.
    replace (Z.succ (Z.pos (digits2_pos p)) - 1) with (Z.succ (Z.pos (digits2_pos p) - 1)) by lia.
    rewrite Z.pow_succ_r by lia. lia.
  - done.
Qed.

Lemma Zdigits2_unique m d : 0 < d -> 2 ^ (d - 1) <= m < 2 ^ d -> Zdigits2 m = d.
Proof.
  intros Hd Hm. assert (0 < 2 ^ (d - 1)) by (apply Z.pow_pos_nonneg; lia).
  pose proof (Zdigits2_bounds m ltac:(lia)) as Hb.
  assert (0 < Zdigits2 m) by (destruct m; simpl; lia).
  destruct (Z.lt_trichotomy (Zdigits2 m) d) as [Hlt|[?|Hgt]]; [|done|].
  - pose proof (Z.pow_le_mono_r 2 (Zdigits2 m) (d - 1)). lia.
  - pose proof (Z.pow_le_mono_r 2 d (Zdigits2 m - 1)). lia.
Qed.
End Rounding.

(** ** Faithful rounding

    A positive significand of at least 53 digits, in the normal range, is
    rounded to one of its two 53-digit neighbours. *)

Section Faithful.
Definition rounds_to (mx ex n : Z) (f : spec_float) (d : Z) : Prop :=
  exists m e, f = S754_finite false m e /\ 2 ^ 52 <= Zpos m < 2 ^ 53 /\
    (d = 0 \/ d = 1) /\
    ((e = ex + n /\ Zpos m = mx / 2 ^ n + d) \/
     (e = ex + n + 1 /\ 2 * Zpos m = mx / 2 ^ n + d)).

Lemma fexp_normal e : -1021 <= e -> fexp prec64 emax64 e = e - 53.
Proof. unfold fexp, emin, prec64, emax64. lia. Qed.

Lemma shr_fexp_normal m e l n :
  0 < m -> 0 <= n -> Zdigits2 m = 53 + n -> -1021 <= 53 + n + e ->
  shr_m (shr_fexp prec64 emax64 m e l).1 = m / 2 ^ n /\
  (shr_fexp prec64 emax64 m e l).2 = e + n.
Proof.
  intros Hm Hn Hd He. unfold shr_fexp. rewrite Hd, fexp_normal by lia.
  replace (53 + n + e - 53 - e) with n by lia.
  pose proof (shr_spec (shr_record_of_loc m l) e n) as Hs.
  rewrite shr_record_of_loc_m in Hs. apply Hs; lia.
Qed.

(** The significand after the shift has exactly 53 digits. *)
Lemma shifted_range m n :
  0 < m -> 0 <= n -> Zdigits2 m = 53 + n -> 2 ^ 52 <= m / 2 ^ n < 2 ^ 53.
Proof.
  intros Hm Hn Hd. pose proof (Zdigits2_bounds m Hm) as Hb. rewrite Hd in Hb.
  replace (53 + n - 1) with (52 + n) in Hb by lia.
  rewrite !Z.pow_add_r in Hb by lia.
  assert (0 < 2 ^ n) by (apply Z.pow_pos_nonneg; lia).
  split; [apply Z.div_le_lower_bound | apply Z.div_lt_upper_bound]; lia.
Qed.

Lemma finish_round m e :
  2 ^ 52 <= m < 2 ^ 53 -> e <= 971 ->
  match m with
  | Z0 => S754_zero false
  | Zpos m => if Z.leb e (Z.sub emax64 prec64) then S754_finite false m e
              else S754_infinity false
  | _ => S754_nan
  end = S754_finite false (Z.to_pos m) e.
Proof.
  intros Hm He. destruct m as [|p|p]; [lia| |lia].
  unfold emax64, prec64. by rewrite (proj2 (Z.leb_le _ _)) by lia.
Qed.

Lemma round_faithful mx ex lx n :
  0 < mx -> 0 <= n -> Zdigits2 mx = 53 + n -> -1021 <= 53 + n + ex <= 1000 ->
  exists d, rounds_to mx ex n (binary_round_aux prec64 emax64 false mx ex lx) d /\
    (n = 0 -> lx = loc_Exact -> d = 0).
Proof.
  intros Hm Hn Hd He. unfold binary_round_aux.
  pose proof (shr_fexp_normal mx ex lx n Hm Hn Hd ltac:(lia)) as [Hs1 Hs2].
  pose proof (shifted_range mx n Hm Hn Hd) as Hr.
  assert (n = 0 -> lx = loc_Exact ->
    loc_of_shr_record (shr_fexp prec64 emax64 mx ex lx).1 = loc_Exact) as Hex.
  { intros -> ->. unfold shr_fexp. rewrite Hd, fexp_normal by lia.
    by replace (53 + 0 + ex - 53 - ex) with 0 by lia. }
  destruct (shr_fexp prec64 emax64 mx ex lx) as [mrs e'] eqn:Hshr; cbn [fst snd] in *.
  rewrite Hs1. clear Hshr.
  destruct (round_nearest_even_near (mx / 2 ^ n) (loc_of_shr_record mrs)) as (d & Hrd & Hd01).
  exists d. split.
  - rewrite Hrd. subst e'.
    destruct (decide (mx / 2 ^ n + d < 2 ^ 53)) as [Hlt|Hge].
    + pose proof (shr_fexp_normal (mx / 2 ^ n + d) (ex + n) loc_Exact 0
        ltac:(lia) ltac:(lia) ltac:(apply Zdigits2_unique; lia) ltac:(lia)) as [Ht1 Ht2].
      destruct (shr_fexp _ _ (mx / 2 ^ n + d) _ _) as [mrs'' e'']; cbn [fst snd] in *.
      rewrite Ht1, Z.div_1_r, finish_round by lia.
      do 2 eexists. split; [done|]. rewrite Z2Pos.id by lia. lia.
    + assert (mx / 2 ^ n + d = 2 ^ 53) as Heq by lia. rewrite Heq.
      pose proof (shr_fexp_normal (2 ^ 53) (ex + n) loc_Exact 1
        ltac:(lia) ltac:(lia) ltac:(done) ltac:(lia)) as [Ht1 Ht2].
      destruct (shr_fexp _ _ (2 ^ 53) _ _) as [mrs'' e'']; cbn [fst snd] in *.
      rewrite Ht1. change (2 ^ 53 / 2 ^ 1) with (2 ^ 52). rewrite finish_round by lia.
      do 2 eexists. split; [done|]. rewrite Z2Pos.id by lia. lia.
  - intros Hn0 Hlx. rewrite (Hex Hn0 Hlx) in Hrd. simpl in Hrd. lia.
Qed.
End Faithful.

(** ** The percentage against exact arithmetic *)

Section Percent.
Lemma pos_iter_xO p n : Zpos (Pos.iter xO p n) = Zpos p * 2 ^ Zpos n.
Proof.
  induction n as [|n IH] using Pos.peano_ind; [simpl; lia|].
  rewrite Pos.iter_succ, (Pos2Z.inj_xO (Pos.iter _ _ _)), IH, Pos2Z.inj_succ.
  rewrite Z.pow_succ_r by lia. ring.
Qed.

(** A positive int32 is represented exactly, with a 53-digit significand. *)
Lemma float64_int z :
  0 < z < 2 ^ 31 ->
  exists p k, float64 z = S754_finite false p (- k) /\ 22 <= k <= 52 /\
    Zpos p = z * 2 ^ k /\ 2 ^ 52 <= Zpos p < 2 ^ 53.
Proof.
  intros Hz. destruct z as [|p|p]; [lia| |lia].
  pose proof (Zdigits2_bounds (Zpos p) ltac:(lia)) as Hb.
  set (D := Zdigits2 (Zpos p)) in *.
  assert (1 <= D <= 31) as HD.
  { split; [unfold D; simpl; lia|]. destruct (Z.le_gt_cases D 31); [done|].
    pose proof (Z.pow_le_mono_r 2 31 (D - 1)). lia. }
  exists (Pos.iter xO p (Z.to_pos (53 - D))), (53 - D).
  assert (Zpos (Pos.iter xO p (Z.to_pos (53 - D))) = Zpos p * 2 ^ (53 - D)) as Hval.
  { rewrite pos_iter_xO. by rewrite Z2Pos.id by lia. }
  assert (2 ^ 52 <= Zpos p * 2 ^ (53 - D) < 2 ^ 53) as Hrange.
  { replace (2 ^ 52) with (2 ^ (D - 1) * 2 ^ (53 - D)) by (rewrite <- Z.pow_add_r by lia; f_equal; lia).
    replace (2 ^ 53) with (2 ^ D * 2 ^ (53 - D)) by (rewrite <- Z.pow_add_r by lia; f_equal; lia).
    assert (0 < 2 ^ (53 - D)) by (apply Z.pow_pos_nonneg; lia). nia. }
  split; [|lia].
  unfold float64, binary_normalize, binary_round, shl_align.
  rewrite fexp_normal by (fold (Zdigits2 (Zpos p)); fold D; lia).
  change (Zpos (digits2_pos p)) with D.
  destruct (D + 0 - 53 - 0) as [|q|q] eqn:Hq; [lia|lia|].
  replace q with (Z.to_pos (53 - D)) by lia.
  set (m := Pos.iter xO p (Z.to_pos (53 - D))) in *.
  destruct (round_faithful (Zpos m) (D + 0 - 53) loc_Exact 0) as (d & (m' & e' & -> & ? & ? & Hme) & Hd0);
    [lia|lia|apply Zdigits2_unique; lia|lia|].
  specialize (Hd0 eq_refl eq_refl). subst d. rewrite Z.div_1_r in Hme.
  destruct Hme as [[-> Hm']|[-> Hm']]; [|lia].
  f_equal; lia.
Qed.

(** A floor of a floored quotient, rescaled. *)
Lemma scaled_floor X P q rm N Q T d :
  0 < N -> 0 < P -> 0 < d -> X = P * q + rm -> 0 <= rm < P ->
  Q * N <= q < (Q + 1) * N -> P * N * T = X * d ->
  Q * d <= T < (Q + 1) * d.
Proof.
  intros HN HP Hd HX Hrm Hq HT.
  assert (Q * N * P <= X < (Q + 1) * N * P) as [Hl Hu] by (clear HT; nia).
  split.
  - apply (Z.mul_le_mono_pos_l _ _ (P * N)); [nia|]. rewrite HT.
    replace (P * N * (Q * d)) with (Q * N * P * d) by ring.
    apply Z.mul_le_mono_nonneg_r; lia.
  - apply (Z.mul_lt_mono_pos_l (P * N)); [nia|]. rewrite HT.
    replace (P * N * ((Q + 1) * d)) with ((Q + 1) * N * P * d) by ring.
    apply Z.mul_lt_mono_pos_r; lia.
Qed.

(** Division: [m1 * 2^-k1] is within one unit in the last place of [r / d]. *)
Lemma fdiv_int r d :
  0 < r < 2 ^ 31 -> 0 < d < 2 ^ 31 ->
  exists m1 k1, fdiv (float64 r) (float64 d) = S754_finite false m1 (- k1) /\
    21 <= k1 <= 83 /\ 2 ^ 52 <= Zpos m1 < 2 ^ 53 /\
    - d <= Zpos m1 * d - r * 2 ^ k1 <= d.
Proof.
  intros Hr Hd.
  destruct (float64_int r Hr) as (pr & kr & -> & Hkr & Hpr & Hprb).
  destruct (float64_int d Hd) as (pd & kd & -> & Hkd & Hpd & Hpdb).
  unfold fdiv, SFdiv, SFdiv_core_binary.
  rewrite !(Zdigits2_unique _ 53) by lia.
  rewrite fexp_normal by lia.
  replace (Z.min (53 + - kr - (53 + - kd) - 53) (- kr - - kd)) with (kd - kr - 53) by lia.
  replace (- kr - - kd - (kd - kr - 53)) with 53 by lia.
  rewrite Z.shiftl_mul_pow2 by lia.
  pose proof (Z.div_mod (Zpos pr * 2 ^ 53) (Zpos pd) ltac:(lia)) as Hdm.
  pose proof (Z.mod_pos_bound (Zpos pr * 2 ^ 53) (Zpos pd) ltac:(lia)) as Hmod.
  unfold Z.div, Z.modulo in Hdm, Hmod.
  destruct (Z.div_eucl (Zpos pr * 2 ^ 53) (Zpos pd)) as [q rm].
  assert (2 ^ 52 <= q < 2 ^ 54) as Hq.
  { clear - Hdm Hmod Hprb Hpdb. split.
    - destruct (Z.le_gt_cases (2 ^ 52) q) as [|Hlt]; [done|].
      pose proof (Z.mul_le_mono_nonneg (Zpos pd) (2 ^ 53) (q + 1) (2 ^ 52)). nia.
    - apply (Z.mul_lt_mono_pos_l (Zpos pd)); lia. }
  change (xorb false false) with false.
  assert (exists n, (n = 0 \/ n = 1) /\ Zdigits2 q = 53 + n) as (n & Hn & Hdig).
  { destruct (Z.lt_ge_cases q (2 ^ 53)).
    - exists 0. split; [lia|]. apply Zdigits2_unique; lia.
    - exists 1. split; [lia|]. apply Zdigits2_unique; lia. }
  destruct (round_faithful q (kd - kr - 53) (new_location (Zpos pd) rm) n)
    as (dl & (m & e & -> & Hm & Hdl & Hme) & _); [lia..|].
  assert (exists c, (c = 0 \/ c = 1) /\ e = kd - kr - 53 + n + c /\
    Zpos m * 2 ^ c = q / 2 ^ n + dl) as (c & Hc & -> & Hmc).
  { destruct Hme as [[-> ?]|[-> ?]]; [exists 0 | exists 1]; lia. }
  assert (q / 2 ^ n * 2 ^ n <= q < (q / 2 ^ n + 1) * 2 ^ n) as Hfl.
  { pose proof (Z.div_mod q (2 ^ n) ltac:(destruct Hn; subst; lia)).
    pose proof (Z.mod_pos_bound q (2 ^ n) ltac:(destruct Hn; subst; lia)). lia. }
  exists m, (53 + kr - kd - n - c). split; [f_equal; lia|].
  split; [lia|]. split; [lia|].
  assert (Zpos pd * 2 ^ n * 2 ^ c * 2 ^ (53 + kr - kd - n - c) * r = Zpos pr * 2 ^ 53 * d) as Hscale.
  { rewrite Hpr, Hpd.
    replace (d * 2 ^ kd * 2 ^ n * 2 ^ c * 2 ^ (53 + kr - kd - n - c) * r)
      with (d * r * (2 ^ kd * 2 ^ n * 2 ^ c * 2 ^ (53 + kr - kd - n - c))) by ring.
    rewrite <- !Z.pow_add_r by lia.
    replace (kd + n + c + (53 + kr - kd - n - c)) with (kr + 53) by lia.
    rewrite Z.pow_add_r by lia. ring. }
  set (K := 2 ^ (53 + kr - kd - n - c)) in *.
  assert (1 <= 2 ^ n <= 2) by (destruct Hn; subst; lia).
  assert (2 ^ c = 1 /\ c = 0 \/ 2 ^ c = 2 /\ c = 1) as HC by (destruct Hc; subst; lia).
  assert (q / 2 ^ n * d <= 2 ^ c * K * r < (q / 2 ^ n + 1) * d) as Hq4.
  { eapply (scaled_floor (Zpos pr * 2 ^ 53) (Zpos pd) q rm (2 ^ n)); try lia. }
  replace (q / 2 ^ n) with (Zpos m * 2 ^ c - dl) in Hq4 by lia.
  clear - Hq4 HC Hdl Hd. destruct HC as [[HC _]|[HC _]], Hdl; subst dl; rewrite HC in Hq4; lia.
Qed.

Lemma float64_100 : float64 100 = S754_finite false (100 * 2 ^ 46)%positive (-46).
Proof. vm_compute. reflexivity. Qed.

(** Multiplication by 100: again within one unit in the last place. *)
Lemma fmul_100 m1 k1 :
  2 ^ 52 <= Zpos m1 < 2 ^ 53 -> 21 <= k1 <= 83 ->
  exists m2 k2, fmul (S754_finite false m1 (- k1)) (float64 100) = S754_finite false m2 (- k2) /\
    13 <= k2 /\ 2 ^ 52 <= Zpos m2 < 2 ^ 53 /\
    - 2 ^ k1 <= Zpos m2 * 2 ^ k1 - 100 * Zpos m1 * 2 ^ k2 <= 2 ^ k1.
Proof.
  intros Hm Hk. rewrite float64_100. unfold fmul, SFmul.
  change (xorb false false) with false.
  rewrite Pos2Z.inj_mul. change (Zpos (100 * 2 ^ 46)) with (100 * 2 ^ 46).
  set (X := Zpos m1 * (100 * 2 ^ 46)).
  assert (exists n, (n = 52 \/ n = 53) /\ Zdigits2 X = 53 + n) as (n & Hn & Hdig).
  { destruct (Z.lt_ge_cases X (2 ^ 105)).
    - exists 52. split; [lia|]. apply Zdigits2_unique; unfold X in *; lia.
    - exists 53. split; [lia|]. apply Zdigits2_unique; unfold X in *; lia. }
  destruct (round_faithful X (- k1 + -46) loc_Exact n)
    as (dl & (m & e & -> & Hm2 & Hdl & Hme) & _); [unfold X; lia|lia|done|lia|].
  assert (exists c, (c = 0 \/ c = 1) /\ e = - k1 + -46 + n + c /\
    Zpos m * 2 ^ c = X / 2 ^ n + dl) as (c & Hc & -> & Hmc).
  { destruct Hme as [[-> ?]|[-> ?]]; [exists 0 | exists 1]; lia. }
  exists m, (k1 + 46 - n - c). split; [f_equal; lia|].
  split; [lia|]. split; [done|].
  assert (X / 2 ^ n * 2 ^ n <= X < (X / 2 ^ n + 1) * 2 ^ n) as Hfl.
  { pose proof (Z.div_mod X (2 ^ n) ltac:(destruct Hn; subst; lia)).
    pose proof (Z.mod_pos_bound X (2 ^ n) ltac:(destruct Hn; subst; lia)). lia. }
  replace (X / 2 ^ n) with (Zpos m * 2 ^ c - dl) in Hfl by lia.
  assert (2 ^ k1 * 2 ^ 46 = 2 ^ n * 2 ^ c * 2 ^ (k1 + 46 - n - c)) as HK.
  { rewrite <- !Z.pow_add_r by lia. f_equal. lia. }
  assert (0 < 2 ^ (k1 + 46 - n - c)) as HK2 by (apply Z.pow_pos_nonneg; lia).
  assert (2 ^ c = 1 \/ 2 ^ c = 2) as HC by (destruct Hc; subst; lia).
  set (K2 := 2 ^ (k1 + 46 - n - c)) in *. set (K1 := 2 ^ k1) in *.
  assert ((Zpos m * 2 ^ c - dl) * 2 ^ n * K2 <= X * K2 < (Zpos m * 2 ^ c - dl + 1) * 2 ^ n * K2) as Hs.
  { split; [apply Z.mul_le_mono_nonneg_r; lia | apply Z.mul_lt_mono_pos_r; lia]. }
  unfold X in Hs.
  set (T := 2 ^ n * K2) in *.
  assert (2 ^ n * 2 ^ c * K2 = T * 2 ^ c) as HT by (unfold T; ring).
  rewrite HT in HK.
  replace ((Zpos m * 2 ^ c - dl) * 2 ^ n * K2) with ((Zpos m * 2 ^ c - dl) * T) in Hs by (unfold T; ring).
  replace ((Zpos m * 2 ^ c - dl + 1) * 2 ^ n * K2) with ((Zpos m * 2 ^ c - dl + 1) * T) in Hs by (unfold T; ring).
  replace (Zpos m1 * (100 * 2 ^ 46) * K2) with (100 * Zpos m1 * K2 * 2 ^ 46) in Hs by ring.
  set (Y := 100 * Zpos m1 * K2) in *.
  assert (0 < T) by (unfold T; apply Z.mul_pos_pos; [destruct Hn; subst; lia|done]).
  clear - Hs HK HC Hdl H.
  destruct HC as [HC|HC], Hdl; subst dl; rewrite HC in *; lia.
Qed.

(** Rounding twice never moves the percentage by [1 / d] or more. *)
Lemma percent_error r d m1 k1 m2 k2 :
  0 < r < 2 ^ 31 -> 0 < d < 2 ^ 31 ->
  21 <= k1 -> 13 <= k2 ->
  2 ^ 52 <= m1 < 2 ^ 53 -> 2 ^ 52 <= m2 < 2 ^ 53 ->
  - d <= m1 * d - r * 2 ^ k1 <= d ->
  - 2 ^ k1 <= m2 * 2 ^ k1 - 100 * m1 * 2 ^ k2 <= 2 ^ k1 ->
  - 2 ^ k2 < m2 * d - 100 * r * 2 ^ k2 < 2 ^ k2.
Proof.
  intros Hr Hd Hk1 Hk2 Hm1 Hm2 He1 He2.
  assert (2 ^ 21 <= 2 ^ k1) as HK1 by (apply Z.pow_le_mono_r; lia).
  assert (2 ^ 13 <= 2 ^ k2) as HK2 by (apply Z.pow_le_mono_r; lia).
  set (K1 := 2 ^ k1) in *. set (K2 := 2 ^ k2) in *.
  set (x := m2 * d - 100 * r * K2).
  assert (K1 * x = d * (m2 * K1 - 100 * m1 * K2) + 100 * K2 * (m1 * d - r * K1)) as Hx
    by (unfold x; ring).
  (* the two error terms, each well below one half *)
  assert (400 * d < K1) as Ha.
  { pose proof (Z.mul_le_mono_nonneg_r (2 ^ 52) m1 d ltac:(lia) ltac:(lia)).
    pose proof (Z.mul_le_mono_nonneg_r r (2 ^ 31) K1 ltac:(lia) ltac:(lia)). lia. }
  assert (4 * d < K2) as Hb.
  { pose proof (Z.mul_le_mono_nonneg_r (2 ^ 52) m2 K1 ltac:(lia) ltac:(lia)).
    assert ((2 ^ 52 - 1) * K1 <= 100 * m1 * K2) as H1 by lia.
    apply (Z.mul_le_mono_nonneg_r _ _ d) in H1; [|lia].
    pose proof (Z.mul_le_mono_nonneg_r r (2 ^ 31) K1 ltac:(lia) ltac:(lia)).
    assert (m1 * d <= 2 ^ 32 * K1) as H2 by lia.
    apply (Z.mul_le_mono_nonneg_l _ _ (100 * K2)) in H2; [|lia].
    assert (K1 * ((2 ^ 52 - 1) * d) <= K1 * (100 * 2 ^ 32 * K2)) as H3 by lia.
    apply Z.mul_le_mono_pos_l in H3; lia. }
  assert (- (d * K1) <= d * (m2 * K1 - 100 * m1 * K2) <= d * K1).
  { split; [rewrite <- Z.mul_opp_r|]; apply Z.mul_le_mono_nonneg_l; lia. }
  assert (- (100 * K2 * d) <= 100 * K2 * (m1 * d - r * K1) <= 100 * K2 * d).
  { split; [rewrite <- Z.mul_opp_r|]; apply Z.mul_le_mono_nonneg_l; lia. }
  assert (K2 * (400 * d) < K2 * K1) by (apply Z.mul_lt_mono_pos_l; lia).
  assert (K1 * (4 * d) < K1 * K2) by (apply Z.mul_lt_mono_pos_l; lia).
  split; apply (Z.mul_lt_mono_pos_l K1); lia.
Qed.

(** The computed percentage [w] satisfies [w <= 100 r / d <= w + 1]. *)
Lemma readyPercent_bounds `{GoPlatform} r d :
  0 <= r < 2 ^ 31 -> 0 < d < 2 ^ 31 -> 100 * r < 2 ^ 31 * d ->
  0 <= readyPercent r d /\ readyPercent r d * d <= 100 * r <= (readyPercent r d + 1) * d.
Proof.
  intros Hr Hd Hfit. destruct (decide (r = 0)) as [->|Hr0].
  { unfold readyPercent. destruct (float64_int d Hd) as (p & k & -> & _).
    rewrite float64_100. change (int32_of_float64 _) with 0. lia. }
  unfold readyPercent.
  destruct (fdiv_int r d ltac:(lia) Hd) as (m1 & k1 & -> & Hk1 & Hm1 & He1).
  destruct (fmul_100 m1 k1 Hm1 Hk1) as (m2 & k2 & -> & Hk2 & Hm2 & He2).
  pose proof (percent_error r d (Zpos m1) k1 (Zpos m2) k2 ltac:(lia) Hd ltac:(lia) Hk2 Hm1 Hm2 He1 He2) as He.
  assert (0 < 2 ^ k2) as HK2 by (apply Z.pow_pos_nonneg; lia).
  unfold int32_of_float64, ftrunc.
  rewrite (proj2 (Z.leb_gt 0 (- k2))) by lia. rewrite Z.opp_involutive.
  pose proof (Z.div_mod (Zpos m2) (2 ^ k2) ltac:(lia)) as Hdm.
  pose proof (Z.mod_pos_bound (Zpos m2) (2 ^ k2) HK2) as Hmod.
  pose proof (Z.div_pos (Zpos m2) (2 ^ k2) ltac:(lia) HK2) as Hpos.
  set (w := Zpos m2 / 2 ^ k2) in *. set (K2 := 2 ^ k2) in *.
  assert (w * d <= 100 * r) as Hle.
  { apply Z.lt_succ_r. apply (Z.mul_lt_mono_pos_l K2); [done|].
    pose proof (Z.mul_le_mono_nonneg_r (K2 * w) (Zpos m2) d ltac:(lia) ltac:(lia)). lia. }
  assert (100 * r <= (w + 1) * d) as Hge.
  { apply Z.lt_succ_r. apply (Z.mul_lt_mono_pos_l K2); [done|].
    pose proof (Z.mul_le_mono_nonneg_r (Zpos m2) (K2 * (w + 1)) d ltac:(lia) ltac:(lia)). lia. }
  rewrite decide_True; [lia|]. split; [lia|].
  apply (Z.mul_lt_mono_pos_r d); lia.
Qed.

(** A fully ready workload always measures exactly 100 percent. *)
Lemma readyPercent_full `{GoPlatform} d : 0 < d < 2 ^ 31 -> readyPercent d d = 100.
Proof.
  intros Hd. unfold readyPercent.
  destruct (float64_int d Hd) as (p & k & -> & Hk & _ & Hp).
  assert (fdiv (S754_finite false p (- k)) (S754_finite false p (- k))
    = S754_finite false (2 ^ 52) (-52)) as ->; [|by vm_compute].
  unfold fdiv, SFdiv, SFdiv_core_binary.
  rewrite (Zdigits2_unique (Zpos p) 53) by lia.
  rewrite fexp_normal by lia.
  replace (Z.min (53 + - k - (53 + - k) - 53) (- k - - k)) with (-53) by lia.
  replace (- k - - k - -53) with 53 by lia.
  rewrite Z.shiftl_mul_pow2 by lia.
  pose proof (Z.div_mul (2 ^ 53) (Zpos p) ltac:(lia)) as Hq.
  pose proof (Z.mod_mul (2 ^ 53) (Zpos p) ltac:(lia)) as Hm.
  rewrite Z.mul_comm in Hq, Hm. unfold Z.div in Hq. unfold Z.modulo in Hm.
  destruct (Z.div_eucl _ _) as [q rm]. subst q rm.
  assert (new_location (Zpos p) 0 = loc_Exact) as ->.
  { unfold new_location. by destruct (Z.even _). }
  by vm_compute.
Qed.
End Percent.
