(* ===== verification/Cluster.v ===== *)
(** * The cluster as klink sees it

    The Kubernetes API server, reached through controller-runtime's client, is
    not part of the repository.  It appears here as an interface: a class
    [KubeClient W] of operations on an arbitrary world [W].  Every call is
    recorded in the trace together with its answer ([Eff]), so a property of a
    trace is a property of the exact sequence of calls klink makes.

    Answers are arbitrary: each call may fail, may return a stale object, and
    may change the world (other controllers run between two calls). *)

From S2P Require Import Prelude Types.

(** ** Workload objects: the fields klink reads and writes *)

Record Deployment := mkDeployment {
  dp_Name : string;
  dp_Namespace : string;
  dp_Replicas : option Z;
  dp_ReadyReplicas : Z
}.

Record StatefulSet := mkStatefulSet {
  ss_Name : string;
  ss_Namespace : string;
  ss_Replicas : option Z;
  ss_ReadyReplicas : Z
}.

Record CronJob := mkCronJob {
  cj_Name : string;
  cj_Namespace : string;
  cj_Suspend : option bool
}.

#[export] Instance Deployment_eq_dec : EqDecision Deployment.
Proof. solve_decision. Defined.
#[export] Instance StatefulSet_eq_dec : EqDecision StatefulSet.
Proof. solve_decision. Defined.
#[export] Instance CronJob_eq_dec : EqDecision CronJob.
Proof. solve_decision. Defined.

(** [k8s.io/apimachinery]'s unstructured objects, used for Argo Rollouts:
    a type with the accessors klink calls.  [NestedInt64] and [NestedString]
    return (value, found, error); the error of [SetNestedField] is ignored by
    klink, which keeps whatever object is left behind. *)
Class UnstructuredLib := {
  Unstructured : Type;
  uns_Name : Unstructured -> string;
  uns_Namespace : Unstructured -> string;
  NestedInt64 : Unstructured -> list string -> Z * bool * option string;
  NestedString : Unstructured -> list string -> string * bool * option string;
  SetNestedField : Unstructured -> Z -> list string -> Unstructured
}.

(** The four accessor structs behind the [workloadAccessor] interface. *)
Inductive workloadAccessor `{UnstructuredLib} :=
  | deploymentAccessor (d : Deployment)
  | statefulSetAccessor (s : StatefulSet)
  | cronJobAccessor (c : CronJob)
  | rolloutAccessor (u : Unstructured).

(** [client.Object]'s GetName and GetNamespace, through the embedded pointer. *)
Definition GetName `{UnstructuredLib} (w : workloadAccessor) : string :=
  match w with
  | deploymentAccessor d => dp_Name d
  | statefulSetAccessor s => ss_Name s
  | cronJobAccessor c => cj_Name c
  | rolloutAccessor u => uns_Name u
  end.

Definition GetNamespace `{UnstructuredLib} (w : workloadAccessor) : string :=
  match w with
  | deploymentAccessor d => dp_Namespace d
  | statefulSetAccessor s => ss_Namespace s
  | cronJobAccessor c => cj_Namespace c
  | rolloutAccessor u => uns_Namespace u
  end.

(** ** What klink sends out *)

(** The JSON body of a notification ([notifyPayload] in notify.go). *)
Record notifyPayload := mkPayload {
  np_WorkloadDependency : string;
  np_Namespace : string;
  np_Phase : string;
  np_PreviousPhase : string;
  np_Message : string;
  np_Dependent : string;
  np_DependentKind : string;
  np_Timestamp : string
}.

#[export] Instance notifyPayload_eq_dec : EqDecision notifyPayload.
Proof. solve_decision. Defined.

(** Operations on the Prometheus vectors of metrics.go, by vector and labels. *)
Inductive MetricOp :=
  | GaugeSet (vec : string) (labels : list string) (v : Z)
  | GaugeInc (vec : string) (labels : list string)
  | GaugeDec (vec : string) (labels : list string)
  | CounterInc (vec : string) (labels : list string).

#[export] Instance MetricOp_eq_dec : EqDecision MetricOp.
Proof. solve_decision. Defined.

(** Arguments of [Recorder.Eventf] after the format string. *)
Inductive fmt_arg :=
  | ArgS (s : string)
  | ArgD (z : Z)
  | ArgDuration (d : Z).

Inductive EventType := EventTypeNormal | EventTypeWarning.

#[export] Instance fmt_arg_eq_dec : EqDecision fmt_arg.
Proof. solve_decision. Defined.
#[export] Instance EventType_eq_dec : EqDecision EventType.
Proof. solve_decision. Defined.

(** [client.ListOption]s used by klink. *)
Inductive ListOption :=
  | InNamespace (ns : string)
  | MatchingFields (index key : string).

#[export] Instance ListOption_eq_dec : EqDecision ListOption.
Proof. solve_decision. Defined.

(** One interaction with the outside, with the answer received. *)
Inductive Eff `{UnstructuredLib} :=
  | EvNow (t : Z)
  | EvGetWD (k : NamespacedName) (r : result WorkloadDependency)
  | EvListWDs (o : ListOption) (r : result (list WorkloadDependency))
  | EvUpdateWD (wd : WorkloadDependency) (r : result WorkloadDependency)
  | EvStatusUpdate (wd : WorkloadDependency) (r : result WorkloadDependency)
  | EvGetDeployment (k : NamespacedName) (r : result Deployment)
  | EvGetStatefulSet (k : NamespacedName) (r : result StatefulSet)
  | EvGetCronJob (k : NamespacedName) (r : result CronJob)
  | EvGetRollout (k : NamespacedName) (r : result Unstructured)
  | EvPatch (base new : workloadAccessor) (r : result unit)
  | EvGetSecret (k : NamespacedName) (r : result (gmap string string))
  | EvEvent (wd : NamespacedName) (t : EventType) (reason fmt : string) (args : list fmt_arg)
  | EvMetric (op : MetricOp)
  | EvNotify (url : string) (p : notifyPayload).

(** ** The interface *)

Class KubeClient `{UnstructuredLib} (W : Type) := {
  kc_Now : W -> Z * W;
  kc_GetWD : NamespacedName -> W -> result WorkloadDependency * W;
  kc_ListWDs : ListOption -> W -> result (list WorkloadDependency) * W;
  kc_UpdateWD : WorkloadDependency -> W -> result WorkloadDependency * W;
  kc_StatusUpdateWD : WorkloadDependency -> W -> result WorkloadDependency * W;
  kc_GetDeployment : NamespacedName -> W -> result Deployment * W;
  kc_GetStatefulSet : NamespacedName -> W -> result StatefulSet * W;
  kc_GetCronJob : NamespacedName -> W -> result CronJob * W;
  kc_GetRollout : NamespacedName -> W -> result Unstructured * W;
  (* [Patch(ctx, new, client.MergeFrom(base))] *)
  kc_Patch : workloadAccessor -> workloadAccessor -> W -> result unit * W;
  kc_GetSecret : NamespacedName -> W -> result (gmap string string) * W
}.

Section Calls.
Context `{UL : UnstructuredLib} {W : Type} `{KC : !KubeClient W}.

Definition MW (A : Type) : Type := M W Eff A.

Definition time_Now : M W Eff Z := interact EvNow kc_Now.
Definition client_GetWD (k : NamespacedName) : M W Eff (result WorkloadDependency) :=
  interact (EvGetWD k) (kc_GetWD k).
Definition client_ListWDs (o : ListOption) : M W Eff (result (list WorkloadDependency)) :=
  interact (EvListWDs o) (kc_ListWDs o).
Definition client_UpdateWD (wd : WorkloadDependency) : M W Eff (result WorkloadDependency) :=
  interact (EvUpdateWD wd) (kc_UpdateWD wd).
Definition client_StatusUpdate (wd : WorkloadDependency) : M W Eff (result WorkloadDependency) :=
  interact (EvStatusUpdate wd) (kc_StatusUpdateWD wd).
Definition client_GetDeployment (k : NamespacedName) : M W Eff (result Deployment) :=
  interact (EvGetDeployment k) (kc_GetDeployment k).
Definition client_GetStatefulSet (k : NamespacedName) : M W Eff (result StatefulSet) :=
  interact (EvGetStatefulSet k) (kc_GetStatefulSet k).
Definition client_GetCronJob (k : NamespacedName) : M W Eff (result CronJob) :=
  interact (EvGetCronJob k) (kc_GetCronJob k).
Definition client_GetRollout (k : NamespacedName) : M W Eff (result Unstructured) :=
  interact (EvGetRollout k) (kc_GetRollout k).
Definition client_Patch (base new : workloadAccessor) : M W Eff (result unit) :=
  interact (EvPatch base new) (kc_Patch base new).
Definition client_GetSecret (k : NamespacedName) : M W Eff (result (gmap string string)) :=
  interact (EvGetSecret k) (kc_GetSecret k).
Definition Eventf (wd : WorkloadDependency) (t : EventType) (reason fmt : string)
    (args : list fmt_arg) : M W Eff unit :=
  emit (EvEvent (wd_key wd) t reason fmt args).

(** [time.Since]. *)
Definition time_Since (t : Z) : M W Eff Z :=
  now ← time_Now; mret (time_sub now t).
End Calls.

#[global] Arguments MW {_} W A.

(** ** Classification of interactions *)

Section Classify.
Context `{UL : UnstructuredLib}.

(** Calls that change a workload. *)
Definition is_patch (e : Eff) : bool :=
  match e with EvPatch _ _ _ => true | _ => false end.

(** Calls that change the stored WorkloadDependency. *)
Definition is_wd_write (e : Eff) : bool :=
  match e with EvUpdateWD _ _ | EvStatusUpdate _ _ => true | _ => false end.

(** Interactions that only observe the cluster, or only report. *)
Definition is_quiet (e : Eff) : bool :=
  negb (is_patch e) && negb (is_wd_write e).
End Classify.
