(* ===== verification/Workload.v ===== *)
(** * Workload accessors

    The [workloadAccessor] interface of workloaddependency_controller.go and its
    four implementations (Deployment, StatefulSet, CronJob, and the Argo Rollout
    of rollout.go), with [getWorkload]. *)

From S2P Require Import Prelude Types Cluster.

(** ** Argo Rollout phases (rollout.go) *)

Definition rolloutPhaseHealthy : string := "Healthy".
Definition rolloutPhaseDegraded : string := "Degraded".
Definition rolloutPhaseProgressing : string := "Progressing".
Definition rolloutPhasePaused : string := "Paused".

Section Accessors.
Context `{UL : UnstructuredLib}.

Definition rollout_getReplicas (u : Unstructured) : Z :=
  match NestedInt64 u ["spec"; "replicas"] with
  | (_, _, Some _) => 1
  | (_, false, _) => 1
  | (r, true, None) => int32 r
  end.

Definition rollout_setReplicas (u : Unstructured) (n : Z) : Unstructured :=
  SetNestedField u (int64 n) ["spec"; "replicas"].

Definition rollout_phase (u : Unstructured) : string :=
  let '(p, _, _) := NestedString u ["status"; "phase"] in p.

Definition isProgressing (u : Unstructured) : bool :=
  bool_decide (rollout_phase u = rolloutPhaseProgressing).

Definition isHealthyAsDependency (u : Unstructured) : bool :=
  bool_decide (rollout_phase u = rolloutPhaseHealthy) ||
  bool_decide (rollout_phase u = rolloutPhaseProgressing) ||
  bool_decide (rollout_phase u = rolloutPhasePaused).

(** *** The interface methods *)

Definition getReplicas (w : workloadAccessor) : Z :=
  match w with
  | deploymentAccessor d => default 1 (dp_Replicas d)
  | statefulSetAccessor s => default 1 (ss_Replicas s)
  | cronJobAccessor _ => -1
  | rolloutAccessor u => rollout_getReplicas u
  end.

Definition setReplicas (w : workloadAccessor) (n : Z) : workloadAccessor :=
  match w with
  | deploymentAccessor d =>
      deploymentAccessor (mkDeployment (dp_Name d) (dp_Namespace d) (Some n) (dp_ReadyReplicas d))
  | statefulSetAccessor s =>
      statefulSetAccessor (mkStatefulSet (ss_Name s) (ss_Namespace s) (Some n) (ss_ReadyReplicas s))
  | cronJobAccessor c => cronJobAccessor c
  | rolloutAccessor u => rolloutAccessor (rollout_setReplicas u n)
  end.

Definition isSuspended (w : workloadAccessor) : bool :=
  match w with
  | cronJobAccessor c => match cj_Suspend c with Some b => b | None => false end
  | _ => false
  end.

Definition setSuspend (w : workloadAccessor) (v : bool) : workloadAccessor :=
  match w with
  | cronJobAccessor c => cronJobAccessor (mkCronJob (cj_Name c) (cj_Namespace c) (Some v))
  | _ => w
  end.

(** [ro, ok := w.( *rolloutAccessor); ok && ro.isProgressing()] *)
Definition rollout_progressing (w : workloadAccessor) : bool :=
  match w with rolloutAccessor u => isProgressing u | _ => false end.

(** What the unstructured library promises about the two nested fields klink
    touches: a path that can be read without a type error can be set, an int64
    set there is read back, and name, namespace and phase are not disturbed. *)
Class UnstructuredLaws : Prop := {
  nested_int64_set u n : (NestedInt64 u ["spec"; "replicas"]).2 = None ->
    NestedInt64 (SetNestedField u n ["spec"; "replicas"]) ["spec"; "replicas"] = (n, true, None);
  set_nested_name u n : uns_Name (SetNestedField u n ["spec"; "replicas"]) = uns_Name u;
  set_nested_namespace u n :
    uns_Namespace (SetNestedField u n ["spec"; "replicas"]) = uns_Namespace u;
  set_nested_phase u n :
    NestedString (SetNestedField u n ["spec"; "replicas"]) ["status"; "phase"] =
    NestedString u ["status"; "phase"]
}.
End Accessors.

(** ** Lookup *)

Section Lookup.
Context `{UL : UnstructuredLib} {W : Type} `{KC : !KubeClient W}.

Definition getRollout (name ns : string) : MW W (result workloadAccessor) :=
  r ← client_GetRollout (mkNN ns name);
  mret (match r with Ok u => Ok (rolloutAccessor u) | Err e => Err e end).

Definition getWorkload (kind name ns : string) : MW W (result workloadAccessor) :=
  let key := mkNN ns name in
  if decide (kind = "StatefulSet") then
    r ← client_GetStatefulSet key;
    mret (match r with Ok o => Ok (statefulSetAccessor o) | Err e => Err e end)
  else if decide (kind = "CronJob") then
    r ← client_GetCronJob key;
    mret (match r with Ok o => Ok (cronJobAccessor o) | Err e => Err e end)
  else if decide (kind = "Rollout") then getRollout name ns
  else
    r ← client_GetDeployment key;
    mret (match r with Ok o => Ok (deploymentAccessor o) | Err e => Err e end).
End Lookup.
