(* ===== verification/Metrics.v ===== *)
(** * Prometheus metrics (internal/controller/metrics.go)

    The recording functions emit operations on the five metric vectors.  What a
    vector holds after a trace is the documented meaning of those operations:
    [Set] overwrites the child with the given labels, [Inc] and [Dec] move it by
    one, and a child starts at zero. *)

From S2P Require Import Prelude Types Cluster.

Definition dependencyPhase : string := "klink_dependency_phase".
Definition scaleToZeroTotal : string := "klink_scale_to_zero_total".
Definition replicasRestoredTotal : string := "klink_replicas_restored_total".
Definition reconcileErrorsTotal : string := "klink_reconcile_errors_total".
Definition suspendedWorkloads : string := "klink_suspended_workloads".

Definition allPhases : list string :=
  ["Healthy"; "Degraded"; "Suspended"; "Paused"; "Unknown"].

Section Record.
Context `{UL : UnstructuredLib} {W : Type}.

Definition recordPhase (namespace name phase : string) : M W Eff unit :=
  for_range allPhases (fun p =>
    let val := if decide (p = phase) then 1 else 0 in
    emit (EvMetric (GaugeSet dependencyPhase [namespace; name; p] val))).

Definition recordScaleToZero (namespace kind name : string) : M W Eff unit :=
  emit (EvMetric (CounterInc scaleToZeroTotal [namespace; kind; name])) ≫= fun _ =>
  emit (EvMetric (GaugeInc suspendedWorkloads [namespace; kind])).

Definition recordReplicasRestored (namespace kind name : string) : M W Eff unit :=
  emit (EvMetric (CounterInc replicasRestoredTotal [namespace; kind; name])) ≫= fun _ =>
  emit (EvMetric (GaugeDec suspendedWorkloads [namespace; kind])).

Definition recordReconcileError (namespace errorType : string) : M W Eff unit :=
  emit (EvMetric (CounterInc reconcileErrorsTotal [namespace; errorType])).
End Record.

(** ** Meaning of a metric trace *)

Section Meaning.
Context `{UL : UnstructuredLib}.

Definition metric_step (vec : string) (labels : list string) (v : Z) (e : Eff) : Z :=
  match e with
  | EvMetric (GaugeSet vec' ls x) => if decide (vec' = vec /\ ls = labels) then x else v
  | EvMetric (GaugeInc vec' ls) => if decide (vec' = vec /\ ls = labels) then v + 1 else v
  | EvMetric (GaugeDec vec' ls) => if decide (vec' = vec /\ ls = labels) then v - 1 else v
  | EvMetric (CounterInc vec' ls) => if decide (vec' = vec /\ ls = labels) then v + 1 else v
  | _ => v
  end.

Definition metric_value (vec : string) (labels : list string) (v0 : Z) (tr : list Eff) : Z :=
  fold_left (metric_step vec labels) tr v0.

Lemma metric_value_app vec labels v0 tr1 tr2 :
  metric_value vec labels v0 (tr1 ++ tr2) =
  metric_value vec labels (metric_value vec labels v0 tr1) tr2.
Proof. apply fold_left_app. Qed.
End Meaning.

(** ** Properties *)

Section Props.
Context `{UL : UnstructuredLib} {W : Type}.

Lemma recordPhase_trace (ns name phase : string) :
  (recordPhase ns name phase : M W Eff unit) ⊨ fun _ tr =>
    tr = (fun p => EvMetric (GaugeSet dependencyPhase [ns; name; p]
                    (if decide (p = phase) then 1 else 0))) <$> allPhases.
Proof. unfold recordPhase, allPhases, for_range. trace_auto. done. Qed.

Lemma recordPhase_quiet (ns name phase : string) (P : Eff -> Prop) :
  (forall op, P (EvMetric op)) -> emits P (recordPhase ns name phase : M W Eff unit).
Proof. intros HP. apply emits_for_range. intros. by apply emits_emit. Qed.

Lemma recordScaleToZero_quiet (ns kind name : string) (P : Eff -> Prop) :
  (forall op, P (EvMetric op)) -> emits P (recordScaleToZero ns kind name : M W Eff unit).
Proof. intros HP. unfold recordScaleToZero. emit_auto; done. Qed.

Lemma recordReplicasRestored_quiet (ns kind name : string) (P : Eff -> Prop) :
  (forall op, P (EvMetric op)) -> emits P (recordReplicasRestored ns kind name : M W Eff unit).
Proof. intros HP. unfold recordReplicasRestored. emit_auto; done. Qed.

Lemma recordReconcileError_quiet (ns ty : string) (P : Eff -> Prop) :
  (forall op, P (EvMetric op)) -> emits P (recordReconcileError ns ty : M W Eff unit).
Proof. intros HP. unfold recordReconcileError. emit_auto; done. Qed.

(** An event that leaves the child of [vec] with these labels alone. *)
Definition spares (vec : string) (labels : list string) (e : Eff) : Prop :=
  forall v, metric_step vec labels v e = v.

Lemma spared_value vec labels v0 (tr : list Eff) :
  Forall (spares vec labels) tr -> metric_value vec labels v0 tr = v0.
Proof. induction 1 as [|e tr He _ IH]; [done|]. unfold metric_value in *. simpl. by rewrite He. Qed.

Lemma other_metric_spares vec labels vec' labels' v :
  vec' <> vec \/ labels' <> labels -> spares vec labels (EvMetric (GaugeSet vec' labels' v)).
Proof. intros Hne v'. simpl. apply decide_False. intros [? ?]. by destruct Hne. Qed.

(** The gauges of a dependency after [recordPhase]: one-hot over the table, and
    nothing else is touched. *)
Lemma recordPhase_gauges (ns name phase : string) :
  (recordPhase ns name phase : M W Eff unit) ⊨ fun _ tr =>
    (forall p v0, p ∈ allPhases ->
       metric_value dependencyPhase [ns; name; p] v0 tr = if decide (p = phase) then 1 else 0) /\
    (forall vec labels, vec <> dependencyPhase \/ (forall p, labels <> [ns; name; p]) ->
       Forall (spares vec labels) tr).
Proof.
  eapply tspec_mono; [apply recordPhase_trace|]. intros [] tr ->. split.
  - intros p v0 Hp. unfold allPhases in *. unfold metric_value, metric_step. simpl fold_left.
    repeat (apply elem_of_cons in Hp as [->|Hp];
      [by repeat first [rewrite (decide_True _ _ (conj eq_refl eq_refl))
                       |rewrite (decide_False (P := _ /\ _)) by (intros [_ ?]; discriminate)]|]).
    by apply not_elem_of_nil in Hp.
  - intros vec labels Hne. apply Forall_fmap, Forall_forall. intros p _. apply other_metric_spares.
    destruct Hne as [?|Hl]; [by left|]. right. intros He. by apply (Hl p).
Qed.
End Props.
