(* ===== verification/Notify.v ===== *)
(** * Phase-change notifications (internal/controller/notify.go)

    [maybeNotify] decides whether a transition is announced, resolves the URL
    and hands the payload to a goroutine, recorded as [EvNotify].  The goroutine
    itself, [sendNotification], talks HTTP: its own interface [HttpClient] and
    trace [HttpEff] keep it apart from the reconciler. *)

From S2P Require Import Prelude Types Cluster.

(** ** RFC 3339 timestamps

    [time.Now().UTC().Format(time.RFC3339)], from nanoseconds since the Unix
    epoch, with the usual era/day-of-era computation of the civil date. *)

Definition civil_from_days (z0 : Z) : Z * Z * Z :=
  let z := z0 + 719468 in
  let era := z / 146097 in
  let doe := z - era * 146097 in
  let yoe := (doe - doe / 1460 + doe / 36524 - doe / 146096) / 365 in
  let doy := doe - (365 * yoe + yoe / 4 - yoe / 100) in
  let mp := (5 * doy + 2) / 153 in
  let d := doy - (153 * mp + 2) / 5 + 1 in
  let m := if mp <? 10 then mp + 3 else mp - 9 in
  (yoe + era * 400 + (if m <=? 2 then 1 else 0), m, d).

Definition pad2 (z : Z) : string := if z <? 10 then "0" +:+ fmt_d z else fmt_d z.
Definition pad4 (z : Z) : string :=
  if z <? 10 then "000" +:+ fmt_d z
  else if z <? 100 then "00" +:+ fmt_d z
  else if z <? 1000 then "0" +:+ fmt_d z else fmt_d z.

Definition format_RFC3339 (t : Z) : string :=
  let secs := t / Second in
  let '(y, mo, d) := civil_from_days (secs / 86400) in
  let s := secs mod 86400 in
  pad4 y +:+ "-" +:+ pad2 mo +:+ "-" +:+ pad2 d +:+ "T" +:+
  pad2 (s / 3600) +:+ ":" +:+ pad2 (s / 60 mod 60) +:+ ":" +:+ pad2 (s mod 60) +:+ "Z".

Example rfc3339_example : format_RFC3339 (1781258400 * Second) = "2026-06-12T10:00:00Z".
Proof. vm_compute. reflexivity. Qed.

(** ** Deciding and addressing a notification *)

Definition shouldNotify (onPhases : list string) (phase : string) : bool :=
  match onPhases with
  | [] => bool_decide (phase = PhaseSuspended) || bool_decide (phase = PhaseHealthy)
  | _ => existsb (fun p => bool_decide (p = phase)) onPhases
  end.

Section Notify.
Context `{UL : UnstructuredLib} {W : Type} `{KC : !KubeClient W}.

(** [spec.notify] is non-nil at every call site. *)
Definition resolveWebhookURL (wd : WorkloadDependency) (n : NotifySpec) : MW W (result string) :=
  match WebhookSecretRef n with
  | Some ref =>
      r ← client_GetSecret (mkNN (wd_Namespace wd) (sk_Name ref));
      match r with
      | Err e => mret (Err (ErrOther ("get webhook secret " +:+ sk_Name ref)))
      | Ok data =>
          let key := if decide (sk_Key ref = "") then "url" else sk_Key ref in
          match data !! key with
          | None => mret (Err (ErrOther ("webhook secret " +:+ sk_Name ref +:+ " has no key")))
          | Some url => mret (Ok url)
          end
      end
  | None => mret (Ok (Webhook n))
  end.

Definition maybeNotify (wd : WorkloadDependency) (prevPhase newPhase : string) : MW W unit :=
  match Notify (wd_Spec wd) with
  | None => mret tt
  | Some n =>
      if negb (shouldNotify (OnPhases n) newPhase) then mret tt
      else
        r ← resolveWebhookURL wd n;
        match r with
        | Err _ => mret tt
        | Ok url =>
            if decide (url = "") then mret tt
            else
              now ← time_Now;
              emit (EvNotify url (mkPayload (wd_Name wd) (wd_Namespace wd) newPhase prevPhase
                (Message (wd_Status wd)) (ref_Name (Dependent (wd_Spec wd)))
                (ref_Kind (Dependent (wd_Spec wd))) (format_RFC3339 now)))
        end
  end.
End Notify.

Section NotifySpecs.
Context `{UL : UnstructuredLib} {W : Type} `{KC : !KubeClient W}.

(** The payload of a transition of [wd] from [prev] to [phase] at time [t]. *)
Definition payload_of (wd : WorkloadDependency) (prev phase : string) (t : Z) : notifyPayload :=
  mkPayload (wd_Name wd) (wd_Namespace wd) phase prev (Message (wd_Status wd))
    (ref_Name (Dependent (wd_Spec wd))) (ref_Kind (Dependent (wd_Spec wd))) (format_RFC3339 t).

(** Where the notification of [wd] goes, given the secret read in [tr]. *)
Definition notify_url (wd : WorkloadDependency) (n : NotifySpec) (tr : list Eff) (url : string) : Prop :=
  match WebhookSecretRef n with
  | None => url = Webhook n
  | Some ref => exists data, EvGetSecret (mkNN (wd_Namespace wd) (sk_Name ref)) (Ok data) ∈ tr /\
      data !! (if decide (sk_Key ref = "") then "url" else sk_Key ref) = Some url
  end.

Lemma notify_url_mono wd n tr tr0 url :
  notify_url wd n tr url -> notify_url wd n (tr0 ++ tr) url.
Proof.
  unfold notify_url. destruct (WebhookSecretRef n); [|done].
  intros (data & ? & ?). exists data. split; [|done]. apply elem_of_app. by right.
Qed.

(** Only a configured phase is announced, and only to the configured URL. *)
Lemma maybeNotify_spec wd prev phase :
  (maybeNotify wd prev phase : MW W unit) ⊨ fun _ tr =>
    Forall (fun e => is_quiet e) tr /\
    forall url p, EvNotify url p ∈ tr -> exists n t,
      Notify (wd_Spec wd) = Some n /\ shouldNotify (OnPhases n) phase = true /\
      notify_url wd n tr url /\ url <> "" /\ p = payload_of wd prev phase t.
Proof.
  assert (forall tr : list Eff, Forall (fun e => is_quiet e && negb (match e with EvNotify _ _ => true | _ => false end)) tr ->
    forall url p, EvNotify url p ∉ tr) as Hno.
  { intros tr Hf url p Hin. rewrite Forall_forall in Hf. by apply Hf in Hin. }
  unfold maybeNotify. destruct (Notify (wd_Spec wd)) as [n|];
    [|apply tspec_ret; split; [done|]; by intros url p ?%not_elem_of_nil].
  destruct (shouldNotify (OnPhases n) phase) eqn:Hs; simpl;
    [|apply tspec_ret; split; [done|]; by intros url p ?%not_elem_of_nil].
  eapply (tspec_bind _ _ (fun r tr =>
    Forall (fun e => is_quiet e && negb (match e with EvNotify _ _ => true | _ => false end)) tr /\
    forall url, r = Ok url -> notify_url wd n tr url)).
  - unfold resolveWebhookURL, notify_url, client_GetSecret.
    destruct (WebhookSecretRef n) as [ref|].
    + apply tspec_bind_interact. intros [data|e]; [|apply tspec_ret; split; [by repeat constructor|done]].
      destruct (data !! _) as [url|] eqn:Hd; apply tspec_ret; (split; [by repeat constructor|]); [|done].
      intros ? [= <-]. exists data. split; [left|done].
    + apply tspec_ret. split; [done|]. by intros url [= ->].
  - intros r tr [Hq Hurl].
    assert (Forall (fun e => is_quiet e) tr) as Hq' by (eapply List.Forall_impl; [|exact Hq]; intros []; done).
    destruct r as [url|e].
    2: { apply tspec_ret. rewrite app_nil_r. split; [done|]. by intros u p ?%Hno. }
    destruct (decide (url = "")) as [|Hne].
    { apply tspec_ret. rewrite app_nil_r. split; [done|]. by intros u p ?%Hno. }
    apply tspec_bind_interact. intros t. apply tspec_emit. split.
    { apply Forall_app_2; [done|]. by repeat constructor. }
    intros u p Hin. apply elem_of_app in Hin as [Hin|Hin]; [by apply Hno in Hin|].
    apply elem_of_cons in Hin as [?|[= -> ->]%list_elem_of_singleton]; [done|].
    exists n, t. split; [done|]. split; [done|]. split; [|done].
    specialize (Hurl url eq_refl). unfold notify_url in *. destruct (WebhookSecretRef n); [|done].
    destruct Hurl as (data & ? & ?). exists data. split; [|done]. apply elem_of_app. by left.
Qed.
End NotifySpecs.

(** ** Delivery *)

Definition notifyMaxRetries : nat := 3.

Inductive HttpEff :=
  | HtAfter (backoff : Z) (ctxDone : bool)
  | HtNewRequest (url : string) (failed : bool)
  | HtDo (url : string) (p : notifyPayload) (status : option Z).

(** [ctx.Done()] against [time.After], [http.NewRequestWithContext] and
    [httpClient.Do]: [None] is a transport error. *)
Class HttpClient (H : Type) := {
  ht_After : Z -> H -> bool * H;
  ht_NewRequest : string -> H -> bool * H;
  ht_Do : string -> notifyPayload -> H -> option Z * H
}.

(** How a delivery ends; the source only logs it. *)
Inductive delivery := CtxDone | BadRequest | Rejected (code : Z) | Sent (attempt : nat) | GaveUp.

Section Send.
Context {H : Type} `{HC : HttpClient H}.

(** Rounds [attempt .. notifyMaxRetries - 1] of the retry loop, [fuel] of them. *)
Fixpoint send_loop (fuel attempt : nat) (url : string) (p : notifyPayload) : M H HttpEff delivery :=
  match fuel with
  | O => mret GaveUp
  | S fuel' =>
      cancelled ← (if decide (attempt = 0%nat) then mret false
                   else let backoff := Z.shiftl 1 (Z.of_nat attempt - 1) * Second in
                        interact (HtAfter backoff) (ht_After backoff));
      if cancelled : bool then mret CtxDone
      else
        bad ← interact (HtNewRequest url) (ht_NewRequest url);
        if bad : bool then mret BadRequest
        else
          resp ← interact (HtDo url p) (ht_Do url p);
          match resp with
          | None => send_loop fuel' (S attempt) url p
          | Some code =>
              if 500 <=? code then send_loop fuel' (S attempt) url p
              else if 400 <=? code then mret (Rejected code)
              else mret (Sent (S attempt))
          end
  end.

Definition sendNotification (url : string) (p : notifyPayload) : M H HttpEff delivery :=
  send_loop notifyMaxRetries 0 url p.
End Send.

(** ** What a delivery does *)

Section SendSpec.
Context {H : Type} `{HC : HttpClient H}.

(** The posts of a delivery, with their answers, and the waits between them. *)
Definition attempts (tr : list HttpEff) : list (string * notifyPayload * option Z) :=
  omap (fun e => match e with HtDo u q st => Some (u, q, st) | _ => None end) tr.
Definition waits (tr : list HttpEff) : list Z :=
  omap (fun e => match e with HtAfter d _ => Some d | _ => None end) tr.

(** Worth another attempt: a transport error or a 5xx answer. *)
Definition retryable (a : string * notifyPayload * option Z) : Prop :=
  match a.2 with None => True | Some code => 500 <= code end.

(** Every wait pays for one attempt, and [slack] attempts are free. *)
Fixpoint paced (slack : nat) (tr : list HttpEff) : Prop :=
  match tr with
  | [] => True
  | HtAfter _ _ :: tr' => paced (S slack) tr'
  | HtDo _ _ _ :: tr' => match slack with O => False | S slack' => paced slack' tr' end
  | HtNewRequest _ _ :: tr' => paced slack tr'
  end.

(** How the answers and the end of the delivery fit together. *)
Definition concluded (fuel a : nat) (url : string) (p : notifyPayload) (d : delivery) (tr : list HttpEff) : Prop :=
  match d with
  | Sent k => exists before code, attempts tr = before ++ [(url, p, Some code)] /\ code < 400 /\
      Forall retryable before /\ k = (a + length (attempts tr))%nat
  | Rejected code => exists before, attempts tr = before ++ [(url, p, Some code)] /\ 400 <= code < 500 /\
      Forall retryable before
  | GaveUp => length (attempts tr) = fuel /\ Forall retryable (attempts tr)
  | BadRequest => HtNewRequest url true ∈ tr /\ Forall retryable (attempts tr)
  | CtxDone => (exists d, HtAfter d true ∈ tr) /\ Forall retryable (attempts tr)
  end.

(** [fuel] rounds from attempt [a] on. *)
Record delivered (fuel a : nat) (url : string) (p : notifyPayload) (d : delivery) (tr : list HttpEff) : Prop := {
  dl_bounded : (length (attempts tr) <= fuel)%nat;
  dl_same : Forall (fun t => t.1 = (url, p)) (attempts tr);
  dl_paced : paced (if decide (a = 0%nat) then 1 else 0) tr;
  dl_waits i w : waits tr !! i = Some w -> w = Z.shiftl 1 (Z.of_nat (Nat.pred a + i)) * Second;
  dl_end : concluded fuel a url p d tr
}.

(** The wait before attempt [i], none before the first. *)
Definition backoff_wait (i : nat) : list HttpEff :=
  if decide (i = 0%nat) then [] else [HtAfter (Z.shiftl 1 (Z.of_nat i - 1) * Second) false].

Lemma backoff_pays a tr :
  paced 1 tr -> paced (if decide (a = 0%nat) then 1 else 0) (backoff_wait a ++ tr).
Proof. unfold backoff_wait. by case_decide. Qed.

Lemma backoff_attempts a tr : attempts (backoff_wait a ++ tr) = attempts tr.
Proof. unfold backoff_wait. by case_decide. Qed.

(** The waits of a round that starts with its backoff, if the later ones fit. *)
Lemma backoff_waits a tr :
  (forall i w, waits tr !! i = Some w -> w = Z.shiftl 1 (Z.of_nat (a + i)) * Second) ->
  forall i w, waits (backoff_wait a ++ tr) !! i = Some w ->
    w = Z.shiftl 1 (Z.of_nat (Nat.pred a + i)) * Second.
Proof.
  intros Hw i w. unfold backoff_wait. case_decide as Ha; [subst a; apply Hw|].
  change (waits ([HtAfter (Z.shiftl 1 (Z.of_nat a - 1) * Second) false] ++ tr))
    with ((Z.shiftl 1 (Z.of_nat a - 1) * Second) :: waits tr).
  destruct i as [|i]; cbn [lookup list_lookup].
  - intros [= <-]. do 2 f_equal. lia.
  - intros Hi%Hw. rewrite Hi. do 3 f_equal. lia.
Qed.

(** A delivery that posts at most once more. *)
Lemma delivered_stop fuel a url p d tr :
  (length (attempts tr) <= 1)%nat -> Forall (fun t => t.1 = (url, p)) (attempts tr) ->
  paced 1 tr -> waits tr = [] -> concluded (S fuel) a url p d (backoff_wait a ++ tr) ->
  delivered (S fuel) a url p d (backoff_wait a ++ tr).
Proof.
  intros Hl Hs Hp Hw Hc. split; rewrite ?backoff_attempts; [lia|done|by apply backoff_pays| |done].
  apply backoff_waits. by rewrite Hw.
Qed.

Lemma delivered_retry fuel a url p d st tr :
  retryable (url, p, st) -> delivered fuel (S a) url p d tr ->
  delivered (S fuel) a url p d (backoff_wait a ++ HtNewRequest url false :: HtDo url p st :: tr).
Proof.
  intros Hr [Hb Hs Hp Hw Hd].
  change (HtNewRequest url false :: HtDo url p st :: tr) with ([HtNewRequest url false; HtDo url p st] ++ tr).
  assert (forall l, attempts ([HtNewRequest url false; HtDo url p st] ++ l) = (url, p, st) :: attempts l) as Ha by done.
  split; rewrite ?backoff_attempts, ?Ha; simpl length.
  - lia.
  - by constructor.
  - apply backoff_pays. exact Hp.
  - apply backoff_waits. exact Hw.
  - unfold concluded in *. rewrite ?backoff_attempts, ?Ha. destruct d.
    + destruct Hd as [[w Hin] Hf]. split; [|by constructor].
      exists w. rewrite !elem_of_app. auto.
    + destruct Hd as [Hin Hf]. split; [|by constructor]. rewrite !elem_of_app. auto.
    + destruct Hd as (before & -> & Hc & Hf). exists ((url, p, st) :: before). split; [done|].
      split; [done|by constructor].
    + destruct Hd as (before & code & Hb' & Hc & Hf & ->). rewrite Hb'. exists ((url, p, st) :: before), code.
      split; [done|]. split; [done|]. split; [by constructor|]. simpl. lia.
    + destruct Hd as [Hlen Hf]. split; [simpl; lia|by constructor].
Qed.

Lemma send_loop_spec fuel a url p :
  (send_loop fuel a url p : M H HttpEff delivery) ⊨ delivered fuel a url p.
Proof.
  revert a. induction fuel as [|fuel IH]; intros a; cbn [send_loop].
  { apply tspec_ret. split; [done|constructor|by case_decide|by intros []|split; [done|constructor]]. }
  assert (((bad ← interact (HtNewRequest url) (ht_NewRequest url);
        if bad : bool then mret BadRequest
        else resp ← interact (HtDo url p) (ht_Do url p);
          match resp with
          | None => send_loop fuel (S a) url p
          | Some code =>
              if 500 <=? code then send_loop fuel (S a) url p
              else if 400 <=? code then mret (Rejected code)
              else mret (Sent (S a))
          end) : M H HttpEff delivery)
    ⊨ fun d tr => delivered (S fuel) a url p d (backoff_wait a ++ tr)) as Hround.
  { apply tspec_bind_interact. intros [].
    { apply tspec_ret, delivered_stop; [simpl; lia|constructor|done|done|].
      split; [|rewrite backoff_attempts; constructor]. rewrite elem_of_app. right. left. }
    apply tspec_bind_interact. intros st.
    assert (retryable (url, p, st) -> (send_loop fuel (S a) url p : M H HttpEff delivery) ⊨ fun d tr =>
      delivered (S fuel) a url p d (backoff_wait a ++ HtNewRequest url false :: HtDo url p st :: tr)) as Hretry.
    { intros Hst. eapply tspec_mono; [apply IH|]. intros d tr. by apply delivered_retry. }
    destruct st as [code|]; [|by apply Hretry].
    destruct (Z.leb_spec 500 code); [by apply Hretry|].
    destruct (Z.leb_spec 400 code); apply tspec_ret, delivered_stop; simpl; try done; try (by repeat constructor).
    - exists []. rewrite backoff_attempts. split; [done|]. split; [done|constructor].
    - exists [], code. rewrite backoff_attempts. split; [done|]. split; [done|]. split; [constructor|]. simpl. lia. }
  unfold backoff_wait in Hround. destruct (decide (a = 0%nat)) as [->|Hne]; [exact Hround|].
  apply tspec_bind_interact. intros []; [|exact Hround]. apply tspec_ret. split.
  - simpl. lia.
  - constructor.
  - by rewrite decide_False.
  - intros [|i] w; simpl; [|done]. intros [= <-]. do 2 f_equal. lia.
  - split; [eexists; left|constructor].
Qed.

(** C18: delivery of a notification.  It always ends, with at most three posts, all
    of the same payload to the same URL; every post but the last met a transport
    error or a 5xx answer, a wait precedes every retry, and the waits double from
    one second.  It counts as sent exactly on an answer below 400, is rejected on
    another 4xx, is given up only after three retryable answers, and otherwise
    stops because the URL makes no request or the context is cancelled. *)
Theorem sendNotification_bounded url p :
  (sendNotification url p : M H HttpEff delivery) ⊨ fun d tr =>
    (length (attempts tr) <= 3)%nat /\ Forall (fun t => t.1 = (url, p)) (attempts tr) /\
    paced 1 tr /\ (forall i w, waits tr !! i = Some w -> w = 2 ^ Z.of_nat i * Second) /\
    match d with
    | Sent k => exists before code, attempts tr = before ++ [(url, p, Some code)] /\ code < 400 /\
        Forall retryable before /\ k = length (attempts tr)
    | Rejected code => exists before, attempts tr = before ++ [(url, p, Some code)] /\
        400 <= code < 500 /\ Forall retryable before
    | GaveUp => length (attempts tr) = 3%nat /\ Forall retryable (attempts tr)
    | BadRequest => HtNewRequest url true ∈ tr /\ Forall retryable (attempts tr)
    | CtxDone => (exists w, HtAfter w true ∈ tr) /\ Forall retryable (attempts tr)
    end.
Proof.
  eapply tspec_mono; [apply (send_loop_spec notifyMaxRetries 0)|].
  intros d tr [Hb Hs Hp Hw Hd]. do 3 (split; [done|]). split; [|by destruct d].
  intros i w Hi%Hw. by rewrite Hi, Z.shiftl_1_l by lia.
Qed.
End SendSpec.
