(* ===== verification/Status.v ===== *)
(** * Writing the status (setStatus and setCondition)

    [setStatus] is the only place where the reconciler writes the status
    subresource: it applies the caller's fields, retries on conflicts after a
    re-read, records metrics and sends the notification. *)

From S2P Require Import Prelude Types Cluster Metrics Notify.

(** [ctrl.Result], and the pair every handler returns. *)
Record Result := mkResult { Requeue : bool; RequeueAfter : Z }.
Definition Ret : Type := Result * option api_error.
Definition noResult : Result := mkResult false 0.
Definition after (d : Z) : Result := mkResult false d.

#[export] Instance Result_eq_dec : EqDecision Result.
Proof. solve_decision. Defined.

Definition ConditionTrue : string := "True".
Definition ConditionFalse : string := "False".
Definition ConditionUnknown : string := "Unknown".

(** The [specs] table of setCondition: type, status and reason of a phase. *)
Definition condSpec (phase : string) : option (string * string * string) :=
  if decide (phase = PhaseHealthy) then Some ("Ready", ConditionTrue, "DependenciesHealthy")
  else if decide (phase = PhaseDegraded) then Some ("Ready", ConditionFalse, "DependencyDegraded")
  else if decide (phase = PhaseSuspended) then Some ("Ready", ConditionFalse, "DependentSuspended")
  else if decide (phase = PhasePaused) then Some ("Ready", ConditionUnknown, "Paused")
  else if decide (phase = PhaseUnknown) then Some ("Ready", ConditionUnknown, "DependentNotFound")
  else None.

(** The update of the condition found: without a transition only the message and
    the observed generation change. *)
Definition update_condition (ty status reason msg : string) (now gen : Z) (c : Condition) : Condition :=
  if bool_decide (c_Status c = status) && bool_decide (c_Reason c = reason)
  then mkCondition (c_Type c) (c_Status c) (c_Reason c) msg (c_LastTransitionTime c) gen
  else mkCondition ty status reason msg now gen.
#[global] Arguments update_condition : simpl never.

(** The loop of setCondition over [wd.Status.Conditions]: the first condition of
    the wanted type is updated in place, and a new one is appended if there is
    none. *)
Fixpoint upsert_condition (ty status reason msg : string) (now gen : Z)
    (cs : list Condition) : list Condition :=
  match cs with
  | [] => [mkCondition ty status reason msg now gen]
  | c :: cs' =>
      if decide (c_Type c = ty)
      then update_condition ty status reason msg now gen c :: cs'
      else c :: upsert_condition ty status reason msg now gen cs'
  end.

Definition set_condition_at (now : Z) (phase msg : string) (wd : WorkloadDependency)
    : WorkloadDependency :=
  match condSpec phase with
  | None => wd
  | Some (ty, status, reason) =>
      upd_Status (fun st => set_Conditions
        (upsert_condition ty status reason msg now (om_Generation (wd_Meta wd)) (Conditions st)) st) wd
  end.

(** The fields [setStatus] captures before its first write. *)
Record Snapshot := mkSnapshot {
  snap_SavedReplicas : option Z;
  snap_DegradedSince : option Z;
  snap_HealthySince : option Z
}.

Definition snapshot (wd : WorkloadDependency) : Snapshot :=
  mkSnapshot (SavedReplicas (wd_Status wd)) (DegradedSince (wd_Status wd))
    (HealthySince (wd_Status wd)).

(** [if saved != nil { wd.Status.F = saved }] *)
Definition keep (saved current : option Z) : option Z :=
  match saved with Some v => Some v | None => current end.

Section Status.
Context `{UL : UnstructuredLib} {W : Type} `{KC : !KubeClient W}.

Definition setCondition (wd : WorkloadDependency) (phase msg : string) : MW W WorkloadDependency :=
  now ← time_Now;
  mret (set_condition_at now phase msg wd).

Definition applyFields (phase msg : string) (sn : Snapshot) (wd : WorkloadDependency)
    : MW W WorkloadDependency :=
  wd1 ← (if decide (phase = PhaseSuspended) then
           match SuspendedAt (wd_Status wd) with
           | None => now ← time_Now; mret (upd_Status (set_SuspendedAt (Some now)) wd)
           | Some _ => mret wd
           end
         else mret (upd_Status (set_SuspendedAt None) wd));
  let wd2 := upd_Status (fun st => set_Message msg (set_Phase phase st)) wd1 in
  let wd3 := upd_Status (fun st =>
    set_HealthySince (keep (snap_HealthySince sn) (HealthySince st))
      (set_DegradedSince (keep (snap_DegradedSince sn) (DegradedSince st))
        (set_SavedReplicas (keep (snap_SavedReplicas sn) (SavedReplicas st)) st))) wd2 in
  setCondition wd3 phase msg.

Definition maxRetries : nat := 3.

(** The retry loop: [inl wd] is success with the object as the server returned
    it, [inr (Some e)] an early return of [e], [inr None] exhausted retries. *)
Fixpoint update_loop (fuel : nat) (phase msg : string) (sn : Snapshot)
    (wd : WorkloadDependency) : MW W (WorkloadDependency + option api_error) :=
  match fuel with
  | O => mret (inr None)
  | S fuel' =>
      r ← client_StatusUpdate wd;
      match r with
      | Ok wd' => mret (inl wd')
      | Err e =>
          if negb (IsConflict e) then
            recordReconcileError (wd_Namespace wd) "status_update" ≫= fun _ =>
            mret (inr (Some e))
          else
            g ← client_GetWD (wd_key wd);
            match g with
            | Err ge => mret (inr (Some ge))
            | Ok fresh =>
                wd' ← applyFields phase msg sn fresh;
                update_loop fuel' phase msg sn wd'
            end
      end
  end.

Definition setStatus (wd : WorkloadDependency) (phase msg : string) (result : option Result)
    : MW W Ret :=
  let sn := snapshot wd in
  let prevPhase := Phase (wd_Status wd) in
  wd1 ← applyFields phase msg sn wd;
  r ← update_loop maxRetries phase msg sn wd1;
  match r with
  | inr (Some e) => mret (noResult, Some e)
  | inr None => mret (mkResult true 0, None)
  | inl wd2 =>
      recordPhase (wd_Namespace wd2) (wd_Name wd2) phase ≫= fun _ =>
      (if decide (prevPhase = phase) then mret tt
       else maybeNotify wd2 prevPhase phase) ≫= fun _ =>
      match result with
      | Some res => mret (res, None)
      | None => mret (after (15 * Second), None)
      end
  end.
End Status.

(** ** What a status write contains *)

(** The status handed to the server by [setStatus wd phase msg]: the requested
    phase and message, the caller's non-nil fields, and [SuspendedAt] set exactly
    in phase Suspended. *)
Record status_written (phase msg : string) (sn : Snapshot) (wd' : WorkloadDependency) : Prop := {
  sw_phase : Phase (wd_Status wd') = phase;
  sw_message : Message (wd_Status wd') = msg;
  sw_saved v : snap_SavedReplicas sn = Some v -> SavedReplicas (wd_Status wd') = Some v;
  sw_degraded v : snap_DegradedSince sn = Some v -> DegradedSince (wd_Status wd') = Some v;
  sw_healthy v : snap_HealthySince sn = Some v -> HealthySince (wd_Status wd') = Some v;
  sw_suspended_at : is_Some (SuspendedAt (wd_Status wd')) <-> phase = PhaseSuspended
}.

Lemma set_condition_status now phase msg wd :
  let st := wd_Status wd in let st' := wd_Status (set_condition_at now phase msg wd) in
  Phase st' = Phase st /\ Message st' = Message st /\ SavedReplicas st' = SavedReplicas st /\
  DegradedSince st' = DegradedSince st /\ HealthySince st' = HealthySince st /\
  SuspendedAt st' = SuspendedAt st.
Proof. unfold set_condition_at. destruct (condSpec phase) as [[[? ?] ?]|]; done. Qed.

Lemma set_condition_meta now phase msg wd :
  wd_Meta (set_condition_at now phase msg wd) = wd_Meta wd /\
  wd_Spec (set_condition_at now phase msg wd) = wd_Spec wd.
Proof. unfold set_condition_at. destruct (condSpec phase) as [[[? ?] ?]|]; done. Qed.

Section StatusTraces.
Context `{UL : UnstructuredLib} {W : Type} `{KC : !KubeClient W}.

Definition is_now (e : Eff) : bool := match e with EvNow _ => true | _ => false end.
Definition is_status_update (e : Eff) : bool :=
  match e with EvStatusUpdate _ _ => true | _ => false end.

Lemma applyFields_spec phase msg sn wd :
  (applyFields phase msg sn wd : MW W WorkloadDependency) ⊨ fun wd' tr =>
    Forall (fun e => is_now e) tr /\ status_written phase msg sn wd' /\
    wd_Meta wd' = wd_Meta wd /\ wd_Spec wd' = wd_Spec wd.
Proof.
  unfold applyFields, setCondition, time_Now.
  assert (forall now wd1, wd_Meta wd1 = wd_Meta wd -> wd_Spec wd1 = wd_Spec wd ->
    (is_Some (SuspendedAt (wd_Status wd1)) <-> phase = PhaseSuspended) ->
    let wd3 := upd_Status (fun st =>
      set_HealthySince (keep (snap_HealthySince sn) (HealthySince st))
        (set_DegradedSince (keep (snap_DegradedSince sn) (DegradedSince st))
          (set_SavedReplicas (keep (snap_SavedReplicas sn) (SavedReplicas st)) st)))
      (upd_Status (fun st => set_Message msg (set_Phase phase st)) wd1) in
    let wd' := set_condition_at now phase msg wd3 in
    status_written phase msg sn wd' /\ wd_Meta wd' = wd_Meta wd /\ wd_Spec wd' = wd_Spec wd) as Hfin.
  { intros now wd1 Hm Hs Hsus wd3 wd'.
    destruct (set_condition_status now phase msg wd3) as (Hp & Hg & Hsr & Hds & Hhs & Hsa).
    destruct (set_condition_meta now phase msg wd3) as [Hm' Hs'].
    subst wd'. split; [|by rewrite Hm', Hs'].
    split; rewrite ?Hp, ?Hg, ?Hsr, ?Hds, ?Hhs, ?Hsa; simpl; try done;
      intros v ->; done. }
  trace_auto; (split; [by repeat constructor|]); apply Hfin; try done; simpl; split; try done;
    try (intros [? ?]; congruence); eauto.
Qed.

(** Everything [setStatus] may do. *)
Definition status_event (phase msg : string) (sn : Snapshot) (e : Eff) : Prop :=
  match e with
  | EvNow _ | EvGetWD _ _ | EvMetric _ | EvGetSecret _ _ => True
  | EvStatusUpdate wd' _ => status_written phase msg sn wd'
  | EvNotify _ p => np_Phase p = phase
  | _ => False
  end.

Lemma applyFields_emits phase msg sn wd (P : Eff -> Prop) :
  (forall t, P (EvNow t)) -> emits P (applyFields phase msg sn wd : MW W WorkloadDependency).
Proof.
  intros HP. eapply tspec_mono; [apply applyFields_spec|]. intros wd' tr [Htr _].
  eapply List.Forall_impl; [|exact Htr]. intros [] He; done.
Qed.

Lemma maybeNotify_emits wd prev phase (P : Eff -> Prop) :
  (forall t, P (EvNow t)) -> (forall k r, P (EvGetSecret k r)) ->
  (forall u p, np_Phase p = phase -> P (EvNotify u p)) ->
  emits P (maybeNotify wd prev phase : MW W unit).
Proof.
  intros Hn Hs Hp. unfold maybeNotify, resolveWebhookURL, client_GetSecret, time_Now.
  emit_auto; eauto.
Qed.

Lemma update_loop_events fuel phase msg sn wd :
  status_written phase msg sn wd ->
  emits (status_event phase msg sn) (update_loop fuel phase msg sn wd : MW W _).
Proof.
  revert wd. induction fuel as [|fuel IH]; intros wd Hw; simpl; [apply emits_ret|].
  unfold client_StatusUpdate, client_GetWD.
  apply emits_bind; [by apply emits_interact|]. intros [srv|e]; [apply emits_ret|].
  destruct (negb (IsConflict e)).
  { apply emits_bind; [by apply recordReconcileError_quiet|]. intros _. apply emits_ret. }
  apply emits_bind; [by apply emits_interact|]. intros [fresh|ge]; [|apply emits_ret].
  eapply tspec_bind; [apply applyFields_spec|]. intros wd' tr (Hn & Hw' & _).
  eapply tspec_mono; [by apply IH|]. intros b tr' Htr'. apply Forall_app_2; [|done].
  eapply List.Forall_impl; [|exact Hn]. intros [] He; done.
Qed.

(** [setStatus] makes no call but these; in particular it never touches a
    workload, and every object it sends carries the requested status. *)
Lemma setStatus_events wd phase msg result :
  emits (status_event phase msg (snapshot wd)) (setStatus wd phase msg result : MW W Ret).
Proof.
  unfold setStatus. eapply tspec_bind; [apply applyFields_spec|]. intros wd1 tr (Hn & Hw & _).
  eapply tspec_mono; [|intros b tr' Htr'; apply Forall_app_2; [|exact Htr']].
  - apply emits_bind; [by apply update_loop_events|]. intros [srv|[e|]]; [|apply emits_ret..].
    apply emits_bind; [by apply recordPhase_quiet|]. intros _.
    apply emits_bind; [|intros _; destruct result; apply emits_ret].
    destruct (decide _); [apply emits_ret|]. by apply maybeNotify_emits.
  - eapply List.Forall_impl; [|exact Hn]. intros [] He; done.
Qed.

(** *** Outcome *)

Definition n_updates (tr : list Eff) : nat := length (List.filter is_status_update tr).
Definition no_ok_update (tr : list Eff) : Prop :=
  forall wd' srv, EvStatusUpdate wd' (Ok srv) ∉ tr.

Lemma n_updates_app tr1 tr2 : n_updates (tr1 ++ tr2) = (n_updates tr1 + n_updates tr2)%nat.
Proof. unfold n_updates. by rewrite List.filter_app, length_app. Qed.

Lemma n_updates_none tr : Forall (fun e => is_status_update e = false) tr -> n_updates tr = 0%nat.
Proof. induction 1 as [|e tr He _ IH]; [done|]. unfold n_updates in *. simpl. by rewrite He. Qed.

Lemma no_ok_app tr1 tr2 : no_ok_update (tr1 ++ tr2) <-> no_ok_update tr1 /\ no_ok_update tr2.
Proof.
  unfold no_ok_update. setoid_rewrite not_elem_of_app.
  split; [intros Hn; split; intros; by apply Hn | intros [? ?]; eauto].
Qed.

Lemma no_ok_none tr : Forall (fun e => is_status_update e = false) tr -> no_ok_update tr.
Proof. intros Hf wd' srv. eapply Forall_not_elem; [exact Hf|]. done. Qed.

Lemma now_not_update tr :
  Forall (fun e => is_now e) tr -> Forall (fun e => is_status_update e = false) tr.
Proof. apply List.Forall_impl. intros [] He; done. Qed.

Definition loop_outcome (fuel : nat) (phase msg : string) (sn : Snapshot)
    (r : WorkloadDependency + option api_error) (tr : list Eff) : Prop :=
  (n_updates tr <= fuel)%nat /\
  match r with
  | inl srv => exists pre wd', tr = pre ++ [EvStatusUpdate wd' (Ok srv)] /\
      status_written phase msg sn wd' /\ no_ok_update pre
  | inr (Some _) => no_ok_update tr
  | inr None => no_ok_update tr /\ n_updates tr = fuel
  end.

(** A conflict costs one attempt and leaves the rest of the loop as it was. *)
Lemma loop_outcome_conflict fuel phase msg sn wd e g tr r tr' :
  IsConflict e = true -> Forall (fun ev => is_now ev) tr ->
  loop_outcome fuel phase msg sn r tr' ->
  loop_outcome (S fuel) phase msg sn r
    (EvStatusUpdate wd (Err e) :: EvGetWD (wd_key wd) g :: tr ++ tr').
Proof.
  intros _ Hn [Hc Hr].
  assert (forall l, n_updates (EvStatusUpdate wd (Err e) :: EvGetWD (wd_key wd) g :: tr ++ l)
    = S (n_updates l)) as Hcount.
  { intros l. unfold n_updates. simpl. f_equal. fold (n_updates (tr ++ l)).
    by rewrite n_updates_app, (n_updates_none tr) by by apply now_not_update. }
  assert (forall l, no_ok_update l ->
    no_ok_update (EvStatusUpdate wd (Err e) :: EvGetWD (wd_key wd) g :: tr ++ l)) as Hno.
  { intros l Hl wd' srv [?|[?|Hin]%elem_of_cons]%elem_of_cons; [done|done|].
    apply elem_of_app in Hin as [Hin|Hin]; [|by apply (Hl wd' srv)].
    revert Hin. apply no_ok_none. by apply now_not_update. }
  split; [rewrite Hcount; lia|]. destruct r as [srv|[e'|]].
  - destruct Hr as (pre & wd' & -> & Hw & Hpre).
    exists (EvStatusUpdate wd (Err e) :: EvGetWD (wd_key wd) g :: tr ++ pre), wd'.
    split; [by rewrite app_assoc|]. split; [done|]. by apply Hno.
  - by apply Hno.
  - destruct Hr as [Hr Heq]. split; [by apply Hno|]. by rewrite Hcount, Heq.
Qed.

Lemma update_loop_outcome fuel phase msg sn wd :
  status_written phase msg sn wd ->
  (update_loop fuel phase msg sn wd : MW W _) ⊨ loop_outcome fuel phase msg sn.
Proof.
  revert wd. induction fuel as [|fuel IH]; intros wd Hw; simpl.
  { apply tspec_ret. split; [done|]. split; [|done]. intros ? ? ?%not_elem_of_nil. done. }
  unfold client_StatusUpdate, client_GetWD, recordReconcileError.
  apply tspec_bind_interact. intros [srv|e].
  { apply tspec_ret. split; [unfold n_updates; simpl; lia|]. exists [], wd. split; [done|].
    split; [done|]. intros ? ? ?%not_elem_of_nil. done. }
  destruct (IsConflict e) eqn:Hc; simpl.
  - apply tspec_bind_interact. intros [fresh|ge].
    + eapply tspec_bind; [apply applyFields_spec|]. intros wd' tr (Hn & Hw' & _).
      eapply tspec_mono; [by apply IH|]. intros r tr' Hr. by apply loop_outcome_conflict.
    + apply tspec_ret. split; [unfold n_updates; simpl; lia|].
      intros wd' srv [?|[?|?%not_elem_of_nil]%elem_of_cons]%elem_of_cons; done.
  - apply tspec_bind_emit. apply tspec_ret. split; [unfold n_updates; simpl; lia|].
    intros wd' srv [?|[?|?%not_elem_of_nil]%elem_of_cons]%elem_of_cons; done.
Qed.

Definition silent (e : Eff) : Prop := forall u p, e <> EvNotify u p.

(** The retry loop announces nothing. *)
Lemma update_loop_silent fuel phase msg sn wd :
  emits silent (update_loop fuel phase msg sn wd : MW W _).
Proof.
  revert wd. induction fuel as [|fuel IH]; intros wd; simpl; [apply emits_ret|].
  unfold client_StatusUpdate, client_GetWD.
  apply emits_bind; [by apply emits_interact|]. intros [srv|e]; [apply emits_ret|].
  destruct (negb (IsConflict e)).
  { apply emits_bind; [by apply recordReconcileError_quiet|]. intros _. apply emits_ret. }
  apply emits_bind; [by apply emits_interact|]. intros [fresh|ge]; [|apply emits_ret].
  apply emits_bind; [by apply applyFields_emits|]. intros wd'. apply IH.
Qed.

(** The notification [p] to [url] is backed by an accepted status write of [tr]
    that changed the phase of [wd], and asked for by the object the server returned. *)
Definition announced (wd : WorkloadDependency) (phase msg : string) (tr : list Eff)
    (url : string) (p : notifyPayload) : Prop :=
  Phase (wd_Status wd) <> phase /\ url <> "" /\
  exists pre post wd' srv n t, tr = pre ++ EvStatusUpdate wd' (Ok srv) :: post /\
    (EvNotify url p ∉ pre) /\ status_written phase msg (snapshot wd) wd' /\
    Notify (wd_Spec srv) = Some n /\ shouldNotify (OnPhases n) phase = true /\
    notify_url srv n post url /\ p = payload_of srv (Phase (wd_Status wd)) phase t.

Lemma silent_none tr url p : Forall silent tr -> EvNotify url p ∉ tr.
Proof. intros Hf Hin. rewrite Forall_forall in Hf. by apply (Hf _ Hin url p). Qed.

(** What follows the accepted write: the gauges, and perhaps the notification. *)
Lemma announce_spec wd srv phase (res : Result) :
  ((recordPhase (wd_Namespace srv) (wd_Name srv) phase ≫= fun _ =>
    (if decide (Phase (wd_Status wd) = phase) then mret tt
     else maybeNotify srv (Phase (wd_Status wd)) phase) ≫= fun _ => mret (res, None)) : MW W Ret)
  ⊨ fun _ tr => forall url p, EvNotify url p ∈ tr ->
    Phase (wd_Status wd) <> phase /\ url <> "" /\ exists n t, Notify (wd_Spec srv) = Some n /\
      shouldNotify (OnPhases n) phase = true /\ notify_url srv n tr url /\
      p = payload_of srv (Phase (wd_Status wd)) phase t.
Proof.
  eapply tspec_bind; [by apply (recordPhase_quiet _ _ _ silent)|]. intros [] tr1 H1.
  destruct (decide _) as [|Hne].
  { apply tspec_bind_ret, tspec_ret. intros url p. rewrite app_nil_r. by intros ?%(silent_none _ _ _ H1). }
  eapply tspec_bind; [apply maybeNotify_spec|]. intros [] tr2 [_ Hp]. apply tspec_ret. intros url p.
  rewrite app_nil_r. intros [?%(silent_none _ _ _ H1)|Hin]%elem_of_app; [done|].
  destruct (Hp url p Hin) as (n & t & ? & ? & ? & ? & ?). split; [done|]. split; [done|].
  exists n, t. do 2 (split; [done|]). split; [by apply notify_url_mono|done].
Qed.

(** C17: a notification is handed out only when the phase changes, and only
    after the server accepted the new status.  It goes to the URL configured in
    the object the server returned, if that object asks for the new phase, and
    carries its name, message, the old phase and the new one. *)
Theorem notify_on_change wd phase msg result :
  (setStatus wd phase msg result : MW W Ret) ⊨ fun _ tr => forall url p, EvNotify url p ∈ tr ->
    announced wd phase msg tr url p.
Proof.
  unfold setStatus. eapply tspec_bind; [apply applyFields_spec|]. intros wd1 tr0 (Hn & Hw & _).
  assert (Forall silent tr0) as Hn0
    by (eapply List.Forall_impl; [|exact Hn]; intros [] He; done).
  eapply tspec_bind; [apply tspec_conj; [by apply update_loop_outcome|apply update_loop_silent]|].
  intros r tr1 [[_ Hr] Hs1].
  destruct r as [srv|[e|]].
  2,3: apply tspec_ret; intros url p; rewrite app_nil_r;
    intros [?%(silent_none _ _ _ Hn0)|?%(silent_none _ _ _ Hs1)]%elem_of_app; done.
  destruct Hr as (pre & wd' & -> & Hw' & _). apply Forall_app in Hs1 as [Hs1 _].
  assert (forall url p (tr : list Eff), (EvNotify url p ∈ tr ->
    Phase (wd_Status wd) <> phase /\ url <> "" /\ exists n t, Notify (wd_Spec srv) = Some n /\
      shouldNotify (OnPhases n) phase = true /\ notify_url srv n tr url /\
      p = payload_of srv (Phase (wd_Status wd)) phase t) ->
    EvNotify url p ∈ tr0 ++ (pre ++ [EvStatusUpdate wd' (Ok srv)]) ++ tr ->
    announced wd phase msg (tr0 ++ (pre ++ [EvStatusUpdate wd' (Ok srv)]) ++ tr) url p) as Hfin.
  { intros url p tr Htr Hin. rewrite <- app_assoc, !elem_of_app in Hin.
    destruct Hin as [Hin|[Hin|[?%list_elem_of_singleton|Hin]]];
      [by apply silent_none in Hin|by apply silent_none in Hin|done|].
    destruct (Htr Hin) as (? & ? & n & t & ? & ? & ? & ?). split; [done|]. split; [done|].
    exists (tr0 ++ pre), tr, wd', srv, n, t. split; [by rewrite <- !app_assoc|].
    split; [rewrite not_elem_of_app; split; by apply silent_none|done]. }
  destruct result as [res|]; [eapply tspec_mono; [apply (announce_spec wd srv phase res)|]
    |eapply tspec_mono; [apply (announce_spec wd srv phase (after (15 * Second)))|]];
    intros ret tr Htr url p; apply Hfin, Htr.
Qed.

Lemma setStatus_result wd phase msg result :
  (setStatus wd phase msg result : MW W Ret) ⊨ fun ret tr =>
    (n_updates tr <= 3)%nat /\
    ((exists pre wd' srv post,
        tr = pre ++ EvStatusUpdate wd' (Ok srv) :: post /\
        status_written phase msg (snapshot wd) wd' /\
        no_ok_update pre /\ n_updates post = 0%nat /\
        ret = (default (after (15 * Second)) result, None)) \/
     (no_ok_update tr /\
       ((exists e, ret = (noResult, Some e)) \/
        (ret = (mkResult true 0, None) /\ n_updates tr = 3%nat)))).
Proof.
  unfold setStatus. eapply tspec_bind; [apply applyFields_spec|]. intros wd1 tr0 (Hn & Hw & _).
  apply now_not_update in Hn.
  eapply tspec_bind; [by apply update_loop_outcome|]. intros r tr1 [Hc Hr].
  unfold maxRetries in *.
  assert (n_updates (tr0 ++ tr1) = n_updates tr1) as Hn1
    by (rewrite n_updates_app, (n_updates_none tr0 Hn); done).
  destruct r as [srv|[e|]].
  - destruct Hr as (pre & wd' & -> & Hw' & Hpre).
    apply (tspec_mono _ (fun ret tr => Forall (fun e => is_status_update e = false) tr /\
      ret = (default (after (15 * Second)) result, None))).
    + eapply tspec_bind; [by apply (recordPhase_quiet _ _ _ (fun e => is_status_update e = false))|].
      intros [] tr2 H2. eapply tspec_bind with (P := fun _ tr => Forall (fun e => is_status_update e = false) tr).
      * destruct (decide _); [apply emits_ret|]. by apply maybeNotify_emits.
      * intros [] tr3 H3. destruct result; apply tspec_ret; (split; [|done]);
          rewrite app_nil_r; by apply Forall_app_2.
    + intros ret tr2 [H2 ->]. rewrite app_assoc. split.
      * rewrite n_updates_app, (n_updates_none tr2 H2), Hn1. lia.
      * left. exists (tr0 ++ pre), wd', srv, tr2. split; [by rewrite <- !app_assoc|].
        split; [done|]. split; [|by rewrite (n_updates_none tr2 H2)].
        apply no_ok_app. split; [by apply no_ok_none|done].
  - apply tspec_ret. rewrite app_nil_r. split; [lia|]. right. split; [|eauto].
    apply no_ok_app. split; [by apply no_ok_none|done].
  - apply tspec_ret. rewrite app_nil_r. destruct Hr as [Hr Heq]. split; [lia|]. right.
    split; [|right; split; [done|by rewrite Hn1]].
    apply no_ok_app. split; [by apply no_ok_none|done].
Qed.

(** C11: [setStatus] tries at most three status writes, every one of them
    carrying the requested phase, message and the caller's non-nil fields.
    Either one write is accepted, it is the last one, and the caller's result is
    returned; or none is accepted and the reconcile fails or is requeued, the
    latter exactly after three conflicts. *)
Theorem setStatus_outcome wd phase msg result :
  (setStatus wd phase msg result : MW W Ret) ⊨ fun ret tr =>
    (n_updates tr <= 3)%nat /\
    ((exists pre wd' srv post,
        tr = pre ++ EvStatusUpdate wd' (Ok srv) :: post /\
        status_written phase msg (snapshot wd) wd' /\
        no_ok_update pre /\ n_updates post = 0%nat /\
        ret = (default (after (15 * Second)) result, None)) \/
     (no_ok_update tr /\
       ((exists e, ret = (noResult, Some e)) \/
        (ret = (mkResult true 0, None) /\ n_updates tr = 3%nat)))).
Proof. apply setStatus_result. Qed.

(** *** The phase gauges *)

Definition gauge_still (e : Eff) : Prop := forall labels, spares dependencyPhase labels e.

Lemma gauge_still_value labels v0 tr :
  Forall gauge_still tr -> metric_value dependencyPhase labels v0 tr = v0.
Proof. intros Hf. apply spared_value. eapply List.Forall_impl; [|exact Hf]. by intros e He. Qed.

(** Before the write is accepted no phase gauge moves. *)
Lemma update_loop_spares fuel phase msg sn wd :
  emits gauge_still (update_loop fuel phase msg sn wd : MW W _).
Proof.
  revert wd. induction fuel as [|fuel IH]; intros wd; simpl; [apply emits_ret|].
  unfold client_StatusUpdate, client_GetWD, recordReconcileError.
  apply emits_bind; [by apply emits_interact|]. intros [srv|e]; [apply emits_ret|].
  destruct (negb (IsConflict e)).
  { apply emits_bind; [by apply emits_emit|]. intros _. apply emits_ret. }
  apply emits_bind; [by apply emits_interact|]. intros [fresh|ge]; [|apply emits_ret].
  apply emits_bind; [by apply applyFields_emits|]. intros wd'. apply IH.
Qed.

Lemma no_ok_unique pre wd1 srv1 post wd2 srv2 :
  no_ok_update pre -> no_ok_update post ->
  EvStatusUpdate wd2 (Ok srv2) ∈ pre ++ EvStatusUpdate wd1 (Ok srv1) :: post -> srv2 = srv1.
Proof.
  intros Hpre Hpost [Hin|[Heq|Hin]%elem_of_cons]%elem_of_app; [by apply Hpre in Hin|by injection Heq|].
  by apply Hpost in Hin.
Qed.

(** C23: the phase gauges follow the status.  For the phases of the table, when
    [setStatus] has a write accepted, the gauges of the dependency the server
    returned end with 1 for the new phase and 0 for every other, whatever they
    held, and no gauge of another dependency moves; when no write is accepted no
    phase gauge moves at all. *)
Theorem phase_gauges_follow_status wd phase msg result :
  phase ∈ allPhases ->
  (setStatus wd phase msg result : MW W Ret) ⊨ fun _ tr =>
    (forall wd' srv, EvStatusUpdate wd' (Ok srv) ∈ tr ->
       (forall v0, metric_value dependencyPhase [wd_Namespace srv; wd_Name srv; phase] v0 tr = 1) /\
       (forall p v0, p ∈ allPhases -> p <> phase ->
          metric_value dependencyPhase [wd_Namespace srv; wd_Name srv; p] v0 tr = 0) /\
       (forall ns name p v0, (ns, name) <> (wd_Namespace srv, wd_Name srv) ->
          metric_value dependencyPhase [ns; name; p] v0 tr = v0)) /\
    (no_ok_update tr -> forall labels v0, metric_value dependencyPhase labels v0 tr = v0).
Proof.
  intros Hph. unfold setStatus. eapply tspec_bind; [apply applyFields_spec|]. intros wd1 tr0 (Hn & Hw & _).
  eapply tspec_bind; [apply tspec_conj; [by apply update_loop_outcome|apply update_loop_spares]|].
  intros r tr1 [[_ Hr] Hs1].
  assert (Forall gauge_still (tr0 ++ tr1)) as Hs.
  { apply Forall_app_2; [|done]. eapply List.Forall_impl; [|exact Hn]. by intros [] He. }
  destruct r as [srv|[e|]].
  2,3: apply tspec_ret; rewrite app_nil_r;
    (split; [intros wd' srv Hin; exfalso|intros _ labels v0; by apply gauge_still_value]);
    apply elem_of_app in Hin as [Hin|Hin];
    [by eapply no_ok_none; [by apply now_not_update|]|].
  2: by apply Hr in Hin. 2: by apply Hr in Hin.
  destruct Hr as (pre & wd' & -> & _ & Hpre).
  eapply tspec_bind; [apply tspec_conj; [apply recordPhase_gauges|
    apply (recordPhase_quiet _ _ _ (fun e => is_status_update e = false)); done]|].
  intros [] tr2 [[Hg Ho] Hq2].
  eapply (tspec_mono _ (fun _ tr => Forall (fun e => is_status_update e = false /\ gauge_still e) tr)).
  { apply emits_bind; [|intros []; destruct result; apply emits_ret].
    destruct (decide _); [apply emits_ret|]. by apply maybeNotify_emits. }
  intros ret tr3 Hq3. apply Forall_and in Hq3 as [Hq3 Hs3].
  assert (forall labels v0, metric_value dependencyPhase labels v0
    (tr0 ++ (pre ++ [EvStatusUpdate wd' (Ok srv)]) ++ tr2 ++ tr3) =
    metric_value dependencyPhase labels v0 tr2) as Hval.
  { intros labels v0. rewrite (app_assoc tr0), (metric_value_app _ _ _ (tr0 ++ _)), (metric_value_app _ _ _ tr2).
    by rewrite (gauge_still_value _ _ (tr0 ++ _)), (gauge_still_value _ _ tr3) by done. }
  split.
  2: { intros Hno. destruct (Hno wd' srv). rewrite !elem_of_app. right. left. right. left. }
  intros wd'' srv' Hin.
  assert (srv' = srv) as ->.
  { eapply (no_ok_unique (tr0 ++ pre) wd' srv (tr2 ++ tr3)).
    - apply no_ok_app. split; [by apply no_ok_none, now_not_update|done].
    - by apply no_ok_none, Forall_app_2.
    - revert Hin. by rewrite <- !app_assoc. }
  split; [intros v0; rewrite Hval, Hg by done; by rewrite decide_True|].
  split; [intros p v0 Hp Hne; rewrite Hval, Hg by done; by rewrite decide_False|].
  intros ns name p v0 Hne. rewrite Hval. apply spared_value, Ho. right. intros q [= -> -> _]. by destruct Hne.
Qed.
End StatusTraces.

(** ** The conditions array *)

Section ConditionFacts.
Context (ty status reason msg : string) (now gen : Z).
Local Abbreviation up := (upsert_condition ty status reason msg now gen).
Local Abbreviation touch := (update_condition ty status reason msg now gen).

Lemma update_condition_spec c :
  c_Type c = ty ->
  c_Type (touch c) = ty /\ c_Status (touch c) = status /\ c_Reason (touch c) = reason /\
  c_Message (touch c) = msg /\ c_ObservedGeneration (touch c) = gen /\
  (c_LastTransitionTime (touch c) = now \/
   (c_Status c = status /\ c_Reason c = reason /\
    c_LastTransitionTime (touch c) = c_LastTransitionTime c)).
Proof.
  intros <-. unfold update_condition.
  repeat case_bool_decide; simpl; naive_solver.
Qed.

Lemma upsert_types cs : forall t, t ∈ c_Type <$> up cs <-> t = ty \/ t ∈ c_Type <$> cs.
Proof.
  intros t. induction cs as [|c cs IH]; simpl; [set_solver|].
  destruct (decide (c_Type c = ty)) as [Heq|Hne]; simpl; rewrite !elem_of_cons.
  - destruct (update_condition_spec c Heq) as [-> _]. rewrite Heq. tauto.
  - rewrite IH. tauto.
Qed.

Lemma upsert_NoDup cs : NoDup (c_Type <$> cs) -> NoDup (c_Type <$> up cs).
Proof.
  induction cs as [|c cs IH]; simpl; intros Hnd; [apply NoDup_singleton|].
  apply NoDup_cons in Hnd as [Hc Hnd].
  destruct (decide (c_Type c = ty)) as [Heq|Hne]; simpl.
  - destruct (update_condition_spec c Heq) as [-> _]. apply NoDup_cons. by rewrite <- Heq.
  - apply NoDup_cons. split; [|by apply IH].
    intros [?|?]%upsert_types; done.
Qed.

Lemma upsert_other cs c : c_Type c <> ty -> c ∈ up cs <-> c ∈ cs.
Proof.
  intros Hne. induction cs as [|c' cs IH]; simpl.
  - split; [intros ->%list_elem_of_singleton; done|intros []%not_elem_of_nil].
  - destruct (decide (c_Type c' = ty)) as [Heq|Hne']; rewrite !elem_of_cons; [|by rewrite IH].
    destruct (update_condition_spec c' Heq) as [Ht _].
    split; (intros [->|?]; [done|by right]).
Qed.

(** The condition of the wanted type after the update. *)
Lemma upsert_has cs :
  exists c, c ∈ up cs /\ c_Type c = ty /\ c_Status c = status /\ c_Reason c = reason /\
    c_Message c = msg /\ c_ObservedGeneration c = gen /\
    (c_LastTransitionTime c = now \/
     exists c0, c0 ∈ cs /\ c_Type c0 = ty /\ c_Status c0 = status /\ c_Reason c0 = reason /\
       c_LastTransitionTime c = c_LastTransitionTime c0).
Proof.
  induction cs as [|c cs IH]; simpl.
  { eexists. split; [left|]. simpl. naive_solver. }
  destruct (decide (c_Type c = ty)) as [Heq|Hne].
  - destruct (update_condition_spec c Heq) as (? & ? & ? & ? & ? & Ht).
    eexists. split; [left|]. do 5 (split; [done|]).
    destruct Ht as [?|(? & ? & ?)]; [by left|]. right. exists c. split; [left|done].
  - destruct IH as (c1 & Hin & ? & ? & ? & ? & ? & Ht). exists c1.
    split; [by right|]. do 5 (split; [done|]). destruct Ht as [?|(c0 & ? & ?)]; [by left|].
    right. exists c0. split; [by right|done].
Qed.

(** Without a transition the time stamp is the old one, for a keyed list. *)
Lemma upsert_keeps_time cs c0 c :
  NoDup (c_Type <$> cs) -> c0 ∈ cs -> c_Type c0 = ty -> c_Status c0 = status ->
  c_Reason c0 = reason -> c ∈ up cs -> c_Type c = ty ->
  c_LastTransitionTime c = c_LastTransitionTime c0.
Proof.
  induction cs as [|c' cs IH]; simpl; intros Hnd H0 Hty Hst Hre Hc Hct;
    [by apply not_elem_of_nil in H0|].
  apply NoDup_cons in Hnd as [Hc' Hnd].
  destruct (decide (c_Type c' = ty)) as [Heq|Hne].
  - assert (c0 = c') as ->.
    { apply elem_of_cons in H0 as [?|H0]; [done|]. exfalso. apply Hc'.
      rewrite Heq, <- Hty. by apply list_elem_of_fmap_2. }
    apply elem_of_cons in Hc as [->|Hc].
    + unfold update_condition. by rewrite !bool_decide_eq_true_2.
    + exfalso. apply Hc'. rewrite Heq, <- Hct. by apply list_elem_of_fmap_2.
  - apply elem_of_cons in H0 as [->|H0]; [done|].
    apply elem_of_cons in Hc as [->|Hc]; [done|]. by apply IH.
Qed.
End ConditionFacts.

(** C16: for a phase of the table, [setCondition] keeps the conditions keyed by
    type, leaves every other type alone, and ends with exactly the phase's
    status, reason and message under "Ready".  The transition time is the present
    when the condition is new or goes from one status to another, and stays when
    neither status nor reason changes. *)
Theorem setCondition_ready now phase msg wd ty status reason :
  condSpec phase = Some (ty, status, reason) ->
  NoDup (c_Type <$> Conditions (wd_Status wd)) ->
  let cs := Conditions (wd_Status wd) in
  let cs' := Conditions (wd_Status (set_condition_at now phase msg wd)) in
  NoDup (c_Type <$> cs') /\
  (forall c, c_Type c <> "Ready" -> c ∈ cs' <-> c ∈ cs) /\
  (exists c, c ∈ cs' /\ c_Type c = "Ready" /\ c_Status c = status /\ c_Reason c = reason /\
     c_Message c = msg /\ c_ObservedGeneration c = om_Generation (wd_Meta wd) /\
     (forall c0, c0 ∈ cs -> c_Type c0 = "Ready" ->
        c_Status c0 = status -> c_Reason c0 = reason ->
        c_LastTransitionTime c = c_LastTransitionTime c0) /\
     ((forall c0, c0 ∈ cs -> c_Type c0 = "Ready" -> c_Status c0 <> status) ->
        c_LastTransitionTime c = now)).
Proof.
  intros Hspec Hnd cs cs'.
  assert (ty = "Ready") as ->.
  { unfold condSpec in Hspec. by repeat (case_decide; [by simplify_eq|]). }
  assert (cs' = upsert_condition "Ready" status reason msg now (om_Generation (wd_Meta wd)) cs) as ->.
  { unfold cs', set_condition_at. by rewrite Hspec. }
  split; [by apply upsert_NoDup|]. split; [intros c Hc; by apply upsert_other|].
  destruct (upsert_has "Ready" status reason msg now (om_Generation (wd_Meta wd)) cs)
    as (c & Hin & ? & ? & ? & ? & ? & Ht).
  exists c. do 6 (split; [done|]). split.
  - intros c0 Hin0 Ht0 Hs0 Hr0. by eapply upsert_keeps_time.
  - intros Hnone. destruct Ht as [?|(c0 & Hin0 & Ht0 & Hs0 & Hr0 & _)]; [done|].
    by destruct (Hnone c0 Hin0 Ht0).
Qed.
