(* ===== verification/Health.v ===== *)
(** * Health of a dependency (depStatus and isSuspendedByKlink) *)

From S2P Require Import Prelude Types GoFloat Cluster Workload.

Inductive depHealthStatus := depHealthy | depCoSuspended | depUnhealthy.

#[export] Instance depHealthStatus_eq_dec : EqDecision depHealthStatus.
Proof. solve_decision. Defined.

(** The two field indexes registered by SetupWithManager. *)
Definition indexDependentName : string := ".spec.dependent.namespacedName".
Definition indexDependsOnName : string := ".spec.dependsOn.namespacedNames".

(** [minPercent := cond.MinReadyPercent; if minPercent == 0 { minPercent = 100 }] *)
Definition minPercent (cond : HealthCondition) : Z :=
  if decide (MinReadyPercent cond = 0) then 100 else MinReadyPercent cond.

Section Health.
Context `{UL : UnstructuredLib} `{GP : GoPlatform} {W : Type} `{KC : !KubeClient W}.

Definition isSuspendedByKlink (name ns : string) : MW W (result bool) :=
  r ← client_ListWDs (MatchingFields indexDependentName (ns +:+ "/" +:+ name));
  match r with
  | Err e => mret (Err e)
  | Ok items =>
      mret (Ok (existsb (fun wd => bool_decide (Phase (wd_Status wd) = PhaseSuspended)) items))
  end.

(** The three identical tails of depStatus for a workload that is down. *)
Definition suspended_or_unhealthy (name ns : string) : MW W (result depHealthStatus) :=
  r ← isSuspendedByKlink name ns;
  match r with
  | Err e => mret (Err e)
  | Ok true => mret (Ok depCoSuspended)
  | Ok false => mret (Ok depUnhealthy)
  end.

Definition depStatus (w : workloadAccessor) (cond : HealthCondition) (ns : string)
    : MW W (result depHealthStatus) :=
  match w with
  | rolloutAccessor u =>
      if isHealthyAsDependency u then mret (Ok depHealthy)
      else suspended_or_unhealthy (uns_Name u) ns
  | cronJobAccessor c =>
      if isSuspended w then suspended_or_unhealthy (cj_Name c) ns
      else mret (Ok depHealthy)
  | deploymentAccessor _ | statefulSetAccessor _ =>
      let replicas := getReplicas w in
      if decide (replicas = 0) then suspended_or_unhealthy (GetName w) ns
      else
        let ready := match w with
                     | deploymentAccessor d => dp_ReadyReplicas d
                     | statefulSetAccessor s => ss_ReadyReplicas s
                     | _ => 0
                     end in
        if minPercent cond <=? readyPercent ready replicas
        then mret (Ok depHealthy) else mret (Ok depUnhealthy)
  end.
End Health.

(** ** Health as a pure function of what was observed *)

Section HealthSpec.
Context `{UL : UnstructuredLib} `{GP : GoPlatform}.

(** The workload serves by itself. *)
Definition workload_ready (w : workloadAccessor) (cond : HealthCondition) : bool :=
  match w with
  | rolloutAccessor u => isHealthyAsDependency u
  | cronJobAccessor _ => negb (isSuspended w)
  | deploymentAccessor d =>
      negb (bool_decide (getReplicas w = 0)) &&
      (minPercent cond <=? readyPercent (dp_ReadyReplicas d) (getReplicas w))
  | statefulSetAccessor s =>
      negb (bool_decide (getReplicas w = 0)) &&
      (minPercent cond <=? readyPercent (ss_ReadyReplicas s) (getReplicas w))
  end.

(** A workload that is not ready may have been taken down by klink. *)
Definition maybe_suspended (w : workloadAccessor) : bool :=
  match w with
  | deploymentAccessor _ | statefulSetAccessor _ => bool_decide (getReplicas w = 0)
  | _ => true
  end.

Definition any_suspended (items : list WorkloadDependency) : bool :=
  existsb (fun wd => bool_decide (Phase (wd_Status wd) = PhaseSuspended)) items.

Lemma any_suspended_true items :
  any_suspended items = true <->
  exists wd, wd ∈ items /\ Phase (wd_Status wd) = PhaseSuspended.
Proof.
  unfold any_suspended. rewrite existsb_exists.
  split; intros (wd & Hin & Hp); exists wd; [apply bool_decide_eq_true in Hp|];
    (split; [by apply list_elem_of_In|]); [done|by apply bool_decide_eq_true].
Qed.
End HealthSpec.

Section HealthTraces.
Context `{UL : UnstructuredLib} `{GP : GoPlatform} {W : Type} `{KC : !KubeClient W}.

Lemma suspended_or_unhealthy_spec name ns :
  (suspended_or_unhealthy name ns : MW W _) ⊨ fun r tr =>
    exists lr, tr = [EvListWDs (MatchingFields indexDependentName (ns +:+ "/" +:+ name)) lr] /\
      r = match lr with
          | Err e => Err e
          | Ok items => Ok (if any_suspended items then depCoSuspended else depUnhealthy)
          end.
Proof.
  unfold suspended_or_unhealthy, isSuspendedByKlink, client_ListWDs.
  apply tspec_bind_assoc, tspec_bind_interact. intros [items|e]; apply tspec_bind_ret.
  - fold (any_suspended items). destruct (any_suspended items) eqn:Hs; apply tspec_ret;
      exists (Ok items); by rewrite Hs.
  - apply tspec_ret. by exists (Err e).
Qed.

(** The whole behaviour of [depStatus]: a ready workload is healthy without any
    call; one that is down is looked up among the suspended dependents; a
    Deployment or StatefulSet with replicas but too few ready is unhealthy. *)
Lemma depStatus_spec w cond ns :
  (depStatus w cond ns : MW W _) ⊨ fun r tr =>
    if workload_ready w cond then r = Ok depHealthy /\ tr = []
    else if maybe_suspended w then
      exists lr, tr = [EvListWDs (MatchingFields indexDependentName (ns +:+ "/" +:+ GetName w)) lr] /\
        r = match lr with
            | Err e => Err e
            | Ok items => Ok (if any_suspended items then depCoSuspended else depUnhealthy)
            end
    else r = Ok depUnhealthy /\ tr = [].
Proof.
  unfold depStatus, workload_ready, maybe_suspended.
  destruct w as [d|s|c|u].
  3: destruct (isSuspended _); simpl; [apply suspended_or_unhealthy_spec|by apply tspec_ret].
  3: destruct (isHealthyAsDependency u); [by apply tspec_ret|apply suspended_or_unhealthy_spec].
  all: destruct (decide _) as [H0|H0];
    [rewrite bool_decide_eq_true_2 by exact H0; apply suspended_or_unhealthy_spec|].
  all: rewrite bool_decide_eq_false_2 by exact H0; cbn [negb andb].
  all: by destruct (_ <=? _); apply tspec_ret.
Qed.

(** ** The threshold against exact arithmetic *)

Lemma percent_threshold m r d :
  0 <= r < 2 ^ 31 -> 0 < d < 2 ^ 31 -> 100 * r < 2 ^ 31 * d ->
  (m * d < 100 * r -> m <= readyPercent r d) /\
  (m <= readyPercent r d -> m * d <= 100 * r).
Proof.
  intros Hr Hd Hfit. destruct (readyPercent_bounds r d Hr Hd Hfit) as (Hw & Hlo & Hhi).
  split; intros Hm.
  - apply Z.lt_succ_r. apply (Z.mul_lt_mono_pos_r d); lia.
  - etransitivity; [|exact Hlo]. apply Z.mul_le_mono_nonneg_r; lia.
Qed.

(** A Deployment or StatefulSet with the given counts. *)
Definition counted (w : workloadAccessor) (desired ready : Z) : Prop :=
  (exists name ns, w = deploymentAccessor (mkDeployment name ns (Some desired) ready)) \/
  (exists name ns, w = statefulSetAccessor (mkStatefulSet name ns (Some desired) ready)).

Lemma counted_ready w desired ready cond :
  counted w desired ready -> desired <> 0 ->
  workload_ready w cond = (minPercent cond <=? readyPercent ready desired) /\
  maybe_suspended w = false.
Proof.
  intros [(n & ns & ->)|(n & ns & ->)] Hd; unfold workload_ready, maybe_suspended; simpl getReplicas;
    cbn [default dp_Replicas ss_Replicas]; by rewrite bool_decide_eq_false_2 by done.
Qed.

(** C14: a Deployment or StatefulSet with [desired > 0] replicas is reported healthy
    whenever [100 * ready] exceeds [minPercent * desired], and only when it is at
    least that; a fully ready one is always healthy.  No call is made. *)
Theorem depStatus_threshold w ready desired cond ns :
  counted w desired ready ->
  0 <= ready < 2 ^ 31 -> 0 < desired < 2 ^ 31 -> 100 * ready < 2 ^ 31 * desired ->
  MinReadyPercent cond <= 100 ->
  (depStatus w cond ns : MW W _) ⊨ fun r tr =>
    tr = [] /\ (r = Ok depHealthy \/ r = Ok depUnhealthy) /\
    (minPercent cond * desired < 100 * ready -> r = Ok depHealthy) /\
    (r = Ok depHealthy -> minPercent cond * desired <= 100 * ready) /\
    (ready = desired -> r = Ok depHealthy).
Proof.
  intros Hw Hr Hd Hfit Hmin.
  destruct (percent_threshold (minPercent cond) ready desired Hr Hd Hfit) as [Hup Hlo].
  destruct (counted_ready w desired ready cond Hw ltac:(lia)) as [Hready Hsus].
  assert (minPercent cond <= 100) as Hmin' by (unfold minPercent; destruct (decide _); lia).
  eapply tspec_mono; [apply depStatus_spec|]. intros r tr. rewrite Hready, Hsus.
  destruct (Z.leb_spec (minPercent cond) (readyPercent ready desired)) as [Hle|Hgt]; intros [-> ->].
  - split; [done|]. split; [by left|]. split; [done|]. split; [|done]. intros _. by apply Hlo.
  - split; [done|]. split; [by right|]. split; [intros ?%Hup; lia|]. split; [done|].
    intros ->. rewrite readyPercent_full in Hgt by lia. lia.
Qed.
End HealthTraces.
