(* ===== verification/Cycles.v ===== *)
(** * Cycle detection (internal/controller/cycles.go)

    The dependency graph of a namespace, the depth-first search with a shared
    visited set, and [DetectCycle].  The search is fuelled; [None] means that it
    ran out, and the fuel [DetectCycle] gives it never does ([dfs_fuel]).

    The specification is a simple cycle of length at least three through the new
    dependency's own edge: [simple_cycle].  Soundness and completeness together
    say that the search reports a cycle exactly when there is one. *)

From S2P Require Import Prelude Types Cluster.

Record workloadKey := mkKey { wk_kind : string; wk_namespace : string; wk_name : string }.

#[export] Instance workloadKey_eq_dec : EqDecision workloadKey.
Proof. solve_decision. Defined.
#[export] Instance workloadKey_countable : Countable workloadKey.
Proof.
  refine (inj_countable' (fun k => (wk_kind k, wk_namespace k, wk_name k))
    (fun p => mkKey p.1.1 p.1.2 p.2) _). by intros [].
Defined.

(** [workloadKey.String]. *)
Definition key_String (k : workloadKey) : string :=
  wk_kind k +:+ "/" +:+ wk_namespace k +:+ "/" +:+ wk_name k.

Definition resolveKey (ref : WorkloadRef) (defaultNS : string) : workloadKey :=
  mkKey (ref_Kind ref) (ns_or (ref_Namespace ref) defaultNS) (ref_Name ref).

Definition resolveDependsOnKey (dep : DependsOnEntry) (defaultNS : string) : workloadKey :=
  mkKey (dep_Kind dep) (ns_or (dep_Namespace dep) defaultNS) (dep_Name dep).

Definition FormatCycle (cycle : list string) : string := strings_Join cycle " → ".

(** ** The graph *)

Abbreviation graph := (gmap workloadKey (list workloadKey)) (only parsing).

(** [graph[k]]: the nil slice for an absent key. *)
Definition nbrs (g : gmap workloadKey (list workloadKey)) (k : workloadKey) : list workloadKey :=
  default [] (g !! k).

Definition add_edge (src : workloadKey) (g : gmap workloadKey (list workloadKey)) (dst : workloadKey)
    : gmap workloadKey (list workloadKey) :=
  <[src := nbrs g src ++ [dst]]> g.

(** The edges of one WorkloadDependency, in namespace [ns]. *)
Definition add_wd_edges (g : gmap workloadKey (list workloadKey)) (wd : WorkloadDependency)
    : gmap workloadKey (list workloadKey) :=
  foldl (add_edge (resolveKey (Dependent (wd_Spec wd)) (wd_Namespace wd))) g
    ((fun d => resolveDependsOnKey d (wd_Namespace wd)) <$> DependsOn (wd_Spec wd)).

Definition same_wd (newWD wd : WorkloadDependency) : bool :=
  bool_decide (wd_Name wd = wd_Name newWD) && bool_decide (wd_Namespace wd = wd_Namespace newWD).

Definition buildGraph (items : list WorkloadDependency) (newWD : WorkloadDependency)
    : gmap workloadKey (list workloadKey) :=
  let g := foldl (fun g wd => if same_wd newWD wd then g else add_wd_edges g wd) ∅ items in
  add_wd_edges g newWD.

(** ** The search *)

(** The loop over [graph[node]]; [rec] is the recursive call. *)
Fixpoint dfs_loop
    (rec : workloadKey -> gset workloadKey -> list workloadKey ->
           option (option (list workloadKey) * gset workloadKey))
    (target : workloadKey) (path : list workloadKey) (ns : list workloadKey)
    (visited : gset workloadKey) : option (option (list workloadKey) * gset workloadKey) :=
  match ns with
  | [] => Some (None, visited)
  | neighbor :: ns' =>
      let newPath := path ++ [neighbor] in
      if decide (neighbor = target) then Some (Some newPath, visited)
      else match rec neighbor visited newPath with
           | None => None
           | Some (Some cycle, v) => Some (Some cycle, v)
           | Some (None, v) => dfs_loop rec target path ns' v
           end
  end.

Fixpoint dfs (fuel : nat) (g : gmap workloadKey (list workloadKey)) (target node : workloadKey)
    (visited : gset workloadKey) (path : list workloadKey)
    : option (option (list workloadKey) * gset workloadKey) :=
  match fuel with
  | O => None
  | S fuel' =>
      if decide (node ∈ visited) then Some (None, visited)
      else dfs_loop (dfs fuel' g target) target path (nbrs g node) ({[node]} ∪ visited)
  end.

(** The loop over the neighbours of one start key: direct edges back to the
    target are mutual dependencies and skipped; [visited] is shared. *)
Fixpoint start_loop (fuel : nat) (g : gmap workloadKey (list workloadKey)) (target start : workloadKey)
    (ns : list workloadKey) (visited : gset workloadKey) : option (option (list workloadKey)) :=
  match ns with
  | [] => Some None
  | neighbor :: ns' =>
      if decide (neighbor = target) then start_loop fuel g target start ns' visited
      else match dfs fuel g target neighbor visited [target; start; neighbor] with
           | None => None
           | Some (Some cycle, _) => Some (Some cycle)
           | Some (None, v) => start_loop fuel g target start ns' v
           end
  end.

(** The loop over the new dependency's own [dependsOn]. *)
Fixpoint detect_loop (fuel : nat) (g : gmap workloadKey (list workloadKey)) (target : workloadKey)
    (starts : list workloadKey) : option (option (list workloadKey)) :=
  match starts with
  | [] => Some None
  | start :: starts' =>
      if decide (start = target) then detect_loop fuel g target starts'
      else match start_loop fuel g target start (nbrs g start) {[start]} with
           | None => None
           | Some (Some cycle) => Some (Some cycle)
           | Some None => detect_loop fuel g target starts'
           end
  end.

(** Every key of the graph, as source or destination of an edge. *)
Definition universe (g : gmap workloadKey (list workloadKey)) : gset workloadKey :=
  dom g ∪ list_to_set (concat (map_to_list g).*2).

Definition dfs_fuel (g : gmap workloadKey (list workloadKey)) : nat := S (size (universe g)).

(** The cycle found in the listed dependencies, if any. *)
Definition findCycle (items : list WorkloadDependency) (newWD : WorkloadDependency)
    : option (option (list workloadKey)) :=
  let g := buildGraph items newWD in
  let target := resolveKey (Dependent (wd_Spec newWD)) (wd_Namespace newWD) in
  detect_loop (dfs_fuel g) g target
    ((fun d => resolveDependsOnKey d (wd_Namespace newWD)) <$> DependsOn (wd_Spec newWD)).

Section Detect.
Context `{UL : UnstructuredLib} {W : Type} `{KC : !KubeClient W}.

Definition DetectCycle (newWD : WorkloadDependency) : MW W (result (option (list string))) :=
  r ← client_ListWDs (InNamespace (wd_Namespace newWD));
  match r with
  | Err e => mret (Err (ErrOther "list WorkloadDependencies"))
  | Ok items =>
      mret (Ok (match findCycle items newWD with
                | Some (Some cycle) => Some (key_String <$> cycle)
                | _ => None
                end))
  end.
End Detect.

(** ** Specification *)

Fixpoint is_path (R : workloadKey -> workloadKey -> Prop) (l : list workloadKey) : Prop :=
  match l with
  | x :: (y :: _) as l' => R x y /\ is_path R l'
  | _ => True
  end.

Definition edge (g : gmap workloadKey (list workloadKey)) (x y : workloadKey) : Prop := y ∈ nbrs g x.

(** A cycle [target → start → ... → target] that repeats no key and has at least
    one key between [start] and the return to [target]. *)
Definition simple_cycle (R : workloadKey -> workloadKey -> Prop) (target start : workloadKey)
    (p : list workloadKey) : Prop :=
  exists mid, mid <> [] /\ p = target :: start :: mid ++ [target] /\
    is_path R p /\ NoDup (target :: start :: mid).

Lemma is_path_snoc g l x y :
  is_path (edge g) (l ++ [x]) -> y ∈ nbrs g x -> is_path (edge g) ((l ++ [x]) ++ [y]).
Proof.
  induction l as [|a l IH]; simpl; [done|].
  destruct l as [|b l]; simpl in *; naive_solver.
Qed.

Lemma is_path_mono (R R' : workloadKey -> workloadKey -> Prop) l :
  (forall x y, R x y -> R' x y) -> is_path R l -> is_path R' l.
Proof.
  intros HR. induction l as [|x [|y l] IH]; [done|done|]. intros [? Hp].
  split; [by apply HR | by apply IH].
Qed.

Lemma simple_cycle_mono (R R' : workloadKey -> workloadKey -> Prop) T s p :
  (forall x y, R x y -> R' x y) -> simple_cycle R T s p -> simple_cycle R' T s p.
Proof.
  intros HR (mid & ? & ? & ? & ?). exists mid. do 2 (split; [done|]). split; [|done].
  by eapply is_path_mono.
Qed.

(** ** Soundness *)

Section Sound.
Context (g : gmap workloadKey (list workloadKey)) (T : workloadKey).

(** The path handed to the search ends in the current node, is a simple path of
    the graph, and its earlier nodes are the target or already visited. *)
Definition path_inv (visited : gset workloadKey) (pre : list workloadKey) : Prop :=
  NoDup pre /\ forall x, x ∈ pre -> x = T \/ x ∈ visited.

Definition found (path c : list workloadKey) : Prop :=
  exists mid, c = path ++ mid ++ [T] /\ is_path (edge g) c /\ NoDup (path ++ mid).

Definition rec_sound (rec : workloadKey -> gset workloadKey -> list workloadKey ->
    option (option (list workloadKey) * gset workloadKey)) : Prop :=
  forall node visited pre o v,
    rec node visited (pre ++ [node]) = Some (o, v) ->
    node <> T -> path_inv visited pre -> is_path (edge g) (pre ++ [node]) ->
    visited ⊆ v /\ (forall c, o = Some c -> found (pre ++ [node]) c).

Lemma found_extend path x c : found (path ++ [x]) c -> found path c.
Proof.
  intros (mid & -> & Hp & Hnd). exists (x :: mid). split; [by rewrite <- app_assoc|].
  split; [done|]. by rewrite <- app_assoc in Hnd.
Qed.

Lemma dfs_loop_sound rec pre node ns visited o v :
  rec_sound rec ->
  dfs_loop rec T (pre ++ [node]) ns visited = Some (o, v) ->
  node ∈ visited -> ns ⊆ nbrs g node ->
  path_inv visited (pre ++ [node]) -> is_path (edge g) (pre ++ [node]) ->
  visited ⊆ v /\ (forall c, o = Some c -> found (pre ++ [node]) c).
Proof.
  intros Hrec. revert visited. induction ns as [|n ns IH]; intros visited Hl Hin Hsub Hinv Hp; simpl in Hl.
  { simplify_eq. done. }
  assert (n ∈ nbrs g node) as Hn by (apply Hsub; left).
  assert (ns ⊆ nbrs g node) as Hsub' by (intros y Hy; apply Hsub; by right).
  pose proof (is_path_snoc _ _ _ _ Hp Hn) as Hp'.
  destruct (decide (n = T)) as [->|HnT].
  { simplify_eq. split; [done|]. intros c [= <-]. exists []. rewrite app_nil_r.
    by destruct Hinv. }
  destruct (rec n visited ((pre ++ [node]) ++ [n])) as [[[c'|] v']|] eqn:Hr; [..|done].
  - simplify_eq. destruct (Hrec _ _ _ _ _ Hr HnT Hinv Hp') as [Hsv Hf].
    split; [done|]. intros c [= <-]. eapply found_extend. by apply Hf.
  - destruct (Hrec _ _ _ _ _ Hr HnT Hinv Hp') as [Hsv _].
    destruct (IH v' Hl) as [Hsv' Hf]; [set_solver|done| |done|].
    + destruct Hinv as [? Hv]. split; [done|]. intros x Hx. destruct (Hv x Hx); set_solver.
    + split; [set_solver|done].
Qed.

Lemma dfs_sound fuel : rec_sound (dfs fuel g T).
Proof.
  induction fuel as [|fuel IH]; intros node visited pre o v Hd HnT Hinv Hp; [done|].
  simpl in Hd. destruct (decide (node ∈ visited)) as [Hin|Hnin].
  { simplify_eq. split; [done|]. done. }
  apply dfs_loop_sound in Hd as [Hsv Hf]; [|done|set_solver|done| |done].
  - split; [set_solver|done].
  - destruct Hinv as [Hnd Hv]. split.
    + apply NoDup_app. split; [done|]. split; [|apply NoDup_singleton].
      intros x Hx ->%list_elem_of_singleton. destruct (Hv node Hx); done.
    + intros x [Hx| ->%list_elem_of_singleton]%elem_of_app; [|set_solver].
      destruct (Hv x Hx); set_solver.
Qed.

Lemma start_loop_sound fuel start ns visited c :
  start <> T -> start ∈ nbrs g T -> ns ⊆ nbrs g start -> start ∈ visited ->
  start_loop fuel g T start ns visited = Some (Some c) ->
  simple_cycle (edge g) T start c.
Proof.
  intros HsT Hedge Hns Hsv. revert visited Hsv.
  induction ns as [|n ns IH]; intros visited Hsv Hl; simpl in Hl; [done|].
  assert (ns ⊆ nbrs g start) as Hns' by (intros y Hy; apply Hns; by right).
  assert (n ∈ nbrs g start) as Hn by (apply Hns; left).
  destruct (decide (n = T)) as [->|HnT]; [by eapply IH|].
  assert (path_inv visited [T; start]) as Hinv.
  { split; [|set_solver]. apply NoDup_cons. split; [set_solver|apply NoDup_singleton]. }
  assert (is_path (edge g) ([T; start] ++ [n])) as Hp by done.
  destruct (dfs fuel g T n visited [T; start; n]) as [[[c'|] v']|] eqn:Hd; [..|done].
  - simplify_eq.
    destruct (dfs_sound fuel n visited [T; start] _ _ Hd HnT Hinv Hp) as [_ Hf].
    destruct (Hf c eq_refl) as (mid & -> & Hpath & Hnd).
    exists (n :: mid). done.
  - destruct (dfs_sound fuel n visited [T; start] _ _ Hd HnT Hinv Hp) as [Hv _].
    eapply IH; [done| |done]. set_solver.
Qed.

Lemma detect_loop_sound fuel starts c :
  starts ⊆ nbrs g T ->
  detect_loop fuel g T starts = Some (Some c) ->
  exists start, start ∈ starts /\ start <> T /\ simple_cycle (edge g) T start c.
Proof.
  induction starts as [|s starts IH]; intros Hsub Hl; simpl in Hl; [done|].
  assert (starts ⊆ nbrs g T) as Hsub' by (intros y Hy; apply Hsub; by right).
  destruct (decide (s = T)) as [->|HsT].
  { destruct (IH Hsub' Hl) as (x & ? & ?). exists x. split; [by right|done]. }
  destruct (start_loop fuel g T s (nbrs g s) {[s]}) as [[c'|]|] eqn:Hs; [..|done].
  - simplify_eq. exists s. split; [left|]. split; [done|].
    apply (start_loop_sound fuel s (nbrs g s) {[s]}); [done|apply Hsub; left|done|set_solver|done].
  - destruct (IH Hsub' Hl) as (x & ? & ?). exists x. split; [by right|done].
Qed.
End Sound.

(** ** Termination *)

Section Terminates.
Context (g : gmap workloadKey (list workloadKey)) (T : workloadKey).

Lemma nbrs_universe x y : y ∈ nbrs g x -> y ∈ universe g.
Proof.
  unfold nbrs, universe. intros Hy. destruct (g !! x) as [l|] eqn:Hx; [|by apply not_elem_of_nil in Hy].
  apply elem_of_union_r, elem_of_list_to_set, list_elem_of_In, in_concat.
  exists l. split; [|by apply list_elem_of_In]. apply list_elem_of_In.
  apply list_elem_of_fmap. exists (x, l). split; [done|]. by apply elem_of_map_to_list.
Qed.

(** How many keys the search has left to visit. *)
Definition unvisited (visited : gset workloadKey) : nat := size (universe g ∖ visited).

Lemma unvisited_mono v v' : v ⊆ v' -> (unvisited v' <= unvisited v)%nat.
Proof. intros Hv. unfold unvisited. apply subseteq_size. set_solver. Qed.

Lemma unvisited_visit node v :
  node ∈ universe g -> node ∉ v -> (unvisited ({[node]} ∪ v) < unvisited v)%nat.
Proof. intros Hu Hv. unfold unvisited. apply subset_size. set_solver. Qed.

Definition rec_total (fuel : nat) (rec : workloadKey -> gset workloadKey -> list workloadKey ->
    option (option (list workloadKey) * gset workloadKey)) : Prop :=
  forall node visited path, node ∈ universe g -> (unvisited visited < fuel)%nat ->
    exists o v, rec node visited path = Some (o, v) /\ visited ⊆ v.

Lemma dfs_loop_total fuel rec path ns visited :
  rec_total fuel rec -> (forall n, n ∈ ns -> n ∈ universe g) ->
  (unvisited visited < fuel)%nat ->
  exists o v, dfs_loop rec T path ns visited = Some (o, v) /\ visited ⊆ v.
Proof.
  intros Hrec. revert visited. induction ns as [|n ns IH]; intros visited Hns Hf; simpl; [eauto|].
  destruct (decide (n = T)); [eauto|].
  destruct (Hrec n visited (path ++ [n])) as ([c|] & v & -> & Hv); [apply Hns; left|done|eauto|].
  destruct (IH v) as (o' & v' & -> & Hv').
  - intros m Hm. apply Hns. by right.
  - pose proof (unvisited_mono visited v Hv). lia.
  - exists o', v'. split; [done|]. set_solver.
Qed.

(** Enough fuel for the keys left: the search always returns. *)
Lemma dfs_total fuel : rec_total fuel (dfs fuel g T).
Proof.
  induction fuel as [|fuel IH]; intros node visited path Hu Hf; [lia|].
  simpl. destruct (decide (node ∈ visited)) as [|Hn]; [eauto|].
  destruct (dfs_loop_total fuel (dfs fuel g T) path (nbrs g node) ({[node]} ∪ visited) IH)
    as (o & v & -> & Hv).
  - intros n. apply nbrs_universe.
  - pose proof (unvisited_visit node visited Hu Hn). lia.
  - exists o, v. split; [done|]. set_solver.
Qed.

Lemma start_loop_total start ns visited :
  (forall n, n ∈ ns -> n ∈ universe g) ->
  exists o, start_loop (dfs_fuel g) g T start ns visited = Some o.
Proof.
  revert visited. induction ns as [|n ns IH]; intros visited Hns; cbn [start_loop]; [eauto|].
  assert (forall m, m ∈ ns -> m ∈ universe g) as Hns' by (intros m Hm; apply Hns; by right).
  destruct (decide (n = T)); [by apply IH|].
  destruct (dfs_total (dfs_fuel g) n visited [T; start; n]) as ([c|] & v & -> & _); [..|eauto|by apply IH].
  - apply Hns. left.
  - unfold dfs_fuel, unvisited. apply Nat.lt_succ_r, subseteq_size. set_solver.
Qed.

Lemma detect_loop_total starts : exists o, detect_loop (dfs_fuel g) g T starts = Some o.
Proof.
  induction starts as [|s starts IH]; cbn [detect_loop]; [eauto|].
  destruct (decide (s = T)); [done|].
  destruct (start_loop_total s (nbrs g s) {[s]}) as ([c|] & ->); [|eauto|done].
  intros m. apply nbrs_universe.
Qed.
End Terminates.

(** ** Completeness *)

Section Complete.
Context (g : gmap workloadKey (list workloadKey)) (T : workloadKey).

(** A search that finds nothing leaves the visited set closed: every newly
    visited key has only visited neighbours, none of them the target. *)
Definition closed (visited v : gset workloadKey) : Prop :=
  visited ⊆ v /\ forall x y, x ∈ v -> x ∉ visited -> y ∈ nbrs g x -> y <> T /\ y ∈ v.

Definition rec_closed (rec : workloadKey -> gset workloadKey -> list workloadKey ->
    option (option (list workloadKey) * gset workloadKey)) : Prop :=
  forall node visited path v, rec node visited path = Some (None, v) ->
    node ∈ v /\ closed visited v.

Lemma closed_trans v1 v2 v3 : closed v1 v2 -> closed v2 v3 -> closed v1 v3.
Proof.
  intros [Hs1 Hc1] [Hs2 Hc2]. split; [set_solver|]. intros x y Hx3 Hx1 Hy.
  destruct (decide (x ∈ v2)) as [Hx2|Hx2]; [destruct (Hc1 x y Hx2 Hx1 Hy); set_solver|by apply (Hc2 x y)].
Qed.

Lemma dfs_loop_closed rec path ns visited v :
  rec_closed rec -> dfs_loop rec T path ns visited = Some (None, v) ->
  closed visited v /\ forall n, n ∈ ns -> n <> T /\ n ∈ v.
Proof.
  intros Hrec. revert visited. induction ns as [|n ns IH]; intros visited Hl; simpl in Hl.
  { simplify_eq. split; [|set_solver]. by split. }
  destruct (decide (n = T)) as [|HnT]; [done|].
  destruct (rec n visited (path ++ [n])) as [[[c|] v']|] eqn:Hr; [done| |done].
  destruct (Hrec _ _ _ _ Hr) as [Hnv Hc]. destruct (IH v' Hl) as [Hc' Hall].
  split; [by eapply closed_trans|].
  intros m [->|Hm]%elem_of_cons; [|by apply Hall]. destruct Hc' as [Hs _]. set_solver.
Qed.

Lemma dfs_closed fuel : rec_closed (dfs fuel g T).
Proof.
  induction fuel as [|fuel IH]; intros node visited path v Hd; [done|]. simpl in Hd.
  destruct (decide (node ∈ visited)) as [Hin|Hn].
  { simplify_eq. split; [done|]. by split. }
  destruct (dfs_loop_closed _ _ _ _ _ IH Hd) as [[Hs Hc] Hall].
  split; [set_solver|]. split; [set_solver|]. intros x y Hx Hxv Hy.
  destruct (decide (x = node)) as [->|Hxn]; [by apply Hall|].
  apply (Hc x y); [done|set_solver|done].
Qed.

Lemma start_loop_closed fuel start ns visited :
  start_loop fuel g T start ns visited = Some None ->
  exists v, closed visited v /\ forall n, n ∈ ns -> n <> T -> n ∈ v.
Proof.
  revert visited. induction ns as [|n ns IH]; intros visited Hl; simpl in Hl.
  { exists visited. split; [by split|set_solver]. }
  destruct (decide (n = T)) as [->|HnT].
  { destruct (IH _ Hl) as (v & ? & Hall). exists v. split; [done|]. set_solver. }
  destruct (dfs fuel g T n visited [T; start; n]) as [[[c|] v']|] eqn:Hd; [done| |done].
  destruct (dfs_closed _ _ _ _ _ Hd) as [Hn Hc]. destruct (IH _ Hl) as (v & Hc' & Hall).
  exists v. split; [by eapply closed_trans|].
  intros m [->|Hm]%elem_of_cons; [|by apply Hall]. destruct Hc' as [Hs _]. set_solver.
Qed.

(** No path from a closed set, avoiding [start], reaches the target. *)
Lemma closed_no_path start v l :
  closed {[start]} v -> start ∉ l -> T ∉ l ->
  (exists x, head l = Some x /\ x ∈ v) -> ~ is_path (edge g) (l ++ [T]).
Proof.
  intros [Hs Hc]. induction l as [|x l IH]; intros Hst HT (x' & Hhd & Hx) Hp; [done|].
  simpl in Hhd. simplify_eq.
  assert (x' ∉ ({[start]} : gset workloadKey)) as Hxs by set_solver.
  destruct l as [|y l]; simpl in Hp.
  - destruct Hp as [Hp _]. by destruct (Hc x' T Hx Hxs Hp).
  - destruct Hp as [Hy Hp]. destruct (Hc x' y Hx Hxs Hy) as [_ Hyv].
    apply IH; [set_solver..|by exists y|done].
Qed.

Lemma detect_loop_complete fuel starts :
  detect_loop fuel g T starts = Some None ->
  forall start p, start ∈ starts -> ~ simple_cycle (edge g) T start p.
Proof.
  induction starts as [|s starts IH]; intros Hl start p Hin; [by apply not_elem_of_nil in Hin|].
  simpl in Hl. apply elem_of_cons in Hin as [->|Hin].
  - intros (mid & Hmid & -> & Hp & Hnd).
    apply NoDup_cons in Hnd as [HT Hnd]. apply NoDup_cons in Hnd as [Hst Hnd].
    destruct (decide (s = T)) as [->|HsT]; [set_solver|].
    destruct (start_loop fuel g T s (nbrs g s) {[s]}) as [[c|]|] eqn:Hsl; [done| |done].
    destruct (start_loop_closed _ _ _ _ Hsl) as (v & Hc & Hall).
    destruct mid as [|n mid]; [done|]. simpl in Hp. destruct Hp as (_ & Hn & Hp).
    apply (closed_no_path s v (n :: mid)); [done|set_solver|set_solver| |done].
    exists n. split; [done|]. apply Hall; [done|set_solver].
  - destruct (decide (s = T)); [by eapply IH|].
    destruct (start_loop fuel g T s (nbrs g s) {[s]}) as [[c|]|]; [done| |done]. by eapply IH.
Qed.
End Complete.

(** ** The graph and the dependencies it was built from *)

Section Graph.
(** [wd] makes [y] a dependency of [x]. *)
Definition wd_edge (wd : WorkloadDependency) (x y : workloadKey) : Prop :=
  x = resolveKey (Dependent (wd_Spec wd)) (wd_Namespace wd) /\
  exists d, d ∈ DependsOn (wd_Spec wd) /\ y = resolveDependsOnKey d (wd_Namespace wd).

(** An edge of the dependencies considered: the listed ones, except the stored
    version of the new one, and the new one itself. *)
Definition needs (items : list WorkloadDependency) (newWD : WorkloadDependency)
    (x y : workloadKey) : Prop :=
  wd_edge newWD x y \/
  exists wd, wd ∈ items /\ same_wd newWD wd = false /\ wd_edge wd x y.

Lemma edge_add_edge g a b x y : edge (add_edge a g b) x y <-> edge g x y \/ (x = a /\ y = b).
Proof.
  unfold edge, add_edge, nbrs. destruct (decide (x = a)) as [->|Hne].
  - rewrite lookup_insert_eq. simpl. rewrite elem_of_snoc. naive_solver.
  - rewrite lookup_insert_ne by done. naive_solver.
Qed.

Lemma edge_foldl_add a l g x y :
  edge (foldl (add_edge a) g l) x y <-> edge g x y \/ (x = a /\ y ∈ l).
Proof.
  revert g. induction l as [|b l IH]; intros g; simpl; [set_solver|].
  rewrite IH, edge_add_edge, elem_of_cons. naive_solver.
Qed.

Lemma edge_add_wd g wd x y : edge (add_wd_edges g wd) x y <-> edge g x y \/ wd_edge wd x y.
Proof.
  unfold add_wd_edges, wd_edge. rewrite edge_foldl_add, list_elem_of_fmap. naive_solver.
Qed.

Lemma edge_build items newWD g x y :
  edge (foldl (fun g wd => if same_wd newWD wd then g else add_wd_edges g wd) g items) x y <->
  edge g x y \/ exists wd, wd ∈ items /\ same_wd newWD wd = false /\ wd_edge wd x y.
Proof.
  revert g. induction items as [|wd items IH]; intros g; simpl; [set_solver|].
  rewrite IH. setoid_rewrite elem_of_cons. destruct (same_wd newWD wd) eqn:Hs.
  - split; [intros [?|(w & ? & ?)]; eauto|].
    intros [?|(w & [->|?] & ? & ?)]; [by left|congruence|right; eauto].
  - rewrite edge_add_wd. split; [intros [[?|?]|(w & ? & ?)]; eauto 10|].
    intros [?|(w & [->|?] & ? & ?)]; [left; by left|left; by right|right; eauto].
Qed.

Lemma edge_buildGraph items newWD x y :
  edge (buildGraph items newWD) x y <-> needs items newWD x y.
Proof.
  unfold buildGraph, needs. rewrite edge_add_wd, edge_build.
  assert (~ edge ∅ x y) by (unfold edge, nbrs; rewrite lookup_empty; apply not_elem_of_nil).
  naive_solver.
Qed.
End Graph.

(** The cycle that adding [newWD] would close: it leaves [newWD]'s dependent by
    one of [newWD]'s own dependencies. *)
Definition closes_cycle (items : list WorkloadDependency) (newWD : WorkloadDependency)
    (p : list workloadKey) : Prop :=
  exists d, d ∈ DependsOn (wd_Spec newWD) /\
    simple_cycle (needs items newWD)
      (resolveKey (Dependent (wd_Spec newWD)) (wd_Namespace newWD))
      (resolveDependsOnKey d (wd_Namespace newWD)) p.

Lemma findCycle_spec items newWD :
  match findCycle items newWD with
  | None => False
  | Some (Some p) => closes_cycle items newWD p
  | Some None => forall p, ~ closes_cycle items newWD p
  end.
Proof.
  unfold findCycle. set (g := buildGraph items newWD).
  set (T := resolveKey _ _). set (starts := _ <$> _).
  destruct (detect_loop_total g T starts) as [[p|] Hd]; rewrite Hd.
  - apply detect_loop_sound in Hd as (s & Hs & HsT & Hc).
    + apply list_elem_of_fmap in Hs as (d & -> & Hd'). exists d. split; [done|].
      eapply simple_cycle_mono; [|exact Hc]. intros x y. apply edge_buildGraph.
    + intros s (d & -> & Hd')%list_elem_of_fmap. apply edge_buildGraph. left.
      split; [done|]. by exists d.
  - intros p (d & Hin & Hc).
    eapply (detect_loop_complete g T _ starts Hd (resolveDependsOnKey d (wd_Namespace newWD)) p).
    + apply list_elem_of_fmap. by exists d.
    + eapply simple_cycle_mono; [|exact Hc]. intros x y. apply edge_buildGraph.
Qed.

Section DetectSpec.
Context `{UL : UnstructuredLib} {W : Type} `{KC : !KubeClient W}.

(** C6: [DetectCycle] always terminates with an answer, and the answer decides
    whether the new dependency closes a cycle in the graph of the listed
    dependencies.  A reported cycle is a simple cycle of at least three
    workloads through the new dependency's own edge, printed key by key; no
    report means there is no such cycle.  One list call is made. *)
Theorem DetectCycle_decides newWD :
  (DetectCycle newWD : MW W _) ⊨ fun r tr =>
    exists lr, tr = [EvListWDs (InNamespace (wd_Namespace newWD)) lr] /\
    match lr, r with
    | Err _, Err _ => True
    | Ok items, Ok (Some c) => exists p, closes_cycle items newWD p /\ c = key_String <$> p
    | Ok items, Ok None => forall p, ~ closes_cycle items newWD p
    | _, _ => False
    end.
Proof.
  unfold DetectCycle, client_ListWDs. apply tspec_bind_interact.
  intros [items|e]; apply tspec_ret; eexists; (split; [done|]); [|done].
  pose proof (findCycle_spec items newWD) as Hspec.
  destruct (findCycle items newWD) as [[p|]|]; [by exists p|done|done].
Qed.
End DetectSpec.
