(* ===== verification/Reconciler.v ===== *)
(** * The reconciler (internal/controller/workloaddependency_controller.go)

    [Reconcile] and its handlers, statement by statement: early returns become
    branches, [wd] is threaded where the source mutates it through the pointer,
    and every API call, clock reading, event and metric goes to the trace.
    Log lines are left out. *)

From S2P Require Import Prelude Types GoFloat Cluster Workload Metrics Notify Status Health.
From S2P Require Import Cycles.

(** controller-runtime's finalizer helpers, used as library functions. *)
Class ControllerUtil := {
  ContainsFinalizer : list string -> string -> bool;
  AddFinalizer : list string -> string -> list string;
  RemoveFinalizer : list string -> string -> list string
}.

(** Their documented behaviour. *)
Class ControllerUtilLaws `{ControllerUtil} : Prop := {
  contains_finalizer fs f : ContainsFinalizer fs f = true <-> f ∈ fs;
  add_finalizer fs f g : g ∈ AddFinalizer fs f <-> g ∈ fs \/ g = f;
  remove_finalizer fs f g : g ∈ RemoveFinalizer fs f <-> g ∈ fs /\ g <> f
}.

(** ** Windows: the first positive one of the dependencies, or the default *)

Fixpoint first_positive (ds : list Z) (dflt : Z) : Z :=
  match ds with
  | [] => dflt
  | d :: ds' => if 0 <? d then d else first_positive ds' dflt
  end.

Definition degradedWindow (wd : WorkloadDependency) : Z :=
  first_positive ((fun d => Window (dep_Condition d)) <$> DependsOn (wd_Spec wd)) (30 * Second).

Definition recoveryWindow (wd : WorkloadDependency) : Z :=
  first_positive ((fun d => RecoveryWindow (dep_Condition d)) <$> DependsOn (wd_Spec wd)) (60 * Second).

Section Reconciler.
Context `{UL : UnstructuredLib} `{GP : GoPlatform} `{CU : ControllerUtil}
  {W : Type} `{KC : !KubeClient W}.

(** ** Acting on the dependent *)

(** [suspendWorkload]: the mutated [wd] and the error. *)
Definition suspendWorkload (wd : WorkloadDependency) (w : workloadAccessor) (msg : string)
    : MW W (WorkloadDependency * option api_error) :=
  let ns := wd_Namespace wd in
  let kind := ref_Kind (Dependent (wd_Spec wd)) in
  match w with
  | cronJobAccessor _ =>
      if isSuspended w then mret (wd, None)
      else
        r ← client_Patch w (setSuspend w true);
        match r with
        | Err e => mret (wd, Some e)
        | Ok _ =>
            Eventf wd EventTypeWarning "CronJobSuspended" "Suspended CronJob %s: %s"
              [ArgS (GetName w); ArgS msg] ≫= fun _ =>
            recordScaleToZero ns "CronJob" (GetName w) ≫= fun _ =>
            mret (wd, None)
        end
  | deploymentAccessor _ =>
      let replicas := getReplicas w in
      if decide (replicas = 0) then mret (wd, None)
      else
        let wd' := upd_Status (set_SavedReplicas (Some replicas)) wd in
        r ← client_Patch w (setReplicas w 0);
        match r with
        | Err e => mret (wd', Some e)
        | Ok _ =>
            Eventf wd' EventTypeWarning "ScaledToZero"
              "Scaled %s %s to 0 (saved %d replicas): %s"
              [ArgS kind; ArgS (GetName w); ArgD replicas; ArgS msg] ≫= fun _ =>
            recordScaleToZero ns "Deployment" (GetName w) ≫= fun _ =>
            mret (wd', None)
        end
  | statefulSetAccessor _ =>
      let replicas := getReplicas w in
      if decide (replicas = 0) then mret (wd, None)
      else
        let wd' := upd_Status (set_SavedReplicas (Some replicas)) wd in
        r ← client_Patch w (setReplicas w 0);
        match r with
        | Err e => mret (wd', Some e)
        | Ok _ =>
            Eventf wd' EventTypeWarning "ScaledToZero"
              "Scaled %s %s to 0 (saved %d replicas): %s"
              [ArgS kind; ArgS (GetName w); ArgD replicas; ArgS msg] ≫= fun _ =>
            recordScaleToZero ns "StatefulSet" (GetName w) ≫= fun _ =>
            mret (wd', None)
        end
  | rolloutAccessor _ =>
      let replicas := getReplicas w in
      if decide (replicas = 0) then mret (wd, None)
      else
        let wd' := upd_Status (set_SavedReplicas (Some replicas)) wd in
        r ← client_Patch w (setReplicas w 0);
        match r with
        | Err e => mret (wd', Some e)
        | Ok _ =>
            Eventf wd' EventTypeWarning "ScaledToZero"
              "Scaled Rollout %s to 0 (saved %d replicas): %s"
              [ArgS (GetName w); ArgD replicas; ArgS msg] ≫= fun _ =>
            recordScaleToZero ns "Rollout" (GetName w) ≫= fun _ =>
            mret (wd', None)
        end
  end.

(** [wd.Status.SavedReplicas == nil || *wd.Status.SavedReplicas == 0] *)
Definition nothing_saved (wd : WorkloadDependency) : bool :=
  match SavedReplicas (wd_Status wd) with
  | None => true
  | Some n => bool_decide (n = 0)
  end.

Definition restoreWorkload (wd : WorkloadDependency) (w : workloadAccessor)
    : MW W (option api_error) :=
  let ns := wd_Namespace wd in
  let kind := ref_Kind (Dependent (wd_Spec wd)) in
  let replicas := default 0 (SavedReplicas (wd_Status wd)) in
  match w with
  | cronJobAccessor _ =>
      if negb (isSuspended w) then mret None
      else
        r ← client_Patch w (setSuspend w false);
        match r with
        | Err e => mret (Some e)
        | Ok _ =>
            Eventf wd EventTypeNormal "CronJobResumed"
              "Resumed CronJob %s after dependency recovery" [ArgS (GetName w)] ≫= fun _ =>
            recordReplicasRestored ns "CronJob" (GetName w) ≫= fun _ =>
            mret None
        end
  | deploymentAccessor _ =>
      if nothing_saved wd then mret None
      else
        r ← client_Patch w (setReplicas w replicas);
        match r with
        | Err e => mret (Some e)
        | Ok _ =>
            Eventf wd EventTypeNormal "ReplicasRestored"
              "Restored %s %s to %d replicas after dependency recovery"
              [ArgS kind; ArgS (GetName w); ArgD replicas] ≫= fun _ =>
            recordReplicasRestored ns "Deployment" (GetName w) ≫= fun _ =>
            mret None
        end
  | statefulSetAccessor _ =>
      if nothing_saved wd then mret None
      else
        r ← client_Patch w (setReplicas w replicas);
        match r with
        | Err e => mret (Some e)
        | Ok _ =>
            Eventf wd EventTypeNormal "ReplicasRestored"
              "Restored %s %s to %d replicas after dependency recovery"
              [ArgS kind; ArgS (GetName w); ArgD replicas] ≫= fun _ =>
            recordReplicasRestored ns "StatefulSet" (GetName w) ≫= fun _ =>
            mret None
        end
  | rolloutAccessor _ =>
      if nothing_saved wd then mret None
      else
        r ← client_Patch w (setReplicas w replicas);
        match r with
        | Err e => mret (Some e)
        | Ok _ =>
            Eventf wd EventTypeNormal "ReplicasRestored"
              "Restored Rollout %s to %d replicas after dependency recovery"
              [ArgS (GetName w); ArgD replicas] ≫= fun _ =>
            recordReplicasRestored ns "Rollout" (GetName w) ≫= fun _ =>
            mret None
        end
  end.

(** ** Handlers *)

Definition handleDegraded (wd : WorkloadDependency) (dependent : workloadAccessor)
    (msg : string) (now : Z) : MW W Ret :=
  match DegradedSince (wd_Status wd) with
  | None =>
      let wd' := upd_Status (fun st => set_HealthySince None (set_DegradedSince (Some now) st)) wd in
      setStatus wd' PhaseDegraded msg (Some (after (degradedWindow wd')))
  | Some since =>
      let window := degradedWindow wd in
      elapsed ← time_Since since;
      if elapsed <? window then
        elapsed' ← time_Since since;
        let remaining := int64 (window - elapsed') in
        mret (after (int64 (remaining + Second)), None)
      else
        p ← suspendWorkload wd dependent msg;
        let '(wd', err) := p in
        match err with
        | Some e => mret (noResult, Some e)
        | None => setStatus wd' PhaseSuspended msg (Some (after (15 * Second)))
        end
  end.

Definition handleSuspended (wd : WorkloadDependency) (dependent : workloadAccessor)
    (msg : string) : MW W Ret :=
  if decide (Mode (wd_Spec wd) = ModeStrict) then
    if rollout_progressing dependent then
      setStatus wd PhaseSuspended msg (Some (after (15 * Second)))
    else
      let needsEnforce :=
        match dependent with
        | cronJobAccessor _ => negb (isSuspended dependent)
        | _ => 0 <? getReplicas dependent
        end in
      if needsEnforce then
        p ← suspendWorkload wd dependent msg;
        let '(wd', err) := p in
        match err with
        | Some e => mret (noResult, Some e)
        | None =>
            Eventf wd' EventTypeWarning "StrictEnforced"
              "Re-enforced suspension on %s %s (strict mode): dependency still unhealthy"
              [ArgS (ref_Kind (Dependent (wd_Spec wd'))); ArgS (GetName dependent)] ≫= fun _ =>
            setStatus wd' PhaseSuspended msg (Some (after (15 * Second)))
        end
      else setStatus wd PhaseSuspended msg (Some (after (15 * Second)))
  else setStatus wd PhaseSuspended msg (Some (after (15 * Second))).

Definition handleHealthy (wd0 : WorkloadDependency) (dependent : workloadAccessor)
    (now : Z) : MW W Ret :=
  let wd := upd_Status (set_DegradedSince None) wd0 in
  if decide (Phase (wd_Status wd) = PhaseSuspended) then
    match HealthySince (wd_Status wd) with
    | None =>
        let wd' := upd_Status (set_HealthySince (Some now)) wd in
        setStatus wd' PhaseSuspended "dependencies recovered, waiting recovery window"
          (Some (after (recoveryWindow wd')))
    | Some since =>
        let window := recoveryWindow wd in
        elapsed ← time_Since since;
        if elapsed <? window then
          elapsed' ← time_Since since;
          let remaining := int64 (window - elapsed') in
          mret (after (int64 (remaining + Second)), None)
        else
          err ← restoreWorkload wd dependent;
          match err with
          | Some e => mret (noResult, Some e)
          | None =>
              let wd' := upd_Status (fun st => set_HealthySince None (set_SavedReplicas None st)) wd in
              setStatus wd' PhaseHealthy "all dependencies healthy" None
          end
    end
  else
    let wd' := upd_Status (set_HealthySince None) wd in
    setStatus wd' PhaseHealthy "all dependencies healthy" None.

Definition handleDeletion (wd : WorkloadDependency) : MW W Ret :=
  let finish : MW W Ret :=
    r ← client_UpdateWD (with_Finalizers wd
          (RemoveFinalizer (om_Finalizers (wd_Meta wd)) FinalizerName));
    mret (noResult, err_of r) in
  let suspended :=
    bool_decide (Phase (wd_Status wd) = PhaseSuspended) &&
    match SavedReplicas (wd_Status wd) with Some n => 0 <? n | None => false end in
  if suspended then
    g ← getWorkload (ref_Kind (Dependent (wd_Spec wd))) (ref_Name (Dependent (wd_Spec wd)))
          (dependent_ns wd);
    match g with
    | Err e =>
        if negb (IsNotFound e) then mret (after (5 * Second), None) else finish
    | Ok dependent =>
        err ← restoreWorkload wd dependent;
        match err with
        | Some _ => mret (after (5 * Second), None)
        | None => finish
        end
    end
  else finish.

(** ** The main loop *)

(** The loop over [spec.dependsOn]: [allOk] and [unhealthyMsg] so far, or the
    error that aborts the reconcile.  A missing dependency ends the loop. *)
Fixpoint evalDependsOn (wd : WorkloadDependency) (deps : list DependsOnEntry)
    (allOk : bool) (unhealthyMsg : string) : MW W (result (bool * string)) :=
  match deps with
  | [] => mret (Ok (allOk, unhealthyMsg))
  | dep :: deps' =>
      let ns := dep_ns wd dep in
      g ← getWorkload (dep_Kind dep) (dep_Name dep) ns;
      match g with
      | Err e =>
          if IsNotFound e then
            mret (Ok (false, "dependency " +:+ dep_Kind dep +:+ "/" +:+ dep_Name dep +:+ " not found"))
          else mret (Err e)
      | Ok depWorkload =>
          s ← depStatus depWorkload (dep_Condition dep) ns;
          match s with
          | Err e => mret (Err e)
          | Ok depHealthy | Ok depCoSuspended => evalDependsOn wd deps' allOk unhealthyMsg
          | Ok depUnhealthy =>
              evalDependsOn wd deps' false
                ("dependency " +:+ dep_Kind dep +:+ " " +:+ dep_Name dep +:+ " is not healthy")
          end
      end
  end.

Definition releasedMsg : string :=
  "force-restored after maxSuspendDuration; waiting for dependency to recover".

(** Phase Suspended with an unhealthy dependency (lines 190 to 217): the
    force-restore after maxSuspendDuration, or the strict re-enforcement. *)
Definition reconcileSuspended (wd : WorkloadDependency) (dependent : workloadAccessor)
    (unhealthyMsg : string) : MW W Ret :=
  let maxDur := MaxSuspendDuration (OnDegraded (wd_Spec wd)) in
  match (if 0 <? maxDur then SuspendedAt (wd_Status wd) else None) with
  | Some at_ =>
      elapsed ← time_Since at_;
      if maxDur <=? elapsed then
        Eventf wd EventTypeWarning "MaxSuspendDurationExceeded"
          "Restoring %s after %s (maxSuspendDuration exceeded) — dependency still unhealthy"
          [ArgS (ref_Name (Dependent (wd_Spec wd))); ArgDuration maxDur] ≫= fun _ =>
        err ← restoreWorkload wd dependent;
        match err with
        | Some e => mret (noResult, Some e)
        | None =>
            let wd' := upd_Status (fun st => set_HealthySince None (set_SavedReplicas None st)) wd in
            setStatus wd' PhaseReleased releasedMsg None
        end
      else mret (after (int64 (int64 (maxDur - elapsed) + Second)), None)
  | None => handleSuspended wd dependent unhealthyMsg
  end.

(** What follows the evaluation of the dependencies (lines 146 to 222). *)
Definition reconcileEvaluated (wd : WorkloadDependency) (dependent : workloadAccessor)
    (allOk : bool) (unhealthyMsg : string) : MW W Ret :=
  let spec := wd_Spec wd in
  now ← time_Now;
  if negb allOk && rollout_progressing dependent then
    setStatus wd PhaseDegraded
      ("dependency unhealthy, action deferred — rollout " +:+ GetName dependent +:+ " is progressing")
      (Some (after (15 * Second)))
  else if decide (Mode spec = ModeObserve) then
    if allOk then setStatus wd PhaseHealthy "all dependencies healthy (observe mode)" None
    else setStatus wd PhaseObserved
      ("observe mode: would scale " +:+ ref_Kind (Dependent spec) +:+ "/" +:+
       ref_Name (Dependent spec) +:+ " to 0 — " +:+ unhealthyMsg) None
  else if decide (Mode spec = ModeGate) then
    if allOk then setStatus wd PhaseHealthy "all dependencies healthy" None
    else setStatus wd PhaseDegraded unhealthyMsg None
  else if decide (Phase (wd_Status wd) = PhaseReleased) then
    if allOk then handleHealthy wd dependent now
    else setStatus wd PhaseReleased releasedMsg (Some (after (30 * Second)))
  else if negb allOk && bool_decide (Phase (wd_Status wd) = PhaseSuspended) then
    reconcileSuspended wd dependent unhealthyMsg
  else if allOk then handleHealthy wd dependent now
  else handleDegraded wd dependent unhealthyMsg now.

(** First admission: cycle check, then the finalizer (lines 74 to 90). *)
Definition admitNew (wd : WorkloadDependency) : MW W Ret :=
  c ← DetectCycle wd;
  match c with
  | Ok (Some cycle) =>
      let msg := "dependency cycle detected: " +:+ FormatCycle cycle in
      Eventf wd EventTypeWarning "CycleDetected" msg [] ≫= fun _ =>
      setStatus wd PhaseUnknown msg (Some noResult)
  | _ =>
      r ← client_UpdateWD (with_Finalizers wd
            (AddFinalizer (om_Finalizers (wd_Meta wd)) FinalizerName));
      match r with
      | Err e => mret (noResult, Some e)
      | Ok _ => mret (mkResult true 0, None)
      end
  end.

(** An admitted dependency that is not being deleted (lines 92 to 144). *)
Definition reconcileActive (wd : WorkloadDependency) : MW W Ret :=
  if decide (om_Annotations (wd_Meta wd) !! AnnotationPaused = Some "true") then
    setStatus wd PhasePaused "manually paused via klink.dev/paused annotation" None
  else
    let ref := Dependent (wd_Spec wd) in
    g ← getWorkload (ref_Kind ref) (ref_Name ref) (dependent_ns wd);
    match g with
    | Err e =>
        if IsNotFound e then
          setStatus wd PhaseUnknown
            ("dependent " +:+ ref_Kind ref +:+ "/" +:+ ref_Name ref +:+ " not found") None
        else mret (noResult, Some e)
    | Ok dependent =>
        ev ← evalDependsOn wd (DependsOn (wd_Spec wd)) true "";
        match ev with
        | Err e => mret (noResult, Some e)
        | Ok (allOk, unhealthyMsg) => reconcileEvaluated wd dependent allOk unhealthyMsg
        end
    end.

Definition Reconcile (req : NamespacedName) : MW W Ret :=
  g ← client_GetWD req;
  match g with
  | Err e => mret (noResult, if IsNotFound e then None else Some e)
  | Ok wd =>
      match om_DeletionTimestamp (wd_Meta wd) with
      | Some _ => handleDeletion wd
      | None =>
          if negb (ContainsFinalizer (om_Finalizers (wd_Meta wd)) FinalizerName)
          then admitNew wd
          else reconcileActive wd
      end
  end.
End Reconciler.
