(* ===== verification/Safety.v ===== *)
(** * What the reconciler may do, whatever the cluster answers

    Trace properties of [Reconcile]: when a workload is suspended or restored,
    which phases may follow which, and what each handler does on every branch.
    They hold in every world: calls may fail, race or return stale data. *)

From S2P Require Import Prelude Types GoFloat Cluster Workload Metrics Notify Status Health.
From S2P Require Import Cycles Reconciler.

Section Actions.
Context `{UL : UnstructuredLib} `{GP : GoPlatform} `{CU : ControllerUtil}
  {W : Type} `{KC : !KubeClient W}.

(** ** Suspending and restoring one workload *)

Definition is_down (w : workloadAccessor) : bool :=
  match w with
  | cronJobAccessor _ => isSuspended w
  | _ => bool_decide (getReplicas w = 0)
  end.

Definition suspended_form (w : workloadAccessor) : workloadAccessor :=
  match w with cronJobAccessor _ => setSuspend w true | _ => setReplicas w 0 end.

(** The replica count remembered for the restore; a CronJob has none. *)
Definition save_replicas (wd : WorkloadDependency) (w : workloadAccessor) : WorkloadDependency :=
  match w with
  | cronJobAccessor _ => wd
  | _ => upd_Status (set_SavedReplicas (Some (getReplicas w))) wd
  end.

Definition restored_form (wd : WorkloadDependency) (w : workloadAccessor) : option workloadAccessor :=
  match w with
  | cronJobAccessor _ => if isSuspended w then Some (setSuspend w false) else None
  | _ => match SavedReplicas (wd_Status wd) with
         | Some n => if decide (n = 0) then None else Some (setReplicas w n)
         | None => None
         end
  end.

(** Events and metrics: reports that change nothing in the cluster. *)
Definition is_report (e : Eff) : bool :=
  match e with EvEvent _ _ _ _ _ | EvMetric _ => true | _ => false end.

Lemma suspendWorkload_spec wd w msg :
  (suspendWorkload wd w msg : MW W _) ⊨ fun p tr =>
    if is_down w then tr = [] /\ p = (wd, None)
    else exists r rest, tr = EvPatch w (suspended_form w) r :: rest /\
      p = (save_replicas wd w, err_of r) /\ Forall (fun e => is_report e) rest.
Proof.
  unfold suspendWorkload, is_down, client_Patch, Eventf, recordScaleToZero.
  destruct w as [d|s|c|u].
  3: destruct (isSuspended _); [by apply tspec_ret|].
  1-2,4: destruct (decide _) as [H0|H0];
    [rewrite bool_decide_eq_true_2 by exact H0; by apply tspec_ret
    |rewrite bool_decide_eq_false_2 by exact H0].
  all: apply tspec_bind_interact; intros [[]|e]; trace_auto;
    do 2 eexists; (split; [done|]); (split; [done|]); by repeat constructor.
Qed.

Lemma restoreWorkload_spec wd w :
  (restoreWorkload wd w : MW W _) ⊨ fun err tr =>
    match restored_form wd w with
    | None => tr = [] /\ err = None
    | Some w' => exists r rest, tr = EvPatch w w' r :: rest /\
        err = err_of r /\ Forall (fun e => is_report e) rest
    end.
Proof.
  unfold restoreWorkload, restored_form, nothing_saved, client_Patch, Eventf, recordReplicasRestored.
  destruct w as [d|s|c|u].
  3: destruct (isSuspended _); simpl; [|by apply tspec_ret].
  1-2,4: destruct (SavedReplicas (wd_Status wd)) as [n|]; [|by apply tspec_ret].
  1-3: destruct (decide (n = 0)) as [->|Hn]; [by apply tspec_ret|];
    rewrite bool_decide_eq_false_2 by done.
  all: apply tspec_bind_interact; intros [[]|e]; trace_auto;
    do 2 eexists; (split; [done|]); (split; [done|]); by repeat constructor.
Qed.
End Actions.

(** ** What the trace shows about the workloads *)

Section Evidence.
Context `{UL : UnstructuredLib} `{GP : GoPlatform} `{CU : ControllerUtil}
  {W : Type} `{KC : !KubeClient W}.

(** The call that fetched [w] at [k]. *)
Definition fetched (k : NamespacedName) (w : workloadAccessor) : Eff :=
  match w with
  | deploymentAccessor d => EvGetDeployment k (Ok d)
  | statefulSetAccessor s => EvGetStatefulSet k (Ok s)
  | cronJobAccessor c => EvGetCronJob k (Ok c)
  | rolloutAccessor u => EvGetRollout k (Ok u)
  end.

(** The call of [getWorkload kind] at [k] that failed with [e]. *)
Definition fetch_failed (kind : string) (k : NamespacedName) (e : api_error) : Eff :=
  if decide (kind = "StatefulSet") then EvGetStatefulSet k (Err e)
  else if decide (kind = "CronJob") then EvGetCronJob k (Err e)
  else if decide (kind = "Rollout") then EvGetRollout k (Err e)
  else EvGetDeployment k (Err e).

Lemma getWorkload_spec kind name ns :
  (getWorkload kind name ns : MW W _) ⊨ fun r tr =>
    tr = [match r with
          | Ok w => fetched (mkNN ns name) w
          | Err e => fetch_failed kind (mkNN ns name) e
          end].
Proof.
  unfold getWorkload, getRollout, fetch_failed, client_GetStatefulSet, client_GetCronJob,
    client_GetRollout, client_GetDeployment.
  destruct (decide (kind = "StatefulSet")), (decide (kind = "CronJob")), (decide (kind = "Rollout"));
    apply tspec_bind_interact; intros [o|err]; by apply tspec_ret.
Qed.

Definition dep_key (wd : WorkloadDependency) (dep : DependsOnEntry) : NamespacedName :=
  mkNN (dep_ns wd dep) (dep_Name dep).
Definition dependent_key (wd : WorkloadDependency) : NamespacedName :=
  mkNN (dependent_ns wd) (ref_Name (Dependent (wd_Spec wd))).

(** The WorkloadDependencies listed for the dependency's workload. *)
Definition listed_for (wd : WorkloadDependency) (dep : DependsOnEntry) (w : workloadAccessor)
    (items : list WorkloadDependency) : Eff :=
  EvListWDs (MatchingFields indexDependentName (dep_ns wd dep +:+ "/" +:+ GetName w)) (Ok items).

(** The dependency was seen serving, or taken down by klink itself. *)
Definition dep_ok (wd : WorkloadDependency) (tr : list Eff) (dep : DependsOnEntry) : Prop :=
  exists w, fetched (dep_key wd dep) w ∈ tr /\
    (workload_ready w (dep_Condition dep) = true \/
     (maybe_suspended w = true /\
      exists items, listed_for wd dep w items ∈ tr /\ any_suspended items = true)).

(** The dependency was seen missing, or down and not by klink's doing. *)
Definition dep_bad (wd : WorkloadDependency) (tr : list Eff) (dep : DependsOnEntry) : Prop :=
  (exists e, IsNotFound e = true /\ fetch_failed (dep_Kind dep) (dep_key wd dep) e ∈ tr) \/
  (exists w, fetched (dep_key wd dep) w ∈ tr /\
    workload_ready w (dep_Condition dep) = false /\
    (maybe_suspended w = true ->
      exists items, listed_for wd dep w items ∈ tr /\ any_suspended items = false)).

Lemma dep_ok_mono wd tr tr' dep : tr ⊆ tr' -> dep_ok wd tr dep -> dep_ok wd tr' dep.
Proof.
  intros Hs (w & Hw & Hr). exists w. split; [by apply Hs|].
  destruct Hr as [?|(? & items & ? & ?)]; [by left|right]. split; [done|]. exists items.
  split; [by apply Hs|done].
Qed.

Lemma dep_bad_mono wd tr tr' dep : tr ⊆ tr' -> dep_bad wd tr dep -> dep_bad wd tr' dep.
Proof.
  intros Hs [(e & ? & Hf)|(w & Hw & ? & Hm)].
  - left. exists e. split; [done|by apply Hs].
  - right. exists w. split; [by apply Hs|]. split; [done|].
    intros (items & ? & ?)%Hm. exists items. split; [by apply Hs|done].
Qed.

(** Reads: calls that change neither a workload nor a WorkloadDependency. *)
Definition is_read (e : Eff) : bool :=
  match e with
  | EvNow _ | EvGetWD _ _ | EvListWDs _ _ | EvGetDeployment _ _ | EvGetStatefulSet _ _
  | EvGetCronJob _ _ | EvGetRollout _ _ | EvGetSecret _ _ => true
  | _ => false
  end.

Lemma fetched_read k w : is_read (fetched k w) = true.
Proof. by destruct w. Qed.
Lemma fetch_failed_read kind k e : is_read (fetch_failed kind k e) = true.
Proof. unfold fetch_failed. by repeat case_decide. Qed.

Definition eval_verdict (wd : WorkloadDependency) (deps : list DependsOnEntry) (ok0 : bool)
    (r : result (bool * string)) (tr : list Eff) : Prop :=
  Forall (fun e => is_read e) tr /\
  forall ok msg, r = Ok (ok, msg) ->
    (ok = true -> ok0 = true /\ Forall (dep_ok wd tr) deps) /\
    (ok = false -> ok0 = false \/ Exists (dep_bad wd tr) deps).

Lemma eval_verdict_cons wd dep deps ok0 ok1 r tr1 tr2 :
  Forall (fun e => is_read e) tr1 ->
  (ok1 = true -> ok0 = true /\ dep_ok wd tr1 dep) ->
  (ok1 = false -> ok0 = false \/ dep_bad wd tr1 dep) ->
  eval_verdict wd deps ok1 r tr2 -> eval_verdict wd (dep :: deps) ok0 r (tr1 ++ tr2).
Proof.
  intros Hr1 Hok Hbad [Hr2 Hv]. split; [by apply Forall_app_2|]. intros ok msg Hr.
  destruct (Hv ok msg Hr) as [Ht Hf].
  assert (tr1 ⊆ tr1 ++ tr2) as Hs1 by (intros e He; apply elem_of_app; by left).
  assert (tr2 ⊆ tr1 ++ tr2) as Hs2 by (intros e He; apply elem_of_app; by right).
  split; intros Hok'.
  - destruct (Ht Hok') as [H1 Hall]. destruct (Hok H1) as [H0 Hd]. split; [done|].
    constructor; [by apply (dep_ok_mono wd tr1)|].
    eapply List.Forall_impl; [|exact Hall]. intros d. by apply (dep_ok_mono wd tr2).
  - destruct (Hf Hok') as [H1|Hex].
    + destruct (Hbad H1) as [?|Hd]; [by left|]. right. left. by apply (dep_bad_mono wd tr1).
    + right. right. eapply List.Exists_impl; [|exact Hex]. intros d. by apply (dep_bad_mono wd tr2).
Qed.

(** One dependency: what [depStatus] answered is what the trace shows. *)
Lemma dep_step_spec wd dep w :
  (depStatus w (dep_Condition dep) (dep_ns wd dep) : MW W _) ⊨ fun s tr =>
    Forall (fun e => is_read e) tr /\
    match s with
    | Err _ => True
    | Ok depUnhealthy => dep_bad wd (fetched (dep_key wd dep) w :: tr) dep
    | Ok _ => dep_ok wd (fetched (dep_key wd dep) w :: tr) dep
    end.
Proof.
  eapply tspec_mono; [apply depStatus_spec|]. intros s tr Hs.
  destruct (workload_ready w _) eqn:Hr.
  { destruct Hs as [-> ->]. split; [done|]. exists w. split; [left|by left]. }
  destruct (maybe_suspended w) eqn:Hm.
  - destruct Hs as (lr & -> & ->). split; [by repeat constructor|].
    destruct lr as [items|e]; [|done]. destruct (any_suspended items) eqn:Ha.
    + exists w. split; [left|]. right. split; [done|]. exists items. split; [right; left|done].
    + right. exists w. split; [left|]. split; [done|]. intros _. exists items.
      split; [right; left|done].
  - destruct Hs as [-> ->]. split; [done|]. right. exists w. split; [left|].
    split; [done|]. by rewrite Hm.
Qed.

Lemma evalDependsOn_spec wd deps ok0 msg0 :
  (evalDependsOn wd deps ok0 msg0 : MW W _) ⊨ eval_verdict wd deps ok0.
Proof.
  revert ok0 msg0. induction deps as [|dep deps IH]; intros ok0 msg0; cbn [evalDependsOn].
  { apply tspec_ret. split; [done|]. intros ok msg [= -> ->]. split; [done|]. by left. }
  eapply tspec_bind; [apply getWorkload_spec|]. intros [w|e] tr ->.
  - eapply tspec_bind; [apply (dep_step_spec wd dep w)|]. intros s tr1 [Hr1 Hs].
    assert (Forall (fun e => is_read e) (fetched (dep_key wd dep) w :: tr1)) as Hr
      by (constructor; [by rewrite fetched_read|done]).
    destruct s as [[]|e].
    1,2: eapply tspec_mono; [apply IH|]; intros r tr2; rewrite app_assoc;
      apply eval_verdict_cons; [done|by intros ->|by left].
    + eapply tspec_mono; [apply IH|]; intros r tr2; rewrite app_assoc.
      apply eval_verdict_cons; [done|done|by right].
    + apply tspec_ret. split; [|done]. by rewrite app_nil_r.
  - destruct (IsNotFound e) eqn:Hnf; apply tspec_ret; rewrite app_nil_r.
    + split; [constructor; [by rewrite fetch_failed_read|done]|]. intros ok msg [= <- <-].
      split; [done|]. intros _. right. left. left. exists e. split; [done|left].
    + split; [constructor; [by rewrite fetch_failed_read|done]|done].
Qed.
End Evidence.

(** ** When a workload is written *)

Section Patches.
Context `{UL : UnstructuredLib} `{GP : GoPlatform} `{CU : ControllerUtil}
  {W : Type} `{KC : !KubeClient W}.

(** The trace changes the workload [base] into [new] (or tries to). *)
Definition patched (tr : list Eff) (base new : workloadAccessor) : Prop :=
  exists r, EvPatch base new r ∈ tr.

(** A clock reading of the trace lies at least [window] after [since]. *)
Definition elapsed_since (since : option Z) (window : Z) (tr : list Eff) : Prop :=
  exists s t, since = Some s /\ EvNow t ∈ tr /\ window <= time_sub t s.

Lemma patched_app tr1 tr2 b n : patched (tr1 ++ tr2) b n <-> patched tr1 b n \/ patched tr2 b n.
Proof.
  unfold patched. setoid_rewrite elem_of_app.
  split; [intros (r & [?|?]); eauto | intros [(r & ?)|(r & ?)]; eauto].
Qed.

Lemma patched_cons e tr b n :
  patched (e :: tr) b n <-> (exists r, e = EvPatch b n r) \/ patched tr b n.
Proof.
  unfold patched. setoid_rewrite elem_of_cons.
  split; [intros (r & [?|?]); eauto | intros [(r & ?)|(r & ?)]; eauto].
Qed.

Lemma patched_nil b n : ~ patched [] b n.
Proof. by intros (r & ?%not_elem_of_nil). Qed.

Lemma patched_skip e tr b n : is_patch e = false -> patched (e :: tr) b n <-> patched tr b n.
Proof.
  intros He. rewrite patched_cons. split; [intros [(r & ->)|?]; done|by right].
Qed.

Lemma fetched_no_patch k w : is_patch (fetched k w) = false.
Proof. by destruct w. Qed.
Lemma fetch_failed_no_patch kind k e : is_patch (fetch_failed kind k e) = false.
Proof. unfold fetch_failed. by repeat case_decide. Qed.

Lemma not_patched (P : Eff -> Prop) tr b n :
  Forall P tr -> (forall r, ~ P (EvPatch b n r)) -> ~ patched tr b n.
Proof. intros Hf HP (r & Hin). rewrite Forall_forall in Hf. by apply (HP r), Hf. Qed.

Lemma status_not_patched phase msg sn tr b n :
  Forall (status_event phase msg sn) tr -> ~ patched tr b n.
Proof. intros Hf. eapply not_patched; [exact Hf|]. intros r []. Qed.
Lemma read_not_patched tr b n : Forall (fun e => is_read e) tr -> ~ patched tr b n.
Proof. intros Hf. eapply not_patched; [exact Hf|]. intros r []. Qed.
Lemma report_not_patched tr b n : Forall (fun e => is_report e) tr -> ~ patched tr b n.
Proof. intros Hf. eapply not_patched; [exact Hf|]. intros r []. Qed.

Lemma elapsed_since_mono since window tr tr' :
  tr ⊆ tr' -> elapsed_since since window tr -> elapsed_since since window tr'.
Proof. intros Hs (s & t & ? & ? & ?). exists s, t. split; [done|]. split; [by apply Hs|done]. Qed.

(** Discharges or narrows down a patch found in an explicit trace. *)
Ltac patch_cases :=
  repeat match goal with
  | |- forall b n, patched _ b n -> _ => intros ? ?
  | |- patched _ _ _ -> _ => intros Hpatch
  | H : patched [] _ _ |- _ => by destruct (patched_nil _ _ H)
  | H : patched (_ ++ _) _ _ |- _ => apply patched_app in H as [H|H]
  | H : patched (_ :: _) _ _ |- _ =>
      apply patched_skip in H; [|first [done | apply fetched_no_patch | apply fetch_failed_no_patch]]
  end.

(** The patches of [setStatus], of a suspension and of a restore. *)
Lemma setStatus_patches wd phase msg result
    (Q : list Eff -> workloadAccessor -> workloadAccessor -> Prop) :
  (setStatus wd phase msg result : MW W Ret) ⊨ fun _ tr => forall b n, patched tr b n -> Q tr b n.
Proof.
  eapply tspec_mono; [apply setStatus_events|]. intros r tr Htr b n Hp.
  by destruct (status_not_patched _ _ _ _ _ _ Htr Hp).
Qed.

Lemma suspend_patches wd w msg :
  (suspendWorkload wd w msg : MW W _) ⊨ fun _ tr => forall b n, patched tr b n ->
    b = w /\ n = suspended_form w /\ is_down w = false.
Proof.
  eapply tspec_mono; [apply suspendWorkload_spec|]. intros p tr Hp b n.
  destruct (is_down w); [destruct Hp as [-> _]; by intros (r & ?%not_elem_of_nil)|].
  destruct Hp as (r & rest & -> & _ & Hrep).
  intros [(r' & [= -> -> _])|Hin]%patched_cons; [done|]. by destruct (report_not_patched _ _ _ Hrep Hin).
Qed.

Lemma restore_patches wd w :
  (restoreWorkload wd w : MW W _) ⊨ fun _ tr => forall b n, patched tr b n ->
    b = w /\ restored_form wd w = Some n.
Proof.
  eapply tspec_mono; [apply restoreWorkload_spec|]. intros p tr Hp b n.
  destruct (restored_form wd w) as [w'|]; [|destruct Hp as [-> _]; by intros (r & ?%not_elem_of_nil)].
  destruct Hp as (r & rest & -> & _ & Hrep).
  intros [(r' & [= -> -> _])|Hin]%patched_cons; [done|]. by destruct (report_not_patched _ _ _ Hrep Hin).
Qed.

Lemma handleDegraded_patches wd dep msg now :
  (handleDegraded wd dep msg now : MW W Ret) ⊨ fun _ tr => forall b n, patched tr b n ->
    b = dep /\ n = suspended_form dep /\ is_down dep = false /\
    elapsed_since (DegradedSince (wd_Status wd)) (degradedWindow wd) tr.
Proof.
  unfold handleDegraded, time_Since, time_Now.
  destruct (DegradedSince (wd_Status wd)) as [since|]; [|apply setStatus_patches].
  apply tspec_bind_assoc, tspec_bind_interact. intros t. apply tspec_bind_ret.
  destruct (Z.ltb_spec (time_sub t since) (degradedWindow wd)) as [Hlt|Hge].
  { trace_auto. patch_cases. }
  eapply tspec_bind; [apply suspend_patches|]. intros [wd' err] tr Hp.
  apply (tspec_mono _ (fun _ tr' => forall b n, patched tr' b n -> False)).
  - destruct err; [apply tspec_ret; patch_cases|apply setStatus_patches].
  - intros ret tr' Hp' b n. patch_cases; [|by apply Hp' in Hpatch].
    destruct (Hp b n Hpatch) as (? & ? & ?). do 3 (split; [done|]).
    exists since, t. split; [done|]. split; [left|done].
Qed.

Lemma handleSuspended_patches wd dep msg :
  (handleSuspended wd dep msg : MW W Ret) ⊨ fun _ tr => forall b n, patched tr b n ->
    b = dep /\ n = suspended_form dep /\ is_down dep = false /\
    rollout_progressing dep = false /\ Mode (wd_Spec wd) = ModeStrict.
Proof.
  unfold handleSuspended, Eventf.
  destruct (decide (Mode (wd_Spec wd) = ModeStrict)) as [Hm|]; [|apply setStatus_patches].
  destruct (rollout_progressing dep); [apply setStatus_patches|].
  match goal with |- (if ?c then _ else _) ⊨ _ => destruct c end; [|apply setStatus_patches].
  eapply tspec_bind; [apply suspend_patches|]. intros [wd' err] tr Hp.
  apply (tspec_mono _ (fun _ tr' => forall b n, patched tr' b n -> False)).
  - destruct err; [apply tspec_ret; patch_cases|]. apply tspec_bind_emit.
    eapply tspec_mono; [apply (setStatus_patches _ _ _ _ (fun _ _ _ => False))|].
    intros ret tr' Hs. patch_cases. by apply Hs in Hpatch.
  - intros ret tr' Hp' b n. patch_cases; [|by apply Hp' in Hpatch].
    destruct (Hp b n Hpatch) as (? & ? & ?). done.
Qed.

Lemma handleHealthy_patches wd dep now :
  (handleHealthy wd dep now : MW W Ret) ⊨ fun _ tr => forall b n, patched tr b n ->
    b = dep /\ restored_form wd dep = Some n /\ Phase (wd_Status wd) = PhaseSuspended /\
    elapsed_since (HealthySince (wd_Status wd)) (recoveryWindow wd) tr.
Proof.
  unfold handleHealthy, time_Since, time_Now.
  cbn [upd_Status with_Status wd_Status set_DegradedSince Phase HealthySince].
  destruct (decide (Phase (wd_Status wd) = PhaseSuspended)) as [Hph|]; [|apply setStatus_patches].
  destruct (HealthySince (wd_Status wd)) as [since|] eqn:Hh; [|apply setStatus_patches].
  apply tspec_bind_assoc, tspec_bind_interact. intros t. apply tspec_bind_ret.
  change (recoveryWindow _) with (recoveryWindow wd).
  destruct (Z.ltb_spec (time_sub t since) (recoveryWindow wd)) as [Hlt|Hge].
  { trace_auto. patch_cases. }
  eapply tspec_bind; [apply restore_patches|]. intros err tr Hp.
  apply (tspec_mono _ (fun _ tr' => forall b n, patched tr' b n -> False)).
  - destruct err; [apply tspec_ret; patch_cases|apply setStatus_patches].
  - intros ret tr' Hp' b n. patch_cases; [|by apply Hp' in Hpatch].
    destruct (Hp b n Hpatch) as (? & ?). do 3 (split; [done|]).
    exists since, t. split; [done|]. split; [left|done].
Qed.

Lemma handleDeletion_patches wd :
  (handleDeletion wd : MW W Ret) ⊨ fun _ tr => forall b n, patched tr b n ->
    fetched (dependent_key wd) b ∈ tr /\ restored_form wd b = Some n /\
    Phase (wd_Status wd) = PhaseSuspended.
Proof.
  unfold handleDeletion, client_UpdateWD.
  match goal with |- (if ?c then _ else _) ⊨ _ => destruct c eqn:Hs end;
    [|trace_auto; patch_cases].
  apply andb_prop in Hs as [Hph%bool_decide_eq_true _].
  eapply tspec_bind; [apply getWorkload_spec|]. intros [w|e] tr ->.
  - eapply tspec_bind; [apply restore_patches|]. intros err tr Hp.
    apply (tspec_mono _ (fun _ tr' => forall b n, patched tr' b n -> False)).
    + destruct err; trace_auto; patch_cases.
    + intros ret tr' Hp' b n. patch_cases; [|by apply Hp' in Hpatch].
      destruct (Hp b n Hpatch) as [-> ?]. split; [left|done].
  - destruct (negb (IsNotFound e)); trace_auto; patch_cases.
Qed.

(** *** The conditions under which a reconcile writes the dependent *)

Definition some_dep_bad (wd : WorkloadDependency) (tr : list Eff) : Prop :=
  Exists (dep_bad wd tr) (DependsOn (wd_Spec wd)).
Definition all_deps_ok (wd : WorkloadDependency) (tr : list Eff) : Prop :=
  Forall (dep_ok wd tr) (DependsOn (wd_Spec wd)).

(** No limit on the suspension is running. *)
Definition unbounded (wd : WorkloadDependency) : Prop :=
  (if 0 <? MaxSuspendDuration (OnDegraded (wd_Spec wd)) then SuspendedAt (wd_Status wd) else None) = None.

Record suspend_due (wd : WorkloadDependency) (tr : list Eff) (base new : workloadAccessor) : Prop := {
  sd_form : new = suspended_form base;
  sd_up : is_down base = false;
  sd_unhealthy : some_dep_bad wd tr;
  sd_canary : rollout_progressing base = false;
  sd_mode : Mode (wd_Spec wd) <> ModeObserve /\ Mode (wd_Spec wd) <> ModeGate;
  sd_phase : Phase (wd_Status wd) <> PhaseReleased;
  sd_when :
    if decide (Phase (wd_Status wd) = PhaseSuspended)
    then Mode (wd_Spec wd) = ModeStrict /\ unbounded wd
    else elapsed_since (DegradedSince (wd_Status wd)) (degradedWindow wd) tr
}.

Definition max_suspend_exceeded (wd : WorkloadDependency) (tr : list Eff) : Prop :=
  0 < MaxSuspendDuration (OnDegraded (wd_Spec wd)) /\
  elapsed_since (SuspendedAt (wd_Status wd)) (MaxSuspendDuration (OnDegraded (wd_Spec wd))) tr.

Record restore_due (wd : WorkloadDependency) (tr : list Eff) (base new : workloadAccessor) : Prop := {
  rd_form : restored_form wd base = Some new;
  rd_phase : Phase (wd_Status wd) = PhaseSuspended;
  rd_when :
    is_Some (om_DeletionTimestamp (wd_Meta wd)) \/
    (Mode (wd_Spec wd) <> ModeObserve /\ Mode (wd_Spec wd) <> ModeGate /\
     ((all_deps_ok wd tr /\
       elapsed_since (HealthySince (wd_Status wd)) (recoveryWindow wd) tr) \/
      (some_dep_bad wd tr /\ max_suspend_exceeded wd tr)))
}.

Lemma reconcileSuspended_patches wd dep msg :
  (reconcileSuspended wd dep msg : MW W Ret) ⊨ fun _ tr => forall b n, patched tr b n ->
    b = dep /\
    ((n = suspended_form dep /\ is_down dep = false /\ rollout_progressing dep = false /\
      Mode (wd_Spec wd) = ModeStrict /\ unbounded wd) \/
     (restored_form wd dep = Some n /\ max_suspend_exceeded wd tr)).
Proof.
  unfold reconcileSuspended, time_Since, time_Now, Eventf.
  set (maxDur := MaxSuspendDuration (OnDegraded (wd_Spec wd))).
  assert (unbounded wd -> (handleSuspended wd dep msg : MW W Ret) ⊨ fun _ tr => forall b n, patched tr b n ->
    b = dep /\ ((n = suspended_form dep /\ is_down dep = false /\ rollout_progressing dep = false /\
      Mode (wd_Spec wd) = ModeStrict /\ unbounded wd) \/
     (restored_form wd dep = Some n /\ max_suspend_exceeded wd tr))) as Hsus.
  { intros Hun. eapply tspec_mono; [apply handleSuspended_patches|]. intros ret tr Hp b n Hin.
    destruct (Hp b n Hin) as (? & ? & ? & ? & ?). split; [done|by left]. }
  destruct (if 0 <? maxDur then SuspendedAt (wd_Status wd) else None) as [at_|] eqn:Hlim; [|by apply Hsus].
  clear Hsus. destruct (Z.ltb_spec 0 maxDur) as [Hmax|]; [|done]. rename Hlim into Hat.
  apply tspec_bind_assoc, tspec_bind_interact. intros t. apply tspec_bind_ret.
  destruct (Z.leb_spec maxDur (time_sub t at_)) as [Hle|]; [|trace_auto; patch_cases].
  apply tspec_bind_emit. eapply tspec_bind; [apply restore_patches|]. intros err tr Hp.
  apply (tspec_mono _ (fun _ tr' => forall b n, patched tr' b n -> False)).
  - destruct err; [apply tspec_ret; patch_cases|apply setStatus_patches].
  - intros ret tr' Hp' b n. patch_cases; [|by apply Hp' in Hpatch].
    destruct (Hp b n Hpatch) as [-> ?]. split; [done|]. right. split; [done|]. split; [done|].
    exists at_, t. split; [done|]. split; [left|done].
Qed.

(** After the evaluation, with its verdict as evidence in [tr0]. *)
Lemma reconcileEvaluated_patches wd dep allOk msg tr0 :
  (allOk = true -> all_deps_ok wd tr0) -> (allOk = false -> some_dep_bad wd tr0) ->
  (reconcileEvaluated wd dep allOk msg : MW W Ret) ⊨ fun _ tr => forall b n, patched tr b n ->
    b = dep /\ (suspend_due wd (tr0 ++ tr) b n \/ restore_due wd (tr0 ++ tr) b n).
Proof.
  intros Hok Hbad.
  assert (forall tr, allOk = true -> all_deps_ok wd (tr0 ++ tr)) as Hok'.
  { intros tr Ha. eapply List.Forall_impl; [|by apply Hok]. intros d. apply dep_ok_mono.
    intros e He. apply elem_of_app. by left. }
  assert (forall tr, allOk = false -> some_dep_bad wd (tr0 ++ tr)) as Hbad'.
  { intros tr Ha. eapply List.Exists_impl; [|by apply Hbad]. intros d. apply dep_bad_mono.
    intros e He. apply elem_of_app. by left. }
  assert (forall since w tr x, elapsed_since since w tr -> elapsed_since since w (tr0 ++ x :: tr)) as Hel.
  { intros since w tr x. apply elapsed_since_mono. intros e He. apply elem_of_app. right. by right. }
  clear Hok Hbad. unfold reconcileEvaluated, time_Now. apply tspec_bind_interact. intros now.
  apply (tspec_mono _ (fun _ tr => forall b n, patched tr b n ->
    b = dep /\ (suspend_due wd (tr0 ++ EvNow now :: tr) b n \/
                restore_due wd (tr0 ++ EvNow now :: tr) b n))).
  2: { intros ret tr Hp b n. patch_cases. by apply Hp. }
  destruct (negb allOk && rollout_progressing dep) eqn:Hdefer; [apply setStatus_patches|].
  destruct (decide (Mode (wd_Spec wd) = ModeObserve)) as [|Hno].
  { destruct allOk; apply setStatus_patches. }
  destruct (decide (Mode (wd_Spec wd) = ModeGate)) as [|Hng].
  { destruct allOk; apply setStatus_patches. }
  assert (allOk = true -> (handleHealthy wd dep now : MW W Ret) ⊨ fun _ tr => forall b n, patched tr b n ->
    b = dep /\ (suspend_due wd (tr0 ++ EvNow now :: tr) b n \/
                restore_due wd (tr0 ++ EvNow now :: tr) b n)) as Hhealthy.
  { intros Ha. eapply tspec_mono; [apply handleHealthy_patches|]. intros ret tr Hp b n Hin.
    destruct (Hp b n Hin) as (-> & Hf & Hph & He). split; [done|]. right. split; [done..|].
    right. do 2 (split; [done|]). left. split; [by apply Hok'|by apply Hel]. }
  destruct (decide (Phase (wd_Status wd) = PhaseReleased)) as [|Hnr].
  { destruct allOk; [by apply Hhealthy|apply setStatus_patches]. }
  destruct allOk; simpl; [by apply Hhealthy|].
  destruct (decide (Phase (wd_Status wd) = PhaseSuspended)) as [Hph|Hph].
  - rewrite bool_decide_eq_true_2 by done.
    eapply tspec_mono; [apply reconcileSuspended_patches|]. intros ret tr Hp b n Hin.
    destruct (Hp b n Hin) as (-> & [(? & ? & ? & ? & ?)|(? & ? & ?)]); (split; [done|]); [left|right].
    + split; [done|done|by apply Hbad'|done|done|done|]. by rewrite decide_True.
    + split; [done|done|]. right. do 2 (split; [done|]). right. split; [by apply Hbad'|].
      split; [done|by apply Hel].
  - rewrite bool_decide_eq_false_2 by done.
    eapply tspec_mono; [apply handleDegraded_patches|]. intros ret tr Hp b n Hin.
    destruct (Hp b n Hin) as (-> & ? & ? & ?). split; [done|]. left.
    split; [done|done|by apply Hbad'|done|done|done|].
    rewrite decide_False by done. by apply Hel.
Qed.

Lemma some_dep_bad_mono wd tr tr' : tr ⊆ tr' -> some_dep_bad wd tr -> some_dep_bad wd tr'.
Proof. intros Hs. apply List.Exists_impl. intros d. by apply dep_bad_mono. Qed.
Lemma all_deps_ok_mono wd tr tr' : tr ⊆ tr' -> all_deps_ok wd tr -> all_deps_ok wd tr'.
Proof. intros Hs. apply List.Forall_impl. intros d. by apply dep_ok_mono. Qed.

Lemma suspend_due_mono wd tr tr' b n : tr ⊆ tr' -> suspend_due wd tr b n -> suspend_due wd tr' b n.
Proof.
  intros Hs [? ? Hbad ? ? ? Hw]. split; [done|done|by apply (some_dep_bad_mono wd tr)|done|done|done|].
  destruct (decide _); [done|by apply (elapsed_since_mono _ _ tr)].
Qed.

Lemma restore_due_mono wd tr tr' b n : tr ⊆ tr' -> restore_due wd tr b n -> restore_due wd tr' b n.
Proof.
  intros Hs [? ? Hw]. split; [done|done|].
  destruct Hw as [?|(? & ? & Hw)]; [by left|right]. do 2 (split; [done|]).
  destruct Hw as [[? ?]|[? [? ?]]]; [left|right].
  - split; [by apply (all_deps_ok_mono wd tr)|by apply (elapsed_since_mono _ _ tr)].
  - split; [by apply (some_dep_bad_mono wd tr)|]. split; [done|by apply (elapsed_since_mono _ _ tr)].
Qed.

Definition paused (wd : WorkloadDependency) : Prop :=
  om_Annotations (wd_Meta wd) !! AnnotationPaused = Some "true".

Lemma reconcileActive_patches wd :
  (reconcileActive wd : MW W Ret) ⊨ fun _ tr => forall b n, patched tr b n ->
    fetched (dependent_key wd) b ∈ tr /\ ~ paused wd /\
    (suspend_due wd tr b n \/ restore_due wd tr b n).
Proof.
  unfold reconcileActive, paused.
  destruct (decide (om_Annotations (wd_Meta wd) !! AnnotationPaused = Some "true")) as [|Hnp];
    [apply setStatus_patches|].
  eapply tspec_bind; [apply getWorkload_spec|]. fold (dependent_key wd). intros [dep|e] tr ->.
  2: { destruct (IsNotFound e); [|trace_auto; patch_cases].
       eapply tspec_mono; [apply (setStatus_patches _ _ _ _ (fun _ _ _ => False))|].
       intros ret tr Hs. patch_cases. by apply Hs in Hpatch. }
  eapply tspec_bind; [apply evalDependsOn_spec|]. intros ev tr [Hread Hv].
  destruct ev as [[allOk msg]|e].
  2: { apply tspec_ret. patch_cases. by apply (read_not_patched tr _ _ Hread) in Hpatch. }
  destruct (Hv allOk msg eq_refl) as [Hok Hbad].
  eapply tspec_mono.
  { apply (reconcileEvaluated_patches wd dep allOk msg tr); [intros Ha; by apply Hok|].
    intros Ha. destruct (Hbad Ha) as [?|?]; done. }
  intros ret tr' Hp b n. patch_cases; [by apply (read_not_patched tr _ _ Hread) in Hpatch|].
  destruct (Hp b n Hpatch) as [-> Hdue]. split; [left|]. split; [done|].
  assert (tr ++ tr' ⊆ [fetched (dependent_key wd) dep] ++ tr ++ tr') as Hs
    by (intros x Hx; by right).
  destruct Hdue; [left; by apply (suspend_due_mono wd _ _ _ _ Hs)
                 |right; by apply (restore_due_mono wd _ _ _ _ Hs)].
Qed.

Lemma admitNew_patches wd :
  (admitNew wd : MW W Ret) ⊨ fun _ tr => forall b n, ~ patched tr b n.
Proof.
  unfold admitNew, DetectCycle, client_ListWDs, client_UpdateWD, Eventf.
  apply tspec_bind_assoc, tspec_bind_interact. intros lr.
  assert (forall fs, (client_UpdateWD (with_Finalizers wd fs) ≫= (fun r =>
      match r with
      | Ok _ => mret (mkResult true 0, None)
      | Err e => mret (noResult, Some e)
      end) : MW W Ret) ⊨ fun _ tr => forall b n, ~ patched tr b n) as Hupd.
  { intros fs. unfold client_UpdateWD. trace_auto; unfold not; patch_cases. }
  eapply tspec_mono with (P := fun _ tr => forall b n, ~ patched tr b n);
    [|intros ret tr Hp b n; unfold not; patch_cases; by apply Hp in Hpatch].
  destruct lr as [items|e]; [|apply tspec_bind_ret, Hupd]. apply tspec_bind_ret.
  destruct (findCycle items wd) as [[c|]|]; [|apply Hupd..].
  apply tspec_bind_emit.
  eapply tspec_mono; [apply (setStatus_patches _ _ _ _ (fun _ _ _ => False))|].
  intros ret tr Hs b n. unfold not. patch_cases. by apply Hs in Hpatch.
Qed.

(** Every write of a workload by a reconcile, and why it happens. *)
Lemma reconcile_patches req :
  (Reconcile req : MW W Ret) ⊨ fun _ tr => forall b n, patched tr b n ->
    exists wd, head tr = Some (EvGetWD req (Ok wd)) /\ fetched (dependent_key wd) b ∈ tr /\
      match om_DeletionTimestamp (wd_Meta wd) with
      | Some _ => restore_due wd tr b n
      | None => ~ paused wd /\ (suspend_due wd tr b n \/ restore_due wd tr b n)
      end.
Proof.
  unfold Reconcile, client_GetWD. apply tspec_bind_interact.
  intros [wd|e]; [|trace_auto; patch_cases].
  assert (forall tr, tr ⊆ EvGetWD req (Ok wd) :: tr) as Hs by (intros tr x Hx; by right).
  destruct (om_DeletionTimestamp (wd_Meta wd)) as [del|] eqn:Hdel.
  - eapply tspec_mono; [apply handleDeletion_patches|]. intros ret tr Hp b n. patch_cases.
    destruct (Hp b n Hpatch) as (? & ? & ?). exists wd. split; [done|]. rewrite Hdel.
    split; [by apply Hs|]. split; [done|done|]. left. by rewrite Hdel.
  - destruct (negb _).
    + eapply tspec_mono; [apply admitNew_patches|]. intros ret tr Hp b n. patch_cases.
      by apply Hp in Hpatch.
    + eapply tspec_mono; [apply reconcileActive_patches|]. intros ret tr Hp b n. patch_cases.
      destruct (Hp b n Hpatch) as (? & ? & Hdue). exists wd. split; [done|]. rewrite Hdel.
      split; [by apply Hs|]. split; [done|].
      destruct Hdue; [left; by apply (suspend_due_mono wd tr)|right; by apply (restore_due_mono wd tr)].
Qed.

Lemma unadmitted_patches req :
  (Reconcile req : MW W Ret) ⊨ fun _ tr => forall wd,
    head tr = Some (EvGetWD req (Ok wd)) -> om_DeletionTimestamp (wd_Meta wd) = None ->
    ContainsFinalizer (om_Finalizers (wd_Meta wd)) FinalizerName = false ->
    forall b n, ~ patched tr b n.
Proof.
  unfold Reconcile, client_GetWD. apply tspec_bind_interact.
  intros [wd0|e]; [|by apply tspec_ret].
  destruct (om_DeletionTimestamp (wd_Meta wd0)) eqn:Hdel.
  { eapply tspec_mono; [apply handleDeletion_patches|].
    intros ret tr _ wd [= <-]. by rewrite Hdel. }
  destruct (ContainsFinalizer (om_Finalizers (wd_Meta wd0)) FinalizerName) eqn:Hf; simpl.
  { eapply tspec_mono; [apply reconcileActive_patches|].
    intros ret tr _ wd [= <-] _. by rewrite Hf. }
  eapply tspec_mono; [apply admitNew_patches|]. intros ret tr Hp wd _ _ _ b n. unfold not.
  patch_cases. by apply Hp in Hpatch.
Qed.

(** C1: every write of a workload by a reconcile is due.  The object written was
    fetched in this reconcile as the dependent of the WorkloadDependency read
    first.  It is either taken down, because an evaluated dependency was seen
    missing or unready and the degraded window has run out (or strict mode
    re-enforces a suspension without a limit), or brought back, because the dependency is being deleted, all
    dependencies were seen ready for the recovery window, or the suspension
    outlived maxSuspendDuration.  Paused, observing, gating and released
    dependencies, and progressing Rollouts, are never taken down. *)
Theorem workload_writes_due req :
  (Reconcile req : MW W Ret) ⊨ fun _ tr => forall b n, patched tr b n ->
    exists wd, head tr = Some (EvGetWD req (Ok wd)) /\ fetched (dependent_key wd) b ∈ tr /\
      match om_DeletionTimestamp (wd_Meta wd) with
      | Some _ => restore_due wd tr b n
      | None => ~ paused wd /\ (suspend_due wd tr b n \/ restore_due wd tr b n)
      end.
Proof. apply reconcile_patches. Qed.

(** C7: hands off.  While a dependency is not being deleted, a reconcile writes
    no workload at all if the dependency is paused, in observe or gate mode, not
    yet admitted, or released. *)
Theorem hands_off_no_write req :
  (Reconcile req : MW W Ret) ⊨ fun _ tr => forall wd,
    head tr = Some (EvGetWD req (Ok wd)) -> om_DeletionTimestamp (wd_Meta wd) = None ->
    paused wd \/ Mode (wd_Spec wd) = ModeObserve \/ Mode (wd_Spec wd) = ModeGate \/
    ContainsFinalizer (om_Finalizers (wd_Meta wd)) FinalizerName = false \/
    Phase (wd_Status wd) = PhaseReleased ->
    Forall (fun e => is_patch e = false) tr.
Proof.
  eapply tspec_mono; [apply tspec_conj; [apply reconcile_patches|apply unadmitted_patches]|].
  intros ret tr [Hp Hu] wd Hhd Hdel Hcase. apply Forall_forall. intros e Hin.
  destruct (is_patch e) eqn:He; [|done]. exfalso.
  destruct e as [| | | | | | | | |b n r| | | |]; try discriminate He.
  destruct (Hp b n (ex_intro _ r Hin)) as (wd' & Hhd' & _ & Hdue).
  rewrite Hhd in Hhd'. injection Hhd' as <-. rewrite Hdel in Hdue. destruct Hdue as [Hnp Hdue].
  destruct Hcase as [?|[Hm|[Hm|[Hf|Hph]]]]; [done| | | |].
  3: exact (Hu wd Hhd Hdel Hf b n (ex_intro _ r Hin)).
  all: destruct Hdue as [[_ _ _ _ [? ?] ? _]|[_ Hph' Hw]]; [done|].
  all: rewrite Hdel in Hw; destruct Hw as [[? [=]]|(? & ? & _)]; try done.
  by rewrite Hph' in Hph.
Qed.

End Patches.
