(* ===== verification/Phases.v ===== *)
(** * The phase machine

    [transition wd tr wd']: the rules by which a reconcile that read [wd] and
    made the calls [tr] may write the status of [wd'].  Each rule names the
    evidence the trace must hold.  [phase_machine] shows that [Reconcile] follows
    the rules, in every world. *)

From S2P Require Import Prelude Types GoFloat Cluster Workload Metrics Notify Status Health.
From S2P Require Import Cycles Reconciler Safety.

Section Phases.
Context `{UL : UnstructuredLib} `{GP : GoPlatform} `{CU : ControllerUtil}
  {W : Type} `{KC : !KubeClient W}.

(** The status of [wd'] was sent to the API server. *)
Definition updated (tr : list Eff) (wd' : WorkloadDependency) : Prop :=
  exists r, EvStatusUpdate wd' r ∈ tr.

(** The dependent was fetched and is down: already, or by a successful write. *)
Definition brought_down (wd : WorkloadDependency) (tr : list Eff) (w : workloadAccessor) : Prop :=
  fetched (dependent_key wd) w ∈ tr /\
  (is_down w = true \/ EvPatch w (suspended_form w) (Ok tt) ∈ tr).

(** The dependent was fetched and is back: what there was to restore is restored. *)
Definition brought_back (wd : WorkloadDependency) (tr : list Eff) (w : workloadAccessor) : Prop :=
  fetched (dependent_key wd) w ∈ tr /\
  match restored_form wd w with
  | None => True
  | Some w' => EvPatch w w' (Ok tt) ∈ tr
  end.

Definition enforcing (wd : WorkloadDependency) : Prop :=
  Mode (wd_Spec wd) <> ModeObserve /\ Mode (wd_Spec wd) <> ModeGate.

(** The API server admits no negative replica count. *)
Definition scalable (w : workloadAccessor) : Prop :=
  match w with cronJobAccessor _ => True | _ => 0 <= getReplicas w end.

Definition moves (wd' : WorkloadDependency) (phase : DependencyPhase) : Prop :=
  Phase (wd_Status wd') = phase.

Inductive transition (wd : WorkloadDependency) (tr : list Eff) (wd' : WorkloadDependency) : Prop :=
  | t_cycle items p :
      ContainsFinalizer (om_Finalizers (wd_Meta wd)) FinalizerName = false ->
      EvListWDs (InNamespace (wd_Namespace wd)) (Ok items) ∈ tr -> closes_cycle items wd p ->
      moves wd' PhaseUnknown -> transition wd tr wd'
  | t_paused :
      paused wd -> moves wd' PhasePaused -> transition wd tr wd'
  | t_missing e :
      fetch_failed (ref_Kind (Dependent (wd_Spec wd))) (dependent_key wd) e ∈ tr ->
      IsNotFound e = true -> moves wd' PhaseUnknown -> transition wd tr wd'
  | t_deferred w :
      fetched (dependent_key wd) w ∈ tr -> rollout_progressing w = true ->
      some_dep_bad wd tr -> moves wd' PhaseDegraded -> transition wd tr wd'
  | t_observed :
      Mode (wd_Spec wd) = ModeObserve -> some_dep_bad wd tr ->
      moves wd' PhaseObserved -> transition wd tr wd'
  | t_gated :
      Mode (wd_Spec wd) = ModeGate -> some_dep_bad wd tr ->
      moves wd' PhaseDegraded -> transition wd tr wd'
  | t_healthy :
      all_deps_ok wd tr -> (enforcing wd -> Phase (wd_Status wd) <> PhaseSuspended) ->
      moves wd' PhaseHealthy -> transition wd tr wd'
  | t_degraded now :
      enforcing wd -> some_dep_bad wd tr -> DegradedSince (wd_Status wd) = None ->
      Phase (wd_Status wd) <> PhaseSuspended -> Phase (wd_Status wd) <> PhaseReleased ->
      EvNow now ∈ tr -> DegradedSince (wd_Status wd') = Some now ->
      moves wd' PhaseDegraded -> transition wd tr wd'
  | t_suspended w :
      enforcing wd -> some_dep_bad wd tr ->
      Phase (wd_Status wd) <> PhaseSuspended -> Phase (wd_Status wd) <> PhaseReleased ->
      elapsed_since (DegradedSince (wd_Status wd)) (degradedWindow wd) tr ->
      brought_down wd tr w ->
      (is_down w = false -> forall n, SavedReplicas (wd_Status (save_replicas wd w)) = Some n ->
         SavedReplicas (wd_Status wd') = Some n) ->
      moves wd' PhaseSuspended -> transition wd tr wd'
  | t_enforced w :
      enforcing wd -> some_dep_bad wd tr -> Phase (wd_Status wd) = PhaseSuspended ->
      fetched (dependent_key wd) w ∈ tr ->
      (Mode (wd_Spec wd) = ModeStrict -> rollout_progressing w = false -> scalable w ->
         brought_down wd tr w) ->
      moves wd' PhaseSuspended -> transition wd tr wd'
  | t_released w :
      enforcing wd -> some_dep_bad wd tr -> Phase (wd_Status wd) = PhaseSuspended ->
      max_suspend_exceeded wd tr -> brought_back wd tr w ->
      moves wd' PhaseReleased -> transition wd tr wd'
  | t_stay_released :
      enforcing wd -> some_dep_bad wd tr -> Phase (wd_Status wd) = PhaseReleased ->
      moves wd' PhaseReleased -> transition wd tr wd'
  | t_recovering now :
      enforcing wd -> all_deps_ok wd tr -> Phase (wd_Status wd) = PhaseSuspended ->
      HealthySince (wd_Status wd) = None ->
      EvNow now ∈ tr -> HealthySince (wd_Status wd') = Some now ->
      moves wd' PhaseSuspended -> transition wd tr wd'
  | t_restored w :
      enforcing wd -> all_deps_ok wd tr -> Phase (wd_Status wd) = PhaseSuspended ->
      elapsed_since (HealthySince (wd_Status wd)) (recoveryWindow wd) tr ->
      brought_back wd tr w ->
      moves wd' PhaseHealthy -> transition wd tr wd'.

(** More evidence never invalidates a rule. *)
Lemma brought_down_mono wd tr tr' w : tr ⊆ tr' -> brought_down wd tr w -> brought_down wd tr' w.
Proof. intros Hs [? Hd]. split; [by apply Hs|]. destruct Hd; [by left|right; by apply Hs]. Qed.
Lemma brought_back_mono wd tr tr' w : tr ⊆ tr' -> brought_back wd tr w -> brought_back wd tr' w.
Proof.
  intros Hs [? Hb]. split; [by apply Hs|]. destruct (restored_form wd w); [by apply Hs|done].
Qed.

Lemma max_suspend_mono wd tr tr' :
  tr ⊆ tr' -> max_suspend_exceeded wd tr -> max_suspend_exceeded wd tr'.
Proof. intros Hs [? ?]. split; [done|by eapply elapsed_since_mono]. Qed.
End Phases.

Create HintDb phases.
#[export] Hint Resolve some_dep_bad_mono all_deps_ok_mono elapsed_since_mono brought_down_mono
  brought_back_mono max_suspend_mono : phases.

Section PhaseProofs.
Context `{UL : UnstructuredLib} `{GP : GoPlatform} `{CU : ControllerUtil}
  {W : Type} `{KC : !KubeClient W}.

Lemma transition_mono wd tr tr' wd' : tr ⊆ tr' -> transition wd tr wd' -> transition wd tr' wd'.
Proof.
  intros Hs Ht. destruct Ht.
  - eapply t_cycle; eauto.
  - by apply t_paused.
  - eapply t_missing; eauto.
  - eapply t_deferred; eauto with phases.
  - eapply t_observed; eauto with phases.
  - eapply t_gated; eauto with phases.
  - eapply t_healthy; eauto with phases.
  - eapply t_degraded; eauto with phases.
  - eapply t_suspended; eauto with phases.
  - eapply t_enforced; eauto with phases.
  - eapply t_released; eauto with phases.
  - eapply t_stay_released; eauto with phases.
  - eapply t_recovering; eauto with phases.
  - eapply t_restored; eauto with phases.
Qed.

(** *** Status writes in a trace *)

Lemma updated_app tr1 tr2 wd' : updated (tr1 ++ tr2) wd' <-> updated tr1 wd' \/ updated tr2 wd'.
Proof.
  unfold updated. setoid_rewrite elem_of_app.
  split; [intros (r & [?|?]); eauto | intros [(r & ?)|(r & ?)]; eauto].
Qed.

Lemma not_updated (P : Eff -> Prop) tr wd' :
  Forall P tr -> (forall r, ~ P (EvStatusUpdate wd' r)) -> ~ updated tr wd'.
Proof. intros Hf HP (r & Hin). rewrite Forall_forall in Hf. by apply (HP r), Hf. Qed.

(** No status is written yet. *)
Definition unwritten (tr : list Eff) : Prop := Forall (fun e => is_status_update e = false) tr.

Lemma unwritten_updated tr wd' : unwritten tr -> ~ updated tr wd'.
Proof. intros Hu. by eapply not_updated. Qed.

(** The status writes of [m] all satisfy [T] on the trace so far. *)
Definition writes_by {A} (tr0 : list Eff) (m : MW W A)
    (T : list Eff -> WorkloadDependency -> Prop) : Prop :=
  m ⊨ fun _ tr => forall wd', updated tr wd' -> T (tr0 ++ tr) wd'.

Lemma writes_ret {A} tr0 (a : A) T : writes_by tr0 (mret a) T.
Proof. apply tspec_ret. intros wd' Hu. by destruct (unwritten_updated [] wd' (List.Forall_nil _) Hu). Qed.

(** A step that writes no status adds to the evidence. *)
Lemma writes_bind {A B} tr0 (m : MW W A) (k : A -> MW W B) (Q : A -> list Eff -> Prop) T :
  m ⊨ Q -> (forall a tr, Q a tr -> unwritten tr) ->
  (forall a tr, Q a tr -> writes_by (tr0 ++ tr) (k a) T) ->
  writes_by tr0 (m ≫= k) T.
Proof.
  intros Hm Hun Hk. eapply tspec_bind; [exact Hm|]. intros a tr HQ.
  eapply tspec_mono; [by apply Hk|]. intros b tr' Hw wd' [Hu|Hu]%updated_app.
  - by destruct (unwritten_updated _ _ (Hun a tr HQ) Hu).
  - rewrite app_assoc. by apply Hw.
Qed.

Lemma writes_now {B} tr0 (k : Z -> MW W B) T :
  (forall t, writes_by (tr0 ++ [EvNow t]) (k t) T) -> writes_by tr0 (time_Now ≫= k) T.
Proof.
  intros Hk. eapply (writes_bind _ _ _ (fun t tr => tr = [EvNow t])).
  - by apply tspec_interact.
  - intros t tr ->. by repeat constructor.
  - intros t tr ->. apply Hk.
Qed.

Lemma writes_since {B} tr0 u (k : Z -> MW W B) T :
  (forall t, writes_by (tr0 ++ [EvNow t]) (k (time_sub t u)) T) ->
  writes_by tr0 (time_Since u ≫= k) T.
Proof. intros Hk. apply tspec_bind_assoc. by apply writes_now. Qed.

Lemma writes_event {B} tr0 wd ty reason fmt args (k : unit -> MW W B) T :
  (forall tr, writes_by (tr0 ++ tr) (k tt) T) ->
  writes_by tr0 (Eventf wd ty reason fmt args ≫= k) T.
Proof.
  intros Hk. eapply (writes_bind _ _ _ (fun _ tr => unwritten tr)).
  - apply tspec_emit. by repeat constructor.
  - done.
  - intros [] tr _. apply Hk.
Qed.

Lemma writes_status tr0 wd phase msg result (T : list Eff -> WorkloadDependency -> Prop) :
  (forall tr wd', status_written phase msg (snapshot wd) wd' -> T (tr0 ++ tr) wd') ->
  writes_by tr0 (setStatus wd phase msg result) T.
Proof.
  intros HT. eapply tspec_mono; [apply setStatus_events|].
  intros ret tr Htr wd' (r & Hin). apply HT. rewrite Forall_forall in Htr. by apply (Htr _ Hin).
Qed.

Lemma report_unwritten tr : Forall (fun e => is_report e) tr -> unwritten tr.
Proof. apply List.Forall_impl. intros [] He; done. Qed.
Lemma read_unwritten tr : Forall (fun e => is_read e) tr -> unwritten tr.
Proof. apply List.Forall_impl. intros [] He; done. Qed.
Lemma fetched_unwritten k w : unwritten [fetched k w].
Proof. constructor; [by destruct w|done]. Qed.
Lemma fetch_failed_unwritten kind k e : unwritten [fetch_failed kind k e].
Proof. constructor; [|done]. unfold fetch_failed. by repeat case_decide. Qed.

(** Suspending: afterwards the dependent is down, or the error is returned. *)
Lemma writes_suspend {B} tr0 wd w msg (k : WorkloadDependency * option api_error -> MW W B) T :
  (forall wd' e tr, writes_by (tr0 ++ tr) (k (wd', Some e)) T) ->
  (forall wd' tr, wd' = (if is_down w then wd else save_replicas wd w) ->
     is_down w = true \/ EvPatch w (suspended_form w) (Ok tt) ∈ tr0 ++ tr ->
     writes_by (tr0 ++ tr) (k (wd', None)) T) ->
  writes_by tr0 (suspendWorkload wd w msg ≫= k) T.
Proof.
  intros Herr Hok. eapply writes_bind; [apply suspendWorkload_spec|..]; intros [wd' err] tr;
    cbn beta; destruct (is_down w) eqn:Hd.
  - intros [-> _]. constructor.
  - intros (r & rest & -> & _ & Hrep). constructor; [done|by apply report_unwritten].
  - intros [-> [= -> ->]]. apply Hok; [done|by left].
  - intros (r & rest & -> & [= -> ->] & Hrep). destruct r as [[]|e]; [|apply Herr].
    apply Hok; [done|]. right. apply elem_of_app. right. left.
Qed.

Lemma writes_restore {B} tr0 wd w (k : option api_error -> MW W B) T :
  (forall e tr, writes_by (tr0 ++ tr) (k (Some e)) T) ->
  (forall tr, match restored_form wd w with
              | None => True | Some w' => EvPatch w w' (Ok tt) ∈ tr0 ++ tr end ->
     writes_by (tr0 ++ tr) (k None) T) ->
  writes_by tr0 (restoreWorkload wd w ≫= k) T.
Proof.
  intros Herr Hok. eapply writes_bind; [apply restoreWorkload_spec|..]; intros err tr;
    cbn beta; destruct (restored_form wd w) as [w'|] eqn:Hd.
  - intros (r & rest & -> & _ & Hrep). constructor; [done|by apply report_unwritten].
  - intros [-> _]. constructor.
  - intros (r & rest & -> & -> & Hrep). destruct r as [[]|e]; [|apply Herr].
    apply Hok. apply elem_of_app. right. left.
  - intros [-> ->]. by apply Hok.
Qed.
End PhaseProofs.

(** ** The handlers follow the rules *)

Section Machine.
Context `{UL : UnstructuredLib} `{GP : GoPlatform} `{CU : ControllerUtil}
  {W : Type} `{KC : !KubeClient W}.

Lemma app_mono (tr0 tr : list Eff) : tr0 ⊆ tr0 ++ tr.
Proof. intros e He. apply elem_of_app. by left. Qed.

Lemma elapsed_app since u t window (tr0 tr : list Eff) :
  since = Some u -> window <= time_sub t u -> elapsed_since since window ((tr0 ++ [EvNow t]) ++ tr).
Proof.
  intros -> Hle. exists u, t. split; [done|]. split; [|done].
  apply app_mono, elem_of_app. right. left.
Qed.

(** Steps common to the handlers: the clock, early returns, and status writes. *)
Ltac writes_step :=
  lazymatch goal with
  | |- writes_by _ (mret _) _ => apply writes_ret
  | |- writes_by _ (time_Since _ ≫= _) _ => apply writes_since; intros ?
  | |- writes_by _ (time_Now ≫= _) _ => apply writes_now; intros ?
  | |- writes_by _ (Eventf _ _ _ _ _ ≫= _) _ => apply writes_event; intros ?
  | |- writes_by _ (setStatus _ _ _ _) _ => apply writes_status; intros ? ? ?
  end.

Lemma handleDegraded_writes wd dep msg now tr0 :
  enforcing wd -> some_dep_bad wd tr0 -> fetched (dependent_key wd) dep ∈ tr0 -> EvNow now ∈ tr0 ->
  Phase (wd_Status wd) <> PhaseSuspended -> Phase (wd_Status wd) <> PhaseReleased ->
  writes_by tr0 (handleDegraded wd dep msg now : MW W Ret) (transition wd).
Proof.
  intros Henf Hbad Hdep Hnow Hns Hnr. unfold handleDegraded.
  destruct (DegradedSince (wd_Status wd)) as [since|] eqn:Hd.
  2: { writes_step. eapply (t_degraded _ _ _ now); eauto using app_mono with phases.
       - by apply app_mono.
       - by eapply sw_degraded.
       - by eapply sw_phase. }
  writes_step. destruct (Z.ltb_spec (time_sub t since) (degradedWindow wd)) as [|Hge].
  { repeat writes_step. }
  apply writes_suspend; [intros; apply writes_ret|]. intros wd' tr -> Hdown. writes_step.
  eapply (t_suspended _ _ _ dep); eauto using app_mono with phases.
  - rewrite <- app_assoc. by eapply elapsed_app.
  - split; [by rewrite <- !app_assoc; apply app_mono|].
    destruct Hdown; [by left|right; by apply app_mono].
  - intros Hup n Hs. rewrite Hup in H. by eapply sw_saved.
  - by eapply sw_phase.
Qed.

Lemma handleHealthy_writes wd dep now tr0 :
  enforcing wd -> all_deps_ok wd tr0 -> fetched (dependent_key wd) dep ∈ tr0 -> EvNow now ∈ tr0 ->
  writes_by tr0 (handleHealthy wd dep now : MW W Ret) (transition wd).
Proof.
  intros Henf Hok Hdep Hnow. unfold handleHealthy.
  cbn [upd_Status with_Status wd_Status set_DegradedSince Phase HealthySince].
  destruct (decide (Phase (wd_Status wd) = PhaseSuspended)) as [Hph|Hph].
  2: { writes_step. apply t_healthy; eauto using app_mono with phases. by eapply sw_phase. }
  destruct (HealthySince (wd_Status wd)) as [since|] eqn:Hh.
  2: { writes_step. eapply (t_recovering _ _ _ now); eauto using app_mono with phases.
       - by apply app_mono.
       - by eapply sw_healthy.
       - by eapply sw_phase. }
  writes_step. change (recoveryWindow _) with (recoveryWindow wd).
  destruct (Z.ltb_spec (time_sub t since) (recoveryWindow wd)) as [|Hge].
  { repeat writes_step. }
  apply writes_restore; [intros; apply writes_ret|]. intros tr Hback. writes_step.
  eapply (t_restored _ _ _ dep); eauto using app_mono with phases.
  - rewrite <- app_assoc. by eapply elapsed_app.
  - eapply brought_back_mono; [apply app_mono|].
    split; [by rewrite <- !app_assoc; apply app_mono|done].
  - by eapply sw_phase.
Qed.

Lemma handleSuspended_writes wd dep msg tr0 :
  enforcing wd -> some_dep_bad wd tr0 -> fetched (dependent_key wd) dep ∈ tr0 ->
  Phase (wd_Status wd) = PhaseSuspended ->
  writes_by tr0 (handleSuspended wd dep msg : MW W Ret) (transition wd).
Proof.
  intros Henf Hbad Hdep Hph.
  assert (forall tr wd1 res,
    (Mode (wd_Spec wd) = ModeStrict -> rollout_progressing dep = false -> scalable dep ->
       is_down dep = true \/ EvPatch dep (suspended_form dep) (Ok tt) ∈ tr0 ++ tr) ->
    writes_by (tr0 ++ tr) (setStatus wd1 PhaseSuspended msg res : MW W Ret) (transition wd)) as Hset.
  { intros tr wd1 res Hdown. writes_step. rewrite <- app_assoc.
    eapply (t_enforced _ _ _ dep); eauto using app_mono with phases.
    - by apply app_mono.
    - intros Hm Hr Hsc. split; [by apply app_mono|].
      destruct (Hdown Hm Hr Hsc); [by left|right]. rewrite app_assoc. by apply app_mono.
    - by eapply sw_phase. }
  assert (forall wd1 res,
    (Mode (wd_Spec wd) = ModeStrict -> rollout_progressing dep = false -> scalable dep ->
       is_down dep = true) ->
    writes_by tr0 (setStatus wd1 PhaseSuspended msg res : MW W Ret) (transition wd)) as Hset0.
  { intros wd1 res Hdown. rewrite <- (app_nil_r tr0). apply Hset. intros. left. by apply Hdown. }
  unfold handleSuspended. destruct (decide (Mode (wd_Spec wd) = ModeStrict)) as [Hm|]; [|by apply Hset0].
  destruct (rollout_progressing dep) eqn:Hr; [by apply Hset0|].
  match goal with |- writes_by _ (if ?c then _ else _) _ => destruct c eqn:Hc end.
  - apply writes_suspend; [intros; apply writes_ret|]. intros wd' tr -> Hdown.
    writes_step. rewrite <- app_assoc. apply Hset. intros _ _ _.
    destruct Hdown as [?|Hin]; [by left|right]. rewrite app_assoc. by apply app_mono.
  - apply Hset0. intros _ _ Hsc. unfold is_down. destruct dep; simpl in *;
      [| |by destruct (cj_Suspend c) as [[]|]|]; apply bool_decide_eq_true; apply Z.ltb_ge in Hc;
      unfold scalable in Hsc; simpl in Hsc; lia.
Qed.

Lemma handleDeletion_unwritten wd :
  emits (fun e => is_status_update e = false) (handleDeletion wd : MW W Ret).
Proof.
  unfold handleDeletion, client_UpdateWD.
  match goal with |- emits _ (if ?c then _ else _) => destruct c end; [|by emit_auto].
  apply emits_bind.
  { eapply tspec_mono; [apply getWorkload_spec|]. intros [w|e] tr ->;
      [apply fetched_unwritten|apply fetch_failed_unwritten]. }
  intros [w|e]; [|by destruct (negb (IsNotFound e)); emit_auto].
  apply emits_bind; [|intros []; by emit_auto].
  eapply tspec_mono; [apply restoreWorkload_spec|]. intros err tr.
  destruct (restored_form wd w); [|by intros [-> _]].
  intros (r & rest & -> & _ & Hrep). constructor; [done|by apply report_unwritten].
Qed.

Lemma reconcileSuspended_writes wd dep msg tr0 :
  enforcing wd -> some_dep_bad wd tr0 -> fetched (dependent_key wd) dep ∈ tr0 ->
  Phase (wd_Status wd) = PhaseSuspended ->
  writes_by tr0 (reconcileSuspended wd dep msg : MW W Ret) (transition wd).
Proof.
  intros Henf Hbad Hdep Hph. unfold reconcileSuspended.
  set (maxDur := MaxSuspendDuration (OnDegraded (wd_Spec wd))).
  destruct (Z.ltb_spec 0 maxDur) as [Hmax|]; [|by apply handleSuspended_writes].
  destruct (SuspendedAt (wd_Status wd)) as [at_|] eqn:Hat; [|by apply handleSuspended_writes].
  writes_step. destruct (Z.leb_spec maxDur (time_sub t at_)) as [Hle|]; [|apply writes_ret].
  writes_step. apply writes_restore; [intros; apply writes_ret|]. intros tr' Hback. writes_step.
  eapply (t_released _ _ _ dep); eauto using app_mono with phases.
  - split; [done|]. rewrite <- !(app_assoc (tr0 ++ [EvNow t])). by eapply elapsed_app.
  - eapply brought_back_mono; [apply app_mono|].
    split; [by rewrite <- !app_assoc; apply app_mono|done].
  - by eapply sw_phase.
Qed.

Lemma reconcileEvaluated_writes wd dep allOk msg tr0 :
  (allOk = true -> all_deps_ok wd tr0) -> (allOk = false -> some_dep_bad wd tr0) ->
  fetched (dependent_key wd) dep ∈ tr0 ->
  writes_by tr0 (reconcileEvaluated wd dep allOk msg : MW W Ret) (transition wd).
Proof.
  intros Hok Hbad Hdep. unfold reconcileEvaluated. apply writes_now. intros now.
  assert (allOk = true -> all_deps_ok wd (tr0 ++ [EvNow now])) as Hok'
    by (intros; eauto using app_mono with phases).
  assert (allOk = false -> some_dep_bad wd (tr0 ++ [EvNow now])) as Hbad'
    by (intros; eauto using app_mono with phases).
  assert (fetched (dependent_key wd) dep ∈ tr0 ++ [EvNow now]) as Hdep' by by apply app_mono.
  assert (EvNow now ∈ tr0 ++ [EvNow now]) as Hnow by (apply elem_of_app; right; left).
  clear Hok Hbad Hdep. revert Hok' Hbad' Hdep' Hnow. generalize (tr0 ++ [EvNow now]).
  intros tr1 Hok Hbad Hdep Hnow.
  destruct (negb allOk && rollout_progressing dep) eqn:Hdefer.
  { apply andb_prop in Hdefer as [Ha Hr]. apply negb_true_iff in Ha. writes_step.
    eapply (t_deferred _ _ _ dep); eauto using app_mono with phases; [by apply app_mono|by eapply sw_phase]. }
  destruct (decide (Mode (wd_Spec wd) = ModeObserve)) as [Hm|Hno].
  { destruct allOk; writes_step; [apply t_healthy|apply t_observed]; eauto using app_mono with phases;
      [|by eapply sw_phase..]. by intros [? _]. }
  destruct (decide (Mode (wd_Spec wd) = ModeGate)) as [Hm|Hng].
  { destruct allOk; writes_step; [apply t_healthy|apply t_gated]; eauto using app_mono with phases;
      [|by eapply sw_phase..]. by intros [_ ?]. }
  destruct (decide (Phase (wd_Status wd) = PhaseReleased)) as [Hr|Hnr].
  { destruct allOk; [by apply handleHealthy_writes; auto|]. writes_step.
    apply t_stay_released; eauto using app_mono with phases; [done|by eapply sw_phase]. }
  destruct allOk; simpl; [by apply handleHealthy_writes; auto|].
  destruct (decide (Phase (wd_Status wd) = PhaseSuspended)) as [Hph|Hph].
  - rewrite bool_decide_eq_true_2 by done. by apply reconcileSuspended_writes; auto.
  - rewrite bool_decide_eq_false_2 by done. by apply handleDegraded_writes; auto.
Qed.

Lemma reconcileActive_writes wd tr0 :
  writes_by tr0 (reconcileActive wd : MW W Ret) (transition wd).
Proof.
  unfold reconcileActive.
  destruct (decide (om_Annotations (wd_Meta wd) !! AnnotationPaused = Some "true")).
  { writes_step. apply t_paused; [done|by eapply sw_phase]. }
  eapply writes_bind; [apply getWorkload_spec|intros [w|e] tr ->|intros [w|e] tr ->].
  - apply fetched_unwritten.
  - apply fetch_failed_unwritten.
  - eapply writes_bind; [apply evalDependsOn_spec|intros ev tr [Hread _]; by apply read_unwritten|].
    intros ev tr [_ Hv]. destruct ev as [[allOk msg]|e]; [|apply writes_ret].
    destruct (Hv allOk msg eq_refl) as [Hok Hbad].
    apply reconcileEvaluated_writes.
    + intros Ha. eapply all_deps_ok_mono; [|by apply Hok]. intros x Hx. apply elem_of_app. by right.
    + intros Ha. eapply some_dep_bad_mono; [|by destruct (Hbad Ha)]. intros x Hx. apply elem_of_app. by right.
    + apply app_mono, elem_of_app. right. left.
  - destruct (IsNotFound e) eqn:He; [|apply writes_ret]. writes_step.
    eapply t_missing; [|done|by eapply sw_phase]. apply app_mono, elem_of_app. right. left.
Qed.

Lemma admitNew_writes wd tr0 :
  ContainsFinalizer (om_Finalizers (wd_Meta wd)) FinalizerName = false ->
  writes_by tr0 (admitNew wd : MW W Ret) (transition wd).
Proof.
  intros Hf. unfold admitNew, DetectCycle, client_ListWDs.
  apply tspec_bind_assoc. eapply (writes_bind _ _ _ (fun r tr =>
    tr = [EvListWDs (InNamespace (wd_Namespace wd)) r])); [by apply tspec_interact|..].
  { intros r tr ->. by repeat constructor. }
  intros lr tr ->.
  assert (forall tr1 fs, writes_by tr1 (client_UpdateWD (with_Finalizers wd fs) ≫= (fun r =>
      match r with
      | Ok _ => mret (mkResult true 0, None)
      | Err e => mret (noResult, Some e)
      end) : MW W Ret) (transition wd)) as Hupd.
  { intros tr1 fs. eapply (writes_bind _ _ _ (fun _ tr => unwritten tr)).
    - apply tspec_interact. by repeat constructor.
    - done.
    - intros [?|?] tr _; apply writes_ret. }
  destruct lr as [items|e]; [|apply tspec_bind_ret, Hupd]. apply tspec_bind_ret.
  pose proof (findCycle_spec items wd) as Hspec.
  destruct (findCycle items wd) as [[p|]|]; [|apply Hupd..].
  apply writes_event. intros tr. writes_step. eapply t_cycle; [done| |exact Hspec|by eapply sw_phase].
  rewrite <- !app_assoc. apply elem_of_app. right. left.
Qed.

(** C2: the phase machine.  Every status a reconcile sends, retries included,
    follows one of the rules of [transition] for the WorkloadDependency it read
    first.  In particular Suspended is entered only after the degraded window
    with the dependent seen down or successfully scaled down and its replica
    count saved, Suspended is left for Healthy only after the recovery window
    with the dependent successfully restored, and Released is entered only from
    Suspended, after maxSuspendDuration and the restore. *)
Theorem phase_machine req :
  (Reconcile req : MW W Ret) ⊨ fun _ tr => forall wd', updated tr wd' ->
    exists wd, head tr = Some (EvGetWD req (Ok wd)) /\
      om_DeletionTimestamp (wd_Meta wd) = None /\ transition wd tr wd'.
Proof.
  unfold Reconcile, client_GetWD. apply tspec_bind_interact. intros [wd|e].
  2: { apply tspec_ret. intros wd' Hu. eapply unwritten_updated in Hu; [done|by repeat constructor]. }
  destruct (om_DeletionTimestamp (wd_Meta wd)) eqn:Hdel.
  { eapply tspec_mono; [apply handleDeletion_unwritten|]. intros ret tr Hun wd' Hu.
    eapply unwritten_updated in Hu; [done|]. by constructor. }
  assert (forall m : MW W Ret, writes_by [EvGetWD req (Ok wd)] m (transition wd) ->
    m ⊨ fun _ tr => forall wd', updated (EvGetWD req (Ok wd) :: tr) wd' ->
      exists wd0, head (EvGetWD req (Ok wd) :: tr) = Some (EvGetWD req (Ok wd0)) /\
        om_DeletionTimestamp (wd_Meta wd0) = None /\
        transition wd0 (EvGetWD req (Ok wd) :: tr) wd') as Hlift.
  { intros m Hm. eapply tspec_mono; [exact Hm|]. intros ret tr Hw wd' Hu.
    exists wd. split; [done|]. split; [done|].
    apply (updated_app [_] tr) in Hu as [Hu|Hu]; [|by apply Hw].
    eapply unwritten_updated in Hu; [done|by repeat constructor]. }
  destruct (ContainsFinalizer _ _) eqn:Hf; simpl; apply Hlift;
    [apply reconcileActive_writes|by apply admitNew_writes].
Qed.
End Machine.
