(* ===== verification/Requeue.v ===== *)
(** * No dependency is forgotten

    controller-runtime reconciles an object again only if the reconcile fails, asks
    for a requeue, or something it watches changes.  This file shows that every
    successful reconcile of an admitted dependency asks for a requeue, so that the
    windows are always followed up. *)

From S2P Require Import Prelude Types GoFloat Cluster Workload Metrics Notify Status Health.
From S2P Require Import Cycles Reconciler Safety Phases.

(** ** Waiting times *)

Lemma first_positive_pos ds dflt : 0 < dflt -> 0 < first_positive ds dflt.
Proof.
  intros Hd. induction ds as [|d ds IH]; simpl; [done|].
  destruct (Z.ltb_spec 0 d); done.
Qed.

Lemma degradedWindow_pos wd : 0 < degradedWindow wd.
Proof. by apply first_positive_pos. Qed.
Lemma recoveryWindow_pos wd : 0 < recoveryWindow wd.
Proof. by apply first_positive_pos. Qed.

(** The remaining window plus a second is positive and does not overflow, when the
    clock moved less than a second since the window was found open. *)
Lemma remaining_positive window u t1 t2 :
  0 < window < 2 ^ 62 -> time_sub t1 u < window -> t2 < t1 + Second -> u <= t2 ->
  0 < int64 (int64 (window - time_sub t2 u) + Second).
Proof.
  unfold Second, Millisecond, time_sub. intros Hw H1 Ht Hu.
  rewrite (int64_id (window - _)) by (unfold in_int64; lia).
  rewrite int64_id by (unfold in_int64; lia). lia.
Qed.

Section Requeue.
Context `{UL : UnstructuredLib} `{GP : GoPlatform} `{CU : ControllerUtil}
  {W : Type} `{KC : !KubeClient W}.

Definition requeues (r : Result) : Prop := Requeue r = true \/ 0 < RequeueAfter r.

(** The windows stay away from the end of the int64 range (146 years). *)
Definition short_windows (wd : WorkloadDependency) : Prop :=
  degradedWindow wd < 2 ^ 62 /\ recoveryWindow wd < 2 ^ 62 /\
  MaxSuspendDuration (OnDegraded (wd_Spec wd)) < 2 ^ 62.

(** The clock readings of one reconcile lie less than a second apart and not before
    the times recorded in the status. *)
Record sane_clock (wd : WorkloadDependency) (tr : list Eff) : Prop := {
  sc_close t t' : EvNow t ∈ tr -> EvNow t' ∈ tr -> t' < t + Second;
  sc_past t u : EvNow t ∈ tr ->
    DegradedSince (wd_Status wd) = Some u \/ HealthySince (wd_Status wd) = Some u \/
    SuspendedAt (wd_Status wd) = Some u -> u <= t
}.

Lemma sane_clock_sub wd tr tr' : tr ⊆ tr' -> sane_clock wd tr' -> sane_clock wd tr.
Proof.
  intros Hs [Hc Hp]. split.
  - intros t t' ? ?. apply Hc; by apply Hs.
  - intros t u ? ?. apply (Hp t); [by apply Hs|done].
Qed.

(** [m] asks for a requeue whenever it succeeds under a sane clock. *)
Definition follows_up (wd : WorkloadDependency) (m : MW W Ret) : Prop :=
  m ⊨ fun ret tr => sane_clock wd tr -> ret.2 = None -> requeues ret.1.

Lemma follows_up_ret wd ret : (ret.2 = None -> requeues ret.1) -> follows_up wd (mret ret).
Proof. intros Hr. by apply tspec_ret. Qed.

Lemma follows_up_bind {A} wd (m : MW W A) (k : A -> MW W Ret) (Q : A -> list Eff -> Prop) :
  m ⊨ Q -> (forall a tr, Q a tr -> follows_up wd (k a)) -> follows_up wd (m ≫= k).
Proof.
  intros Hm Hk. eapply tspec_bind; [exact Hm|]. intros a tr HQ.
  eapply tspec_mono; [by apply (Hk a tr)|]. intros ret tr' Hr Hs. apply Hr.
  eapply sane_clock_sub; [|exact Hs]. intros e He. apply elem_of_app. by right.
Qed.

Lemma follows_up_status wd0 wd phase msg res :
  requeues (default (after (15 * Second)) res) ->
  follows_up wd0 (setStatus wd phase msg res : MW W Ret).
Proof.
  intros Hres. eapply tspec_mono; [apply setStatus_result|].
  intros ret tr [_ [(? & ? & ? & ? & _ & _ & _ & _ & ->)|[_ [[e ->]|[-> _]]]]] _ Hn; [done|done|by left].
Qed.

Lemma requeues_after d : 0 < d -> requeues (after d).
Proof. intros. by right. Qed.

Lemma follows_up_default wd0 wd phase msg :
  follows_up wd0 (setStatus wd phase msg None : MW W Ret).
Proof. by apply follows_up_status, requeues_after. Qed.

(** Waiting out a window, with the clock read twice as the source does. *)
Lemma follows_up_window wd u window (k : MW W Ret) :
  0 < window < 2 ^ 62 ->
  DegradedSince (wd_Status wd) = Some u \/ HealthySince (wd_Status wd) = Some u \/
  SuspendedAt (wd_Status wd) = Some u ->
  follows_up wd k ->
  follows_up wd (elapsed ← time_Since u;
    if elapsed <? window then
      elapsed' ← time_Since u;
      let remaining := int64 (window - elapsed') in
      mret (after (int64 (remaining + Second)), None)
    else k).
Proof.
  intros Hw Hu Hk. unfold follows_up, time_Since, time_Now.
  apply tspec_bind_assoc, tspec_bind_interact. intros t1. apply tspec_bind_ret.
  destruct (Z.ltb_spec (time_sub t1 u) window) as [Hlt|_].
  - apply tspec_bind_assoc, tspec_bind_interact. intros t2. apply tspec_bind_ret, tspec_ret.
    intros [Hc Hp] _. apply requeues_after. eapply remaining_positive; [done|exact Hlt|..].
    + apply Hc; [left|right; left].
    + apply (Hp t2); [right; left|done].
  - eapply tspec_mono; [exact Hk|]. intros ret tr Hr Hs. apply Hr.
    eapply sane_clock_sub; [|exact Hs]. intros e He. by right.
Qed.

Lemma handleDegraded_follows wd dep msg now :
  short_windows wd -> follows_up wd (handleDegraded wd dep msg now : MW W Ret).
Proof.
  intros (Hdw & _). unfold handleDegraded. pose proof (degradedWindow_pos wd) as Hpos.
  destruct (DegradedSince (wd_Status wd)) as [since|] eqn:Hd.
  - apply follows_up_window; [lia|by left|].
    eapply follows_up_bind; [apply suspendWorkload_spec|]. intros [wd' [err|]] tr _.
    + by apply follows_up_ret.
    + by apply follows_up_status, requeues_after.
  - by apply follows_up_status, requeues_after.
Qed.

Lemma handleHealthy_follows wd dep now :
  short_windows wd -> follows_up wd (handleHealthy wd dep now : MW W Ret).
Proof.
  intros (_ & Hrw & _). unfold handleHealthy. pose proof (recoveryWindow_pos wd) as Hpos.
  cbn [upd_Status with_Status wd_Status set_DegradedSince Phase HealthySince].
  destruct (decide (Phase (wd_Status wd) = PhaseSuspended)); [|apply follows_up_default].
  destruct (HealthySince (wd_Status wd)) as [since|] eqn:Hh.
  - apply (follows_up_window wd since (recoveryWindow wd)); [lia|right; by left|].
    eapply follows_up_bind; [apply restoreWorkload_spec|]. intros [err|] tr _.
    + by apply follows_up_ret.
    + apply follows_up_default.
  - by apply follows_up_status, requeues_after.
Qed.

Lemma handleSuspended_follows wd0 wd dep msg :
  follows_up wd0 (handleSuspended wd dep msg : MW W Ret).
Proof.
  assert (forall wd1, follows_up wd0 (setStatus wd1 PhaseSuspended msg (Some (after (15 * Second))) : MW W Ret)) as Hset
    by (intros; by apply follows_up_status, requeues_after).
  unfold handleSuspended. destruct (decide (Mode (wd_Spec wd) = ModeStrict)); [|done].
  destruct (rollout_progressing dep); [done|].
  match goal with |- follows_up _ (if ?c then _ else _) => destruct c end; [|done].
  eapply follows_up_bind; [apply suspendWorkload_spec|]. intros [wd' [err|]] tr _; [by apply follows_up_ret|].
  eapply (follows_up_bind _ _ _ (fun _ _ => True)); [by apply tspec_emit|]. intros; apply Hset.
Qed.

Lemma reconcileSuspended_follows wd dep msg :
  short_windows wd -> follows_up wd (reconcileSuspended wd dep msg : MW W Ret).
Proof.
  intros (_ & _ & Hmax). unfold reconcileSuspended.
  set (maxDur := MaxSuspendDuration (OnDegraded (wd_Spec wd))) in *.
  destruct (Z.ltb_spec 0 maxDur) as [Hpos|]; [|apply handleSuspended_follows].
  destruct (SuspendedAt (wd_Status wd)) as [at_|] eqn:Hat; [|apply handleSuspended_follows].
  unfold follows_up, time_Since, time_Now.
  apply tspec_bind_assoc, tspec_bind_interact. intros t. apply tspec_bind_ret.
  destruct (Z.leb_spec maxDur (time_sub t at_)) as [|Hlt].
  - eapply (tspec_mono _ (fun ret tr => sane_clock wd tr -> ret.2 = None -> requeues ret.1)).
    + eapply (follows_up_bind _ _ _ (fun _ _ => True)); [by apply tspec_emit|]. intros _ _ _.
      eapply follows_up_bind; [apply restoreWorkload_spec|]. intros [err|] tr _.
      * by apply follows_up_ret.
      * apply follows_up_default.
    + intros ret tr Hr Hs. apply Hr. eapply sane_clock_sub; [|exact Hs]. intros x Hx. by right.
  - apply tspec_ret. intros [_ Hp] _. apply requeues_after.
    apply (remaining_positive maxDur at_ t t); [lia|done|unfold Second, Millisecond; lia|].
    apply (Hp t); [left|by right; right].
Qed.

Lemma reconcileEvaluated_follows wd dep allOk msg :
  short_windows wd -> follows_up wd (reconcileEvaluated wd dep allOk msg : MW W Ret).
Proof.
  intros Hw. unfold reconcileEvaluated.
  eapply (follows_up_bind _ _ _ (fun _ _ => True)); [by apply tspec_interact|]. intros now _ _.
  destruct (negb allOk && rollout_progressing dep); [by apply follows_up_status, requeues_after|].
  destruct (decide (Mode (wd_Spec wd) = ModeObserve)); [destruct allOk; apply follows_up_default|].
  destruct (decide (Mode (wd_Spec wd) = ModeGate)); [destruct allOk; apply follows_up_default|].
  destruct (decide (Phase (wd_Status wd) = PhaseReleased)).
  { destruct allOk; [by apply handleHealthy_follows|by apply follows_up_status, requeues_after]. }
  destruct (negb allOk && _); [by apply reconcileSuspended_follows|].
  destruct allOk; [by apply handleHealthy_follows|by apply handleDegraded_follows].
Qed.

(** C24: no dependency is forgotten.  Every reconcile of a live, admitted dependency
    that returns without an error asks to be run again, at once or after a positive
    delay: no wait computed from the windows overflows or comes out as "never", as
    long as the clock readings of one reconcile lie less than a second apart and
    not before the times in the status. *)
Theorem always_requeued req :
  (Reconcile req : MW W Ret) ⊨ fun ret tr => forall wd,
    head tr = Some (EvGetWD req (Ok wd)) -> om_DeletionTimestamp (wd_Meta wd) = None ->
    ContainsFinalizer (om_Finalizers (wd_Meta wd)) FinalizerName = true ->
    short_windows wd -> sane_clock wd tr -> ret.2 = None -> requeues ret.1.
Proof.
  unfold Reconcile, client_GetWD. apply tspec_bind_interact. intros [wd0|e]; [|by apply tspec_ret].
  destruct (om_DeletionTimestamp (wd_Meta wd0)) eqn:Hdel.
  { eapply tspec_mono; [apply handleDeletion_patches|]. intros ret tr _ wd [= <-]. by rewrite Hdel. }
  destruct (ContainsFinalizer (om_Finalizers (wd_Meta wd0)) FinalizerName) eqn:Hf; simpl.
  2: { eapply tspec_mono; [apply admitNew_patches|]. intros ret tr _ wd [= <-]. by rewrite Hf. }
  destruct (decide (degradedWindow wd0 < 2 ^ 62 /\ recoveryWindow wd0 < 2 ^ 62 /\
    MaxSuspendDuration (OnDegraded (wd_Spec wd0)) < 2 ^ 62)) as [Hw|Hw].
  2: { eapply tspec_mono; [apply reconcileActive_patches|]. by intros ret tr _ wd [= <-] _ _ ?. }
  apply (tspec_mono _ (fun ret tr => sane_clock wd0 tr -> ret.2 = None -> requeues ret.1)).
  2: { intros ret tr Hr wd [= <-] _ _ _ Hs. apply Hr. eapply sane_clock_sub; [|exact Hs].
       intros x Hx. by right. }
  unfold reconcileActive.
  destruct (decide (om_Annotations (wd_Meta wd0) !! AnnotationPaused = Some "true")); [apply follows_up_default|].
  eapply follows_up_bind; [apply getWorkload_spec|]. intros [dep|e] tr _.
  2: { destruct (IsNotFound e); [apply follows_up_default|by apply follows_up_ret]. }
  eapply follows_up_bind; [apply evalDependsOn_spec|]. intros [[allOk msg]|e] tr' _; [|by apply follows_up_ret].
  by apply reconcileEvaluated_follows.
Qed.
End Requeue.
