(* ===== verification/Finalizer.v ===== *)
(** * The finalizer: first admission and deletion

    A WorkloadDependency enters klink's care when the finalizer is added and
    leaves it when the finalizer is removed.  This file states what a reconcile
    does at both ends, and that taking a workload down and bringing it back is a
    round trip. *)

From S2P Require Import Prelude Types GoFloat Cluster Workload Metrics Notify Status Health.
From S2P Require Import Cycles Reconciler Safety Phases.

(** ** Suspend and restore *)

Section RoundTrip.
Context `{UL : UnstructuredLib}.

(** The scale of a workload: replicas and, for a CronJob, the suspend flag. *)
Definition scale (w : workloadAccessor) : Z * bool := (getReplicas w, isSuspended w).

(** The identity of a workload: its kind, name and namespace. *)
Definition identity (w : workloadAccessor) : string * string * string :=
  (match w with
   | deploymentAccessor _ => "Deployment"
   | statefulSetAccessor _ => "StatefulSet"
   | cronJobAccessor _ => "CronJob"
   | rolloutAccessor _ => "Rollout"
   end, GetNamespace w, GetName w).

(** [spec.replicas] of a Rollout, when present, is an integer (the schema of
    the Rollout resource), and every replica count is an int32. *)
Definition well_typed (w : workloadAccessor) : Prop :=
  in_int32 (getReplicas w) /\
  match w with
  | rolloutAccessor u => (NestedInt64 u ["spec"; "replicas"]).2 = None
  | _ => True
  end.

Lemma int32_in_int64 z : in_int32 z -> in_int64 z.
Proof. unfold in_int32, in_int64. lia. Qed.

Lemma rollout_get_set `{!UnstructuredLaws} u n :
  (NestedInt64 u ["spec"; "replicas"]).2 = None -> in_int32 n ->
  rollout_getReplicas (rollout_setReplicas u n) = n /\
  (NestedInt64 (rollout_setReplicas u n) ["spec"; "replicas"]).2 = None.
Proof.
  intros Hu Hn. unfold rollout_getReplicas, rollout_setReplicas.
  rewrite (int64_id n) by by apply int32_in_int64.
  rewrite nested_int64_set by done. split; [by apply int32_id|done].
Qed.

Lemma setReplicas_spec `{!UnstructuredLaws} w n :
  well_typed w -> in_int32 n -> (forall c, w <> cronJobAccessor c) ->
  getReplicas (setReplicas w n) = n /\ well_typed (setReplicas w n) /\
  identity (setReplicas w n) = identity w.
Proof.
  intros [_ Hw] Hn Hc. destruct w as [d|s|c|u]; [done|done|by destruct (Hc c)|].
  destruct (rollout_get_set u n Hw Hn) as [Hg Ht]. unfold well_typed, identity. simpl.
  rewrite Hg, Ht. unfold rollout_setReplicas. by rewrite set_nested_name, set_nested_namespace.
Qed.

Lemma suspend_then_restore `{!UnstructuredLaws} wd w :
  well_typed w -> is_down w = false ->
  let down := suspended_form w in
  is_down down = true /\ identity down = identity w /\
  exists up, restored_form (save_replicas wd w) down = Some up /\
    scale up = scale w /\ identity up = identity w.
Proof.
  intros Hw Hup down. destruct w as [d|s|c|u].
  3: { split; [done|]. split; [done|]. eexists. split; [done|]. split; [|done].
       revert Hup. unfold is_down, scale, isSuspended. simpl. by destruct (cj_Suspend c) as [[]|]. }
  all: apply bool_decide_eq_false in Hup;
    match goal with down := suspended_form ?w |- _ =>
      destruct (setReplicas_spec w 0) as (Hg & Ht & Hi); [done|by unfold in_int32|done|];
      destruct (setReplicas_spec (setReplicas w 0) (getReplicas w)) as (Hg' & _ & Hi');
        [done|apply Hw|done|]
    end;
    (split; [by apply bool_decide_eq_true|]); (split; [done|]);
    eexists; (split; [cbn; by rewrite decide_False by exact Hup|]);
    (split; [by apply (f_equal (fun r => (r, false)) Hg')|by rewrite <- Hi]).
Qed.
End RoundTrip.

Section RoundTripCode.
Context `{UL : UnstructuredLib} {W : Type} `{KC : !KubeClient W}.

(** C8: round trip.  When [suspendWorkload] takes a running workload down, it does
    so with one successful patch to an object that is down and otherwise the same;
    and [restoreWorkload], run later in any world on that object with the status
    that [suspendWorkload] left, patches it back to exactly the scale the workload
    had before.  This holds for all four kinds. *)
Theorem suspend_restore_roundtrip `{!UnstructuredLaws} wd w msg :
  well_typed w -> is_down w = false ->
  (suspendWorkload wd w msg : MW W _) ⊨ fun p tr => p.2 = None ->
    exists down rest, tr = EvPatch w down (Ok tt) :: rest /\
      is_down down = true /\ identity down = identity w /\
      (restoreWorkload p.1 down : MW W _) ⊨ fun _ tr' =>
        exists up r rest', tr' = EvPatch down up r :: rest' /\
          scale up = scale w /\ identity up = identity w.
Proof.
  intros Hwt Hup. destruct (suspend_then_restore wd w Hwt Hup) as (Hd & Hi & up & Hres & Hsc & Hid).
  eapply tspec_mono; [apply suspendWorkload_spec|]. intros [wd' err] tr. rewrite Hup.
  intros (r & rest & -> & [= -> ->] & _) Hok. destruct r as [[]|e]; [|done].
  exists (suspended_form w), rest. do 3 (split; [done|]).
  eapply tspec_mono; [apply restoreWorkload_spec|]. intros e tr'. cbn [fst]. rewrite Hres.
  intros (r' & rest' & -> & _). by exists up, r', rest'.
Qed.
End RoundTripCode.

(** ** Deletion and admission *)

Section Ends.
Context `{UL : UnstructuredLib} `{GP : GoPlatform} `{CU : ControllerUtil}
  {W : Type} `{KC : !KubeClient W}.

(** klink holds replicas of the dependent that a deletion must give back. *)
Definition holds_replicas (wd : WorkloadDependency) : Prop :=
  Phase (wd_Status wd) = PhaseSuspended /\
  exists n, SavedReplicas (wd_Status wd) = Some n /\ 0 < n.

(** The dependent needs nothing more from klink. *)
Definition given_back (wd : WorkloadDependency) (tr : list Eff) : Prop :=
  (exists w, brought_back wd tr w) \/
  (exists e, IsNotFound e = true /\
     fetch_failed (ref_Kind (Dependent (wd_Spec wd))) (dependent_key wd) e ∈ tr).

(** A call that must be retried before the finalizer may go. *)
Definition restore_blocked (wd : WorkloadDependency) (tr : list Eff) : Prop :=
  (exists e, IsNotFound e = false /\
     fetch_failed (ref_Kind (Dependent (wd_Spec wd))) (dependent_key wd) e ∈ tr) \/
  (exists w w' e, fetched (dependent_key wd) w ∈ tr /\ restored_form wd w = Some w' /\
     EvPatch w w' (Err e) ∈ tr).

Definition keeps_wd (tr : list Eff) : Prop := Forall (fun e => is_wd_write e = false) tr.

Definition without_finalizer (wd : WorkloadDependency) : WorkloadDependency :=
  with_Finalizers wd (RemoveFinalizer (om_Finalizers (wd_Meta wd)) FinalizerName).

(** The two outcomes of a deletion step: the finalizer is removed, as the last
    call, with everything given back; or nothing is written to the
    WorkloadDependency and the step is retried after five seconds. *)
Definition deletion_outcome (wd : WorkloadDependency) (ret : Ret) (tr : list Eff) : Prop :=
  (exists pre r, tr = pre ++ [EvUpdateWD (without_finalizer wd) r] /\ keeps_wd pre /\
     ret = (noResult, err_of r) /\ (holds_replicas wd -> given_back wd pre)) \/
  (keeps_wd tr /\ holds_replicas wd /\ restore_blocked wd tr /\ ret = (after (5 * Second), None)).

Lemma report_keeps tr : Forall (fun e => is_report e) tr -> keeps_wd tr.
Proof. apply List.Forall_impl. intros [] He; done. Qed.

(** The finalizer is removed after the calls [pre]. *)
Lemma finish_outcome wd pre :
  keeps_wd pre -> (holds_replicas wd -> given_back wd pre) ->
  ((r ← client_UpdateWD (without_finalizer wd); mret (noResult, err_of r)) : MW W Ret)
    ⊨ fun ret tr => deletion_outcome wd ret (pre ++ tr).
Proof.
  intros Hk Hg. apply tspec_bind_interact. intros r. apply tspec_ret.
  left. by exists pre, r.
Qed.

Lemma saved_holds wd :
  bool_decide (Phase (wd_Status wd) = PhaseSuspended) &&
    match SavedReplicas (wd_Status wd) with Some n => 0 <? n | None => false end = true ->
  holds_replicas wd.
Proof.
  intros [Hph%bool_decide_eq_true Hn]%andb_prop. split; [done|].
  destruct (SavedReplicas (wd_Status wd)) as [n|]; [|done]. exists n. split; [done|]. by apply Z.ltb_lt.
Qed.

Lemma handleDeletion_spec wd :
  (handleDeletion wd : MW W Ret) ⊨ deletion_outcome wd.
Proof.
  unfold handleDeletion. fold (without_finalizer wd).
  match goal with |- (if ?c then _ else _) ⊨ _ => destruct c eqn:Hs end.
  2: { apply (finish_outcome wd []); [constructor|]. intros [Hph (n & Hn & Hpos)].
       rewrite bool_decide_eq_true_2, Hn in Hs by done. cbn [andb] in Hs. lia. }
  apply saved_holds in Hs as Hh.
  eapply tspec_bind; [apply getWorkload_spec|]. fold (dependent_key wd). intros [w|e] tr ->.
  - eapply tspec_bind; [apply restoreWorkload_spec|]. intros err tr Hr.
    destruct (restored_form wd w) as [w'|] eqn:Hform.
    + destruct Hr as (r & rest & -> & -> & Hrep).
      assert (keeps_wd (fetched (dependent_key wd) w :: EvPatch w w' r :: rest)) as Hk.
      { constructor; [by destruct w|]. constructor; [done|by apply report_keeps]. }
      destruct r as [[]|e].
      * eapply tspec_mono; [apply (finish_outcome wd (fetched (dependent_key wd) w :: EvPatch w w' (Ok tt) :: rest) Hk)|done].
        intros _. left. exists w. split; [left|]. rewrite Hform. right. left.
      * apply tspec_ret. right. rewrite app_nil_r. split; [done|]. split; [done|]. split; [|done].
        right. exists w, w', e. split; [left|]. split; [done|]. right. left.
    + destruct Hr as [-> ->]. eapply tspec_mono; [apply (finish_outcome wd [fetched (dependent_key wd) w])|done].
      * constructor; [by destruct w|done].
      * intros _. left. exists w. split; [left|]. by rewrite Hform.
  - assert (keeps_wd [fetch_failed (ref_Kind (Dependent (wd_Spec wd))) (dependent_key wd) e]) as Hk.
    { constructor; [|done]. unfold fetch_failed. by repeat case_decide. }
    destruct (IsNotFound e) eqn:He; simpl.
    + apply (finish_outcome wd _ Hk). intros _. right. exists e. split; [done|left].
    + apply tspec_ret. right. split; [done|]. split; [done|]. split; [|done].
      left. exists e. split; [done|left].
Qed.

(** C5: deletion never strands a scaled-down workload.  When a
    WorkloadDependency under deletion holds saved replicas, its finalizer is
    removed only after the dependent was successfully restored or found gone;
    if the lookup or the restore fails, nothing is written to it and the step
    is retried after five seconds.  The removal is the last call, takes away
    only klink's finalizer, and keeps spec and status. *)
Theorem deletion_gives_back `{!ControllerUtilLaws} req :
  (Reconcile req : MW W Ret) ⊨ fun ret tr => forall wd,
    head tr = Some (EvGetWD req (Ok wd)) -> is_Some (om_DeletionTimestamp (wd_Meta wd)) ->
    (exists pre wd' r, tr = pre ++ [EvUpdateWD wd' r] /\ keeps_wd pre /\
       ret = (noResult, err_of r) /\ (holds_replicas wd -> given_back wd pre) /\
       (forall f, f ∈ om_Finalizers (wd_Meta wd') <->
          f ∈ om_Finalizers (wd_Meta wd) /\ f <> FinalizerName) /\
       wd_Spec wd' = wd_Spec wd /\ wd_Status wd' = wd_Status wd) \/
    (keeps_wd tr /\ holds_replicas wd /\ restore_blocked wd tr /\
       ret = (after (5 * Second), None)).
Proof.
  unfold Reconcile, client_GetWD. apply tspec_bind_interact.
  intros [wd0|e]; [|by apply tspec_ret].
  assert (forall tr0 tr1 : list Eff, tr1 ⊆ tr0 ++ tr1) as Hs
    by (intros tr0 tr1 x Hx; apply elem_of_app; by right).
  destruct (om_DeletionTimestamp (wd_Meta wd0)) as [del|] eqn:Hdel.
  2: { destruct (negb _).
       - eapply tspec_mono; [apply admitNew_patches|]. intros ret tr _ wd [= <-] [? ?]. by rewrite Hdel in *.
       - eapply tspec_mono; [apply reconcileActive_patches|]. intros ret tr _ wd [= <-] [? ?]. by rewrite Hdel in *. }
  eapply tspec_mono; [apply handleDeletion_spec|].
  intros ret tr [(pre & r & -> & Hk & -> & Hg)|(Hk & Hh & Hb & ->)] wd [= <-] _.
  - left. exists (EvGetWD req (Ok wd0) :: pre), (without_finalizer wd0), r.
    split; [done|]. split; [by constructor|]. split; [done|]. split; [|split; [|done]].
    + intros Hh. destruct (Hg Hh) as [(w & Hw)|(e & He & Hin)]; [left|right].
      * exists w. by apply (brought_back_mono wd0 pre _ _ (Hs [_] pre)).
      * exists e. split; [done|by right].
    + intros f. simpl. by rewrite remove_finalizer.
  - right. split; [by constructor|]. split; [done|]. split; [|done].
    destruct Hb as [(e & He & Hin)|(w & w' & e & Hf & Hr & Hp)]; [left|right].
    + exists e. split; [done|by right].
    + exists w, w', e. split; [by right|]. split; [done|by right].
Qed.

(** What a first reconcile does after reading [wd]: it takes the dependency
    into care, or reports the cycle and leaves it outside. *)
Definition admission_outcome (wd : WorkloadDependency) (ret : Ret) (tr : list Eff) : Prop :=
  (exists lr r, tr = [EvListWDs (InNamespace (wd_Namespace wd)) lr;
       EvUpdateWD (with_Finalizers wd
         (AddFinalizer (om_Finalizers (wd_Meta wd)) FinalizerName)) r] /\
     (forall items, lr = Ok items -> forall p, ~ closes_cycle items wd p) /\
     ret = match r with Ok _ => (mkResult true 0, None) | Err e => (noResult, Some e) end) \/
  (exists items p rest, tr = EvListWDs (InNamespace (wd_Namespace wd)) (Ok items) ::
       EvEvent (wd_key wd) EventTypeWarning "CycleDetected"
         ("dependency cycle detected: " +:+ FormatCycle (key_String <$> p)) [] :: rest /\
     closes_cycle items wd p /\
     Forall (status_event PhaseUnknown
       ("dependency cycle detected: " +:+ FormatCycle (key_String <$> p)) (snapshot wd)) rest).

Lemma admitNew_spec wd : (admitNew wd : MW W Ret) ⊨ admission_outcome wd.
Proof.
  unfold admitNew, DetectCycle, client_ListWDs, client_UpdateWD, Eventf.
  apply tspec_bind_assoc, tspec_bind_interact. intros [items|e]; apply tspec_bind_ret.
  2: { apply tspec_bind_interact. intros [o|err]; apply tspec_ret; left; by do 2 eexists. }
  pose proof (findCycle_spec items wd) as Hspec.
  destruct (findCycle items wd) as [[p|]|]; [| |done].
  - apply tspec_bind_emit. eapply tspec_mono; [apply setStatus_events|].
    intros ret tr Htr. right. by exists items, p, tr.
  - apply tspec_bind_interact. intros [o|err]; apply tspec_ret; left; do 2 eexists;
      (split; [done|]); (split; [|done]); by intros ? [= <-].
Qed.

(** A live dependency that klink has not taken into its care. *)
Definition unadmitted (wd : WorkloadDependency) : Prop :=
  om_DeletionTimestamp (wd_Meta wd) = None /\ (FinalizerName ∉ om_Finalizers (wd_Meta wd)).

(** C9: first admission.  A WorkloadDependency without klink's finalizer is
    checked for cycles before anything else happens.  If the listed dependencies
    and the new one close no cycle (or cannot be listed), the finalizer is added
    with one update, other finalizers, spec and status unchanged, and the object
    is requeued.  If they do, the only thing written is its own status, with
    phase Unknown and the cycle in the message. *)
Theorem first_admission `{!ControllerUtilLaws} req :
  (Reconcile req : MW W Ret) ⊨ fun ret tr => forall wd,
    head tr = Some (EvGetWD req (Ok wd)) -> unadmitted wd ->
    exists lr rest, tr = EvGetWD req (Ok wd) :: EvListWDs (InNamespace (wd_Namespace wd)) lr :: rest /\
    ((exists wd' r, rest = [EvUpdateWD wd' r] /\
        (forall items, lr = Ok items -> forall p, ~ closes_cycle items wd p) /\
        (forall f, f ∈ om_Finalizers (wd_Meta wd') <->
           f ∈ om_Finalizers (wd_Meta wd) \/ f = FinalizerName) /\
        wd_Spec wd' = wd_Spec wd /\ wd_Status wd' = wd_Status wd /\
        ret = match r with Ok _ => (mkResult true 0, None) | Err e => (noResult, Some e) end) \/
     (exists items p, lr = Ok items /\ closes_cycle items wd p /\
        Forall (fun e => is_patch e = false) rest /\
        forall wd' r, (EvUpdateWD wd' r ∉ rest) /\
          (EvStatusUpdate wd' r ∈ rest -> Phase (wd_Status wd') = PhaseUnknown /\
             Message (wd_Status wd') =
               "dependency cycle detected: " +:+ FormatCycle (key_String <$> p)))).
Proof.
  unfold Reconcile, client_GetWD. apply tspec_bind_interact.
  intros [wd0|e]; [|by apply tspec_ret].
  destruct (om_DeletionTimestamp (wd_Meta wd0)) as [del|] eqn:Hdel.
  { eapply tspec_mono; [apply handleDeletion_spec|]. intros ret tr _ wd [= <-] [Hd _]. by rewrite Hdel in Hd. }
  destruct (ContainsFinalizer _ _) eqn:Hf; simpl.
  { eapply tspec_mono; [apply reconcileActive_patches|]. intros ret tr _ wd [= <-] [_ Hnot].
    by apply contains_finalizer in Hf. }
  eapply tspec_mono; [apply admitNew_spec|].
  intros ret tr [(lr & r & -> & Hno & ->)|(items & p & rest & -> & Hc & Hev)] wd [= <-] _;
    do 2 eexists; (split; [done|]); [left|right].
  - do 2 eexists. split; [done|]. split; [done|]. split; [|done].
    intros f. simpl. by rewrite add_finalizer.
  - exists items, p. split; [done|]. split; [done|]. rewrite Forall_forall in Hev. split.
    + constructor; [done|]. apply Forall_forall. intros e He%Hev. by destruct e.
    + intros wd' r. rewrite not_elem_of_cons. split; [split; [done|by intros []%Hev]|].
      intros [?|He%Hev]%elem_of_cons; [done|]. split; [by eapply sw_phase|by eapply sw_message].
Qed.
End Ends.
