(* ===== verification/Accounting.v ===== *)
(** * What a reconcile reports of what it did

    Every change to a workload is announced by an event on the WorkloadDependency
    and counted in a Prometheus counter, with the labels of the workload; and
    nothing else is announced or counted as one. *)

From S2P Require Import Prelude Types GoFloat Cluster Workload Metrics Notify Status Health.
From S2P Require Import Cycles Reconciler Safety Finalizer.

Section Accounting.
Context `{UL : UnstructuredLib} `{GP : GoPlatform} `{CU : ControllerUtil} {W : Type} `{KC : !KubeClient W}.

(** The events that announce a change of a workload. *)
Definition suspend_notice (x : workloadAccessor) : string :=
  match x with cronJobAccessor _ => "CronJobSuspended" | _ => "ScaledToZero" end.
Definition restore_notice (x : workloadAccessor) : string :=
  match x with cronJobAccessor _ => "CronJobResumed" | _ => "ReplicasRestored" end.

Definition notices : list string := ["ScaledToZero"; "CronJobSuspended"; "ReplicasRestored"; "CronJobResumed"].
Definition counters : list string := [scaleToZeroTotal; replicasRestoredTotal].

(** Changes of workloads, and what announces and counts them. *)
Definition booked (e : Eff) : bool :=
  match e with
  | EvPatch _ _ _ => true
  | EvEvent _ _ reason _ _ => bool_decide (reason ∈ notices)
  | EvMetric (CounterInc vec _) => bool_decide (vec ∈ counters)
  | _ => false
  end.

Definition labels (wd : WorkloadDependency) (x : workloadAccessor) : list string :=
  [wd_Namespace wd; (identity x).1.1; GetName x].

(** The books of one reconcile of [wd]: nothing, a refused change, a suspension or a
    restore. *)
Inductive ledger (wd : WorkloadDependency) : list Eff -> Prop :=
  | l_nothing : ledger wd []
  | l_refused x y e : ledger wd [EvPatch x y (Err e)]
  | l_suspended x fmt args : is_down x = false ->
      ledger wd [EvPatch x (suspended_form x) (Ok tt);
        EvEvent (wd_key wd) EventTypeWarning (suspend_notice x) fmt args;
        EvMetric (CounterInc scaleToZeroTotal (labels wd x))]
  | l_restored x y fmt args :
      restored_form wd x = Some y ->
      ledger wd [EvPatch x y (Ok tt);
        EvEvent (wd_key wd) EventTypeNormal (restore_notice x) fmt args;
        EvMetric (CounterInc replicasRestoredTotal (labels wd x))].

Definition books (wd : WorkloadDependency) {A} (m : MW W A) : Prop :=
  m ⊨ fun _ tr => ledger wd (List.filter booked tr).

(** A part that changes and announces nothing. *)
Definition unbooked (e : Eff) : Prop := booked e = false.

Lemma filter_unbooked tr : Forall unbooked tr -> List.filter booked tr = [].
Proof. induction 1 as [|e tr He _ IH]; [done|]. simpl. by rewrite He. Qed.

Lemma books_quiet wd {A} (m : MW W A) : emits unbooked m -> books wd m.
Proof. intros Hm. eapply tspec_mono; [exact Hm|]. intros a tr Ht. rewrite filter_unbooked by done. constructor. Qed.

Lemma books_ret wd {A} (a : A) : books wd (mret a).
Proof. apply books_quiet, emits_ret. Qed.

Lemma books_after wd {A B} (m : MW W A) (k : A -> MW W B) :
  emits unbooked m -> (forall a, books wd (k a)) -> books wd (m ≫= k).
Proof.
  intros Hm Hk. eapply tspec_bind; [exact Hm|]. intros a tr Ht. eapply tspec_mono; [apply Hk|].
  intros b tr' Hl. by rewrite List.filter_app, filter_unbooked.
Qed.

Lemma books_before wd {A B} (m : MW W A) (k : A -> MW W B) :
  books wd m -> (forall a, emits unbooked (k a)) -> books wd (m ≫= k).
Proof.
  intros Hm Hk. eapply tspec_bind; [exact Hm|]. intros a tr Hl. eapply tspec_mono; [apply Hk|].
  intros b tr' Ht. by rewrite List.filter_app, (filter_unbooked tr'), app_nil_r.
Qed.

(** ** The two actions *)

Lemma suspend_books wd x msg : books wd (suspendWorkload wd x msg : MW W _).
Proof.
  destruct (is_down x) eqn:Hd.
  { eapply tspec_mono; [apply suspendWorkload_spec|]. rewrite Hd. intros p tr [-> _]. constructor. }
  unfold suspendWorkload, is_down, client_Patch, Eventf, recordScaleToZero, books in *.
  destruct x as [d|s|c|u].
  3: rewrite Hd.
  1-2,4: apply bool_decide_eq_false in Hd as Hne; rewrite decide_False by exact Hne.
  all: apply tspec_bind_interact; intros [[]|e]; trace_auto; [|apply l_refused].
  all: match goal with |- ledger _ (EvPatch ?x _ _ :: EvEvent _ _ _ ?f ?a :: _) => exact (l_suspended wd x f a Hd) end.
Qed.

Lemma restore_books wd x : books wd (restoreWorkload wd x : MW W _).
Proof.
  destruct (restored_form wd x) as [y|] eqn:Hf.
  2: { eapply tspec_mono; [apply restoreWorkload_spec|]. rewrite Hf. intros p tr [-> _]. constructor. }
  unfold restoreWorkload, nothing_saved, client_Patch, Eventf, recordReplicasRestored, books.
  pose proof Hf as Hform. unfold restored_form in Hf. destruct x as [d|s|c|u].
  3: destruct (isSuspended _); [|discriminate Hf]; cbn [negb]; cbv iota.
  1-2,4: destruct (SavedReplicas (wd_Status wd)) as [n|]; [|discriminate Hf];
    destruct (decide (n = 0)) as [->|Hne]; [discriminate Hf|]; rewrite bool_decide_eq_false_2 by done.
  all: injection Hf as <-; apply tspec_bind_interact; intros [[]|e]; trace_auto; [|apply l_refused].
  all: match goal with |- ledger _ (EvPatch ?x ?y _ :: EvEvent _ _ _ ?f ?a :: _) => exact (l_restored wd x y f a Hform) end.
Qed.

(** ** The quiet parts *)

Lemma now_quiet : emits unbooked (time_Now : MW W Z).
Proof. by apply emits_interact. Qed.

Lemma since_quiet t : emits unbooked (time_Since t : MW W Z).
Proof. apply emits_bind; [apply now_quiet|]. intros. apply emits_ret. Qed.

Lemma setStatus_quiet wd phase msg res : emits unbooked (setStatus wd phase msg res : MW W Ret).
Proof.
  unfold setStatus. apply emits_bind; [by apply applyFields_emits|]. intros wd1. apply emits_bind.
  { assert (forall fuel sn wd, emits unbooked (update_loop fuel phase msg sn wd : MW W _)) as Hl; [|apply Hl].
    intros fuel sn. induction fuel as [|fuel IH]; intros wd'; cbn [update_loop]; [apply emits_ret|].
    unfold client_StatusUpdate, client_GetWD, recordReconcileError.
    apply emits_bind; [by apply emits_interact|]. intros [srv|e]; [apply emits_ret|]. destruct (negb _).
    { apply emits_bind; [by apply emits_emit|]. intros. apply emits_ret. }
    apply emits_bind; [by apply emits_interact|]. intros [fresh|ge]; [|apply emits_ret].
    apply emits_bind; [by apply applyFields_emits|]. intros. apply IH. }
  intros [srv|[e|]]; [|apply emits_ret..].
  apply emits_bind; [apply emits_for_range; intros; by apply emits_emit|]. intros _.
  apply emits_bind; [|intros _; destruct res; apply emits_ret].
  destruct (decide _); [apply emits_ret|by apply maybeNotify_emits].
Qed.

Lemma reads_quiet {A} (m : MW W A) : emits (fun e => is_read e) m -> emits unbooked m.
Proof. intros Hm. eapply emits_mono; [exact Hm|]. by intros []. Qed.

Lemma getWorkload_quiet kind name ns : emits unbooked (getWorkload kind name ns : MW W _).
Proof.
  unfold getWorkload, getRollout, client_GetStatefulSet, client_GetCronJob, client_GetRollout, client_GetDeployment.
  repeat case_decide; (apply emits_bind; [by apply emits_interact|intros; apply emits_ret]).
Qed.

Lemma evalDependsOn_quiet wd deps ok msg : emits unbooked (evalDependsOn wd deps ok msg : MW W _).
Proof. apply reads_quiet. eapply tspec_mono; [apply evalDependsOn_spec|]. intros r tr Hr. apply Hr. Qed.

Create HintDb books.
#[local] Hint Resolve books_ret suspend_books restore_books : books.
#[local] Hint Resolve now_quiet since_quiet setStatus_quiet getWorkload_quiet evalDependsOn_quiet emits_ret : books.

(** Follow a handler: a quiet step and then the rest, or the action and a quiet rest. *)
Ltac books_step :=
  lazymatch goal with
  | |- books _ (suspendWorkload _ _ _ ≫= _) => apply books_before; [apply suspend_books|intros [? [?|]]]
  | |- books _ (restoreWorkload _ _ ≫= _) => apply books_before; [apply restore_books|intros [?|]]
  | |- books _ (emit _ ≫= _) => apply books_after; [by apply emits_emit|intros ?]
  | |- books _ (interact _ _ ≫= _) => apply books_after; [by apply emits_interact|intros ?]
  | |- books _ (_ ≫= _) => apply books_after; [solve [auto with books]|intros ?]
  | |- books _ (setStatus _ _ _ _) => apply books_quiet, setStatus_quiet
  | |- books _ (match ?c with _ => _ end) => destruct c eqn:?
  | |- emits _ (emit _ ≫= _) => apply emits_bind; [by apply emits_emit|intros ?]
  | |- emits _ (interact _ _ ≫= _) => apply emits_bind; [by apply emits_interact|intros ?]
  | |- _ => solve [auto with books]
  end.
Ltac books_auto := repeat (books_step; cbv beta iota zeta).

(** ** The handlers *)

Lemma handleDegraded_books wd x msg now : books wd (handleDegraded wd x msg now : MW W Ret).
Proof. unfold handleDegraded. books_auto. Qed.

Lemma handleSuspended_books wd x msg : books wd (handleSuspended wd x msg : MW W Ret).
Proof. unfold handleSuspended, Eventf. books_auto. Qed.

(** An edit that keeps the name and the saved count keeps the books. *)
Lemma books_same wd wd0 {A} (m : MW W A) : wd_Meta wd0 = wd_Meta wd ->
  SavedReplicas (wd_Status wd0) = SavedReplicas (wd_Status wd) -> books wd0 m -> books wd m.
Proof.
  intros Hm Hs Hb. eapply tspec_mono; [exact Hb|]. intros a tr Hl. unfold booked in *.
  assert (wd_key wd0 = wd_key wd) as Hk by (unfold wd_key, wd_Namespace, wd_Name; by rewrite Hm).
  assert (forall x, labels wd0 x = labels wd x) as Hlab by (intros x; unfold labels, wd_Namespace; by rewrite Hm).
  destruct Hl as [| |x fmt args|x y fmt args Hf]; rewrite ?Hk, ?Hlab; try by constructor.
  constructor. revert Hf. unfold restored_form. by rewrite Hs.
Qed.

Lemma handleHealthy_books wd x now : books wd (handleHealthy wd x now : MW W Ret).
Proof.
  unfold handleHealthy. cbv zeta. apply (books_same wd (upd_Status (set_DegradedSince None) wd)); [done|done|].
  books_auto.
Qed.

Lemma handleDeletion_books wd : books wd (handleDeletion wd : MW W Ret).
Proof. unfold handleDeletion, client_UpdateWD. books_auto. Qed.
#[local] Hint Resolve handleDegraded_books handleSuspended_books handleHealthy_books handleDeletion_books : books.

Lemma reconcileEvaluated_books wd x ok msg : books wd (reconcileEvaluated wd x ok msg : MW W Ret).
Proof. unfold reconcileEvaluated, reconcileSuspended, Eventf. books_auto. Qed.
#[local] Hint Resolve reconcileEvaluated_books : books.

Lemma admitNew_books wd : books wd (admitNew wd : MW W Ret).
Proof.
  unfold admitNew, DetectCycle, client_ListWDs, client_UpdateWD, Eventf. apply books_after.
  { apply emits_bind; [by apply emits_interact|]. intros. repeat case_match; apply emits_ret. }
  intros. books_auto.
Qed.

End Accounting.
