(* ===== verification/Watch.v ===== *)
(** * Watches: from a changed workload to the dependencies to reconcile

    The two field indexes registered by [SetupWithManager] and
    [findWDsForWorkload].  The cache answers a [MatchingFields] list with the
    objects whose index function yields the key; under that documented behaviour
    a change of a workload enqueues every WorkloadDependency that refers to it,
    once, and no other. *)

From S2P Require Import Prelude Types Cluster Workload Health.

(** ** The index functions *)

Definition index_dependent (wd : WorkloadDependency) : list string :=
  [dependent_ns wd +:+ "/" +:+ ref_Name (Dependent (wd_Spec wd))].

Definition index_dependsOn (wd : WorkloadDependency) : list string :=
  (fun dep => dep_ns wd dep +:+ "/" +:+ dep_Name dep) <$> DependsOn (wd_Spec wd).

(** ** The map function *)

(** [enqueue]: the requests so far, and the keys seen. *)
Definition enqueue (acc : gset NamespacedName * list NamespacedName) (wd : WorkloadDependency)
    : gset NamespacedName * list NamespacedName :=
  let '(seen, requests) := acc in
  let k := wd_key wd in
  if decide (k ∈ seen) then acc else ({[k]} ∪ seen, requests ++ [k]).

Definition enqueue_all (r : result (list WorkloadDependency))
    (acc : gset NamespacedName * list NamespacedName) : gset NamespacedName * list NamespacedName :=
  match r with Ok items => foldl enqueue acc items | Err _ => acc end.

Section Watch.
Context `{UL : UnstructuredLib} {W : Type} `{KC : !KubeClient W}.

Definition findWDsForWorkload (obj : workloadAccessor) : MW W (list NamespacedName) :=
  let key := GetNamespace obj +:+ "/" +:+ GetName obj in
  l1 ← client_ListWDs (MatchingFields indexDependsOnName key);
  let acc1 := enqueue_all l1 (∅, []) in
  l2 ← client_ListWDs (MatchingFields indexDependentName key);
  mret (enqueue_all l2 acc1).2.
End Watch.

(** ** The requests are a set *)

(** [seen] is the set of the keys in [requests], which are distinct. *)
Definition acc_ok (acc : gset NamespacedName * list NamespacedName) : Prop :=
  NoDup acc.2 /\ forall k, k ∈ acc.1 <-> k ∈ acc.2.

Lemma enqueue_ok acc wd :
  acc_ok acc -> acc_ok (enqueue acc wd) /\
  forall k, k ∈ (enqueue acc wd).2 <-> k ∈ acc.2 \/ k = wd_key wd.
Proof.
  destruct acc as [seen reqs]. intros [Hnd Hs]. unfold enqueue, acc_ok. simpl in *.
  destruct (decide (wd_key wd ∈ seen)) as [Hin|Hin]; simpl.
  - split; [done|]. intros k. split; [by left|]. intros [?| ->]; [done|by apply Hs].
  - split; [split|].
    + apply NoDup_app. split; [done|]. split; [|apply NoDup_singleton].
      intros x Hx ->%list_elem_of_singleton. by apply Hin, Hs.
    + intros k. rewrite elem_of_union, elem_of_singleton, elem_of_snoc, Hs. tauto.
    + intros k. apply elem_of_snoc.
Qed.

Lemma enqueue_all_ok r acc :
  acc_ok acc -> acc_ok (enqueue_all r acc) /\
  forall k, k ∈ (enqueue_all r acc).2 <->
    k ∈ acc.2 \/ exists items wd, r = Ok items /\ wd ∈ items /\ k = wd_key wd.
Proof.
  destruct r as [items|e]; simpl.
  2: { intros Ha. split; [done|]. intros k. split; [by left|]. intros [?|(? & ? & ? & _)]; done. }
  revert acc. induction items as [|wd items IH]; intros acc Ha; simpl.
  - split; [done|]. intros k. split; [by left|].
    intros [?|(items & wd & [= <-] & ?%not_elem_of_nil & _)]; done.
  - destruct (enqueue_ok acc wd Ha) as [Ha' Hk]. destruct (IH _ Ha') as [Ha'' Hk'].
    split; [done|]. intros k. rewrite Hk', Hk. split.
    + intros [[?| ->]|(its & wd' & [= <-] & ? & ->)]; [by left|right|right]; do 2 eexists;
        (split; [done|]); (split; [|done]); [left|by right].
    + intros [?|(its & wd' & [= <-] & [->|?]%elem_of_cons & ->)]; [left; by left|left; by right|right].
      by exists items, wd'.
Qed.

(** ** Keys identify workloads *)

(** A DNS label has no slash (ASCII 47). *)
Definition slash : Ascii.ascii := Ascii.ascii_of_nat 47.

Fixpoint no_slash (s : string) : bool :=
  match s with
  | EmptyString => true
  | String c s' => negb (Ascii.eqb c slash) && no_slash s'
  end.

Lemma slash_key_inj ns1 n1 ns2 n2 :
  no_slash ns1 = true -> no_slash ns2 = true ->
  ns1 +:+ "/" +:+ n1 = ns2 +:+ "/" +:+ n2 -> ns1 = ns2 /\ n1 = n2.
Proof.
  revert ns2. induction ns1 as [|c ns1 IH]; intros [|c' ns2]; simpl; intros H1 H2 Heq.
  - by injection Heq.
  - injection Heq as <- _. done.
  - injection Heq as -> _. done.
  - apply andb_prop in H1 as [_ H1]. apply andb_prop in H2 as [_ H2].
    injection Heq as -> Heq. by destruct (IH ns2 H1 H2 Heq) as [-> ->].
Qed.

(** [wd] refers to the workload [name] in [ns], as its dependent or as one of its
    dependencies.  The indexes do not look at the kind. *)
Definition refers_to (wd : WorkloadDependency) (ns name : string) : Prop :=
  (dependent_ns wd = ns /\ ref_Name (Dependent (wd_Spec wd)) = name) \/
  exists dep, dep ∈ DependsOn (wd_Spec wd) /\ dep_ns wd dep = ns /\ dep_Name dep = name.

(** The namespaces a WorkloadDependency points into are DNS labels. *)
Definition plain_namespaces (wd : WorkloadDependency) : Prop :=
  no_slash (dependent_ns wd) = true /\
  forall dep, dep ∈ DependsOn (wd_Spec wd) -> no_slash (dep_ns wd dep) = true.

Lemma indexed_refers wd ns name :
  plain_namespaces wd -> no_slash ns = true ->
  (ns +:+ "/" +:+ name ∈ index_dependsOn wd \/ ns +:+ "/" +:+ name ∈ index_dependent wd) <->
  refers_to wd ns name.
Proof.
  intros [Hd Hds] Hns. unfold index_dependsOn, index_dependent, refers_to.
  rewrite list_elem_of_fmap, list_elem_of_singleton. split.
  - intros [(dep & Heq & Hin)|Heq]; apply slash_key_inj in Heq as [-> ->]; auto.
    right. by exists dep.
  - intros [[<- <-]|(dep & Hin & <- & <-)]; [by right|left]. by exists dep.
Qed.

Section WatchSpec.
Context `{UL : UnstructuredLib} {W : Type} `{KC : !KubeClient W}.

(** What the cache holds for an index: the objects whose keys contain [key]. *)
Definition index_answer (store : list WorkloadDependency)
    (index : WorkloadDependency -> list string) (key : string) : list WorkloadDependency :=
  List.filter (fun wd => bool_decide (key ∈ index wd)) store.

Lemma elem_of_index_answer store index key wd :
  wd ∈ index_answer store index key <-> wd ∈ store /\ key ∈ index wd.
Proof.
  unfold index_answer.
  by rewrite list_elem_of_In, List.filter_In, <- list_elem_of_In, bool_decide_eq_true.
Qed.

(** C15: a changed workload enqueues exactly the dependencies that refer to it.
    The requests are distinct.  When both index lists are answered from a store
    of WorkloadDependencies by their index functions, a key is requested if and
    only if a stored object with that key has the workload's namespace and name
    as its dependent or among its dependencies.  A failed list drops its half
    and nothing else. *)
Theorem findWDs_exact obj :
  no_slash (GetNamespace obj) = true ->
  (findWDsForWorkload obj : MW W _) ⊨ fun reqs tr =>
    NoDup reqs /\
    exists l1 l2, let key := GetNamespace obj +:+ "/" +:+ GetName obj in
      tr = [EvListWDs (MatchingFields indexDependsOnName key) l1;
            EvListWDs (MatchingFields indexDependentName key) l2] /\
      (forall k, k ∈ reqs <-> exists items wd, (l1 = Ok items \/ l2 = Ok items) /\
         wd ∈ items /\ k = wd_key wd) /\
      (forall store, (forall wd, wd ∈ store -> plain_namespaces wd) ->
         l1 = Ok (index_answer store index_dependsOn key) ->
         l2 = Ok (index_answer store index_dependent key) ->
         forall k, k ∈ reqs <-> exists wd, wd ∈ store /\ k = wd_key wd /\
           refers_to wd (GetNamespace obj) (GetName obj)).
Proof.
  intros Hns. unfold findWDsForWorkload, client_ListWDs.
  apply tspec_bind_interact. intros l1. apply tspec_bind_interact. intros l2. apply tspec_ret.
  assert (acc_ok (∅, [])) as H0 by (split; [constructor|set_solver]).
  destruct (enqueue_all_ok l1 _ H0) as [H1 Hk1]. destruct (enqueue_all_ok l2 _ H1) as [[Hnd _] Hk2].
  split; [done|]. exists l1, l2. split; [done|].
  assert (forall k, k ∈ (enqueue_all l2 (enqueue_all l1 (∅, []))).2 <->
    exists items wd, (l1 = Ok items \/ l2 = Ok items) /\ wd ∈ items /\ k = wd_key wd) as Hk.
  { intros k. rewrite Hk2, Hk1. split.
    - intros [[?%not_elem_of_nil|(items & wd & ? & ? & ?)]|(items & wd & ? & ? & ?)]; [done|..];
        exists items, wd; auto.
    - intros (items & wd & [?|?] & ? & ?); [left; right|right]; by exists items, wd. }
  split; [done|]. intros store Hplain -> -> k. rewrite Hk. split.
  - intros (items & wd & Hor & Hin & ->).
    assert (wd ∈ store /\ (GetNamespace obj +:+ "/" +:+ GetName obj ∈ index_dependsOn wd \/
      GetNamespace obj +:+ "/" +:+ GetName obj ∈ index_dependent wd)) as [Hst Hidx].
    { destruct Hor as [[= <-]|[= <-]]; apply elem_of_index_answer in Hin as [? ?]; auto. }
    exists wd. split; [done|]. split; [done|]. apply indexed_refers; auto.
  - intros (wd & Hst & -> & Href).
    apply indexed_refers in Href as [Hi|Hi]; [| |by apply Hplain|done]; do 2 eexists;
      (split; [|split; [by apply elem_of_index_answer|done]]); [by left|by right].
Qed.
End WatchSpec.
