(* ===== verification/Pattern.v ===== *)
(** * Regular expressions

    The [pattern] limits of the CRD, decided with Brzozowski derivatives.  The
    constructors [cat] and [alt] drop what cannot match, so that the derivatives
    of a pattern stay small. *)

From S2P Require Import Prelude.
From Stdlib Require Import Ascii.

Inductive re :=
  | RNone
  | REps
  | RSet (p : ascii -> bool)
  | RCat (a b : re)
  | RAlt (a b : re)
  | RStar (a : re).

Definition cat (a b : re) : re :=
  match a, b with
  | RNone, _ | _, RNone => RNone
  | REps, _ => b
  | _, _ => RCat a b
  end.

Definition alt (a b : re) : re :=
  match a, b with
  | RNone, _ => b
  | _, RNone => a
  | _, _ => RAlt a b
  end.

Fixpoint nullable (r : re) : bool :=
  match r with
  | RNone | RSet _ => false
  | REps | RStar _ => true
  | RCat a b => nullable a && nullable b
  | RAlt a b => nullable a || nullable b
  end.

Fixpoint deriv (c : ascii) (r : re) : re :=
  match r with
  | RNone | REps => RNone
  | RSet p => if p c then REps else RNone
  | RCat a b => alt (cat (deriv c a) b) (if nullable a then deriv c b else RNone)
  | RAlt a b => alt (deriv c a) (deriv c b)
  | RStar a => cat (deriv c a) (RStar a)
  end.

(** [^r$] matches the string. *)
Fixpoint matches (r : re) (s : string) : bool :=
  match s with
  | EmptyString => nullable r
  | String c s' => matches (deriv c r) s'
  end.

(** ** What it decides *)

Inductive lang : re -> string -> Prop :=
  | l_eps : lang REps ""
  | l_set p c : p c = true -> lang (RSet p) (String c "")
  | l_cat a b s t : lang a s -> lang b t -> lang (RCat a b) (s +:+ t)
  | l_left a b s : lang a s -> lang (RAlt a b) s
  | l_right a b s : lang b s -> lang (RAlt a b) s
  | l_nil a : lang (RStar a) ""
  | l_more a s t : lang a s -> lang (RStar a) t -> lang (RStar a) (s +:+ t).

Lemma lang_eps_cat b s : lang b s <-> lang (RCat REps b) s.
Proof.
  split; [intros H; change s with ("" +:+ s); by constructor; [constructor|]|].
  inversion 1 as [| |? ? s1 s2 H1 H2| | | |]; subst. inversion H1; subst. exact H2.
Qed.

Lemma lang_none_cat a b s : a = RNone \/ b = RNone -> lang RNone s <-> lang (RCat a b) s.
Proof.
  intros Hn. split; [by inversion 1|]. inversion 1 as [| |? ? s1 s2 H1 H2| | | |]; subst.
  destruct Hn as [-> | ->]; [by inversion H1|by inversion H2].
Qed.

Lemma lang_cat a b s : lang (cat a b) s <-> lang (RCat a b) s.
Proof.
  destruct a, b; simpl; try done; try (by apply lang_eps_cat); by apply lang_none_cat; auto.
Qed.

Lemma lang_alt a b s : lang (alt a b) s <-> lang (RAlt a b) s.
Proof.
  destruct a, b; simpl; try done; split; intros H;
    try (by apply l_left); try (by apply l_right); inversion H; subst;
    try match goal with H : lang RNone _ |- _ => by inversion H end; done.
Qed.

Lemma nullable_lang r : nullable r = true <-> lang r "".
Proof.
  induction r as [| |p|a IHa b IHb|a IHa b IHb|a IHa]; simpl.
  - split; [done|by inversion 1].
  - split; [constructor|done].
  - split; [done|by inversion 1].
  - rewrite andb_true_iff, IHa, IHb. split.
    + intros [Ha Hb]. change "" with ("" +:+ ""). by constructor.
    + inversion 1 as [| |? ? s t Hs Ht| | | |]; subst. destruct s; [|done]. by destruct t.
  - rewrite orb_true_iff, IHa, IHb. split; [intros [?|?]; by constructor|inversion 1; auto].
  - split; [constructor|done].
Qed.

Lemma cat_split a b u : lang (RCat a b) u -> exists s t, s +:+ t = u /\ lang a s /\ lang b t.
Proof. inversion 1; subst. by do 2 eexists. Qed.

Lemma lang_alt_or a b s : lang (RAlt a b) s <-> lang a s \/ lang b s.
Proof. split; [inversion 1; auto|intros [?|?]; [by apply l_left|by apply l_right]]. Qed.

Lemma star_cons a c s : lang (RStar a) (String c s) ->
  exists s1 s2, s = s1 +:+ s2 /\ lang a (String c s1) /\ lang (RStar a) s2.
Proof.
  intros H. remember (RStar a) as r eqn:Hr. remember (String c s) as u eqn:Hu. revert c s Hu.
  induction H as [| | | | |a'|a' s1 s2 H1 _ H2 IH2]; intros d u' Hu; simplify_eq.
  destruct s1 as [|c1 s1]; simpl in Hu; [by apply IH2|]. injection Hu as -> <-. by exists s1, s2.
Qed.

Lemma deriv_lang r c s : lang (deriv c r) s <-> lang r (String c s).
Proof.
  revert s. induction r as [| |p|a IHa b IHb|a IHa b IHb|a IHa]; intros s; simpl.
  - split; inversion 1.
  - split; inversion 1.
  - destruct (p c) eqn:Hp; split; inversion 1; subst; (by constructor) || congruence.
  - rewrite lang_alt. split.
    + inversion 1 as [| | |? ? ? Hl|? ? ? Hr| |]; subst.
      * apply lang_cat in Hl. inversion Hl as [| |? ? s1 s2 H1 H2| | | |]; subst.
        change (String c (s1 +:+ s2)) with (String c s1 +:+ s2). constructor; [by apply IHa|done].
      * destruct (nullable a) eqn:Hn; [|by inversion Hr]. change (String c s) with ("" +:+ String c s).
        constructor; [by apply nullable_lang|by apply IHb].
    + intros (s1 & s2 & Heq & H1 & H2)%cat_split. destruct s1 as [|c1 s1].
      * change (s2 = String c s) in Heq. subst s2. apply l_right. rewrite (proj2 (nullable_lang a) H1). apply (proj2 (IHb s)), H2.
      * change (String c1 (s1 +:+ s2) = String c s) in Heq. injection Heq as -> <-. apply l_left, lang_cat, l_cat; [by apply IHa|done].
  - rewrite lang_alt, !lang_alt_or. by rewrite IHa, IHb.
  - rewrite lang_cat. split.
    + inversion 1 as [| |? ? s1 s2 H1 H2| | | |]; subst.
      change (String c (s1 +:+ s2)) with (String c s1 +:+ s2). constructor; [by apply IHa|done].
    + intros (s1 & s2 & -> & H1 & H2)%star_cons. constructor; [by apply IHa|done].
Qed.

Lemma matches_lang r s : matches r s = true <-> lang r s.
Proof.
  revert r. induction s as [|c s IH]; intros r; simpl; [apply nullable_lang|]. by rewrite IH, deriv_lang.
Qed.

(** ** Character classes *)

Definition between (lo hi : ascii) (c : ascii) : bool :=
  (N_of_ascii lo <=? N_of_ascii c)%N && (N_of_ascii c <=? N_of_ascii hi)%N.
Definition lower : ascii -> bool := between "a" "z".
Definition upper : ascii -> bool := between "A" "Z".
Definition digit : ascii -> bool := between "0" "9".
Definition one_of (l : list ascii) (c : ascii) : bool := existsb (Ascii.eqb c) l.
Definition either (p q : ascii -> bool) (c : ascii) : bool := p c || q c.
Definition opt (r : re) : re := RAlt REps r.
