(* ===== verification/Schema.v ===== *)
(** * The schema of WorkloadDependency

    The markers of api/v1alpha1/workloaddependency_types.go (enumerations, bounds,
    list keys), the limits the generated CRD puts on conditions, and the widths of
    the Go types, as decidable predicates, and the theorem that the controller
    never sends an object outside them. *)

From S2P Require Import Prelude Types GoFloat Cluster Workload Metrics Notify Status Health.
From S2P Require Import Cycles Reconciler Safety Pattern.
From Stdlib Require Import Ascii.

(** ** The markers *)

(** [+kubebuilder:validation:Enum] of [WorkloadRef.Kind], [EnforcementMode],
    [DegradedAction] and [DependencyPhase]; an omitted field is the empty string. *)
Definition kinds : list string := ["Deployment"; "StatefulSet"; "CronJob"; "Rollout"].
Definition modes : list string := [ModeStrict; ModeSoft; ModeGate; ModeObserve].
Definition actions : list string := [ActionScaleToZero].
Definition phases : list string :=
  [PhaseHealthy; PhaseDegraded; PhaseSuspended; PhaseReleased; PhasePaused; PhaseObserved; PhaseUnknown].

Definition schema_condition (c : HealthCondition) : Prop :=
  0 <= MinReadyPercent c <= 100 /\ in_int64 (Window c) /\ in_int64 (RecoveryWindow c).

Definition schema_notify (n : NotifySpec) : Prop := Forall (fun p => p ∈ phases) (OnPhases n).

Definition schema_spec (s : WorkloadDependencySpec) : Prop :=
  ref_Kind (Dependent s) ∈ kinds /\
  Forall (fun d => schema_condition (dep_Condition d)) (DependsOn s) /\
  Action (OnDegraded s) ∈ "" :: actions /\ in_int64 (MaxSuspendDuration (OnDegraded s)) /\
  Mode s ∈ "" :: modes /\
  match Notify s with Some n => schema_notify n | None => True end.

(** [+listType=map], [+listMapKey=type] for the conditions. *)
Definition schema_status (st : WorkloadDependencyStatus) : Prop :=
  Phase st ∈ "" :: phases /\
  match SavedReplicas st with Some n => in_int32 n | None => True end /\
  NoDup (c_Type <$> Conditions st).

Definition schema_wd (wd : WorkloadDependency) : Prop := schema_spec (wd_Spec wd) /\ schema_status (wd_Status wd).

#[export] Instance in_int32_dec z : Decision (in_int32 z).
Proof. unfold in_int32. apply _. Defined.
#[export] Instance in_int64_dec z : Decision (in_int64 z).
Proof. unfold in_int64. apply _. Defined.
#[export] Instance schema_condition_dec c : Decision (schema_condition c).
Proof. unfold schema_condition. apply _. Defined.
#[export] Instance schema_notify_dec n : Decision (schema_notify n).
Proof. unfold schema_notify. apply _. Defined.
#[export] Instance schema_spec_dec s : Decision (schema_spec s).
Proof. unfold schema_spec. destruct (Notify s); apply _. Defined.
#[export] Instance schema_status_dec st : Decision (schema_status st).
Proof. unfold schema_status. destruct (SavedReplicas st); apply _. Defined.
#[export] Instance schema_wd_dec wd : Decision (schema_wd wd).
Proof. unfold schema_wd. apply _. Defined.

(** ** The CRD's limits on conditions

    The schema of [metav1.Condition] in charts/klink/templates/crd.yaml. *)

Definition letter : ascii -> bool := either lower upper.
Definition alnum : ascii -> bool := either letter digit.

(** [^[A-Za-z]([A-Za-z0-9_,:]*[A-Za-z0-9_])?$] *)
Definition reason_pattern : re :=
  RCat (RSet letter)
    (opt (RCat (RStar (RSet (either alnum (one_of ["_"; ","; ":"]%char)))) (RSet (either alnum (one_of ["_"]%char))))).

(** [a-z0-9]([-a-z0-9]*[a-z0-9])?], one part of a DNS name. *)
Definition label_pattern : re :=
  let an := either lower digit in
  RCat (RSet an) (opt (RCat (RStar (RSet (either an (one_of ["-"]%char)))) (RSet an))).

(** A DNS name and a slash, or nothing, and then a qualified name. *)
Definition type_pattern : re :=
  RCat (opt (RCat label_pattern (RCat (RStar (RCat (RSet (one_of ["."]%char)) label_pattern))
                                      (RSet (one_of ["/"]%char)))))
    (RCat (opt (RCat (RSet alnum) (RStar (RSet (either alnum (one_of ["-"; "_"; "."]%char)))))) (RSet alnum)).

(** The characters of a UTF-8 string, which is what a [maxLength] counts: all bytes
    but the continuation bytes. *)
Fixpoint chars (s : string) : Z :=
  match s with
  | EmptyString => 0
  | String c s' => (if between (ascii_of_N 128) (ascii_of_N 191) c then 0 else 1) + chars s'
  end.

Definition crd_condition (c : Condition) : Prop :=
  matches type_pattern (c_Type c) = true /\ chars (c_Type c) <= 316 /\
  c_Status c ∈ [ConditionTrue; ConditionFalse; ConditionUnknown] /\
  matches reason_pattern (c_Reason c) = true /\ 1 <= chars (c_Reason c) <= 1024 /\
  0 <= c_ObservedGeneration c.

Definition message_fits (c : Condition) : Prop := chars (c_Message c) <= 32768.

(** An object that the API server accepts and stores; generations count up from 1. *)
Definition crd_wd (wd : WorkloadDependency) : Prop :=
  schema_wd wd /\ 0 <= om_Generation (wd_Meta wd) /\
  Forall crd_condition (Conditions (wd_Status wd)) /\ Forall message_fits (Conditions (wd_Status wd)).

#[export] Instance crd_condition_dec c : Decision (crd_condition c).
Proof. unfold crd_condition. apply _. Defined.
#[export] Instance message_fits_dec c : Decision (message_fits c).
Proof. unfold message_fits. apply _. Defined.
#[export] Instance crd_wd_dec wd : Decision (crd_wd wd).
Proof. unfold crd_wd. apply _. Defined.

Example pattern_examples :
  map (matches type_pattern) ["Ready"; "klink.dev/Ready"; "-Ready"; "klink..dev/Ready"; ""] =
    [true; true; false; false; false] /\
  map (matches reason_pattern) ["DependentSuspended"; "A"; "has space"; "ends,"; ""] =
    [true; true; false; false; false].
Proof. split; vm_compute; reflexivity. Qed.

(** The table of setCondition only holds values that the CRD accepts. *)
Lemma condSpec_crd phase ty status reason msg now gen :
  condSpec phase = Some (ty, status, reason) -> 0 <= gen ->
  crd_condition (mkCondition ty status reason msg now gen).
Proof.
  intros Hc Hg. unfold condSpec in Hc.
  repeat (case_decide; [simplify_eq; unfold crd_condition; cbn [c_Type c_Status c_Reason c_ObservedGeneration];
    do 2 (split; [vm_compute; congruence|]); split; [set_solver|];
    split; [vm_compute; reflexivity|]; split; [split; vm_compute; congruence|exact Hg]|]). done.
Qed.

(** ** An API server that enforces it

    Custom resources are validated on every write, and the Go types bound the
    integers of the workloads. *)
Class TypedServer `{UL : UnstructuredLib} {W : Type} `{KC : !KubeClient W} : Prop := {
  ts_GetWD k w wd : (kc_GetWD k w).1 = Ok wd -> crd_wd wd;
  ts_Deployment k w d n : (kc_GetDeployment k w).1 = Ok d -> dp_Replicas d = Some n -> in_int32 n;
  ts_StatefulSet k w s n : (kc_GetStatefulSet k w).1 = Ok s -> ss_Replicas s = Some n -> in_int32 n
}.

Section Typing.
Context `{UL : UnstructuredLib} `{GP : GoPlatform} `{CU : ControllerUtil} {W : Type} `{KC : !KubeClient W}
  `{TS : !TypedServer}.

(** The status may be sent: it is within the schema and the CRD's limits, its phase
    is one of the enumeration, [SuspendedAt] is set exactly in phase Suspended, and
    the messages of the conditions fit if the message of the status does. *)
Definition sendable (wd : WorkloadDependency) : Prop :=
  schema_wd wd /\ Forall crd_condition (Conditions (wd_Status wd)) /\ Phase (wd_Status wd) ∈ phases /\
  (is_Some (SuspendedAt (wd_Status wd)) <-> Phase (wd_Status wd) = PhaseSuspended) /\
  (chars (Message (wd_Status wd)) <= 32768 -> Forall message_fits (Conditions (wd_Status wd))).

(** A patch sets the replicas of what was read to an int32, or the suspend flag of a
    CronJob, and nothing else. *)
Definition typed_patch (base new : workloadAccessor) : Prop :=
  match base with
  | cronJobAccessor c => exists v, new = setSuspend base v
  | _ => exists n, in_int32 n /\ new = setReplicas base n
  end.

(** A write within the schema. *)
Definition typed_write (e : Eff) : Prop :=
  match e with
  | EvUpdateWD wd _ => crd_wd wd
  | EvStatusUpdate wd _ => sendable wd
  | EvPatch base new _ => typed_patch base new
  | _ => True
  end.

(** [m ⊢ R]: all writes of [m] are typed and its result satisfies [R]. *)
Definition typed {A} (R : A -> Prop) (m : MW W A) : Prop := m ⊨ fun a tr => Forall typed_write tr /\ R a.

Lemma typed_ret {A} (R : A -> Prop) (a : A) : R a -> typed R (mret a).
Proof. intros HR. by apply tspec_ret. Qed.

Lemma typed_bind {A B} (R : A -> Prop) (S : B -> Prop) (m : MW W A) (k : A -> MW W B) :
  typed R m -> (forall a, R a -> typed S (k a)) -> typed S (m ≫= k).
Proof.
  intros Hm Hk. eapply tspec_bind; [exact Hm|]. intros a tr [Htr HR].
  eapply tspec_mono; [by apply Hk|]. intros b tr' [Htr' HS]. split; [by apply Forall_app_2|done].
Qed.

Lemma typed_interact {A} (R : A -> Prop) (ev : A -> Eff) (f : W -> A * W) :
  (forall w, typed_write (ev (f w).1) /\ R (f w).1) -> typed R (interact ev f).
Proof.
  intros Hf s. unfold interact. specialize (Hf (env s)). destruct (f (env s)) as [a w]. simpl in *.
  exists [ev a]. split; [done|]. destruct Hf. split; [by repeat constructor|done].
Qed.

Lemma typed_emits {A} (P : Eff -> Prop) (m : MW W A) :
  emits P m -> (forall e, P e -> typed_write e) -> typed (fun _ => True) m.
Proof.
  intros Hm HP. eapply tspec_mono; [exact Hm|]. intros a tr Htr. split; [|done].
  eapply List.Forall_impl; [|exact Htr]. done.
Qed.

Lemma typed_weaken {A} (R S : A -> Prop) (m : MW W A) : typed R m -> (forall a, R a -> S a) -> typed S m.
Proof. intros Hm HS. eapply tspec_mono; [exact Hm|]. intros a tr [? ?]. auto. Qed.

(** A call that writes nothing, and whose answer does not matter. *)
Lemma typed_quiet {A} (ev : A -> Eff) (f : W -> A * W) :
  (forall a, typed_write (ev a)) -> typed (fun _ => True) (interact ev f).
Proof. intros Hw. apply typed_interact. intros w. split; [apply Hw|done]. Qed.

Lemma typed_emit (e : Eff) : typed_write e -> typed (fun _ => True) (emit e).
Proof. intros He. apply tspec_emit. split; [by repeat constructor|done]. Qed.

(** *** Status writes *)

Definition int32_opt (o : option Z) : Prop := match o with Some n => in_int32 n | None => True end.

Lemma upsert_Forall (P : Condition -> Prop) ty status reason msg now gen cs :
  (forall t, P (mkCondition ty status reason msg t gen)) -> Forall P cs ->
  Forall P (upsert_condition ty status reason msg now gen cs).
Proof.
  intros Hnew Hcs. induction Hcs as [|c cs Hc Hcs IH]; simpl; [by constructor|].
  case_decide as Ht; [|by constructor]. constructor; [|done]. unfold update_condition.
  repeat case_bool_decide; simpl; subst; apply Hnew.
Qed.

(** Setting the condition keeps an object sendable, if its message is the status's. *)
Lemma set_condition_sendable now phase msg wd :
  0 <= om_Generation (wd_Meta wd) -> Message (wd_Status wd) = msg ->
  sendable wd -> sendable (set_condition_at now phase msg wd).
Proof.
  unfold set_condition_at. destruct (condSpec phase) as [[[ty st] re]|] eqn:Hc; [|done].
  intros Hg Hm ([Hs (Hp & Hr & Hd)] & Hcs & Hph & Hat & Hfit). split; [|split; [|split; [|split]]].
  - split; [exact Hs|]. split; [exact Hp|]. split; [exact Hr|]. by apply upsert_NoDup.
  - apply upsert_Forall; [|done]. intros t. by eapply condSpec_crd.
  - exact Hph.
  - exact Hat.
  - simpl. intros Hl. apply upsert_Forall; [|by apply Hfit]. intros t. unfold message_fits. simpl. by rewrite <- Hm.
Qed.

Lemma applyFields_typed phase msg sn wd : crd_wd wd -> int32_opt (snap_SavedReplicas sn) ->
  phase ∈ phases -> typed sendable (applyFields phase msg sn wd : MW W _).
Proof.
  intros ([Hs (Hp & Hr & Hc)] & Hg & Hcs & Hms) Hsn Hph. unfold applyFields, setCondition, time_Now.
  apply (typed_bind (fun wd1 => wd_Spec wd1 = wd_Spec wd /\ wd_Meta wd1 = wd_Meta wd /\
    SavedReplicas (wd_Status wd1) = SavedReplicas (wd_Status wd) /\
    Conditions (wd_Status wd1) = Conditions (wd_Status wd) /\
    (is_Some (SuspendedAt (wd_Status wd1)) <-> phase = PhaseSuspended))).
  - destruct (decide (phase = PhaseSuspended)) as [-> |Hne].
    + destruct (SuspendedAt (wd_Status wd)) as [t|] eqn:Ht; [apply typed_ret; rewrite Ht; naive_solver|].
      apply (typed_bind (fun _ => True)); [by apply typed_quiet|]. intros now _. apply typed_ret. simpl. naive_solver.
    + apply typed_ret. do 4 (split; [done|]). simpl. split; [by intros []|done].
  - intros wd1 (E1 & E0 & E2 & E3 & E4). apply (typed_bind (fun _ => True)); [by apply typed_quiet|].
    intros now _. apply typed_ret, set_condition_sendable; [by simpl; rewrite E0|done|].
    destruct sn as [[r|] d h]; cbn in *; unfold sendable, schema_wd, schema_status, upd_Status, with_Status; cbn;
      rewrite E1, ?E2, E3; split_and!; try done; try (by right); tauto.
Qed.

Lemma update_loop_typed fuel phase msg sn wd : sendable wd -> int32_opt (snap_SavedReplicas sn) ->
  phase ∈ phases ->
  typed (fun _ => True) (update_loop fuel phase msg sn wd : MW W _).
Proof.
  intros Hw Hsn Hph. revert wd Hw. induction fuel as [|fuel IH]; intros wd Hw; cbn [update_loop]; [by apply typed_ret|].
  unfold client_StatusUpdate, client_GetWD.
  apply (typed_bind (fun _ => True)); [by apply typed_quiet|]. intros [srv|e] _; [by apply typed_ret|].
  destruct (negb (IsConflict e)).
  { apply (typed_bind (fun _ => True)); [|intros _ _; by apply typed_ret].
    eapply typed_emits; [by apply (recordReconcileError_quiet _ _ (fun e => exists op, e = EvMetric op)); eauto|].
    by intros ? [op ->]. }
  apply (typed_bind (fun g => forall fresh, g = Ok fresh -> crd_wd fresh)).
  { apply typed_interact. intros w. split; [done|]. intros fresh. apply ts_GetWD. }
  intros [fresh|ge] Hf; [|by apply typed_ret].
  apply (typed_bind sendable); [by apply applyFields_typed; [apply Hf|..]|]. intros wd' Hw'. by apply IH.
Qed.

Lemma setStatus_typed wd phase msg result : crd_wd wd -> phase ∈ phases ->
  typed (fun _ => True) (setStatus wd phase msg result : MW W Ret).
Proof.
  intros Hw Hph. assert (int32_opt (snap_SavedReplicas (snapshot wd))) as Hsn by apply Hw.
  unfold setStatus. apply (typed_bind sendable); [by apply applyFields_typed|]. intros wd1 Hw1.
  apply (typed_bind (fun _ => True)); [by apply update_loop_typed|].
  intros [srv|[e|]] _; [|by apply typed_ret..].
  apply (typed_bind (fun _ => True)).
  { eapply typed_emits; [by apply (recordPhase_quiet _ _ _ (fun e => exists op, e = EvMetric op)); eauto|].
    by intros ? [op ->]. }
  intros _ _. apply (typed_bind (fun _ => True)); [|intros _ _; destruct result; by apply typed_ret].
  destruct (decide _); [by apply typed_ret|].
  eapply typed_emits; [by apply maybeNotify_emits with (P := typed_write)|done].
Qed.

(** *** Workloads *)

Definition accessor_typed (w : workloadAccessor) : Prop :=
  match w with
  | deploymentAccessor d => int32_opt (dp_Replicas d)
  | statefulSetAccessor s => int32_opt (ss_Replicas s)
  | _ => True
  end.

Lemma getReplicas_typed w : accessor_typed w -> in_int32 (getReplicas w).
Proof.
  assert (in_int32 1 /\ in_int32 (-1)) as [H1 Hm1] by (unfold in_int32; lia).
  destruct w as [d|s|c|u]; simpl; intros Ha.
  - by destruct (dp_Replicas d).
  - by destruct (ss_Replicas s).
  - done.
  - unfold rollout_getReplicas. destruct (NestedInt64 u _) as [[r []] []]; try done. apply int32_range.
Qed.

Lemma getWorkload_typed kind name ns :
  typed (fun r => forall w, r = Ok w -> accessor_typed w) (getWorkload kind name ns : MW W _).
Proof.
  unfold getWorkload, getRollout, client_GetStatefulSet, client_GetCronJob, client_GetRollout, client_GetDeployment.
  repeat case_decide.
  2,3: apply (typed_bind (fun _ => True)); [by apply typed_quiet|]; intros [o|e] _; apply typed_ret; by intros ? [= <-].
  - apply (typed_bind (fun r => forall s, r = Ok s -> int32_opt (ss_Replicas s))).
    + apply typed_interact. intros w. split; [done|]. intros s Hs. destruct (ss_Replicas s) eqn:E; [|done].
      by eapply ts_StatefulSet.
    + intros [o|e] Ho; apply typed_ret; intros ? [= <-]. by apply Ho.
  - apply (typed_bind (fun r => forall d, r = Ok d -> int32_opt (dp_Replicas d))).
    + apply typed_interact. intros w. split; [done|]. intros d Hd. destruct (dp_Replicas d) eqn:E; [|done].
      by eapply ts_Deployment.
    + intros [o|e] Ho; apply typed_ret; intros ? [= <-]. by apply Ho.
Qed.

(** The handlers leave the conditions to [setStatus]. *)
Lemma schema_upd wd st : crd_wd wd -> schema_status st ->
  Conditions st = Conditions (wd_Status wd) -> crd_wd (with_Status wd st).
Proof. intros ([? _] & ? & ? & ?) ? Hc. unfold crd_wd, with_Status. simpl. by rewrite Hc. Qed.

Lemma reports_typed tr : Forall (fun e => is_report e) tr -> Forall typed_write tr.
Proof. intros Hr. eapply List.Forall_impl; [|exact Hr]. by intros []. Qed.

Lemma suspendWorkload_typed wd w msg : crd_wd wd -> accessor_typed w ->
  typed (fun p => crd_wd p.1) (suspendWorkload wd w msg : MW W _).
Proof.
  intros Hw Ha. eapply tspec_mono; [apply suspendWorkload_spec|]. intros p tr Hp.
  destruct (is_down w); [by destruct Hp as [-> ->]|].
  destruct Hp as (r & rest & -> & -> & Hr). split.
  - constructor; [|by apply reports_typed]. assert (in_int32 0) by (unfold in_int32; lia).
    destruct w; simpl; by eexists.
  - destruct w; try done; (apply schema_upd; [done| |done]); destruct Hw as [[_ (?&_&?)] _]; split; try done;
      (split; [|done]); by apply getReplicas_typed.
Qed.

Lemma restoreWorkload_typed wd w : crd_wd wd -> accessor_typed w ->
  typed (fun _ => True) (restoreWorkload wd w : MW W _).
Proof.
  intros Hw Ha. eapply tspec_mono; [apply restoreWorkload_spec|]. intros p tr Hp. split; [|done].
  destruct (restored_form wd w) as [w'|] eqn:E; [|by destruct Hp as [-> _]].
  destruct Hp as (r & rest & -> & _ & Hr). constructor; [|by apply reports_typed].
  revert E. unfold restored_form. destruct Hw as [[_ (_ & Hs & _)] _].
  destruct w as [d|s|c|u].
  3: destruct (isSuspended _); intros [= <-]; by eexists.
  all: destruct (SavedReplicas (wd_Status wd)) as [n|]; [|done]; case_decide; [done|];
    intros [= <-]; by exists n.
Qed.

(** *** The reconciler *)

Lemma in_phases phase : bool_decide (phase ∈ phases) = true -> phase ∈ phases.
Proof. apply bool_decide_eq_true. Qed.

(** Status writes with a literal phase, and calls without writes. *)
Ltac to_status := apply setStatus_typed; [|by apply in_phases].
Ltac quietly := apply (typed_bind (fun _ => True)); [by apply typed_quiet|].

Lemma handleDegraded_typed wd dep msg now : crd_wd wd -> accessor_typed dep ->
  typed (fun _ => True) (handleDegraded wd dep msg now : MW W Ret).
Proof.
  intros Hw Ha. unfold handleDegraded, time_Since, time_Now.
  destruct (DegradedSince (wd_Status wd)); [|to_status; by apply schema_upd; [|apply Hw|]].
  apply (typed_bind (fun _ => True)); [quietly; intros; by apply typed_ret|]. intros el _.
  case_match; [apply (typed_bind (fun _ => True)); [quietly; intros; by apply typed_ret|intros; by apply typed_ret]|].
  apply (typed_bind (fun p => crd_wd p.1)); [by apply suspendWorkload_typed|].
  intros [wd' [err|]] Hw'; [by apply typed_ret|]. by to_status.
Qed.

Lemma handleSuspended_typed wd dep msg : crd_wd wd -> accessor_typed dep ->
  typed (fun _ => True) (handleSuspended wd dep msg : MW W Ret).
Proof.
  intros Hw Ha. unfold handleSuspended, Eventf.
  destruct (decide _); [|by to_status]. destruct (rollout_progressing dep); [by to_status|].
  match goal with |- context [if ?c then _ else setStatus _ _ _ _] => destruct c end; [|by to_status].
  apply (typed_bind (fun p => crd_wd p.1)); [by apply suspendWorkload_typed|].
  intros [wd' [err|]] Hw'; [by apply typed_ret|].
  apply (typed_bind (fun _ => True)); [by apply typed_emit|]. intros _ _. by to_status.
Qed.

Lemma handleHealthy_typed wd dep now : crd_wd wd -> accessor_typed dep ->
  typed (fun _ => True) (handleHealthy wd dep now : MW W Ret).
Proof.
  intros Hw Ha. unfold handleHealthy, time_Since, time_Now. cbv zeta.
  assert (crd_wd (upd_Status (set_DegradedSince None) wd)) as Hw1 by by apply schema_upd; [|apply Hw|].
  destruct (decide _); [|to_status; by apply schema_upd; [|apply Hw|]].
  destruct (HealthySince _); [|to_status; by apply schema_upd; [|apply Hw|]].
  apply (typed_bind (fun _ => True)); [quietly; intros; by apply typed_ret|]. intros el _.
  case_match; [apply (typed_bind (fun _ => True)); [quietly; intros; by apply typed_ret|intros; by apply typed_ret]|].
  apply (typed_bind (fun _ => True)); [by apply restoreWorkload_typed|].
  intros [err|] _; [by apply typed_ret|]. to_status. apply schema_upd; [done| |done]. destruct Hw as [[_ (?&?&?)] _]. by split.
Qed.

Lemma schema_finalizers wd fs : crd_wd wd -> crd_wd (with_Finalizers wd fs).
Proof. done. Qed.

Lemma handleDeletion_typed wd : crd_wd wd -> typed (fun _ => True) (handleDeletion wd : MW W Ret).
Proof.
  intros Hw. unfold handleDeletion, client_UpdateWD. cbv zeta.
  match goal with |- context [interact (EvUpdateWD ?x) ?f] =>
    assert (typed (fun _ => True) (r ← interact (EvUpdateWD x) f; mret (noResult, err_of r))) as Hfin end.
  { quietly. intros r _. by apply typed_ret. }
  match goal with |- typed _ (if ?c then _ else _) => destruct c end; [|exact Hfin].
  apply (typed_bind (fun r => forall w, r = Ok w -> accessor_typed w)); [apply getWorkload_typed|].
  intros [w|e] Hg; [|destruct (negb _); [by apply typed_ret|exact Hfin]].
  apply (typed_bind (fun _ => True)); [by apply restoreWorkload_typed; [|apply Hg]|].
  intros [err|] _; [by apply typed_ret|exact Hfin].
Qed.

Lemma reconcileSuspended_typed wd dep msg : crd_wd wd -> accessor_typed dep ->
  typed (fun _ => True) (reconcileSuspended wd dep msg : MW W Ret).
Proof.
  intros Hw Ha. unfold reconcileSuspended, time_Since, time_Now, Eventf. cbv zeta.
  match goal with |- context [match ?c with Some _ => _ | None => _ end] => destruct c end;
    [|by apply handleSuspended_typed].
  apply (typed_bind (fun _ => True)); [quietly; intros; by apply typed_ret|]. intros el _.
  case_match; [|by apply typed_ret].
  apply (typed_bind (fun _ => True)); [by apply typed_emit|]. intros _ _.
  apply (typed_bind (fun _ => True)); [by apply restoreWorkload_typed|].
  intros [err|] _; [by apply typed_ret|]. to_status. apply schema_upd; [done| |done]. destruct Hw as [[_ (?&?&?)] _]. by split.
Qed.

Lemma reconcileEvaluated_typed wd dep ok msg : crd_wd wd -> accessor_typed dep ->
  typed (fun _ => True) (reconcileEvaluated wd dep ok msg : MW W Ret).
Proof.
  intros Hw Ha. unfold reconcileEvaluated, time_Now. cbv zeta. quietly. intros now _.
  destruct (negb ok && rollout_progressing dep); [by to_status|].
  destruct (decide (Mode (wd_Spec wd) = ModeObserve)); [destruct ok; by to_status|].
  destruct (decide (Mode (wd_Spec wd) = ModeGate)); [destruct ok; by to_status|].
  destruct (decide (Phase (wd_Status wd) = PhaseReleased)); [destruct ok; [by apply handleHealthy_typed|by to_status]|].
  destruct (negb ok && _); [by apply reconcileSuspended_typed|].
  destruct ok; [by apply handleHealthy_typed|by apply handleDegraded_typed].
Qed.

Lemma evalDependsOn_typed wd deps ok msg : typed (fun _ => True) (evalDependsOn wd deps ok msg : MW W _).
Proof.
  eapply tspec_mono; [apply evalDependsOn_spec|]. intros r tr Hr. split; [|done].
  assert (Forall (fun e => is_read e) tr) as Hread by apply Hr.
  eapply List.Forall_impl; [|exact Hread]. by intros [].
Qed.

Lemma admitNew_typed wd : crd_wd wd -> typed (fun _ => True) (admitNew wd : MW W Ret).
Proof.
  intros Hw. unfold admitNew, DetectCycle, client_ListWDs, client_UpdateWD, Eventf.
  apply (typed_bind (fun _ => True)).
  { quietly. intros r _. repeat case_match; by apply typed_ret. }
  assert (typed (fun _ => True) (r ← interact (EvUpdateWD (with_Finalizers wd
    (AddFinalizer (om_Finalizers (wd_Meta wd)) FinalizerName))) (kc_UpdateWD (with_Finalizers wd
    (AddFinalizer (om_Finalizers (wd_Meta wd)) FinalizerName)));
    match r with Err err => mret (noResult, Some err) | Ok _ => mret (mkResult true 0, None) end)) as Hupd.
  { quietly. intros [?|?] _; by apply typed_ret. }
  intros [[cycle|]|err] _; [|exact Hupd..].
  apply (typed_bind (fun _ => True)); [by apply typed_emit|]. intros _ _. by to_status.
Qed.

(** C26: the controller stays within the schema.  If the API server hands out
    objects within the CRD and workloads whose counts are int32, then every
    WorkloadDependency a reconcile sends is within it again, for every mode and
    phase.  In a status the phase is one of the enumeration and not empty, the
    saved count is an int32 also when it came from the int64 of a Rollout, the
    conditions are keyed by type with types, statuses, reasons and generations the
    CRD accepts, and messages it accepts if the status message has at most 32768
    characters, and [suspendedAt] is set exactly in phase Suspended.  Every patch
    sets the replicas of the object read, a Rollout's too, to an int32, or the
    suspend flag of a CronJob. *)
Theorem reconcile_stays_typed req :
  (Reconcile req : MW W Ret) ⊨ fun _ tr => Forall typed_write tr.
Proof.
  enough (typed (fun _ => True) (Reconcile req : MW W Ret)) as Ht.
  { eapply tspec_mono; [exact Ht|]. by intros ? ? [? _]. }
  unfold Reconcile, client_GetWD.
  apply (typed_bind (fun g => forall wd, g = Ok wd -> crd_wd wd)).
  { apply typed_interact. intros w. split; [done|]. intros wd. apply ts_GetWD. }
  intros [wd|err] Hg; [|by apply typed_ret]. specialize (Hg wd eq_refl).
  destruct (om_DeletionTimestamp (wd_Meta wd)); [by apply handleDeletion_typed|].
  destruct (negb _); [by apply admitNew_typed|].
  unfold reconcileActive. destruct (decide _); [by to_status|].
  apply (typed_bind (fun r => forall w, r = Ok w -> accessor_typed w)); [apply getWorkload_typed|].
  intros [dep|err] Hd; [|destruct (IsNotFound err); [by to_status|by apply typed_ret]].
  apply (typed_bind (fun _ => True)); [apply evalDependsOn_typed|].
  intros [[ok msg]|err] _; [|by apply typed_ret]. by apply reconcileEvaluated_typed; [|apply Hd].
Qed.
End Typing.
