(* ===== verification/ApiServer.v ===== *)
(** * What klink expects of the API server

    The Kubernetes API server and controller-runtime's cached client are not part
    of the repository.  [ApiServer] names what can be observed of them, and
    [ApiServerLaws] states the documented behaviour the end-to-end theorems need:
    reads come from a cache that may lag behind, except in worlds where it has
    caught up; writes are checked against the resourceVersion and the schema; and
    storage keeps times to the second.  The laws speak only of [sv_calm] worlds, in
    which the server answers and nobody else is writing; nothing is assumed of the
    others.  [wp] is the reasoning about programs in such a world. *)

From S2P Require Import Prelude Types GoFloat Cluster Workload Metrics Notify Status Health.
From S2P Require Import Cycles Reconciler Safety Phases Finalizer Watch Pattern Schema.

(** ** The objects of a cluster *)

Record Objects `{UnstructuredLib} := mkObjects {
  o_wds : gmap NamespacedName WorkloadDependency;
  o_deployments : gmap NamespacedName Deployment;
  o_statefulsets : gmap NamespacedName StatefulSet;
  o_cronjobs : gmap NamespacedName CronJob;
  o_rollouts : gmap NamespacedName Unstructured
}.
#[global] Arguments mkObjects {_}.

Section Objects.
Context `{UL : UnstructuredLib}.

Definition on_wds (f : gmap NamespacedName WorkloadDependency -> gmap NamespacedName WorkloadDependency)
    (o : Objects) : Objects :=
  mkObjects (f (o_wds o)) (o_deployments o) (o_statefulsets o) (o_cronjobs o) (o_rollouts o).

(** What [getWorkload kind] looks for. *)
Definition workload_at (kind : string) (k : NamespacedName) (o : Objects) : option workloadAccessor :=
  if decide (kind = "StatefulSet") then statefulSetAccessor <$> o_statefulsets o !! k
  else if decide (kind = "CronJob") then cronJobAccessor <$> o_cronjobs o !! k
  else if decide (kind = "Rollout") then rolloutAccessor <$> o_rollouts o !! k
  else deploymentAccessor <$> o_deployments o !! k.

Definition put_workload (k : NamespacedName) (x : workloadAccessor) (o : Objects) : Objects :=
  match x with
  | deploymentAccessor d => mkObjects (o_wds o) (<[k := d]> (o_deployments o)) (o_statefulsets o) (o_cronjobs o) (o_rollouts o)
  | statefulSetAccessor s => mkObjects (o_wds o) (o_deployments o) (<[k := s]> (o_statefulsets o)) (o_cronjobs o) (o_rollouts o)
  | cronJobAccessor c => mkObjects (o_wds o) (o_deployments o) (o_statefulsets o) (<[k := c]> (o_cronjobs o)) (o_rollouts o)
  | rolloutAccessor u => mkObjects (o_wds o) (o_deployments o) (o_statefulsets o) (o_cronjobs o) (<[k := u]> (o_rollouts o))
  end.

(** An object is stored under its own name. *)
Definition keyed (k : NamespacedName) (x : workloadAccessor) : Prop :=
  k = mkNN (GetNamespace x) (GetName x).

(** Equal in everything klink reads; an unstructured Rollout may differ elsewhere,
    in its resourceVersion for one. *)
Definition same_view (x y : workloadAccessor) : Prop :=
  match x, y with
  | rolloutAccessor u, rolloutAccessor v =>
      uns_Name u = uns_Name v /\ uns_Namespace u = uns_Namespace v /\
      NestedInt64 u ["spec"; "replicas"] = NestedInt64 v ["spec"; "replicas"] /\
      NestedString u ["status"; "phase"] = NestedString v ["status"; "phase"]
  | _, _ => x = y
  end.

(** [y] is [x] with an admissible scale: only replicas, or the suspend flag, differ. *)
Definition rescaled (x y : workloadAccessor) : Prop :=
  (exists n, 0 <= n /\ in_int32 n /\ y = setReplicas x n) \/ (exists b, y = setSuspend x b).

Lemma same_view_refl x : same_view x x.
Proof. by destruct x. Qed.

(** The two have the same constructor, name, scale and phase. *)
Lemma same_view_facts x y : same_view x y ->
  scale y = scale x /\ identity y = identity x /\ rollout_progressing y = rollout_progressing x /\
  (scalable x -> scalable y) /\ (well_typed x -> well_typed y).
Proof.
  destruct x as [d|s|c|u], y as [d'|s'|c'|u']; simpl; try done; try (by intros [= <-]).
  intros (Hn & Hns & Hr & Hp). unfold scale, identity, scalable, well_typed. simpl.
  unfold rollout_getReplicas, isProgressing, rollout_phase. by rewrite Hn, Hns, Hr, Hp.
Qed.

Lemma keyed_identity k x y : identity y = identity x -> keyed k x -> keyed k y.
Proof. unfold keyed. intros [= _ -> ->]. done. Qed.

Lemma put_workload_at kind k x y o :
  workload_at kind k o = Some x -> identity y = identity x ->
  workload_at kind k (put_workload k y o) = Some y.
Proof.
  unfold workload_at, identity. intros Hx Hi.
  repeat destruct (decide _); destruct (_ !! _) as [z|]; simplify_eq/=;
    destruct y; simplify_eq/=; by rewrite lookup_insert_eq.
Qed.

Lemma put_workload_same kind k x o : workload_at kind k o = Some x -> put_workload k x o = o.
Proof.
  unfold workload_at. intros Hx. destruct o as [w d s c r].
  repeat destruct (decide _); simpl in *;
    match type of Hx with context [?m !! k] => destruct (m !! k) as [z|] eqn:Hz end; simplify_eq/=;
    by rewrite insert_id.
Qed.

Lemma put_workload_wds k x o : o_wds (put_workload k x o) = o_wds o.
Proof. by destruct x. Qed.

Lemma rescaled_identity `{!UnstructuredLaws} x y : rescaled x y -> identity y = identity x.
Proof.
  intros [(n & _ & _ & ->)|(b & ->)]; destruct x as [d|s|c|u]; simpl; try done.
  unfold identity. simpl. unfold rollout_setReplicas. by rewrite set_nested_name, set_nested_namespace.
Qed.
End Objects.

(** ** The interface *)

(** What is observable of the world: the time, the objects stored, whether the
    server is [sv_calm] (it answers, and klink is the only one to write for the
    time being) and whether the cache is [sv_fresh] (it has seen every write). *)
Class ApiServer `{UL : UnstructuredLib} (W : Type) `{KC : !KubeClient W} := {
  sv_clock : W -> Z;
  sv_objects : W -> Objects;
  sv_calm : W -> Prop;
  sv_fresh : W -> Prop
}.

Section Laws.
Context `{UL : UnstructuredLib} {W : Type} `{KC : !KubeClient W} `{AS : !ApiServer W}.

(** Only time goes by. *)
Record passes (w w' : W) : Prop := {
  ps_clock : sv_clock w <= sv_clock w';
  ps_objects : sv_objects w' = sv_objects w;
  ps_calm : sv_calm w';
  ps_fresh : sv_fresh w -> sv_fresh w'
}.

(** A write has changed the objects to [o]; the cache may not have seen it yet. *)
Record writes (o : Objects) (w w' : W) : Prop := {
  wr_clock : sv_clock w <= sv_clock w';
  wr_objects : sv_objects w' = o;
  wr_calm : sv_calm w'
}.

(** The answer to a read of an object that is stored, or not. *)
Definition answers {A} (stored : option A) (r : result A) : Prop :=
  match stored with
  | Some a => r = Ok a
  | None => exists e, r = Err e /\ IsNotFound e = true
  end.

(** The same object as far as the client set it: the server owns the resourceVersion. *)
Definition same_meta (m m' : ObjectMeta) : Prop :=
  om_Name m' = om_Name m /\ om_Namespace m' = om_Namespace m /\ om_Generation m' = om_Generation m /\
  om_DeletionTimestamp m' = om_DeletionTimestamp m /\ om_Annotations m' = om_Annotations m /\
  om_Finalizers m' = om_Finalizers m.

(** The sent object is an edit of the stored one: the same resourceVersion. *)
Definition current (o : Objects) (wd : WorkloadDependency) (stored : WorkloadDependency) : Prop :=
  o_wds o !! wd_key wd = Some stored /\ wd_Meta stored = wd_Meta wd /\ wd_Spec stored = wd_Spec wd.

Class ApiServerLaws : Prop := {
  as_Now w : sv_calm w -> passes w (kc_Now w).2 /\ sv_clock w <= (kc_Now w).1 <= sv_clock (kc_Now w).2;
  as_GetWD k w : sv_calm w -> passes w (kc_GetWD k w).2 /\
    (sv_fresh w -> answers (o_wds (sv_objects w) !! k) (kc_GetWD k w).1);
  as_GetDeployment k w : sv_calm w -> passes w (kc_GetDeployment k w).2 /\
    (sv_fresh w -> answers (o_deployments (sv_objects w) !! k) (kc_GetDeployment k w).1);
  as_GetStatefulSet k w : sv_calm w -> passes w (kc_GetStatefulSet k w).2 /\
    (sv_fresh w -> answers (o_statefulsets (sv_objects w) !! k) (kc_GetStatefulSet k w).1);
  as_GetCronJob k w : sv_calm w -> passes w (kc_GetCronJob k w).2 /\
    (sv_fresh w -> answers (o_cronjobs (sv_objects w) !! k) (kc_GetCronJob k w).1);
  as_GetRollout k w : sv_calm w -> passes w (kc_GetRollout k w).2 /\
    (sv_fresh w -> answers (o_rollouts (sv_objects w) !! k) (kc_GetRollout k w).1);
  as_GetSecret k w : sv_calm w -> passes w (kc_GetSecret k w).2;
  (* a field index, once registered, answers with the objects that yield the key *)
  as_ListWDs key w : sv_calm w ->
    let o := MatchingFields indexDependentName key in
    passes w (kc_ListWDs o w).2 /\
    (sv_fresh w -> exists items, (kc_ListWDs o w).1 = Ok items /\
       forall wd, wd ∈ items <-> (exists k, o_wds (sv_objects w) !! k = Some wd) /\ key ∈ index_dependent wd);
  (* a merge patch of the stored object to an admissible scale *)
  as_Patch kind k base new w : sv_calm w ->
    workload_at kind k (sv_objects w) = Some base -> keyed k base -> well_typed base -> rescaled base new ->
    (kc_Patch base new w).1 = Ok tt /\
    exists y, same_view new y /\ writes (put_workload k y (sv_objects w)) w (kc_Patch base new w).2;
  (* the status subresource takes the status of an object within the CRD, to the second *)
  as_StatusUpdate wd stored w : sv_calm w -> current (sv_objects w) wd stored ->
    om_DeletionTimestamp (wd_Meta wd) = None -> crd_wd wd ->
    exists srv, (kc_StatusUpdateWD wd w).1 = Ok srv /\ same_meta (wd_Meta wd) (wd_Meta srv) /\
      wd_Spec srv = wd_Spec wd /\ wd_Status srv = normal_Status (wd_Status wd) /\
      writes (on_wds (insert (wd_key wd) srv) (sv_objects w)) w (kc_StatusUpdateWD wd w).2;
  (* an object being deleted goes when its last finalizer does *)
  as_LastFinalizer wd stored w : sv_calm w -> o_wds (sv_objects w) !! wd_key wd = Some stored ->
    om_ResourceVersion (wd_Meta wd) = om_ResourceVersion (wd_Meta stored) ->
    is_Some (om_DeletionTimestamp (wd_Meta wd)) -> om_Finalizers (wd_Meta wd) = [] -> crd_wd wd ->
    exists srv, (kc_UpdateWD wd w).1 = Ok srv /\
      writes (on_wds (delete (wd_key wd)) (sv_objects w)) w (kc_UpdateWD wd w).2
}.

Lemma passes_refl w : sv_calm w -> passes w w.
Proof. by split. Qed.

Lemma passes_trans w1 w2 w3 : passes w1 w2 -> passes w2 w3 -> passes w1 w3.
Proof. intros [? Ho ? ?] [? Ho' ? ?]. split; [lia|by rewrite Ho', Ho|done|auto]. Qed.
End Laws.

(** ** Programs in a world *)

Section Wp.
Context `{UL : UnstructuredLib} {W : Type}.

(** Run in [w], after any trace, [m] ends with a result and a world that satisfy [Q]. *)
Definition wp {A} (m : MW W A) (w : W) (Q : A -> W -> Prop) : Prop :=
  forall o, Q (m (MkSys w o)).1 (env (m (MkSys w o)).2).

Lemma wp_mono {A} (m : MW W A) w (P Q : A -> W -> Prop) :
  wp m w P -> (forall a w', P a w' -> Q a w') -> wp m w Q.
Proof. intros Hm HQ o. apply HQ, Hm. Qed.

Lemma wp_ret {A} (a : A) w (Q : A -> W -> Prop) : Q a w -> wp (mret a) w Q.
Proof. by intros HQ o. Qed.

Lemma wp_bind {A B} (m : MW W A) (k : A -> MW W B) w (Q : B -> W -> Prop) :
  wp m w (fun a w' => wp (k a) w' Q) -> wp (m ≫= k) w Q.
Proof.
  intros Hm o. specialize (Hm o). unfold mbind, M_bind.
  destruct (m (MkSys w o)) as [a [w' o']]. apply Hm.
Qed.

Lemma wp_interact {A} (ev : A -> Eff) (f : W -> A * W) w (Q : A -> W -> Prop) :
  Q (f w).1 (f w).2 -> wp (interact ev f) w Q.
Proof. intros HQ o. unfold interact. simpl. by destruct (f w). Qed.

Lemma wp_emit (e : Eff) w (Q : unit -> W -> Prop) : Q tt w -> wp (emit e) w Q.
Proof. by intros HQ o. Qed.

Lemma wp_for_range {A} (l : list A) (f : A -> MW W unit) w (I : W -> Prop) :
  (forall x w', I w' -> wp (f x) w' (fun _ => I)) -> I w -> wp (for_range l f) w (fun _ => I).
Proof.
  intros Hf. revert w. induction l as [|x l IH]; intros w HI; simpl; [by apply wp_ret|].
  apply wp_bind. eapply wp_mono; [by apply Hf|]. intros [] w' HI'. by apply IH.
Qed.
End Wp.

(** ** The calls, under the laws *)

Section Calls.
Context `{UL : UnstructuredLib} {W : Type} `{KC : !KubeClient W} `{AS : !ApiServer W} `{AL : !ApiServerLaws}.

Lemma wp_now w : sv_calm w ->
  wp time_Now w (fun t w' => passes w w' /\ sv_clock w <= t <= sv_clock w').
Proof. intros Hc. apply wp_interact. by apply as_Now. Qed.

(** [time.Since] measures from a reading between the two clocks. *)
Lemma wp_since t w : sv_calm w ->
  wp (time_Since t) w (fun d w' => passes w w' /\ exists now, sv_clock w <= now <= sv_clock w' /\ d = time_sub now t).
Proof.
  intros Hc. apply wp_bind. eapply wp_mono; [by apply wp_now|]. intros now w' [Hp Ht].
  apply wp_ret. split; [done|]. by exists now.
Qed.

(** A read that is passed on in a constructor. *)
Lemma wp_read {A} (c : A -> workloadAccessor) (ev : result A -> Eff) (f : W -> result A * W)
    (stored : option A) w :
  passes w (f w).2 -> answers stored (f w).1 ->
  wp (r ← interact ev f; mret (match r with Ok o => Ok (c o) | Err e => Err e end)) w
    (fun r w' => passes w w' /\ answers (c <$> stored) r).
Proof.
  intros Hp Ha. apply wp_bind, wp_interact, wp_ret. split; [done|].
  destruct stored as [a|]; simpl in *; [by rewrite Ha|]. destruct Ha as (e & -> & He). by exists e.
Qed.

Lemma wp_getWorkload kind name ns w : sv_calm w -> sv_fresh w ->
  wp (getWorkload kind name ns) w (fun r w' => passes w w' /\
    answers (workload_at kind (mkNN ns name) (sv_objects w)) r).
Proof.
  intros Hc Hf. unfold getWorkload, workload_at, getRollout.
  repeat destruct (decide _); apply wp_read.
  - by apply as_GetStatefulSet.
  - by apply as_GetStatefulSet.
  - by apply as_GetCronJob.
  - by apply as_GetCronJob.
  - by apply as_GetRollout.
  - by apply as_GetRollout.
  - by apply as_GetDeployment.
  - by apply as_GetDeployment.
Qed.

(** *** Status writes *)

(** The object [setStatus wd phase msg] sends, with readings [t1] for [suspendedAt]
    and [t2] for the condition. *)
Definition stamped (t1 t2 : Z) (phase msg : string) (wd : WorkloadDependency) : WorkloadDependency :=
  set_condition_at t2 phase msg (upd_Status (fun st => set_Message msg (set_Phase phase
    (set_SuspendedAt (if decide (phase = PhaseSuspended) then Some (default t1 (SuspendedAt st)) else None)
      st))) wd).

Lemma stamped_status t1 t2 phase msg wd :
  let st' := wd_Status (stamped t1 t2 phase msg wd) in let st := wd_Status wd in
  Phase st' = phase /\ SavedReplicas st' = SavedReplicas st /\ DegradedSince st' = DegradedSince st /\
  HealthySince st' = HealthySince st /\
  SuspendedAt st' = (if decide (phase = PhaseSuspended) then Some (default t1 (SuspendedAt st)) else None).
Proof.
  unfold stamped. match goal with |- context [set_condition_at t2 phase msg ?x] =>
    destruct (set_condition_status t2 phase msg x) as (-> & _ & -> & -> & -> & ->) end. done.
Qed.

Lemma stamped_meta t1 t2 phase msg wd :
  wd_Meta (stamped t1 t2 phase msg wd) = wd_Meta wd /\ wd_Spec (stamped t1 t2 phase msg wd) = wd_Spec wd.
Proof.
  unfold stamped. match goal with |- context [set_condition_at t2 phase msg ?x] =>
    destruct (set_condition_meta t2 phase msg x) as [-> ->] end. done.
Qed.

(** Within the CRD, if the message is short enough. *)
Lemma stamped_crd t1 t2 phase msg wd : crd_wd wd -> phase ∈ phases -> chars msg <= 32768 ->
  crd_wd (stamped t1 t2 phase msg wd).
Proof.
  intros ([Hs (_ & Hr & Hd)] & Hg & Hc & Hm) Hph Hl. unfold stamped, set_condition_at.
  destruct (condSpec phase) as [[[ty st] re]|] eqn:Hsp; [|by repeat (split; try done); right].
  split; [split; [done|]|split; [done|]].
  - split; [by right|]. split; [done|]. by apply upsert_NoDup.
  - split; (apply upsert_Forall; [|done]); [|by intros t]. intros t. by eapply condSpec_crd.
Qed.

Lemma keep_self (o : option Z) : keep o o = o.
Proof. by destruct o. Qed.

Lemma wp_applyFields phase msg wd w : sv_calm w ->
  wp (applyFields phase msg (snapshot wd) wd) w (fun wd' w' => passes w w' /\
    exists t1 t2, sv_clock w <= t1 <= sv_clock w' /\ wd' = stamped t1 t2 phase msg wd).
Proof.
  intros Hc. unfold applyFields, setCondition.
  assert (forall wd1, snapshot wd1 = snapshot wd ->
    upd_Status (fun st => set_HealthySince (keep (HealthySince (wd_Status wd)) (HealthySince st))
      (set_DegradedSince (keep (DegradedSince (wd_Status wd)) (DegradedSince st))
        (set_SavedReplicas (keep (SavedReplicas (wd_Status wd)) (SavedReplicas st)) st)))
      (upd_Status (fun st => set_Message msg (set_Phase phase st)) wd1) =
    upd_Status (fun st => set_Message msg (set_Phase phase st)) wd1) as Hkeep.
  { intros [m s []] [= -> -> ->]. unfold upd_Status, with_Status. simpl. by rewrite !keep_self. }
  apply wp_bind, (wp_mono _ _ (fun wd1 w1 => passes w w1 /\ exists t1, sv_clock w <= t1 <= sv_clock w1 /\
    wd1 = upd_Status (set_SuspendedAt
      (if decide (phase = PhaseSuspended) then Some (default t1 (SuspendedAt (wd_Status wd))) else None)) wd)).
  - pose proof (passes_refl w Hc) as Hr. destruct (decide (phase = PhaseSuspended)).
    2: { apply wp_ret. split; [done|]. exists (sv_clock w). split; [lia|done]. }
    destruct (SuspendedAt (wd_Status wd)) as [at_|] eqn:Hat.
    + apply wp_ret. split; [done|]. exists (sv_clock w). split; [lia|].
      destruct wd as [m s []]. simpl in Hat. by subst.
    + apply wp_bind. eapply wp_mono; [by apply wp_now|]. intros now w1 [Hp Ht]. apply wp_ret.
      split; [done|]. by exists now.
  - intros wd1 w1 (Hp & t1 & Ht1 & ->). cbn beta zeta. cbn [snap_HealthySince snap_DegradedSince snap_SavedReplicas].
    apply wp_bind. eapply wp_mono; [apply wp_now, Hp|]. intros t2 w2 [Hp2 Ht2]. apply wp_ret.
    split; [by eapply passes_trans|]. exists t1, t2. split; [destruct Hp2; lia|].
    unfold snapshot. cbn [snap_HealthySince snap_DegradedSince snap_SavedReplicas]. by rewrite Hkeep.
Qed.

Lemma wp_maybeNotify wd prev phase w : sv_calm w ->
  wp (maybeNotify wd prev phase) w (fun _ w' => passes w w').
Proof.
  intros Hc. pose proof (passes_refl w Hc) as Hr. unfold maybeNotify.
  destruct (Notify (wd_Spec wd)) as [n|]; [|by apply wp_ret]. destruct (negb _); [by apply wp_ret|].
  apply wp_bind, (wp_mono _ _ (fun _ w1 => passes w w1)).
  - unfold resolveWebhookURL. destruct (WebhookSecretRef n) as [ref|]; [|by apply wp_ret].
    apply wp_bind, wp_interact. pose proof (as_GetSecret (mkNN (wd_Namespace wd) (sk_Name ref)) w Hc) as Hs.
    destruct (kc_GetSecret _ w).1 as [data|e]; [|by apply wp_ret].
    cbv zeta. destruct (data !! _); by apply wp_ret.
  - intros [url|e] w1 Hp; [|by apply wp_ret]. destruct (decide (url = "")); [by apply wp_ret|].
    apply wp_bind. eapply wp_mono; [apply wp_now, Hp|]. intros now w2 [Hp2 _]. apply wp_emit.
    by eapply passes_trans.
Qed.

(** The status that is stored for [wd] after a write in [phase] between the clocks. *)
Record stored_as (lo hi : Z) (phase : string) (wd srv : WorkloadDependency) : Prop := {
  sa_meta : same_meta (wd_Meta wd) (wd_Meta srv);
  sa_spec : wd_Spec srv = wd_Spec wd;
  sa_phase : Phase (wd_Status srv) = phase;
  sa_saved : SavedReplicas (wd_Status srv) = SavedReplicas (wd_Status wd);
  sa_degraded : DegradedSince (wd_Status srv) = trunc <$> DegradedSince (wd_Status wd);
  sa_healthy : HealthySince (wd_Status srv) = trunc <$> HealthySince (wd_Status wd);
  sa_suspended : exists t, lo <= t <= hi /\ SuspendedAt (wd_Status srv) =
    (if decide (phase = PhaseSuspended) then Some (trunc (default t (SuspendedAt (wd_Status wd)))) else None);
  sa_normal : normal_Status (wd_Status srv) = wd_Status srv;
  sa_crd : crd_wd srv
}.

Lemma normal_crd wd srv : crd_wd wd -> same_meta (wd_Meta wd) (wd_Meta srv) -> wd_Spec srv = wd_Spec wd ->
  wd_Status srv = normal_Status (wd_Status wd) -> crd_wd srv.
Proof.
  intros ([Hs (Hp & Hr & Hd)] & Hg & Hc & Hm) (_ & _ & Hgen & _) Hsp Hst.
  unfold crd_wd, schema_wd, schema_status. rewrite Hst, Hsp, Hgen. cbn.
  split; [|split; [done|split; by apply Forall_fmap]].
  split; [done|]. split; [done|]. split; [done|]. by rewrite <- list_fmap_compose.
Qed.

Lemma wp_setStatus wd stored phase msg res w :
  sv_calm w -> current (sv_objects w) wd stored -> om_DeletionTimestamp (wd_Meta wd) = None ->
  crd_wd wd -> phase ∈ phases -> chars msg <= 32768 ->
  wp (setStatus wd phase msg res) w (fun ret w' => ret = (default (after (15 * Second)) res, None) /\
    exists srv, stored_as (sv_clock w) (sv_clock w') phase wd srv /\
      writes (on_wds (insert (wd_key wd) srv) (sv_objects w)) w w').
Proof.
  intros Hc (Hl & Hm & Hs) Hdel Hcrd Hph Hmsg. unfold setStatus.
  apply wp_bind. eapply wp_mono; [by apply wp_applyFields|]. intros wd1 w1 (Hp & t1 & t2 & Ht1 & ->).
  destruct (stamped_meta t1 t2 phase msg wd) as [Hm' Hs'].
  pose proof (stamped_crd t1 t2 phase msg wd Hcrd Hph Hmsg) as Hcrd'.
  pose proof (stamped_status t1 t2 phase msg wd) as Hst. cbv zeta in Hst.
  set (wd1 := stamped t1 t2 phase msg wd) in *. clearbody wd1.
  assert (wd_key wd1 = wd_key wd) as Hk by (unfold wd_key, wd_Namespace, wd_Name; by rewrite Hm').
  assert (current (sv_objects w1) wd1 stored) as Hcur
    by (unfold current; by rewrite (ps_objects _ _ Hp), Hk, Hm', Hs').
  destruct (as_StatusUpdate wd1 stored w1 (ps_calm _ _ Hp) Hcur) as (srv & Hok & Hsm & Hsp & Hss & Hw);
    [by rewrite Hm'|done|]. apply wp_bind. unfold maxRetries. cbn [update_loop]. apply wp_bind, wp_interact.
  rewrite Hok. apply wp_ret. rewrite Hk, (ps_objects _ _ Hp) in Hw.
  set (w2 := (kc_StatusUpdateWD wd1 w1).2) in *. clearbody w2.
  assert (forall w3, passes w2 w3 -> exists srv, stored_as (sv_clock w) (sv_clock w3) phase wd srv /\
    writes (on_wds (insert (wd_key wd) srv) (sv_objects w)) w w3) as Hfin.
  { intros w3 [Hc3 Ho3 Hcalm3 _]. destruct Hw as [Hcw How _]. pose proof (ps_clock _ _ Hp).
    exists srv. split; [|split; [lia|by rewrite Ho3|done]].
    pose proof (normal_crd wd1 srv Hcrd' Hsm Hsp Hss) as Hcs.
    destruct Hst as (Hst1 & Hst2 & Hst3 & Hst4 & Hst5). split.
    - by rewrite <- Hm'.
    - by rewrite Hsp.
    - by rewrite Hss.
    - by rewrite Hss.
    - rewrite Hss. simpl. by rewrite Hst3.
    - rewrite Hss. simpl. by rewrite Hst4.
    - exists t1. split; [lia|]. rewrite Hss. simpl. rewrite Hst5. by case_decide.
    - rewrite Hss. apply normal_Status_idem.
    - done. }
  apply wp_bind, (wp_mono _ _ (fun _ w3 => w3 = w2)).
  { apply (wp_for_range _ _ _ (fun w3 => w3 = w2)); [|done]. intros p w3 ->. by apply wp_emit. }
  intros [] w3 ->. apply wp_bind, (wp_mono _ _ (fun _ w3 => passes w2 w3)).
  { destruct (decide (Phase (wd_Status wd) = phase)); [apply wp_ret, passes_refl, Hw|apply wp_maybeNotify, Hw]. }
  intros [] w3 Hp3. destruct res; apply wp_ret; (split; [done|]); by apply Hfin.
Qed.

(** *** Patches *)

Lemma wp_Patch kind k base new w : sv_calm w ->
  workload_at kind k (sv_objects w) = Some base -> keyed k base -> well_typed base -> rescaled base new ->
  wp (client_Patch base new) w (fun r w' => r = Ok tt /\
    exists y, same_view new y /\ writes (put_workload k y (sv_objects w)) w w').
Proof.
  intros Hc Hx Hk Ht Hr. apply wp_interact.
  destruct (as_Patch kind k base new w Hc Hx Hk Ht Hr) as (Hok & y & Hy & Hw). split; [done|]. by exists y.
Qed.

Lemma suspended_form_rescaled x : rescaled x (suspended_form x).
Proof. destruct x; [left|left|right|left]; eexists; try done; (split; [done|]); (split; [by unfold in_int32|done]). Qed.

Lemma restored_form_rescaled wd x y :
  (forall n, SavedReplicas (wd_Status wd) = Some n -> 0 <= n /\ in_int32 n) ->
  restored_form wd x = Some y -> rescaled x y.
Proof.
  intros Hn. unfold restored_form. destruct x as [d|s|c|u].
  3: destruct (isSuspended _); [intros [= <-]; right; by eexists|done].
  all: destruct (SavedReplicas (wd_Status wd)) as [n|]; [|intros [=]];
    destruct (decide (n = 0)); [intros [=]|]; intros [= <-]; left; exists n; by destruct (Hn n eq_refl).
Qed.

Lemma wp_suspend kind k wd x msg w : sv_calm w ->
  workload_at kind k (sv_objects w) = Some x -> keyed k x -> well_typed x ->
  wp (suspendWorkload wd x msg) w (fun p w' =>
    p = (if is_down x then wd else save_replicas wd x, None) /\
    exists y, same_view (if is_down x then x else suspended_form x) y /\ (is_down x = true -> y = x) /\
      writes (put_workload k y (sv_objects w)) w w').
Proof.
  intros Hc Hx Hk Ht.
  assert (is_down x = true -> exists y, same_view x y /\ (is_down x = true -> y = x) /\
    writes (put_workload k y (sv_objects w)) w w) as Hsame.
  { intros _. exists x. split; [apply same_view_refl|]. split; [done|].
    rewrite (put_workload_same kind) by done. by split. }
  pose proof (wp_Patch kind k x _ w Hc Hx Hk Ht (suspended_form_rescaled x)) as Hp.
  unfold suspendWorkload, Eventf, recordScaleToZero.
  destruct (is_down x) eqn:Hdown; unfold is_down in Hdown; destruct x as [d|s|c|u];
    first [apply bool_decide_eq_true in Hdown|apply bool_decide_eq_false in Hdown|idtac].
  1,2,4: rewrite decide_True by exact Hdown; apply wp_ret; split; [done|]; by apply Hsame.
  1: rewrite Hdown; apply wp_ret; split; [done|]; by apply Hsame.
  1,2,4: rewrite decide_False by exact Hdown.
  4: rewrite Hdown.
  all: apply wp_bind; eapply wp_mono; [exact Hp|]; intros r w' (-> & y & Hy & Hw); cbv iota;
    repeat (apply wp_bind; first [apply wp_emit|apply wp_bind, wp_emit, wp_emit]);
    apply wp_ret; (split; [done|]); exists y; done.
Qed.

Lemma wp_restore kind k wd x w : sv_calm w ->
  workload_at kind k (sv_objects w) = Some x -> keyed k x -> well_typed x ->
  (forall n, SavedReplicas (wd_Status wd) = Some n -> 0 <= n /\ in_int32 n) ->
  wp (restoreWorkload wd x) w (fun r w' => r = None /\
    exists y, same_view (default x (restored_form wd x)) y /\ (restored_form wd x = None -> y = x) /\
      writes (put_workload k y (sv_objects w)) w w').
Proof.
  intros Hc Hx Hk Ht Hn.
  assert (exists y, same_view x y /\ (None = None :> option workloadAccessor -> y = x) /\
    writes (put_workload k y (sv_objects w)) w w) as Hsame.
  { exists x. split; [apply same_view_refl|]. split; [done|].
    rewrite (put_workload_same kind) by done. by split. }
  assert (forall z, restored_form wd x = Some z -> wp (client_Patch x z) w (fun r w' => r = Ok tt /\
    exists y, same_view z y /\ writes (put_workload k y (sv_objects w)) w w')) as Hp.
  { intros z Hz. eapply wp_Patch; [done|exact Hx|done|done|]. by eapply restored_form_rescaled. }
  unfold restoreWorkload, nothing_saved, Eventf, recordReplicasRestored. unfold restored_form in *.
  destruct x as [d|s|c|u].
  3: destruct (isSuspended _); cbn [negb]; cbv iota; [|apply wp_ret; split; [done|]; exact Hsame].
  1,2,4: destruct (SavedReplicas (wd_Status wd)) as [n|]; [|apply wp_ret; split; [done|]; exact Hsame];
    cbn [default]; destruct (decide (n = 0)) as [->|Hne]; [apply wp_ret; split; [done|]; exact Hsame|];
    rewrite bool_decide_eq_false_2 by done.
  all: apply wp_bind; eapply wp_mono; [by apply Hp|]; intros r w' (-> & y & Hy & Hw); cbv iota;
    repeat (apply wp_bind; first [apply wp_emit|apply wp_bind, wp_emit, wp_emit]);
    apply wp_ret; (split; [done|]); exists y; done.
Qed.
End Calls.
