(* ===== verification/Lifecycle.v ===== *)
(** * The life of a dependency, end to end

    [Reconcile] against an API server that keeps the laws of ApiServer.  The
    abstract machine [astep] says in a dozen lines what an enforced dependency does
    on each reconcile: it counts the degraded window, takes the dependent down,
    counts the recovery window, brings it back, or gives up after
    maxSuspendDuration.  [reconcile_refines] shows that the reconciler implements
    it, for every kind of dependent and any list of dependencies; [full_cycle]
    composes it into the whole story of an outage. *)

From S2P Require Import Prelude Types GoFloat Cluster Workload Metrics Notify Status Health.
From S2P Require Import Cycles Reconciler Safety Phases Finalizer Watch Pattern Schema ApiServer.

(** ** The abstract machine of an enforced dependency *)

Inductive AState :=
  | AOk
  | ADegraded (since : Z)
  | ASuspended (since : Z) (recovering : option Z)
  | AReleased.

Inductive AAction := Nop | TakeDown | BringBack.

(** The state a status stands for. *)
Definition abs (wd : WorkloadDependency) : AState :=
  let st := wd_Status wd in
  if decide (Phase st = PhaseSuspended) then ASuspended (default 0 (SuspendedAt st)) (HealthySince st)
  else if decide (Phase st = PhaseReleased) then AReleased
  else match DegradedSince st with Some t => ADegraded t | None => AOk end.

(** One reconcile between the clock readings [lo] and [hi], with all dependencies
    fine or not.  Times enter the state as storage keeps them, to the second.  Two
    things are left to the implementation: whether an unhealthy sight during the
    recovery starts that window afresh, and whether strict mode enforces the
    suspension while a maxSuspendDuration is running. *)
Inductive astep (wd : WorkloadDependency) (lo hi : Z) : bool -> AState -> AState -> AAction -> Prop :=
  | a_healthy s :
      (forall since h, s <> ASuspended since h) -> astep wd lo hi true s AOk Nop
  | a_unhealthy t :
      lo <= t <= hi -> astep wd lo hi false AOk (ADegraded (trunc t)) Nop
  | a_waiting since t :
      lo <= t <= hi -> time_sub t since < degradedWindow wd ->
      astep wd lo hi false (ADegraded since) (ADegraded since) Nop
  | a_suspend since t u :
      lo <= t <= u -> u <= hi -> degradedWindow wd <= time_sub t since ->
      astep wd lo hi false (ADegraded since) (ASuspended (trunc u) None) TakeDown
  | a_hold since h h' a :
      (MaxSuspendDuration (OnDegraded (wd_Spec wd)) <= 0 \/
       exists t, lo <= t <= hi /\ time_sub t since < MaxSuspendDuration (OnDegraded (wd_Spec wd))) ->
      h' = h \/ h' = None ->
      (a = Nop /\ (Mode (wd_Spec wd) <> ModeStrict \/ 0 < MaxSuspendDuration (OnDegraded (wd_Spec wd))) \/
       a = TakeDown /\ Mode (wd_Spec wd) = ModeStrict) ->
      astep wd lo hi false (ASuspended since h) (ASuspended since h') a
  | a_release since h t :
      lo <= t <= hi -> 0 < MaxSuspendDuration (OnDegraded (wd_Spec wd)) <= time_sub t since ->
      astep wd lo hi false (ASuspended since h) AReleased BringBack
  | a_released :
      astep wd lo hi false AReleased AReleased Nop
  | a_recovering since t :
      lo <= t <= hi -> astep wd lo hi true (ASuspended since None) (ASuspended since (Some (trunc t))) Nop
  | a_recovery since h t :
      lo <= t <= hi -> time_sub t h < recoveryWindow wd ->
      astep wd lo hi true (ASuspended since (Some h)) (ASuspended since (Some h)) Nop
  | a_restore since h t :
      lo <= t <= hi -> recoveryWindow wd <= time_sub t h ->
      astep wd lo hi true (ASuspended since (Some h)) AOk BringBack.

Section Machine.
Context `{UL : UnstructuredLib}.

(** What an action does to the dependent, and to the saved replica count. *)
Definition act_on (wd : WorkloadDependency) (a : AAction) (x : workloadAccessor) : workloadAccessor :=
  match a with
  | Nop => x
  | TakeDown => if is_down x then x else suspended_form x
  | BringBack => default x (restored_form wd x)
  end.

(** The dependent is left exactly as it is. *)
Definition untouched (wd : WorkloadDependency) (a : AAction) (x : workloadAccessor) : Prop :=
  match a with
  | Nop => True
  | TakeDown => is_down x = true
  | BringBack => restored_form wd x = None
  end.

Definition saved_after (wd : WorkloadDependency) (a : AAction) (x : workloadAccessor) : option Z :=
  match a with
  | Nop => SavedReplicas (wd_Status wd)
  | TakeDown => SavedReplicas (wd_Status (if is_down x then wd else save_replicas wd x))
  | BringBack => None
  end.

(** ** Managed dependencies *)

(** A dependency in klink's care that is enforced: admitted, live, not paused, in
    soft or strict mode, within the CRD, naming workloads by Kubernetes names, with
    a status as klink writes and the server stores it. *)
Record managed (o : Objects) (req : NamespacedName) (wd : WorkloadDependency) : Prop := {
  mg_lookup : o_wds o !! req = Some wd;
  mg_key : wd_key wd = req;
  mg_live : om_DeletionTimestamp (wd_Meta wd) = None;
  mg_admitted : FinalizerName ∈ om_Finalizers (wd_Meta wd);
  mg_running : ~ paused wd;
  mg_enforcing : enforcing wd;
  mg_crd : crd_wd wd;
  mg_names : Forall (fun d => chars (dep_Kind d) <= 253 /\ chars (dep_Name d) <= 253) (DependsOn (wd_Spec wd));
  mg_normal : normal_Status (wd_Status wd) = wd_Status wd;
  mg_status : is_Some (SuspendedAt (wd_Status wd)) <-> Phase (wd_Status wd) = PhaseSuspended;
  mg_recovering : is_Some (HealthySince (wd_Status wd)) -> Phase (wd_Status wd) = PhaseSuspended;
  mg_saved n : SavedReplicas (wd_Status wd) = Some n -> 0 <= n
}.

Definition dependent_kind (wd : WorkloadDependency) : string := ref_Kind (Dependent (wd_Spec wd)).

Definition dependent_is (o : Objects) (wd : WorkloadDependency) (x : workloadAccessor) : Prop :=
  workload_at (dependent_kind wd) (dependent_key wd) o = Some x.

(** The dependent is present, stored under its name, with a valid scale, and not
    in the middle of a progressive delivery. *)
Record steady (o : Objects) (wd : WorkloadDependency) (x : workloadAccessor) : Prop := {
  sy_is : dependent_is o wd x;
  sy_keyed : keyed (dependent_key wd) x;
  sy_typed : well_typed x;
  sy_scalable : scalable x;
  sy_steady : rollout_progressing x = false
}.

(** A dependency counts as fine if it serves, or if klink took it down itself. *)
Definition dep_fine `{GoPlatform} (o : Objects) (wd : WorkloadDependency) (dep : DependsOnEntry) : bool :=
  match workload_at (dep_Kind dep) (dep_key wd dep) o with
  | None => false
  | Some x =>
      workload_ready x (dep_Condition dep) ||
      (maybe_suspended x &&
       any_suspended (index_answer (map_to_list (o_wds o)).*2 index_dependent
         (dep_ns wd dep +:+ "/" +:+ GetName x)))
  end.

Definition all_fine `{GoPlatform} (o : Objects) (wd : WorkloadDependency) : bool :=
  forallb (dep_fine o wd) (DependsOn (wd_Spec wd)).

(** The same dependency, in another state. *)
Record same_role (wd wd' : WorkloadDependency) : Prop := {
  sr_spec : wd_Spec wd' = wd_Spec wd;
  sr_key : wd_key wd' = wd_key wd
}.

Lemma same_role_reads `{GoPlatform} wd wd' :
  same_role wd wd' ->
  dependent_key wd' = dependent_key wd /\ dependent_kind wd' = dependent_kind wd /\
  degradedWindow wd' = degradedWindow wd /\ recoveryWindow wd' = recoveryWindow wd /\
  forall o, all_fine o wd' = all_fine o wd.
Proof.
  intros [Hs Hk]. assert (wd_Namespace wd' = wd_Namespace wd) as Hns by by injection Hk.
  unfold dependent_key, dependent_ns, dependent_kind, degradedWindow, recoveryWindow, all_fine.
  rewrite Hs, Hns. do 4 (split; [done|]). intros o. apply forallb_pointwise. intros dep.
  unfold dep_fine, dep_key, dep_ns. by rewrite Hns.
Qed.

Lemma same_role_trans wd1 wd2 wd3 : same_role wd1 wd2 -> same_role wd2 wd3 -> same_role wd1 wd3.
Proof. intros [Hs Hk] [Hs' Hk']. split; congruence. Qed.
End Machine.

(** The world after one abstract step: the dependency is still managed and in the
    new state, and the objects are those of before with the dependency in its new
    state and the dependent as the action makes it. *)
Record stepped `{UL : UnstructuredLib} (o : Objects) (req : NamespacedName) (wd : WorkloadDependency)
    (x : workloadAccessor) (s' : AState) (a : AAction) (o' : Objects) (wd' : WorkloadDependency)
    (y : workloadAccessor) : Prop := {
  sp_managed : managed o' req wd';
  sp_role : same_role wd wd';
  sp_abs : abs wd' = s';
  sp_saved : SavedReplicas (wd_Status wd') = saved_after wd a x;
  sp_view : same_view (act_on wd a x) y;
  sp_untouched : untouched wd a x -> y = x;
  sp_objects : o' = on_wds (insert req wd') (put_workload (dependent_key wd) y o)
}.

(** ** Evaluating the dependencies *)

Section Evaluate.
Context `{UL : UnstructuredLib} `{GP : GoPlatform} {W : Type} `{KC : !KubeClient W}
  `{AS : !ApiServer W} `{AL : !ApiServerLaws}.

Lemma any_suspended_same items items' :
  (forall wd, wd ∈ items <-> wd ∈ items') -> any_suspended items = any_suspended items'.
Proof.
  intros Hi. apply eq_bool_prop_intro. rewrite !Is_true_true, !any_suspended_true. by setoid_rewrite Hi.
Qed.

Lemma elem_of_stored (m : gmap NamespacedName WorkloadDependency) wd :
  wd ∈ (map_to_list m).*2 <-> exists k, m !! k = Some wd.
Proof.
  rewrite list_elem_of_fmap. split.
  - intros ([k v] & -> & Hin%elem_of_map_to_list). by exists k.
  - intros (k & Hk). exists (k, wd). by rewrite elem_of_map_to_list.
Qed.

Lemma wp_suspended_or_unhealthy name ns w : sv_calm w -> sv_fresh w ->
  wp (suspended_or_unhealthy name ns) w (fun r w' => passes w w' /\
    r = Ok (if any_suspended (index_answer (map_to_list (o_wds (sv_objects w))).*2 index_dependent (ns +:+ "/" +:+ name))
            then depCoSuspended else depUnhealthy)).
Proof.
  intros Hc Hf. destruct (as_ListWDs (ns +:+ "/" +:+ name) w Hc) as [Hp Hl].
  destruct (Hl Hf) as (items & Hok & Hi). unfold suspended_or_unhealthy, isSuspendedByKlink, client_ListWDs.
  apply wp_bind, wp_bind, wp_interact. rewrite Hok. apply wp_ret. fold (any_suspended items).
  rewrite (any_suspended_same items (index_answer (map_to_list (o_wds (sv_objects w))).*2 index_dependent
    (ns +:+ "/" +:+ name))).
  2: { intros wd. by rewrite Hi, elem_of_index_answer, elem_of_stored. }
  destruct (any_suspended _); by apply wp_ret.
Qed.

Lemma wp_depStatus x cond ns w : sv_calm w -> sv_fresh w ->
  wp (depStatus x cond ns) w (fun r w' => passes w w' /\
    r = Ok (if workload_ready x cond then depHealthy
            else if maybe_suspended x && any_suspended (index_answer (map_to_list (o_wds (sv_objects w))).*2
              index_dependent (ns +:+ "/" +:+ GetName x))
            then depCoSuspended else depUnhealthy)).
Proof.
  intros Hc Hf. pose proof (passes_refl w Hc) as Hr.
  unfold depStatus, workload_ready, maybe_suspended. destruct x as [d|s|c|u].
  3: destruct (isSuspended _); [by apply wp_suspended_or_unhealthy|by apply wp_ret].
  3: destruct (isHealthyAsDependency u); [by apply wp_ret|by apply wp_suspended_or_unhealthy].
  all: destruct (decide _) as [H0|H0];
    [rewrite !bool_decide_eq_true_2 by exact H0; by apply wp_suspended_or_unhealthy|].
  all: rewrite !bool_decide_eq_false_2 by exact H0; cbn [negb andb].
  all: by destruct (_ <=? _); apply wp_ret.
Qed.

Lemma chars_app a b : chars (a +:+ b) = chars a + chars b.
Proof.
  induction a as [|c a IH]; [done|].
  change (chars (String c a +:+ b)) with ((if between (Ascii.ascii_of_N 128) (Ascii.ascii_of_N 191) c then 0 else 1) + chars (a +:+ b)).
  rewrite IH. simpl. lia.
Qed.

(** The verdict, and a message that fits into a condition. *)
Lemma wp_evalDependsOn wd deps ok0 msg0 w : sv_calm w -> sv_fresh w ->
  Forall (fun d => chars (dep_Kind d) <= 253 /\ chars (dep_Name d) <= 253) deps -> chars msg0 <= 32768 ->
  wp (evalDependsOn wd deps ok0 msg0) w (fun r w' => passes w w' /\ exists msg, chars msg <= 32768 /\
    r = Ok (ok0 && forallb (dep_fine (sv_objects w) wd) deps, msg)).
Proof.
  intros Hc Hf Hn. revert w ok0 msg0 Hc Hf. induction Hn as [|dep deps [Hk Hnm] _ IH]; intros w ok0 msg0 Hc Hf Hm;
    cbn [evalDependsOn forallb].
  { apply wp_ret. rewrite andb_true_r. split; [by apply passes_refl|]. by exists msg0. }
  apply wp_bind. eapply wp_mono; [by apply wp_getWorkload|]. intros r w1 [Hp1 Ha].
  unfold dep_fine at 1, dep_key.
  destruct (workload_at (dep_Kind dep) (mkNN (dep_ns wd dep) (dep_Name dep)) (sv_objects w)) as [x|].
  2: { destruct Ha as (e & -> & ->). apply wp_ret. split; [done|]. eexists. rewrite andb_false_r.
       split; [|done]. rewrite !chars_app. simpl. lia. }
  simpl in Ha. subst r. apply wp_bind. eapply wp_mono; [apply wp_depStatus; [apply Hp1|by apply Hp1]|].
  intros s w2 [Hp2 ->]. rewrite (ps_objects _ _ Hp1).
  pose proof (passes_trans _ _ _ Hp1 Hp2) as Hp. pose proof (ps_objects _ _ Hp) as Ho.
  assert (forall ok1 msg1, chars msg1 <= 32768 -> wp (evalDependsOn wd deps ok1 msg1) w2 (fun r w' =>
    passes w w' /\ exists msg, chars msg <= 32768 /\
      r = Ok (ok1 && forallb (dep_fine (sv_objects w) wd) deps, msg))) as Hrest.
  { intros ok1 msg1 Hm1. eapply wp_mono; [apply IH; [apply Hp|by apply Hp|done]|].
    rewrite Ho. intros r w3 [Hp3 Hr]. split; [by eapply passes_trans|done]. }
  destruct (workload_ready x (dep_Condition dep)); [by apply Hrest|].
  destruct (maybe_suspended x && any_suspended _); cbn [orb andb]; [by apply Hrest|].
  rewrite andb_false_r. apply Hrest. rewrite !chars_app. simpl. lia.
Qed.
End Evaluate.

(** ** One step *)

Section Stepping.
Context `{UL : UnstructuredLib} `{GP : GoPlatform} `{CU : ControllerUtil} {W : Type} `{KC : !KubeClient W}
  `{AS : !ApiServer W} `{AL : !ApiServerLaws} `{UNL : !UnstructuredLaws} `{CUL : !ControllerUtilLaws}.
Context (w : W) (req : NamespacedName) (wd : WorkloadDependency) (x : workloadAccessor).
Hypothesis Hmg : managed (sv_objects w) req wd.
Hypothesis Hsy : steady (sv_objects w) wd x.

(** A run that started in [w] ended without error after a step of the machine. *)
Definition outcome (fine : bool) (ret : Ret) (w' : W) : Prop :=
  ret.2 = None /\ sv_calm w' /\ sv_clock w <= sv_clock w' /\
  exists s' a wd' y, astep wd (sv_clock w) (sv_clock w') fine (abs wd) s' a /\
    stepped (sv_objects w) req wd x s' a (sv_objects w') wd' y.

(** The action has been carried out, and nothing else has happened since [w]. *)
Record acted (a : AAction) (y : workloadAccessor) (w1 : W) : Prop := {
  ac_clock : sv_clock w <= sv_clock w1;
  ac_calm : sv_calm w1;
  ac_view : same_view (act_on wd a x) y;
  ac_untouched : untouched wd a x -> y = x;
  ac_objects : sv_objects w1 = put_workload (dependent_key wd) y (sv_objects w)
}.

(** [wd1] is [wd] with other times or another saved count. *)
Record edited (wd1 : WorkloadDependency) : Prop := {
  ed_meta : wd_Meta wd1 = wd_Meta wd;
  ed_spec : wd_Spec wd1 = wd_Spec wd;
  ed_phase : Phase (wd_Status wd1) = Phase (wd_Status wd);
  ed_conditions : Conditions (wd_Status wd1) = Conditions (wd_Status wd)
}.

Lemma edited_key wd1 : edited wd1 -> wd_key wd1 = req.
Proof.
  intros [Hm _ _ _]. rewrite <- (mg_key _ _ _ Hmg). unfold wd_key, wd_Namespace, wd_Name. by rewrite Hm.
Qed.

Lemma acted_nop w1 : passes w w1 -> acted Nop x w1.
Proof.
  intros [? Ho ? _]. split; [done|done|apply same_view_refl|done|].
  rewrite Ho. symmetry. by eapply put_workload_same, Hsy.
Qed.

Lemma saved_after_valid a n : saved_after wd a x = Some n -> 0 <= n /\ in_int32 n.
Proof.
  assert (forall n, SavedReplicas (wd_Status wd) = Some n -> 0 <= n /\ in_int32 n) as Hold.
  { intros k Hk. split; [by eapply mg_saved|]. destruct (mg_crd _ _ _ Hmg) as ([_ (_ & Hs & _)] & _).
    by rewrite Hk in Hs. }
  destruct a; simpl; [apply Hold| |done]. destruct (is_down x); [apply Hold|].
  pose proof (sy_typed _ _ _ Hsy) as [Ht _]. pose proof (sy_scalable _ _ _ Hsy) as Hsc.
  destruct x; simpl in *; try (apply Hold); by intros [= <-].
Qed.

Lemma edited_crd wd1 a : edited wd1 -> SavedReplicas (wd_Status wd1) = saved_after wd a x -> crd_wd wd1.
Proof.
  intros [Hm Hs Hp Hc] Hsav. destruct (mg_crd _ _ _ Hmg) as ([Hsp (Hph & _ & Hnd)] & Hg & Hcs & Hms).
  unfold crd_wd, schema_wd, schema_status. rewrite Hm, Hs, Hp, Hc, Hsav.
  repeat (split; try done). destruct (saved_after wd a x) as [n|] eqn:Hn; [|done]. by eapply saved_after_valid.
Qed.

Lemma on_wds_same (o : Objects) k v : o_wds o !! k = Some v -> on_wds (insert k v) o = o.
Proof. intros Hk. unfold on_wds. rewrite insert_id by done. by destruct o. Qed.

(** The step ends without a status write. *)
Lemma nop_outcome fine res w1 : passes w w1 ->
  astep wd (sv_clock w) (sv_clock w1) fine (abs wd) (abs wd) Nop -> outcome fine (res, None) w1.
Proof.
  intros Hp Ha. split; [done|]. split; [apply Hp|]. split; [apply Hp|].
  exists (abs wd), Nop, wd, x. split; [done|]. rewrite (ps_objects _ _ Hp).
  split; try done; [apply same_view_refl|].
  erewrite put_workload_same by apply Hsy. by rewrite on_wds_same by apply Hmg.
Qed.

(** The state that a status write in [phase] leaves, at the reading [t]. *)
Definition abs_of (phase : string) (t : Z) (wd1 : WorkloadDependency) : AState :=
  let st := wd_Status wd1 in
  if decide (phase = PhaseSuspended) then ASuspended (trunc (default t (SuspendedAt st))) (trunc <$> HealthySince st)
  else if decide (phase = PhaseReleased) then AReleased
  else match DegradedSince st with Some d => ADegraded (trunc d) | None => AOk end.

Lemma stored_abs lo hi phase wd1 srv : stored_as lo hi phase wd1 srv ->
  exists t, lo <= t <= hi /\ abs srv = abs_of phase t wd1.
Proof.
  intros [_ _ Hp _ Hd Hh (t & Ht & Hs) _ _]. exists t. split; [done|]. unfold abs, abs_of.
  rewrite Hp, Hd, Hh, Hs. repeat case_decide; try done. by destruct (DegradedSince (wd_Status wd1)).
Qed.

Lemma stored_managed lo hi phase wd1 srv a o :
  stored_as lo hi phase wd1 srv -> edited wd1 -> SavedReplicas (wd_Status wd1) = saved_after wd a x ->
  (phase <> PhaseSuspended -> HealthySince (wd_Status wd1) = None) ->
  managed (on_wds (insert req srv) o) req srv.
Proof.
  intros [Hsm Hsp Hp Hsv Hd Hh (t & Ht & Hs) Hn Hc] [Hm1 Hs1 _ _] Hsav Hrec.
  destruct Hsm as (Hname & Hns & _ & Hdel & Hann & Hfin). rewrite Hm1 in *. destruct Hmg.
  split; rewrite ?Hsp, ?Hs1; try done.
  - simpl. by rewrite lookup_insert_eq.
  - unfold wd_key, wd_Namespace, wd_Name in *. by rewrite Hname, Hns.
  - by rewrite Hdel.
  - by rewrite Hfin.
  - unfold paused in *. by rewrite Hann.
  - unfold enforcing in *. by rewrite Hsp, Hs1.
  - rewrite Hs, Hp. case_decide; split; [done|by eexists|by intros [? ?]|done].
  - rewrite Hh, Hp. destruct (decide (phase = PhaseSuspended)) as [|Hne]; [done|].
    rewrite (Hrec Hne). by intros [? ?].
  - intros n Hsn. rewrite Hsv, Hsav in Hsn. by eapply saved_after_valid.
Qed.

(** The step ends with a status write, after the action. *)
Lemma status_outcome fine a y w1 wd1 phase msg res :
  acted a y w1 -> edited wd1 -> SavedReplicas (wd_Status wd1) = saved_after wd a x ->
  (phase <> PhaseSuspended -> HealthySince (wd_Status wd1) = None) ->
  phase ∈ phases -> chars msg <= 32768 ->
  (forall t hi, sv_clock w1 <= t <= hi -> astep wd (sv_clock w) hi fine (abs wd) (abs_of phase t wd1) a) ->
  wp (setStatus wd1 phase msg res) w1 (outcome fine).
Proof.
  intros [Hck Hcalm Hv Hu Ho] Hed Hsav Hrec Hph Hmsg Hstep. pose proof (edited_key wd1 Hed) as Hk.
  eapply wp_mono; [apply (wp_setStatus wd1 wd)|].
  - done.
  - destruct Hed as [Hm Hs _ _]. unfold current. rewrite Hk, Ho, put_workload_wds, Hm, Hs.
    split; [by eapply mg_lookup|done].
  - rewrite (ed_meta _ Hed). by eapply mg_live.
  - by eapply edited_crd.
  - done.
  - done.
  - intros ret w2 (-> & srv & Hsa & [Hck2 Ho2 Hcalm2]). rewrite Hk in Ho2.
    destruct (stored_abs _ _ _ _ _ Hsa) as (t & Ht & Habs).
    split; [done|]. split; [done|]. split; [lia|].
    exists (abs_of phase t wd1), a, srv, y. split; [by apply Hstep|].
    rewrite Ho2, Ho. split; try done.
    + by eapply stored_managed.
    + destruct Hsa as [(Hn & Hns & _) Hsp _ _ _ _ _ _ _]. destruct Hed as [Hm Hs _ _].
      split; [by rewrite Hsp|]. unfold wd_key, wd_Namespace, wd_Name. by rewrite Hn, Hns, Hm.
    + by rewrite (sa_saved _ _ _ _ _ Hsa).
Qed.

(** *** The actions *)

Lemma wp_take_down msg w1 : passes w w1 ->
  wp (suspendWorkload wd x msg) w1 (fun p w2 => sv_clock w1 <= sv_clock w2 /\
    p = (if is_down x then wd else save_replicas wd x, None) /\ exists y, acted TakeDown y w2).
Proof.
  intros Hp. eapply wp_mono; [apply (wp_suspend (dependent_kind wd) (dependent_key wd)); [apply Hp|..]|].
  - rewrite (ps_objects _ _ Hp). apply Hsy.
  - apply Hsy.
  - apply Hsy.
  - intros p w2 (-> & y & Hv & Hu & [Hck Ho Hcalm]). split; [done|]. split; [done|]. exists y.
    split; [destruct Hp; lia|done|done|done|]. by rewrite Ho, (ps_objects _ _ Hp).
Qed.

Lemma wp_bring_back wd0 w1 : passes w w1 -> SavedReplicas (wd_Status wd0) = SavedReplicas (wd_Status wd) ->
  wp (restoreWorkload wd0 x) w1 (fun r w2 => sv_clock w1 <= sv_clock w2 /\ r = None /\
    exists y, acted BringBack y w2).
Proof.
  intros Hp Hs. assert (restored_form wd0 x = restored_form wd x) as Hf by (unfold restored_form; by rewrite Hs).
  eapply wp_mono; [apply (wp_restore (dependent_kind wd) (dependent_key wd)); [apply Hp|..]|].
  - rewrite (ps_objects _ _ Hp). apply Hsy.
  - apply Hsy.
  - apply Hsy.
  - intros n Hn. apply (saved_after_valid Nop). simpl. by rewrite <- Hs.
  - intros r w2 (-> & y & Hv & Hu & [Hck Ho Hcalm]). rewrite Hf in *. split; [done|]. split; [done|]. exists y.
    split; [destruct Hp; lia|done|done|done|]. by rewrite Ho, (ps_objects _ _ Hp).
Qed.

Lemma edited_self : edited wd.
Proof. by split. Qed.

Lemma edited_taken : edited (if is_down x then wd else save_replicas wd x).
Proof. destruct (is_down x); [apply edited_self|]. unfold save_replicas. by destruct x. Qed.

(** The times in a managed status are those of storage. *)
Lemma managed_times :
  trunc <$> SuspendedAt (wd_Status wd) = SuspendedAt (wd_Status wd) /\
  trunc <$> HealthySince (wd_Status wd) = HealthySince (wd_Status wd).
Proof.
  pose proof (mg_normal _ _ _ Hmg) as Hn. split;
    [exact (f_equal SuspendedAt Hn)|exact (f_equal HealthySince Hn)].
Qed.

Lemma suspended_abs : Phase (wd_Status wd) = PhaseSuspended ->
  exists at_, SuspendedAt (wd_Status wd) = Some at_ /\ trunc at_ = at_ /\
    abs wd = ASuspended at_ (HealthySince (wd_Status wd)).
Proof.
  intros Hph. destruct (proj2 (mg_status _ _ _ Hmg) Hph) as [at_ Hat]. exists at_.
  destruct managed_times as [Ht _]. rewrite Hat in Ht. injection Ht as Ht.
  split; [done|]. split; [done|]. unfold abs. by rewrite decide_True, Hat.
Qed.

(** *** The handlers *)

(** Side conditions of a status write with a literal phase, and a short message. *)
Ltac status_side :=
  lazymatch goal with
  | |- edited _ => first [apply edited_taken|by split]
  | |- _ ∈ phases => by apply in_phases
  | |- chars _ <= _ => first [assumption|vm_compute; discriminate]
  | |- SavedReplicas _ = _ => try reflexivity
  | |- _ <> PhaseSuspended -> _ => try (intros Hne; first [by destruct Hne|assumption|reflexivity])
  | |- _ => idtac
  end.

(** Measure the time since a stored instant, and go on. *)
Lemma since_then {A} t w1 (k : Z -> MW W A) (Q : A -> W -> Prop) :
  passes w w1 ->
  (forall now w2, passes w w2 -> sv_clock w <= now <= sv_clock w2 -> sv_clock w1 <= now ->
     wp (k (time_sub now t)) w2 Q) ->
  wp (time_Since t ≫= k) w1 Q.
Proof.
  intros Hp Hk. apply wp_bind. eapply wp_mono; [apply wp_since, Hp|].
  intros d w2 (Hp2 & now & Hn & ->). destruct Hp as [Hck ? ? ?]. apply Hk; [|lia|lia].
  by eapply passes_trans.
Qed.

Lemma handleDegraded_outcome msg now w1 :
  passes w w1 -> sv_clock w <= now <= sv_clock w1 -> chars msg <= 32768 ->
  Phase (wd_Status wd) <> PhaseSuspended -> Phase (wd_Status wd) <> PhaseReleased ->
  wp (handleDegraded wd x msg now) w1 (outcome false).
Proof.
  intros Hp Hnow Hmsg Hns Hnr. unfold handleDegraded.
  assert (SuspendedAt (wd_Status wd) = None /\ HealthySince (wd_Status wd) = None) as [Hat Hh].
  { split; [destruct (SuspendedAt (wd_Status wd)) eqn:E|destruct (HealthySince (wd_Status wd)) eqn:E]; try done;
      destruct Hns; [apply (mg_status _ _ _ Hmg)|apply (mg_recovering _ _ _ Hmg)]; rewrite E; by eexists. }
  destruct (DegradedSince (wd_Status wd)) as [since|] eqn:Hd.
  2: { eapply (status_outcome false Nop x); status_side; [by apply acted_nop|].
       intros t hi Ht. unfold abs, abs_of. rewrite !decide_False, Hd by done. simpl. apply a_unhealthy. lia. }
  assert (abs wd = ADegraded since) as Habs by (unfold abs; by rewrite !decide_False, Hd by done).
  apply since_then; [done|]. intros t w2 Hp2 Ht _. destruct (Z.ltb_spec (time_sub t since) (degradedWindow wd)).
  - apply since_then; [done|]. intros t' w3 Hp3 Ht' Hge. apply wp_ret, nop_outcome; [done|].
    rewrite Habs. apply (a_waiting _ _ _ _ t); [lia|done].
  - apply wp_bind. eapply wp_mono; [by apply wp_take_down|]. intros p w3 (Hck & -> & y & Hac). cbv iota beta.
    eapply (status_outcome false TakeDown y); status_side; [done|].
    intros u hi Hu. rewrite Habs. unfold abs_of. rewrite decide_True by done.
    assert (SuspendedAt (wd_Status (if is_down x then wd else save_replicas wd x)) = None /\
      HealthySince (wd_Status (if is_down x then wd else save_replicas wd x)) = None) as [-> ->]
      by (destruct (is_down x); [done|]; unfold save_replicas; by destruct x).
    apply (a_suspend _ _ _ _ t u); [lia|lia|done].
Qed.

Lemma handleSuspended_outcome msg w1 :
  passes w w1 -> chars msg <= 32768 -> Phase (wd_Status wd) = PhaseSuspended ->
  MaxSuspendDuration (OnDegraded (wd_Spec wd)) <= 0 ->
  wp (handleSuspended wd x msg) w1 (outcome false).
Proof.
  intros Hp Hmsg Hph Hmax. destruct (suspended_abs Hph) as (at_ & Hat & Htr & Habs).
  destruct managed_times as [_ Hth].
  assert (forall wd1 a, SuspendedAt (wd_Status wd1) = SuspendedAt (wd_Status wd) ->
    HealthySince (wd_Status wd1) = HealthySince (wd_Status wd) ->
    (a = Nop /\ Mode (wd_Spec wd) <> ModeStrict \/ a = TakeDown /\ Mode (wd_Spec wd) = ModeStrict) ->
    forall t hi, astep wd (sv_clock w) hi false (abs wd) (abs_of PhaseSuspended t wd1) a) as Hhold.
  { intros wd1 a Hs1 Hh1 Ha t hi. rewrite Habs. unfold abs_of. rewrite decide_True by done.
    rewrite Hs1, Hh1, Hat, Hth. simpl. rewrite Htr. apply a_hold; [by left|by left|naive_solver]. }
  unfold handleSuspended. destruct (decide (Mode (wd_Spec wd) = ModeStrict)).
  2: { eapply (status_outcome false Nop x); status_side; [by apply acted_nop|].
       intros t hi _. apply Hhold; auto. }
  rewrite (sy_steady _ _ _ Hsy). match goal with |- context [if ?c then _ else _] => destruct c eqn:Hc end.
  - apply wp_bind. eapply wp_mono; [by apply wp_take_down|]. intros p w2 (Hck & -> & y & Hac). cbv iota beta.
    apply wp_bind, wp_emit. eapply (status_outcome false TakeDown y); status_side; [done|].
    intros u hi _. apply Hhold; [| |auto]; (destruct (is_down x); [done|]); unfold save_replicas; by destruct x.
  - assert (is_down x = true) as Hdown.
    { pose proof (sy_scalable _ _ _ Hsy) as Hsc.
      unfold is_down, scalable in *. destruct x; [| |by apply negb_false_iff|];
        apply bool_decide_eq_true; apply Z.ltb_ge in Hc; lia. }
    eapply (status_outcome false TakeDown x); status_side.
    + destruct (acted_nop w1 Hp) as [? ? ? ? ?]. split; try done. simpl. rewrite Hdown. apply same_view_refl.
    + simpl. by rewrite Hdown.
    + intros t hi _. apply Hhold; auto.
Qed.

(** Restoring, and then a status that forgets the suspension. *)
Lemma back_outcome fine wd0 phase msg res w1 :
  passes w w1 -> edited wd0 -> SavedReplicas (wd_Status wd0) = SavedReplicas (wd_Status wd) ->
  phase ∈ phases -> chars msg <= 32768 ->
  (forall t hi, sv_clock w1 <= t <= hi -> astep wd (sv_clock w) hi fine (abs wd)
     (abs_of phase t (upd_Status (fun st => set_HealthySince None (set_SavedReplicas None st)) wd0)) BringBack) ->
  wp (err ← restoreWorkload wd0 x;
      match err with
      | Some e => mret (noResult, Some e)
      | None => setStatus (upd_Status (fun st => set_HealthySince None (set_SavedReplicas None st)) wd0)
                  phase msg res
      end) w1 (outcome fine).
Proof.
  intros Hp Hed Hs Hph Hmsg Hstep. apply wp_bind. eapply wp_mono; [by apply wp_bring_back|].
  intros r w2 (Hck & -> & y & Hac). eapply (status_outcome fine BringBack y); try done.
  - destruct Hed. by split.
  - intros t hi Ht. apply Hstep. lia.
Qed.

Lemma reconcileSuspended_outcome msg w1 :
  passes w w1 -> chars msg <= 32768 -> Phase (wd_Status wd) = PhaseSuspended ->
  wp (reconcileSuspended wd x msg) w1 (outcome false).
Proof.
  intros Hp Hmsg Hph. destruct (suspended_abs Hph) as (at_ & Hat & Htr & Habs). unfold reconcileSuspended.
  rewrite Hat. destruct (Z.ltb_spec 0 (MaxSuspendDuration (OnDegraded (wd_Spec wd)))).
  2: by apply handleSuspended_outcome.
  apply since_then; [done|]. intros t w2 Hp2 Ht _. destruct (Z.leb_spec (MaxSuspendDuration (OnDegraded (wd_Spec wd))) (time_sub t at_)).
  - apply wp_bind, wp_emit. apply back_outcome; status_side; [done|].
    intros u hi Hu. rewrite Habs. apply (a_release _ _ _ _ _ t); lia.
  - apply wp_ret, nop_outcome; [done|]. rewrite Habs. apply a_hold; [right; by exists t|by left|auto].
Qed.

Lemma handleHealthy_outcome now w1 :
  passes w w1 -> sv_clock w <= now <= sv_clock w1 -> wp (handleHealthy wd x now) w1 (outcome true).
Proof.
  intros Hp Hnow. unfold handleHealthy. cbv zeta.
  set (wd0 := upd_Status (set_DegradedSince None) wd).
  assert (edited wd0) as Hed by by split.
  change (Phase (wd_Status wd0)) with (Phase (wd_Status wd)).
  change (HealthySince (wd_Status wd0)) with (HealthySince (wd_Status wd)).
  change (recoveryWindow wd0) with (recoveryWindow wd).
  destruct (decide (Phase (wd_Status wd) = PhaseSuspended)) as [Hph|Hph].
  2: { eapply (status_outcome true Nop x); status_side; [by apply acted_nop|].
       intros t hi _. unfold abs_of. rewrite !decide_False by done. simpl. apply a_healthy.
       intros since h. unfold abs. rewrite decide_False by done. case_decide; [done|].
       by destruct (DegradedSince (wd_Status wd)). }
  destruct (suspended_abs Hph) as (at_ & Hat & Htr & Habs).
  destruct (HealthySince (wd_Status wd)) as [since|] eqn:Hh.
  - apply since_then; [done|]. intros t w2 Hp2 Ht _.
    destruct (Z.ltb_spec (time_sub t since) (recoveryWindow wd)).
    + apply since_then; [done|]. intros t' w3 Hp3 Ht' Hge. apply wp_ret, nop_outcome; [done|].
      rewrite Habs. apply (a_recovery _ _ _ _ _ t); [lia|done].
    + apply back_outcome; status_side; [done|]. intros u hi Hu. rewrite Habs. apply (a_restore _ _ _ _ _ t); [lia|done].
  - eapply (status_outcome true Nop x); status_side; [by apply acted_nop|].
    intros t hi Ht. rewrite Habs. unfold abs_of. rewrite decide_True by done. simpl. rewrite Hat. simpl.
    rewrite Htr. apply a_recovering. lia.
Qed.

Lemma reconcileEvaluated_outcome fine msg w1 :
  passes w w1 -> chars msg <= 32768 -> wp (reconcileEvaluated wd x fine msg) w1 (outcome fine).
Proof.
  intros Hp Hmsg. destruct (mg_enforcing _ _ _ Hmg) as [Hno Hng].
  unfold reconcileEvaluated. apply wp_bind. eapply wp_mono; [apply wp_now, Hp|]. intros now w2 [Hp2 Hn2].
  assert (passes w w2) as Hpw by by eapply passes_trans. assert (sv_clock w <= now <= sv_clock w2) as Hn
    by (destruct Hp; lia). clear Hp Hp2 Hn2 w1.
  rewrite (sy_steady _ _ _ Hsy), andb_false_r, (decide_False (P := Mode _ = ModeObserve)),
    (decide_False (P := Mode _ = ModeGate)) by done.
  destruct (decide (Phase (wd_Status wd) = PhaseReleased)) as [Hr|Hnr].
  { destruct fine; [by apply handleHealthy_outcome|].
    assert (Phase (wd_Status wd) <> PhaseSuspended) as Hns by by rewrite Hr.
    eapply (status_outcome false Nop x); status_side; [by apply acted_nop| |].
    - intros _. destruct (HealthySince (wd_Status wd)) eqn:E; [|done]. destruct Hns.
      apply (mg_recovering _ _ _ Hmg). rewrite E. by eexists.
    - intros t hi _. unfold abs, abs_of. rewrite (decide_False (P := Phase _ = PhaseSuspended)) by done.
      rewrite (decide_True (P := Phase _ = PhaseReleased)) by done. apply a_released. }
  destruct fine; cbn [negb andb]; [by apply handleHealthy_outcome|].
  destruct (decide (Phase (wd_Status wd) = PhaseSuspended)) as [Hph|Hph].
  - rewrite bool_decide_eq_true_2 by done. by apply reconcileSuspended_outcome.
  - rewrite bool_decide_eq_false_2 by done. by apply handleDegraded_outcome.
Qed.

(** The reconcile of a managed dependency evaluates its dependencies and then acts. *)
Lemma reconcile_outcome : sv_calm w -> sv_fresh w ->
  wp (Reconcile req) w (outcome (all_fine (sv_objects w) wd)).
Proof.
  intros Hc Hf. unfold Reconcile, client_GetWD. apply wp_bind, wp_interact.
  destruct (as_GetWD req w Hc) as [Hp Ha]. specialize (Ha Hf). rewrite (mg_lookup _ _ _ Hmg) in Ha. simpl in Ha.
  rewrite Ha, (mg_live _ _ _ Hmg). set (w1 := (kc_GetWD req w).2) in *. clearbody w1.
  rewrite (proj2 (contains_finalizer _ _) (mg_admitted _ _ _ Hmg)). cbn [negb]. cbv iota.
  unfold reconcileActive. rewrite decide_False by apply (mg_running _ _ _ Hmg).
  apply wp_bind. eapply wp_mono; [apply wp_getWorkload; [apply Hp|by apply Hp]|].
  intros r w2 [Hp2 Ha2]. rewrite (ps_objects _ _ Hp) in Ha2.
  change (workload_at _ _ (sv_objects w)) with (workload_at (dependent_kind wd) (dependent_key wd) (sv_objects w)) in Ha2.
  rewrite (sy_is _ _ _ Hsy) in Ha2. simpl in Ha2. subst r. pose proof (passes_trans _ _ _ Hp Hp2) as Hp'.
  apply wp_bind. eapply wp_mono; [apply wp_evalDependsOn; [apply Hp'|by apply Hp'|by eapply mg_names|done]|].
  intros ev w3 (Hp3 & msg & Hmsg & ->). rewrite (ps_objects _ _ Hp'). cbn [andb].
  apply reconcileEvaluated_outcome; [by eapply passes_trans|done].
Qed.
End Stepping.

(** ** Refinement, and the story of an outage *)

Section Story.
Context `{UL : UnstructuredLib} `{GP : GoPlatform} `{CU : ControllerUtil} {W : Type} `{KC : !KubeClient W}
  `{AS : !ApiServer W} `{AL : !ApiServerLaws} `{UNL : !UnstructuredLaws} `{CUL : !ControllerUtilLaws}.

(** C3: refinement.  A reconcile of a managed dependency, against a calm API server
    whose writes the cache has seen, returns without error and does one step of the
    abstract machine: the stored status stands for the machine's next state, with
    times read during the reconcile and kept to the second, the dependent is exactly
    what the machine's action makes of it, the saved replica count is the machine's,
    and every other workload and WorkloadDependency is untouched. *)
Theorem reconcile_refines w req wd x :
  sv_calm w -> sv_fresh w -> managed (sv_objects w) req wd -> steady (sv_objects w) wd x ->
  wp (Reconcile req) w (fun ret w' => ret.2 = None /\ sv_calm w' /\
    exists s' a wd' y,
      astep wd (sv_clock w) (sv_clock w') (all_fine (sv_objects w) wd) (abs wd) s' a /\
      stepped (sv_objects w) req wd x s' a (sv_objects w') wd' y).
Proof.
  intros Hc Hf Hmg Hsy. eapply wp_mono; [by apply (reconcile_outcome w req wd x)|].
  intros ret w' (Hr & Hc' & _ & Hs). done.
Qed.

(** Between two reconciles anything may happen, as long as the dependency object
    stays, its dependent keeps its scale, and at the end the server is calm and the
    cache has caught up. *)
Record meanwhile (req : NamespacedName) (wd : WorkloadDependency) (w w' : W) : Prop := {
  mw_calm : sv_calm w';
  mw_fresh : sv_fresh w';
  mw_wd : o_wds (sv_objects w') !! req = o_wds (sv_objects w) !! req;
  mw_dependent y : dependent_is (sv_objects w) wd y ->
    exists y', steady (sv_objects w') wd y' /\ scale y' = scale y /\ identity y' = identity y
}.

Lemma dependent_is_role o wd wd' x : same_role wd wd' -> dependent_is o wd' x <-> dependent_is o wd x.
Proof. unfold dependent_is. intros Hr. by destruct (same_role_reads _ _ Hr) as (-> & -> & _). Qed.

Lemma steady_role o wd wd' x : same_role wd wd' -> steady o wd x -> steady o wd' x.
Proof.
  intros Hr [Hd Hk ? ? ?]. split; try done; [by apply (dependent_is_role o wd wd')|].
  by destruct (same_role_reads _ _ Hr) as (-> & _).
Qed.

Lemma meanwhile_role req wd wd' w w' : same_role wd wd' -> meanwhile req wd w w' -> meanwhile req wd' w w'.
Proof.
  intros Hr [? ? ? Hd]. split; try done. intros y Hy%(dependent_is_role _ wd wd'); [|done].
  destruct (Hd y Hy) as (y' & Hs & ?). exists y'. split; [by eapply steady_role|done].
Qed.

Lemma setReplicas_identity x n : identity (setReplicas x n) = identity x.
Proof.
  destruct x; try done. unfold identity. simpl. unfold rollout_setReplicas.
  by rewrite set_nested_name, set_nested_namespace.
Qed.

Lemma act_identity wd a x : identity (act_on wd a x) = identity x.
Proof.
  destruct a; simpl; [done| |].
  - destruct (is_down x); [done|]. unfold suspended_form. destruct x; try done; apply setReplicas_identity.
  - unfold restored_form. destruct x.
    3: by destruct (isSuspended _).
    all: destruct (SavedReplicas (wd_Status wd)) as [n|]; [|done];
      destruct (decide (n = 0)); [done|]; apply setReplicas_identity.
Qed.

(** The dependent after a step. *)
Lemma stepped_dependent o req wd x s a o' wd' y :
  steady o wd x -> stepped o req wd x s a o' wd' y ->
  dependent_is o' wd y /\ scale y = scale (act_on wd a x) /\ identity y = identity x.
Proof.
  intros Hsy [_ _ _ _ Hv _ ->]. destruct (same_view_facts _ _ Hv) as (Hs & Hi & _).
  rewrite act_identity in Hi. split; [|done]. unfold dependent_is.
  change (workload_at (dependent_kind wd) (dependent_key wd) (put_workload (dependent_key wd) y o) = Some y).
  eapply put_workload_at; [apply Hsy|done].
Qed.

(** A managed dependency stays managed, and its dependent steady, until next time. *)
Lemma next_time w req wd x s a w' wd' y w1 :
  steady (sv_objects w) wd x -> stepped (sv_objects w) req wd x s a (sv_objects w') wd' y ->
  meanwhile req wd w' w1 ->
  managed (sv_objects w1) req wd' /\ exists x1, steady (sv_objects w1) wd' x1 /\
    scale x1 = scale (act_on wd a x) /\ identity x1 = identity x.
Proof.
  intros Hsy Hst [_ _ Hwd Hd]. destruct (stepped_dependent _ _ _ _ _ _ _ _ _ Hsy Hst) as (Hy & Hs & Hi).
  destruct (Hd y Hy) as (x1 & Hsy1 & Hs1 & Hi1). split.
  - destruct (sp_managed _ _ _ _ _ _ _ _ _ Hst). split; try done. by rewrite Hwd.
  - exists x1. split; [eapply steady_role; [by eapply sp_role|done]|]. split; congruence.
Qed.

Lemma time_sub_mono t t' u u' : t <= t' -> u' <= u -> time_sub t u <= time_sub t' u'.
Proof. unfold time_sub. lia. Qed.

(** A window that has passed between two clocks has passed since the stored time. *)
Lemma window_passed window lo hi t now :
  window <= time_sub lo hi -> t <= hi -> lo <= now -> window <= time_sub now (trunc t).
Proof.
  intros Hw Ht Hn. etransitivity; [exact Hw|]. apply time_sub_mono; [done|]. pose proof (trunc_le t). lia.
Qed.

Section Stages.
Context (req : NamespacedName) (w : W) (wd : WorkloadDependency) (x : workloadAccessor).
Hypothesis Hc : sv_calm w.
Hypothesis Hf : sv_fresh w.
Hypothesis Hmg : managed (sv_objects w) req wd.
Hypothesis Hsy : steady (sv_objects w) wd x.

(** One reconcile that can only take the steps [R]. *)
Lemma one_reconcile (R : Z -> AState -> AAction -> Prop) :
  (forall hi s' a, sv_clock w <= hi ->
     astep wd (sv_clock w) hi (all_fine (sv_objects w) wd) (abs wd) s' a -> R hi s' a) ->
  wp (Reconcile req) w (fun ret w' => ret.2 = None /\ exists s' a wd' y, R (sv_clock w') s' a /\
    stepped (sv_objects w) req wd x s' a (sv_objects w') wd' y).
Proof.
  intros HR. eapply wp_mono; [by apply (reconcile_outcome w req wd x)|].
  intros ret w' (Hr & _ & Hck & s' & a & wd' & y & Ha & Hs). split; [done|].
  exists s', a, wd', y. split; [by apply HR|done].
Qed.

(** The first unhealthy sight starts the degraded window. *)
Lemma first_sight : abs wd = AOk -> all_fine (sv_objects w) wd = false ->
  wp (Reconcile req) w (fun ret w' => ret.2 = None /\ exists t wd', sv_clock w <= t <= sv_clock w' /\
    stepped (sv_objects w) req wd x (ADegraded (trunc t)) Nop (sv_objects w') wd' x).
Proof.
  intros Habs Hfine. eapply wp_mono; [apply (one_reconcile (fun hi s' a => exists t, sv_clock w <= t <= hi /\
    s' = ADegraded (trunc t) /\ a = Nop))|].
  - intros hi s' a Hck Ha. rewrite Habs, Hfine in Ha. inversion Ha; subst. eauto.
  - intros ret w' (Hr & s' & a & wd' & y & (t & Ht & -> & ->) & Hs). split; [done|].
    pose proof (sp_untouched _ _ _ _ _ _ _ _ _ Hs I) as ->. eauto.
Qed.

(** After the window, the dependent is taken down. *)
Lemma window_over since t hi : abs wd = ADegraded since -> since = trunc t -> t <= hi ->
  degradedWindow wd <= time_sub (sv_clock w) hi -> all_fine (sv_objects w) wd = false ->
  wp (Reconcile req) w (fun ret w' => ret.2 = None /\ exists u wd' y, sv_clock w <= u <= sv_clock w' /\
    stepped (sv_objects w) req wd x (ASuspended (trunc u) None) TakeDown (sv_objects w') wd' y).
Proof.
  intros Habs -> Ht Hwin Hfine. eapply wp_mono; [apply (one_reconcile (fun hi s' a => exists t, sv_clock w <= t <= hi /\
    s' = ASuspended (trunc t) None /\ a = TakeDown))|].
  - intros hi' s' a Hck Ha. rewrite Habs, Hfine in Ha. inversion Ha as [| |? now| |? ? u| | | | |]; subst.
    all: try match goal with H : time_sub ?now _ < degradedWindow _ |- _ =>
      pose proof (window_passed _ _ _ t now Hwin Ht ltac:(lia)); lia end.
    exists u. split; [lia|done].
  - intros ret w' (Hr & s' & a & wd' & y & (u & Hu & -> & ->) & Hs). split; [done|]. eauto.
Qed.

(** The first healthy sight starts the recovery window. *)
Lemma recovery_seen since : abs wd = ASuspended since None -> all_fine (sv_objects w) wd = true ->
  wp (Reconcile req) w (fun ret w' => ret.2 = None /\ exists t wd', sv_clock w <= t <= sv_clock w' /\
    stepped (sv_objects w) req wd x (ASuspended since (Some (trunc t))) Nop (sv_objects w') wd' x).
Proof.
  intros Habs Hfine. eapply wp_mono; [apply (one_reconcile (fun hi s' a => exists t, sv_clock w <= t <= hi /\
    s' = ASuspended since (Some (trunc t)) /\ a = Nop))|].
  - intros hi s' a Hck Ha. rewrite Habs, Hfine in Ha. inversion Ha as [? Hn| | | | | | |? t| |]; subst.
    + by destruct (Hn since None).
    + eauto.
  - intros ret w' (Hr & s' & a & wd' & y & (t & Ht & -> & ->) & Hs). split; [done|].
    pose proof (sp_untouched _ _ _ _ _ _ _ _ _ Hs I) as ->. eauto.
Qed.

(** After the recovery window, the dependent is brought back. *)
Lemma recovery_over since h t hi : abs wd = ASuspended since (Some h) -> h = trunc t -> t <= hi ->
  recoveryWindow wd <= time_sub (sv_clock w) hi -> all_fine (sv_objects w) wd = true ->
  wp (Reconcile req) w (fun ret w' => ret.2 = None /\ exists wd' y,
    stepped (sv_objects w) req wd x AOk BringBack (sv_objects w') wd' y).
Proof.
  intros Habs -> Ht Hwin Hfine. eapply wp_mono; [apply (one_reconcile (fun hi s' a => s' = AOk /\ a = BringBack))|].
  - intros hi' s' a Hck Ha. rewrite Habs, Hfine in Ha. inversion Ha as [? Hn| | | | | | | |? ? now|]; subst.
    + by destruct (Hn since (Some (trunc t))).
    + pose proof (window_passed _ _ _ t now Hwin Ht ltac:(lia)). lia.
    + done.
  - intros ret w' (Hr & s' & a & wd' & y & (-> & ->) & Hs). split; [done|]. eauto.
Qed.
End Stages.

(** Whatever became of the suspended dependent, as long as it kept its scale, the
    count saved when it was taken down brings the old scale back. *)
Lemma saved_restores wd wd' x y :
  well_typed x -> is_down x = false -> well_typed y -> identity y = identity x ->
  scale y = scale (suspended_form x) ->
  SavedReplicas (wd_Status wd') = SavedReplicas (wd_Status (save_replicas wd x)) ->
  scale (act_on wd' BringBack y) = scale x.
Proof.
  intros Hx Hup Hy Hid Hsc Hsav.
  assert ((forall c, y <> cronJobAccessor c) -> SavedReplicas (wd_Status wd') = Some (getReplicas x) ->
    getReplicas x <> 0 -> isSuspended x = false -> scale (act_on wd' BringBack y) = scale x) as Hcount.
  { intros Hnc Hs Hne Hns. assert (act_on wd' BringBack y = setReplicas y (getReplicas x)) as ->.
    { simpl. unfold restored_form. rewrite Hs, decide_False by done.
      destruct y as [| |c|]; [done|done|by destruct (Hnc c)|done]. }
    destruct (setReplicas_spec y (getReplicas x) Hy (proj1 Hx) Hnc) as (Hg & _). unfold scale.
    rewrite Hg, Hns. f_equal. destruct y as [| |c|]; [done|done|by destruct (Hnc c)|done]. }
  destruct x as [d|s|c|u], y as [d'|s'|c'|u']; try discriminate Hid;
    try (apply Hcount; [done|exact Hsav|by apply bool_decide_eq_false in Hup|done]).
  injection Hsc as Hs'. unfold is_down, act_on, restored_form, scale in *. simpl in *.
  rewrite Hs'. simpl. by rewrite Hup.
Qed.

(** The dependency is stored in the state [st]. *)
Definition in_state (o : Objects) (req : NamespacedName) (st : AState) : Prop :=
  exists wd', o_wds o !! req = Some wd' /\ abs wd' = st.

(** The dependent, of the same kind and name as [x], has this scale. *)
Definition scaled (o : Objects) (wd : WorkloadDependency) (x : workloadAccessor) (sc : Z * bool) : Prop :=
  exists y, dependent_is o wd y /\ identity y = identity x /\ scale y = sc.

Lemma stepped_state o req wd x s a o' wd' y :
  stepped o req wd x s a o' wd' y -> in_state o' req s.
Proof. intros Hs. exists wd'. split; [eapply mg_lookup, sp_managed, Hs|by eapply sp_abs]. Qed.

Lemma stepped_scaled wd0 x0 o req wd x s a o' wd' y :
  same_role wd0 wd -> identity x = identity x0 -> steady o wd x -> stepped o req wd x s a o' wd' y ->
  scaled o' wd0 x0 (scale (act_on wd a x)).
Proof.
  intros Hr Hi Hsy Hs. destruct (stepped_dependent _ _ _ _ _ _ _ _ _ Hsy Hs) as (Hd & Hsc & Hid).
  exists y. split; [by apply (dependent_is_role _ wd0 wd)|]. split; congruence.
Qed.

Lemma same_role_refl wd : same_role wd wd.
Proof. done. Qed.

Lemma taken_down x x1 wd : is_down x = false -> scale x1 = scale x -> identity x1 = identity x ->
  is_down x1 = false /\ act_on wd TakeDown x1 = suspended_form x1.
Proof.
  intros Hup Hs Hi. assert (is_down x1 = false) as Hup1.
  { revert Hup. unfold is_down, scale in *. injection Hs as Hg Hsu.
    destruct x, x1; try discriminate Hi; rewrite ?Hg, ?Hsu; done. }
  split; [done|]. simpl. by rewrite Hup1.
Qed.

Lemma suspended_scale x x1 : identity x1 = identity x -> well_typed x -> well_typed x1 ->
  scale (suspended_form x1) = scale (suspended_form x).
Proof.
  intros Hi Hx Hx1. assert (in_int32 0) as H0 by by unfold in_int32.
  destruct x, x1; try discriminate Hi; try done. unfold scale, suspended_form.
  destruct (setReplicas_spec (rolloutAccessor u) 0 Hx H0) as (-> & _); [done|].
  destruct (setReplicas_spec (rolloutAccessor u0) 0 Hx1 H0) as (-> & _); done.
Qed.

(** The second half of an outage: the dependent was taken down in the step to [wd2],
    and the dependencies are fine again. *)
Lemma recovery_story w1 req wd0 wd1 x x1 since w1' wd2 y :
  same_role wd0 wd1 -> well_typed x -> is_down x = false -> identity x1 = identity x -> scale x1 = scale x ->
  steady (sv_objects w1) wd1 x1 ->
  stepped (sv_objects w1) req wd1 x1 (ASuspended since None) TakeDown (sv_objects w1') wd2 y ->
  forall w2, meanwhile req wd0 w1' w2 -> all_fine (sv_objects w2) wd0 = true ->
  wp (Reconcile req) w2 (fun r2 w2' => r2.2 = None /\
    scaled (sv_objects w2') wd0 x (scale (suspended_form x)) /\
  forall w3, meanwhile req wd0 w2' w3 -> all_fine (sv_objects w3) wd0 = true ->
    recoveryWindow wd0 <= time_sub (sv_clock w3) (sv_clock w2') ->
  wp (Reconcile req) w3 (fun r3 w3' => r3.2 = None /\ in_state (sv_objects w3') req AOk /\
    (forall wd', o_wds (sv_objects w3') !! req = Some wd' -> SavedReplicas (wd_Status wd') = None) /\
    scaled (sv_objects w3') wd0 x (scale x))).
Proof.
  intros Hr1 Hwt Hup Hi1 Hs1 Hsy1 Hst1 w2 Hmw2 Hok2.
  destruct (taken_down x x1 wd1 Hup Hs1 Hi1) as [Hup1 Hact]. pose proof (sy_typed _ _ _ Hsy1) as Hwt1.
  pose proof (same_role_trans _ _ _ Hr1 (sp_role _ _ _ _ _ _ _ _ _ Hst1)) as Hr2.
  destruct (next_time _ _ _ _ _ _ _ _ _ w2 Hsy1 Hst1 (meanwhile_role _ _ _ _ _ Hr1 Hmw2))
    as (Hm2 & x2 & Hsy2 & Hs2 & Hi2). rewrite Hact in Hs2.
  rewrite (suspended_scale x x1) in Hs2 by done. rewrite Hi1 in Hi2.
  destruct (same_role_reads _ _ Hr2) as (_ & _ & _ & _ & Hfine2).
  eapply wp_mono; [apply (recovery_seen req w2 wd2 x2) with (since := since); try apply Hmw2; try done;
    [by eapply sp_abs|by rewrite Hfine2]|].
  intros r2 w2' (Hret2 & t & wd3 & Ht & Hst2). split; [done|].
  pose proof (stepped_scaled wd0 x _ _ _ _ _ _ _ _ _ Hr2 Hi2 Hsy2 Hst2) as Hsc2. simpl in Hsc2. rewrite Hs2 in Hsc2.
  split; [done|]. intros w3 Hmw3 Hok3 Hwin3.
  pose proof (same_role_trans _ _ _ Hr2 (sp_role _ _ _ _ _ _ _ _ _ Hst2)) as Hr3.
  destruct (next_time _ _ _ _ _ _ _ _ _ w3 Hsy2 Hst2 (meanwhile_role _ _ _ _ _ Hr2 Hmw3))
    as (Hm3 & x3 & Hsy3 & Hs3 & Hi3). simpl in Hs3. rewrite Hs2 in Hs3. rewrite Hi2 in Hi3.
  destruct (same_role_reads _ _ Hr3) as (_ & _ & _ & Hrw & Hfine3).
  eapply wp_mono; [apply (recovery_over req w3 wd3 x3) with (since := since) (h := trunc t) (t := t) (hi := sv_clock w2');
    try apply Hmw3; try done; [by eapply sp_abs|lia|by rewrite Hrw|by rewrite Hfine3]|].
  intros r3 w3' (Hret3 & wd4 & y4 & Hst3). split; [done|]. split; [by eapply stepped_state|]. split.
  { intros wd' Hl. rewrite (mg_lookup _ _ _ (sp_managed _ _ _ _ _ _ _ _ _ Hst3)) in Hl. injection Hl as <-.
    by rewrite (sp_saved _ _ _ _ _ _ _ _ _ Hst3). }
  pose proof (stepped_scaled wd0 x _ _ _ _ _ _ _ _ _ Hr3 Hi3 Hsy3 Hst3) as Hsc3.
  rewrite <- Hs1, <- (saved_restores wd1 wd3 x1 x3); try done; [by eapply sy_typed|congruence| |].
  - rewrite Hs3. symmetry. by apply suspended_scale.
  - rewrite (sp_saved _ _ _ _ _ _ _ _ _ Hst2). simpl. rewrite (sp_saved _ _ _ _ _ _ _ _ _ Hst1). simpl. by rewrite Hup1.
Qed.

(** C4: a complete outage, end to end.  A running dependent of a healthy
    dependency meets an outage of what it depends on.  The first reconcile starts
    the degraded window and leaves the dependent alone; a reconcile after the
    window, measured between the two, finds the outage still there and takes the
    dependent down; the first reconcile after the recovery starts the recovery
    window; a reconcile after that window brings the dependent back to exactly the
    scale it had, and the dependency is healthy with nothing saved.  Between
    reconciles the rest of the cluster may change at will, and so may the dependent
    in everything but its scale.  The API server and the cache are any that keep
    their documented laws. *)
Theorem full_cycle w0 req wd0 x :
  sv_calm w0 -> sv_fresh w0 -> managed (sv_objects w0) req wd0 -> steady (sv_objects w0) wd0 x ->
  is_down x = false -> abs wd0 = AOk -> all_fine (sv_objects w0) wd0 = false ->
  wp (Reconcile req) w0 (fun r0 w0' => r0.2 = None /\ dependent_is (sv_objects w0') wd0 x /\
    (exists t, sv_clock w0 <= t <= sv_clock w0' /\ in_state (sv_objects w0') req (ADegraded (trunc t))) /\
  forall w1, meanwhile req wd0 w0' w1 -> all_fine (sv_objects w1) wd0 = false ->
    degradedWindow wd0 <= time_sub (sv_clock w1) (sv_clock w0') ->
  wp (Reconcile req) w1 (fun r1 w1' => r1.2 = None /\
    scaled (sv_objects w1') wd0 x (scale (suspended_form x)) /\
    (exists t, sv_clock w1 <= t <= sv_clock w1' /\ in_state (sv_objects w1') req (ASuspended (trunc t) None)) /\
  forall w2, meanwhile req wd0 w1' w2 -> all_fine (sv_objects w2) wd0 = true ->
  wp (Reconcile req) w2 (fun r2 w2' => r2.2 = None /\
    scaled (sv_objects w2') wd0 x (scale (suspended_form x)) /\
  forall w3, meanwhile req wd0 w2' w3 -> all_fine (sv_objects w3) wd0 = true ->
    recoveryWindow wd0 <= time_sub (sv_clock w3) (sv_clock w2') ->
  wp (Reconcile req) w3 (fun r3 w3' => r3.2 = None /\ in_state (sv_objects w3') req AOk /\
    (forall wd', o_wds (sv_objects w3') !! req = Some wd' -> SavedReplicas (wd_Status wd') = None) /\
    scaled (sv_objects w3') wd0 x (scale x))))).
Proof.
  intros Hc Hf Hm0 Hsy0 Hup Habs0 Hbad0. pose proof (sy_typed _ _ _ Hsy0) as Hwt.
  eapply wp_mono; [by apply (first_sight req w0 wd0 x)|].
  intros r0 w0' (Hret0 & t0 & wd1 & Ht0 & Hst0). split; [done|].
  split; [by eapply stepped_dependent|]. split; [exists t0; split; [done|by eapply stepped_state]|].
  intros w1 Hmw1 Hbad1 Hwin1. pose proof (sp_role _ _ _ _ _ _ _ _ _ Hst0) as Hr1.
  destruct (next_time _ _ _ _ _ _ _ _ _ w1 Hsy0 Hst0 Hmw1) as (Hm1 & x1 & Hsy1 & Hs1 & Hi1). simpl in Hs1.
  destruct (same_role_reads _ _ Hr1) as (_ & _ & Hdw & _ & Hfine1).
  eapply wp_mono; [apply (window_over req w1 wd1 x1) with (since := trunc t0) (t := t0) (hi := sv_clock w0');
    try apply Hmw1; try done; [by eapply sp_abs|lia|by rewrite Hdw|by rewrite Hfine1]|].
  intros r1 w1' (Hret1 & u & wd2 & y & Hu & Hst1). split; [done|].
  destruct (taken_down x x1 wd1 Hup Hs1 Hi1) as [_ Hact].
  pose proof (stepped_scaled wd0 x _ _ _ _ _ _ _ _ _ Hr1 Hi1 Hsy1 Hst1) as Hsc1. rewrite Hact in Hsc1.
  rewrite (suspended_scale x x1) in Hsc1 by (try done; by eapply sy_typed).
  split; [done|]. split; [exists u; split; [done|by eapply stepped_state]|].
  by eapply (recovery_story w1 req wd0 wd1 x x1).
Qed.

(** ** Deletion, end to end *)

Lemma last_finalizer fs : (forall f, f ∈ fs -> f = FinalizerName) -> RemoveFinalizer fs FinalizerName = [].
Proof.
  intros Hfs. destruct (RemoveFinalizer fs FinalizerName) as [|f l] eqn:E; [done|]. exfalso.
  assert (f ∈ RemoveFinalizer fs FinalizerName) as Hin by (rewrite E; left).
  apply remove_finalizer in Hin as [Hin Hne]. by apply Hne, Hfs.
Qed.

(** Giving the replicas back takes the dependency object with it. *)
Lemma wp_release w wd : sv_calm w -> crd_wd wd -> is_Some (om_DeletionTimestamp (wd_Meta wd)) ->
  o_wds (sv_objects w) !! wd_key wd = Some wd -> (forall f, f ∈ om_Finalizers (wd_Meta wd) -> f = FinalizerName) ->
  wp (client_UpdateWD (without_finalizer wd)) w (fun r w' => err_of r = None /\
    writes (on_wds (delete (wd_key wd)) (sv_objects w)) w w').
Proof.
  intros Hc Hcrd Hdel Hl Hfin. apply wp_interact.
  destruct (as_LastFinalizer (without_finalizer wd) wd w Hc) as (srv & Hok & Hw); try done.
  - simpl. by apply last_finalizer.
  - rewrite Hok. by split.
Qed.

(** C10: deletion gives the replicas back and completes.  Deleting a dependency that
    holds [n > 0] saved replicas of a Deployment, StatefulSet or Rollout, with no
    finalizer but klink's, takes one reconcile against a calm API server whose
    writes the cache has seen: the dependent, which keeps its identity, is at [n]
    replicas, the dependency object is gone, and nothing else changed. *)
Theorem deletion_completes w req wd x n :
  sv_calm w -> sv_fresh w ->
  o_wds (sv_objects w) !! req = Some wd -> wd_key wd = req -> crd_wd wd ->
  is_Some (om_DeletionTimestamp (wd_Meta wd)) ->
  (forall f, f ∈ om_Finalizers (wd_Meta wd) -> f = FinalizerName) ->
  Phase (wd_Status wd) = PhaseSuspended -> SavedReplicas (wd_Status wd) = Some n -> 0 < n ->
  dependent_is (sv_objects w) wd x -> keyed (dependent_key wd) x -> well_typed x ->
  (forall c, x <> cronJobAccessor c) ->
  wp (Reconcile req) w (fun ret w' => ret = (noResult, None) /\
    exists y, identity y = identity x /\ getReplicas y = n /\
      sv_objects w' = on_wds (delete req) (put_workload (dependent_key wd) y (sv_objects w))).
Proof.
  intros Hc Hf Hl Hk Hcrd Hdel Hfin Hph Hsav Hn Hdep Hkeyed Hwt Hcron.
  assert (in_int32 n) as Hint by (destruct Hcrd as ([_ (_ & Hs & _)] & _); by rewrite Hsav in Hs).
  assert (restored_form wd x = Some (setReplicas x n)) as Hform.
  { unfold restored_form. rewrite Hsav. destruct x; [..|by destruct (Hcron c)|]; by rewrite decide_False by lia. }
  unfold Reconcile, client_GetWD. apply wp_bind, wp_interact.
  destruct (as_GetWD req w Hc) as [Hp Ha]. specialize (Ha Hf). rewrite Hl in Ha. simpl in Ha. rewrite Ha.
  set (w1 := (kc_GetWD req w).2) in *. clearbody w1. destruct Hdel as [del Hd]. rewrite Hd. unfold handleDeletion.
  rewrite Hph, Hsav, (bool_decide_eq_true_2 (PhaseSuspended = PhaseSuspended)) by done.
  rewrite (proj2 (Z.ltb_lt 0 n) Hn). cbn [andb]. cbv iota zeta. fold (without_finalizer wd).
  apply wp_bind. eapply wp_mono; [apply wp_getWorkload; [apply Hp|by apply Hp]|]. intros r w2 [Hp2 Ha2].
  rewrite (ps_objects _ _ Hp) in Ha2. pose proof (passes_trans _ _ _ Hp Hp2) as Hp'.
  change (workload_at _ _ (sv_objects w)) with (workload_at (dependent_kind wd) (dependent_key wd) (sv_objects w)) in Ha2.
  rewrite Hdep in Ha2. simpl in Ha2. subst r. apply wp_bind.
  eapply wp_mono; [apply (wp_restore (dependent_kind wd) (dependent_key wd)); [apply Hp'| |done|done|]|].
  { by rewrite (ps_objects _ _ Hp'). }
  { intros k Hs. rewrite Hsav in Hs. injection Hs as <-. split; [lia|done]. }
  intros r w3 (-> & y & Hv & _ & [_ Ho Hc3]). rewrite Hform in Hv. rewrite (ps_objects _ _ Hp') in Ho.
  destruct (setReplicas_spec x n Hwt Hint Hcron) as (Hg & _ & Hi).
  destruct (same_view_facts _ _ Hv) as (Hs & Hid & _). simpl in Hs, Hid. injection Hs as Hgr _.
  apply wp_bind. eapply wp_mono; [apply wp_release; [done|done|by eexists| |done]|].
  { by rewrite Ho, put_workload_wds, Hk. }
  intros r w4 (Hr & [_ Ho4 _]). apply wp_ret. rewrite Hr. split; [done|]. exists y.
  split; [congruence|]. split; [congruence|]. by rewrite Ho4, Ho, Hk.
Qed.
End Story.
