(* ===== verification/MemCluster.v ===== *)
(** * An API server in memory

    A concrete world for the [KubeClient] interface: stores of objects, a clock that
    moves when it is read, optimistic concurrency on the WorkloadDependency (a write
    with a stale resourceVersion is a conflict), a status subresource that keeps
    times to the second, finalizers that hold back a deletion, and merge patches
    that touch only the fields that differ.  It shows that the interfaces and laws
    the other files assume can be had, and the concrete scenarios run in it; no
    theorem about the reconciler speaks of it. *)

From S2P Require Import Prelude Types GoFloat Cluster Workload Health Watch Reconciler.
From S2P Require Import Safety Phases Finalizer Schema ApiServer.

(** ** Library instances *)

(** A Rollout reduced to the fields klink reaches through nested accessors. *)
Record RolloutObj := mkRollout {
  ro_Name : string;
  ro_Namespace : string;
  ro_Replicas : option Z;
  ro_Phase : option string
}.

#[export] Instance mem_unstructured : UnstructuredLib := {
  Unstructured := RolloutObj;
  uns_Name := ro_Name;
  uns_Namespace := ro_Namespace;
  NestedInt64 u path :=
    if decide (path = ["spec"; "replicas"]) then
      match ro_Replicas u with Some r => (r, true, None) | None => (0, false, None) end
    else (0, false, None);
  NestedString u path :=
    if decide (path = ["status"; "phase"]) then
      match ro_Phase u with Some p => (p, true, None) | None => ("", false, None) end
    else ("", false, None);
  SetNestedField u n path :=
    if decide (path = ["spec"; "replicas"])
    then mkRollout (ro_Name u) (ro_Namespace u) (Some n) (ro_Phase u) else u
}.

#[export] Instance mem_unstructured_laws : UnstructuredLaws.
Proof. split; done. Qed.

(** amd64 converts an out-of-range float64 to the minimum int32. *)
#[export] Instance mem_platform : GoPlatform := {
  float64_to_int32_unspecified := fun _ => - 2 ^ 31
}.

#[export] Instance mem_controllerutil : ControllerUtil := {
  ContainsFinalizer fs f := bool_decide (f ∈ fs);
  AddFinalizer fs f := if decide (f ∈ fs) then fs else fs ++ [f];
  RemoveFinalizer fs f := List.filter (fun g => negb (bool_decide (g = f))) fs
}.

#[export] Instance mem_controllerutil_laws : ControllerUtilLaws.
Proof.
  split; intros fs f; simpl.
  - apply bool_decide_eq_true.
  - intros g. destruct (decide (f ∈ fs)); [|apply elem_of_snoc].
    split; [by left|]. by intros [?| ->].
  - intros g. rewrite list_elem_of_In, List.filter_In, <- list_elem_of_In, negb_true_iff.
    by rewrite bool_decide_eq_false.
Qed.

(** ** The store *)

Record World := mkWorld {
  clock : Z;
  wds : gmap NamespacedName WorkloadDependency;
  deployments : gmap NamespacedName Deployment;
  statefulsets : gmap NamespacedName StatefulSet;
  cronjobs : gmap NamespacedName CronJob;
  rollouts : gmap NamespacedName RolloutObj;
  secrets : gmap NamespacedName (gmap string string)
}.

Definition with_clock (t : Z) (w : World) : World :=
  mkWorld t (wds w) (deployments w) (statefulsets w) (cronjobs w) (rollouts w) (secrets w).
Definition with_wds (f : gmap NamespacedName WorkloadDependency -> gmap NamespacedName WorkloadDependency)
    (w : World) : World :=
  mkWorld (clock w) (f (wds w)) (deployments w) (statefulsets w) (cronjobs w) (rollouts w) (secrets w).
Definition with_deployments (f : gmap NamespacedName Deployment -> gmap NamespacedName Deployment)
    (w : World) : World :=
  mkWorld (clock w) (wds w) (f (deployments w)) (statefulsets w) (cronjobs w) (rollouts w) (secrets w).
Definition with_statefulsets (f : gmap NamespacedName StatefulSet -> gmap NamespacedName StatefulSet)
    (w : World) : World :=
  mkWorld (clock w) (wds w) (deployments w) (f (statefulsets w)) (cronjobs w) (rollouts w) (secrets w).
Definition with_cronjobs (f : gmap NamespacedName CronJob -> gmap NamespacedName CronJob)
    (w : World) : World :=
  mkWorld (clock w) (wds w) (deployments w) (statefulsets w) (f (cronjobs w)) (rollouts w) (secrets w).
Definition with_rollouts (f : gmap NamespacedName RolloutObj -> gmap NamespacedName RolloutObj)
    (w : World) : World :=
  mkWorld (clock w) (wds w) (deployments w) (statefulsets w) (cronjobs w) (f (rollouts w)) (secrets w).

Definition found {A} (o : option A) : result A :=
  match o with Some a => Ok a | None => Err (ErrNotFound "not found") end.

(** resourceVersions are opaque; here each write appends a mark. *)
Definition next_version (rv : string) : string := rv +:+ "'".

Definition bump (wd : WorkloadDependency) : WorkloadDependency :=
  let m := wd_Meta wd in
  mkWD (mkMeta (om_Name m) (om_Namespace m) (next_version (om_ResourceVersion m)) (om_Generation m)
          (om_DeletionTimestamp m) (om_Annotations m) (om_Finalizers m)) (wd_Spec wd) (wd_Status wd).

(** A write of [wd], where [merge] says which part of it the server stores. *)
Definition mem_write (merge : WorkloadDependency -> WorkloadDependency)
    (wd : WorkloadDependency) (w : World) : result WorkloadDependency * World :=
  match wds w !! wd_key wd with
  | None => (Err (ErrNotFound "not found"), w)
  | Some stored =>
      if decide (om_ResourceVersion (wd_Meta stored) = om_ResourceVersion (wd_Meta wd)) then
        let new := bump (merge stored) in
        match om_DeletionTimestamp (wd_Meta new), om_Finalizers (wd_Meta new) with
        | Some _, [] => (Ok new, with_wds (delete (wd_key wd)) w)
        | _, _ => (Ok new, with_wds (insert (wd_key wd) new) w)
        end
      else (Err (ErrConflict "the object has been modified"), w)
  end.

(** The WorkloadDependencies of a list, by namespace or by field index. *)
Definition listed (o : ListOption) (wd : WorkloadDependency) : bool :=
  match o with
  | InNamespace ns => bool_decide (wd_Namespace wd = ns)
  | MatchingFields index key =>
      if decide (index = indexDependentName) then bool_decide (key ∈ index_dependent wd)
      else if decide (index = indexDependsOnName) then bool_decide (key ∈ index_dependsOn wd)
      else false
  end.

(** A merge patch sends the fields in which [new] differs from [base]. *)
Definition mem_patch (base new : workloadAccessor) (w : World) : result unit * World :=
  let k := mkNN (GetNamespace base) (GetName base) in
  match base, new with
  | deploymentAccessor b, deploymentAccessor n =>
      match deployments w !! k with
      | None => (Err (ErrNotFound "not found"), w)
      | Some d => (Ok tt, with_deployments (insert k (mkDeployment (dp_Name d) (dp_Namespace d)
          (if decide (dp_Replicas b = dp_Replicas n) then dp_Replicas d else dp_Replicas n)
          (dp_ReadyReplicas d))) w)
      end
  | statefulSetAccessor b, statefulSetAccessor n =>
      match statefulsets w !! k with
      | None => (Err (ErrNotFound "not found"), w)
      | Some s => (Ok tt, with_statefulsets (insert k (mkStatefulSet (ss_Name s) (ss_Namespace s)
          (if decide (ss_Replicas b = ss_Replicas n) then ss_Replicas s else ss_Replicas n)
          (ss_ReadyReplicas s))) w)
      end
  | cronJobAccessor b, cronJobAccessor n =>
      match cronjobs w !! k with
      | None => (Err (ErrNotFound "not found"), w)
      | Some c => (Ok tt, with_cronjobs (insert k (mkCronJob (cj_Name c) (cj_Namespace c)
          (if decide (cj_Suspend b = cj_Suspend n) then cj_Suspend c else cj_Suspend n))) w)
      end
  | rolloutAccessor b, rolloutAccessor n =>
      match rollouts w !! k with
      | None => (Err (ErrNotFound "not found"), w)
      | Some r => (Ok tt, with_rollouts (insert k (mkRollout (ro_Name r) (ro_Namespace r)
          (if decide (ro_Replicas b = ro_Replicas n) then ro_Replicas r else ro_Replicas n)
          (ro_Phase r))) w)
      end
  | _, _ => (Err (ErrOther "patch of a different kind"), w)
  end.

#[export] Instance mem_client : KubeClient World := {
  kc_Now w := (clock w, with_clock (clock w + Millisecond) w);
  kc_GetWD k w := (found (wds w !! k), w);
  kc_ListWDs o w := (Ok (List.filter (listed o) (map_to_list (wds w)).*2), w);
  kc_UpdateWD wd := mem_write (fun stored => mkWD (wd_Meta wd) (wd_Spec wd) (wd_Status stored)) wd;
  kc_StatusUpdateWD wd := mem_write (fun stored => with_Status stored (normal_Status (wd_Status wd))) wd;
  kc_GetDeployment k w := (found (deployments w !! k), w);
  kc_GetStatefulSet k w := (found (statefulsets w !! k), w);
  kc_GetCronJob k w := (found (cronjobs w !! k), w);
  kc_GetRollout k w := (found (rollouts w !! k), w);
  kc_Patch := mem_patch;
  kc_GetSecret k w := (found (secrets w !! k), w)
}.

(** ** Runs *)

(** The result and the final world of a run from [w]. *)
Definition run {A} (m : MW World A) (w : World) : A * World :=
  ((m (MkSys w [])).1, env (m (MkSys w [])).2).

(** ** The laws *)

#[export] Instance mem_server : ApiServer World := {
  sv_clock := clock;
  sv_objects w := mkObjects (wds w) (deployments w) (statefulsets w) (cronjobs w) (rollouts w : gmap NamespacedName Unstructured);
  sv_calm _ := True;
  sv_fresh _ := True
}.

(** It always answers, and from the store itself. *)
Lemma mem_calm (w : World) : sv_calm w.
Proof. exact I. Qed.
Lemma mem_fresh (w : World) : sv_fresh w.
Proof. exact I. Qed.

Lemma mem_passes w : passes w w.
Proof. by split. Qed.

Lemma found_answers {A} (o : option A) : answers o (found o).
Proof. destruct o; simpl; [done|]. by eexists. Qed.

Lemma mem_patch_rescaled kind k base new w :
  workload_at kind k (sv_objects w) = Some base -> keyed k base -> rescaled base new ->
  (mem_patch base new w).1 = Ok tt /\
  writes (put_workload k new (sv_objects w)) w (mem_patch base new w).2.
Proof.
  intros Hx Hk Hr. unfold mem_patch. rewrite <- Hk. unfold workload_at in Hx. simpl in Hx.
  repeat destruct (decide _); destruct (_ !! _) as [o|] eqn:Ho; simplify_eq/=;
    destruct Hr as [(? & _ & _ & ->)|(? & ->)]; cbn -[decide]; rewrite ?Ho; destruct o; cbn -[decide];
    repeat case_decide; simplify_eq/=; split; try done; by split.
Qed.

Lemma mem_status wd stored w :
  current (sv_objects w) wd stored -> om_DeletionTimestamp (wd_Meta wd) = None ->
  exists srv, (kc_StatusUpdateWD wd w).1 = Ok srv /\ same_meta (wd_Meta wd) (wd_Meta srv) /\
    wd_Spec srv = wd_Spec wd /\ wd_Status srv = normal_Status (wd_Status wd) /\
    writes (on_wds (insert (wd_key wd) srv) (sv_objects w)) w (kc_StatusUpdateWD wd w).2.
Proof.
  intros (Hl & Hm & Hs) Hdel. simpl in Hl. unfold kc_StatusUpdateWD. simpl. unfold mem_write.
  rewrite Hl, decide_True by by rewrite Hm. unfold bump, with_Status. simpl. rewrite Hm, Hs, Hdel. simpl.
  eexists. do 4 (split; [done|]). by split.
Qed.

Lemma mem_last_finalizer wd stored w :
  o_wds (sv_objects w) !! wd_key wd = Some stored ->
  om_ResourceVersion (wd_Meta wd) = om_ResourceVersion (wd_Meta stored) ->
  is_Some (om_DeletionTimestamp (wd_Meta wd)) -> om_Finalizers (wd_Meta wd) = [] ->
  exists srv, (kc_UpdateWD wd w).1 = Ok srv /\
    writes (on_wds (delete (wd_key wd)) (sv_objects w)) w (kc_UpdateWD wd w).2.
Proof.
  intros Hl Hrv [del Hdel] Hf. simpl in Hl. unfold kc_UpdateWD. simpl. unfold mem_write.
  rewrite Hl, decide_True by done. simpl. rewrite Hdel, Hf. eexists. split; [done|]. by split.
Qed.

#[export] Instance mem_server_laws : ApiServerLaws.
Proof.
  split.
  - intros w _. simpl. split; [split; simpl; try done; unfold Millisecond; lia|unfold Millisecond; lia].
  - intros k w _. split; [apply mem_passes|]. intros _. apply found_answers.
  - intros k w _. split; [apply mem_passes|]. intros _. apply found_answers.
  - intros k w _. split; [apply mem_passes|]. intros _. apply found_answers.
  - intros k w _. split; [apply mem_passes|]. intros _. apply found_answers.
  - intros k w _. split; [apply mem_passes|]. intros _. apply (found_answers (rollouts w !! k)).
  - intros k w _. apply mem_passes.
  - intros key w _. split; [apply mem_passes|]. intros _. eexists. split; [done|]. intros wd.
    rewrite list_elem_of_In, List.filter_In, <- list_elem_of_In. simpl listed. rewrite bool_decide_eq_true.
    rewrite list_elem_of_fmap. simpl. split.
    + intros [([k v] & -> & Hin%elem_of_map_to_list) Hkey]. split; [by exists k|done].
    + intros [(k & Hk) Hkey]. split; [|done]. exists (k, wd). by rewrite elem_of_map_to_list.
  - intros kind k base new w _ Hx Hk _ Hr.
    destruct (mem_patch_rescaled kind k base new w Hx Hk Hr) as [Hok Hw]. split; [exact Hok|].
    exists new. split; [apply same_view_refl|exact Hw].
  - intros wd stored w _ Hcur Hdel _. by apply (mem_status wd stored).
  - intros wd stored w _ Hl Hrv Hdel Hf _. by apply (mem_last_finalizer wd stored).
Qed.
