(* ===== verification/Admission.v ===== *)
(** * The admission webhooks' common ground

    Requests and responses of admission.k8s.io/v1 as the two handlers use them,
    the HTTP reply, and the decoding of JSON, which the handlers leave to
    encoding/json and to the Kubernetes codec. *)

From S2P Require Import Prelude Types GoFloat.
From Stdlib Require Import SpecFloat.

(** A JSON value as encoding/json decodes it into [interface{}]: numbers become
    float64.  An object keeps its members in order of appearance. *)
#[local] Set Warnings "-register-all".
Inductive json :=
  | JNull
  | JBool (b : bool)
  | JNum (f : spec_float)
  | JStr (s : string)
  | JArr (l : list json)
  | JObj (members : list (string * json)).

(** [m[key]] on a decoded object: a later member overwrites an earlier one. *)
Fixpoint member (key : string) (ms : list (string * json)) : option json :=
  match ms with
  | [] => None
  | (k, v) :: ms' =>
      match member key ms' with
      | Some v' => Some v'
      | None => if decide (k = key) then Some v else None
      end
  end.

(** [spec, _ := obj["spec"].(map[string]interface{})]: nil, and so empty, unless
    the member is an object. *)
Definition object_member (key : string) (ms : list (string * json)) : list (string * json) :=
  match member key ms with Some (JObj ms') => ms' | _ => [] end.

(** [metav1.GroupVersionKind]'s Kind, names, and the raw objects; [nil] is [None]. *)
Record AdmissionRequest := mkRequest {
  ar_UID : string;
  ar_Kind : string;
  ar_Name : string;
  ar_Namespace : string;
  ar_Operation : string;
  ar_Object : option string;
  ar_OldObject : option string
}.

Definition Create : string := "CREATE".

Record AdmissionResponse := mkResponse {
  resp_UID : string;
  Allowed : bool;
  Code : Z;
  resp_Message : string;
  Reason : string
}.

(** Decoding: [json.Unmarshal] into a map ([null] leaves it empty), into an
    AdmissionReview, whose request may be missing, and into a WorkloadDependency,
    whose error has a text; and the Kubernetes codec's decoding of a review. *)
Class Codec := {
  Unmarshal_map : string -> result (list (string * json));
  Unmarshal_review : string -> result (option AdmissionRequest);
  Unmarshal_WD : string -> WorkloadDependency + string;
  Decode_review : string -> result (option AdmissionRequest)
}.

(** What the client sees: an error page, or the review with its response. *)
Inductive HttpReply :=
  | HttpError (status : Z) (text : string)
  | HttpReview (request : AdmissionRequest) (response : AdmissionResponse).

Definition with_UID (uid : string) (r : AdmissionResponse) : AdmissionResponse :=
  mkResponse uid (Allowed r) (Code r) (resp_Message r) (Reason r).
