(* ===== verification/Validator.v ===== *)
(** * The validating webhook for WorkloadDependency (internal/webhook/wd_validator.go) *)

From S2P Require Import Prelude Types Admission.

(** ** The rules, in the order of the source *)

(** [for i, dep := range deps { errs = append(errs, f(i, dep)...) }] *)
Fixpoint range_errs (f : nat -> DependsOnEntry -> list string) (i : nat)
    (deps : list DependsOnEntry) : list string :=
  match deps with
  | [] => []
  | d :: deps' => f i d ++ range_errs f (S i) deps'
  end.

Definition err_if (b : bool) (msg : string) : list string := if b then [msg] else [].

Definition dep_at (i : nat) : string := "spec.dependsOn[" +:+ fmt_d (Z.of_nat i) +:+ "]".

Definition dep_errs (i : nat) (dep : DependsOnEntry) : list string :=
  err_if (bool_decide (dep_Kind dep = "CronJob"))
    (dep_at i +:+ ": CronJob cannot be used as a dependency (no replicas to check); use it as a dependent instead") ++
  err_if (bool_decide (dep_Name dep = "")) (dep_at i +:+ ".name is required").

Definition window_errs (i : nat) (dep : DependsOnEntry) : list string :=
  err_if (Window (dep_Condition dep) <? 0) (dep_at i +:+ ".condition.window must be positive") ++
  err_if (RecoveryWindow (dep_Condition dep) <? 0)
    (dep_at i +:+ ".condition.recoveryWindow must be positive").

Definition notify_errs (n : option NotifySpec) : list string :=
  match n with
  | None => []
  | Some n =>
      err_if (negb (bool_decide (Webhook n = "")) && bool_decide (is_Some (WebhookSecretRef n)))
        "spec.notify: set either webhook or webhookSecretRef, not both" ++
      err_if (bool_decide (Webhook n = "") && bool_decide (WebhookSecretRef n = None))
        "spec.notify: must set either webhook or webhookSecretRef"
  end.

Definition validateWD (wd : WorkloadDependency) : list string :=
  let spec := wd_Spec wd in
  err_if (bool_decide (ref_Kind (Dependent spec) = "")) "spec.dependent.kind is required" ++
  err_if (bool_decide (ref_Name (Dependent spec) = "")) "spec.dependent.name is required" ++
  err_if (bool_decide (DependsOn spec = [])) "spec.dependsOn must have at least one entry" ++
  range_errs dep_errs 0 (DependsOn spec) ++
  err_if (MaxSuspendDuration (OnDegraded spec) <? 0)
    "spec.onDegraded.maxSuspendDuration must be positive" ++
  range_errs window_errs 0 (DependsOn spec) ++
  notify_errs (Notify spec).

(** ** Responses *)

Definition wdAllow : AdmissionResponse := mkResponse "" true 200 "" "".
Definition wdDeny (reason : string) : AdmissionResponse := mkResponse "" false 422 reason "Invalid".

Section Handler.
Context `{CD : Codec}.

Definition wd_validate (req : AdmissionRequest) : AdmissionResponse :=
  match Unmarshal_WD (default "" (ar_Object req)) with
  | inr err => wdDeny ("failed to decode WorkloadDependency: " +:+ err)
  | inl wd =>
      match validateWD wd with
      | e :: _ => wdDeny ("validation failed: " +:+ e)
      | [] => wdAllow
      end
  end.

(** [ServeHTTP], from the body read (or not). *)
Definition wd_ServeHTTP (body : result string) : HttpReply :=
  match body with
  | Err _ => HttpError 400 "failed to read body"
  | Ok "" => HttpError 400 "failed to read body"
  | Ok b =>
      match Unmarshal_review b with
      | Ok (Some req) => HttpReview req (with_UID (ar_UID req) (wd_validate req))
      | _ => HttpError 400 "invalid admission review"
      end
  end.
End Handler.

(** ** What the rules amount to *)

(** A well-formed WorkloadDependency. *)
Record valid_wd (wd : WorkloadDependency) : Prop := {
  v_kind : ref_Kind (Dependent (wd_Spec wd)) <> "";
  v_name : ref_Name (Dependent (wd_Spec wd)) <> "";
  v_deps : DependsOn (wd_Spec wd) <> [];
  v_dep dep : dep ∈ DependsOn (wd_Spec wd) ->
    dep_Kind dep <> "CronJob" /\ dep_Name dep <> "" /\
    0 <= Window (dep_Condition dep) /\ 0 <= RecoveryWindow (dep_Condition dep);
  v_max : 0 <= MaxSuspendDuration (OnDegraded (wd_Spec wd));
  v_notify n : Notify (wd_Spec wd) = Some n ->
    (Webhook n <> "" /\ WebhookSecretRef n = None) \/
    (Webhook n = "" /\ is_Some (WebhookSecretRef n))
}.

Lemma err_if_nil b msg : err_if b msg = [] <-> b = false.
Proof. by destruct b. Qed.

Lemma range_errs_nil f i deps :
  range_errs f i deps = [] <-> forall j dep, deps !! j = Some dep -> f (i + j)%nat dep = [].
Proof.
  revert i. induction deps as [|d deps IH]; intros i; simpl; [done|].
  rewrite app_nil, IH. split.
  - intros [Hd Hr] [|j] dep; simpl; [intros [= <-]; by rewrite Nat.add_0_r|].
    intros Hj. rewrite Nat.add_succ_r. by apply (Hr j).
  - intros Hall. split; [rewrite <- (Nat.add_0_r i); by apply (Hall 0%nat)|].
    intros j dep Hj. specialize (Hall (S j) dep Hj). by rewrite Nat.add_succ_r in Hall.
Qed.

Lemma range_errs_forall f deps (P : DependsOnEntry -> Prop) :
  (forall i dep, f i dep = [] <-> P dep) ->
  range_errs f 0 deps = [] <-> forall dep, dep ∈ deps -> P dep.
Proof.
  intros Hf. rewrite range_errs_nil. split.
  - intros Hall dep [j Hj]%list_elem_of_lookup. by apply (Hf j), (Hall j).
  - intros Hall j dep Hj. apply Hf, Hall. by eapply list_elem_of_lookup_2.
Qed.

Lemma notify_errs_nil o :
  notify_errs o = [] <-> forall n, o = Some n ->
    (Webhook n <> "" /\ WebhookSecretRef n = None) \/ (Webhook n = "" /\ is_Some (WebhookSecretRef n)).
Proof.
  destruct o as [n|]; [|done]. unfold notify_errs. rewrite app_nil, !err_if_nil. split.
  - intros [Hb Hn] ? [= <-]. destruct (decide (Webhook n = "")) as [He|He].
    + rewrite !bool_decide_eq_true_2 in Hn by done. right. split; [done|].
      destruct (WebhookSecretRef n); [by eexists|]. by rewrite bool_decide_eq_true_2 in Hn.
    + left. split; [done|]. rewrite (bool_decide_eq_false_2 (Webhook n = "")) in Hb by done.
      destruct (WebhookSecretRef n); [|done]. by rewrite bool_decide_eq_true_2 in Hb by by eexists.
  - intros Hall. destruct (Hall n eq_refl) as [[He Hr]|[He [r Hr]]]; rewrite Hr.
    + rewrite (bool_decide_eq_false_2 (Webhook n = "")) by done. by rewrite (bool_decide_eq_false_2 (is_Some None)).
    + rewrite (bool_decide_eq_true_2 (Webhook n = "")) by done. done.
Qed.

Lemma validateWD_nil wd : validateWD wd = [] <-> valid_wd wd.
Proof.
  unfold validateWD. rewrite !app_nil, !err_if_nil, !bool_decide_eq_false, notify_errs_nil.
  rewrite (range_errs_forall dep_errs _ (fun dep => dep_Kind dep <> "CronJob" /\ dep_Name dep <> "")).
  2: { intros i dep. unfold dep_errs. by rewrite app_nil, !err_if_nil, !bool_decide_eq_false. }
  rewrite (range_errs_forall window_errs _ (fun dep =>
    0 <= Window (dep_Condition dep) /\ 0 <= RecoveryWindow (dep_Condition dep))).
  2: { intros i dep. unfold window_errs. by rewrite app_nil, !err_if_nil, !Z.ltb_ge. }
  rewrite Z.ltb_ge. split.
  - intros (? & ? & ? & Hd & ? & Hw & ?). split; try done.
    intros dep Hin. destruct (Hd dep Hin), (Hw dep Hin). done.
  - intros [? ? ? Hdep ? ?]. do 3 (split; [done|]). split; [|split; [done|split; [|done]]];
      intros dep Hin; destruct (Hdep dep Hin) as (? & ? & ? & ?); done.
Qed.

Section HandlerSpec.
Context `{CD : Codec}.

(** C19: the validating webhook admits exactly the well-formed dependencies.  A
    readable review is answered with its own UID; the answer is "allowed" if and
    only if the object decodes and satisfies every rule, and otherwise carries
    status 422 and the first violated rule.  An unreadable body or a review
    without a request gets a 400. *)
Theorem wd_webhook_exact body :
  match wd_ServeHTTP body with
  | HttpReview req resp =>
      (exists b, body = Ok b /\ Unmarshal_review b = Ok (Some req)) /\ resp_UID resp = ar_UID req /\
      (Allowed resp = true <->
         exists wd, Unmarshal_WD (default "" (ar_Object req)) = inl wd /\ valid_wd wd) /\
      (Allowed resp = false -> Code resp = 422 /\
         forall wd, Unmarshal_WD (default "" (ar_Object req)) = inl wd ->
           exists e, head (validateWD wd) = Some e /\
             resp_Message resp = "validation failed: " +:+ e)
  | HttpError code _ => code = 400 /\
      forall b req, body = Ok b -> b <> "" -> Unmarshal_review b <> Ok (Some req)
  end.
Proof.
  unfold wd_ServeHTTP. destruct body as [b|e]; [|done].
  destruct b as [|c b]; [split; [done|]; by intros ? ? [= <-]|].
  destruct (Unmarshal_review (String c b)) as [[req|]|e] eqn:Hu.
  2,3: split; [done|]; intros ? ? [= <-] _; by rewrite Hu.
  split; [by exists (String c b)|]. split; [done|]. unfold wd_validate.
  destruct (Unmarshal_WD (default "" (ar_Object req))) as [wd|err].
  2: { split; [|done]. split; [done|]. by intros (wd & ? & _). }
  pose proof (validateWD_nil wd) as Hv. destruct (validateWD wd) as [|e es] eqn:Hval; simpl.
  - split; [|done]. split; [|done]. intros _. exists wd. split; [done|by apply Hv].
  - split; [split; [done|]|].
    + intros (wd' & [= <-] & Hwd%Hv). done.
    + intros _. split; [done|]. intros ? [= <-]. exists e. by rewrite Hval.
Qed.
End HandlerSpec.
