(* ===== verification/Wire.v ===== *)
(** * WorkloadDependency on the wire

    The JSON encoding that the field tags of workloaddependency_types.go define
    (encoding/json with omitempty and omitzero), its decoding, and the defaults
    that the API server fills in from the [+kubebuilder:default] markers.  Every
    write of klink goes through all three; the theorem says what is left.

    Durations, times, object metadata and conditions bring their own encoding
    from apimachinery: the class [MetaJSON], with its laws.  A nil [DependsOn] would
    be encoded as null; the field is required, so a stored object has none. *)

From S2P Require Import Prelude Types GoFloat Cluster Workload Notify Status Health Cycles Reconciler.
From S2P Require Import Schema Admission Validator.

(** ** JSON values *)

#[local] Set Warnings "-register-all".
Inductive jv :=
  | JText (s : string)
  | JInt (z : Z)
  | JList (l : list jv)
  | JMap (ms : list (string * jv)).

Fixpoint get (k : string) (ms : list (string * jv)) : option jv :=
  match ms with
  | [] => None
  | (k', v) :: ms' => if String.eqb k' k then Some v else get k ms'
  end.

(** A struct: its fields in order, without the omitted ones. *)
Definition fields (l : list (string * option jv)) : list (string * jv) :=
  omap (fun '(k, o) => (fun v => (k, v)) <$> o) l.

Fixpoint assoc (k : string) (l : list (string * option jv)) : option jv :=
  match l with
  | [] => None
  | (k', o) :: l' => if String.eqb k' k then match o with Some v => Some v | None => assoc k l' end
                     else assoc k l'
  end.

(** [omitempty] on a string, an integer, a slice. *)
Definition omit_text (s : string) : option jv := if decide (s = "") then None else Some (JText s).
Definition omit_int (z : Z) : option jv := if decide (z = 0) then None else Some (JInt z).
Definition omit_list (l : list jv) : option jv := match l with [] => None | _ => Some (JList l) end.

(** Decoding of a member into a Go field: a missing one leaves the zero value. *)
Definition dec_text (o : option jv) : option string :=
  match o with None => Some "" | Some (JText s) => Some s | _ => None end.
Definition dec_int32 (o : option jv) : option Z :=
  match o with
  | None => Some 0
  | Some (JInt z) => if decide (in_int32 z) then Some z else None
  | _ => None
  end.
Definition dec_ptr {A} (dec : jv -> option A) (o : option jv) : option (option A) :=
  match o with None => Some None | Some v => Some <$> dec v end.
Definition dec_list {A} (dec : jv -> option A) (o : option jv) : option (list A) :=
  match o with None => Some [] | Some (JList l) => mapM dec l | _ => None end.
Definition dec_struct {A} (dec : list (string * jv) -> option A) (o : option jv) : option A :=
  match o with None => dec [] | Some (JMap ms) => dec ms | _ => None end.
Definition members (v : jv) : option (list (string * jv)) := match v with JMap ms => Some ms | _ => None end.

Class MetaJSON := {
  fmt_Duration : Z -> string;
  parse_Duration : string -> option Z;
  fmt_Time : Z -> string;
  parse_Time : string -> option Z;
  enc_Meta : ObjectMeta -> jv;
  dec_Meta : option jv -> option ObjectMeta;
  enc_Condition : Condition -> jv;
  dec_Condition : jv -> option Condition
}.

Section Encoding.
Context `{MJ : MetaJSON}.

(** A [metav1.Duration] field; structs are never empty, so it is always there. *)
Definition enc_Duration (d : Z) : option jv := Some (JText (fmt_Duration d)).
Definition dec_Duration (o : option jv) : option Z :=
  match o with None => Some 0 | Some (JText s) => parse_Duration s | _ => None end.
Definition enc_Time (t : Z) : jv := JText (fmt_Time t).
Definition dec_Time (v : jv) : option Z := match v with JText s => parse_Time s | _ => None end.

(** ** The tags *)

Definition enc_WorkloadRef (r : WorkloadRef) : jv :=
  JMap (fields [("kind", Some (JText (ref_Kind r))); ("name", Some (JText (ref_Name r)));
                ("namespace", omit_text (ref_Namespace r))]).
Definition dec_WorkloadRef (ms : list (string * jv)) : option WorkloadRef :=
  k ← dec_text (get "kind" ms); n ← dec_text (get "name" ms); ns ← dec_text (get "namespace" ms);
  Some (mkRef k n ns).

Definition enc_HealthCondition (c : HealthCondition) : jv :=
  JMap (fields [("minReadyPercent", omit_int (MinReadyPercent c)); ("window", enc_Duration (Window c));
                ("recoveryWindow", enc_Duration (RecoveryWindow c))]).
Definition dec_HealthCondition (ms : list (string * jv)) : option HealthCondition :=
  p ← dec_int32 (get "minReadyPercent" ms); w ← dec_Duration (get "window" ms);
  r ← dec_Duration (get "recoveryWindow" ms); Some (mkHealthCondition p w r).

Definition enc_DependsOnEntry (d : DependsOnEntry) : jv :=
  JMap (fields [("kind", Some (JText (dep_Kind d))); ("name", Some (JText (dep_Name d)));
                ("namespace", omit_text (dep_Namespace d));
                ("condition", Some (enc_HealthCondition (dep_Condition d)))]).
Definition dec_DependsOnEntry (v : jv) : option DependsOnEntry :=
  ms ← members v;
  k ← dec_text (get "kind" ms); n ← dec_text (get "name" ms); ns ← dec_text (get "namespace" ms);
  c ← dec_struct dec_HealthCondition (get "condition" ms); Some (mkDependsOn k n ns c).

Definition enc_OnDegraded (o : OnDegradedSpec) : jv :=
  JMap (fields [("action", omit_text (Action o)); ("maxSuspendDuration", enc_Duration (MaxSuspendDuration o))]).
Definition dec_OnDegraded (ms : list (string * jv)) : option OnDegradedSpec :=
  a ← dec_text (get "action" ms); d ← dec_Duration (get "maxSuspendDuration" ms); Some (mkOnDegraded a d).

Definition enc_SecretKeyRef (r : SecretKeyRef) : jv :=
  JMap (fields [("name", Some (JText (sk_Name r))); ("key", omit_text (sk_Key r))]).
Definition dec_SecretKeyRef (v : jv) : option SecretKeyRef :=
  ms ← members v; n ← dec_text (get "name" ms); k ← dec_text (get "key" ms); Some (mkSecretKeyRef n k).

Definition enc_Notify (n : NotifySpec) : jv :=
  JMap (fields [("webhook", omit_text (Webhook n)); ("webhookSecretRef", enc_SecretKeyRef <$> WebhookSecretRef n);
                ("onPhases", omit_list (JText <$> OnPhases n))]).
Definition dec_phase (v : jv) : option string := match v with JText s => Some s | _ => None end.
Definition dec_Notify (v : jv) : option NotifySpec :=
  ms ← members v; w ← dec_text (get "webhook" ms); r ← dec_ptr dec_SecretKeyRef (get "webhookSecretRef" ms);
  p ← dec_list dec_phase (get "onPhases" ms); Some (mkNotify w r p).

Definition enc_Spec (s : WorkloadDependencySpec) : jv :=
  JMap (fields [("dependent", Some (enc_WorkloadRef (Dependent s)));
                ("dependsOn", Some (JList (enc_DependsOnEntry <$> DependsOn s)));
                ("onDegraded", Some (enc_OnDegraded (OnDegraded s)));
                ("mode", omit_text (Mode s)); ("notify", enc_Notify <$> Notify s)]).
Definition dec_Spec (ms : list (string * jv)) : option WorkloadDependencySpec :=
  d ← dec_struct dec_WorkloadRef (get "dependent" ms);
  l ← dec_list dec_DependsOnEntry (get "dependsOn" ms);
  o ← dec_struct dec_OnDegraded (get "onDegraded" ms);
  m ← dec_text (get "mode" ms); n ← dec_ptr dec_Notify (get "notify" ms); Some (mkSpec d l o m n).

Definition dec_replicas (v : jv) : option Z := dec_int32 (Some v).
Definition enc_Status (st : WorkloadDependencyStatus) : jv :=
  JMap (fields [("phase", omit_text (Phase st)); ("savedReplicas", JInt <$> SavedReplicas st);
                ("degradedSince", enc_Time <$> DegradedSince st); ("suspendedAt", enc_Time <$> SuspendedAt st);
                ("healthySince", enc_Time <$> HealthySince st); ("message", omit_text (Message st));
                ("conditions", omit_list (enc_Condition <$> Conditions st))]).
Definition dec_Status (ms : list (string * jv)) : option WorkloadDependencyStatus :=
  p ← dec_text (get "phase" ms); r ← dec_ptr dec_replicas (get "savedReplicas" ms);
  d ← dec_ptr dec_Time (get "degradedSince" ms); s ← dec_ptr dec_Time (get "suspendedAt" ms);
  h ← dec_ptr dec_Time (get "healthySince" ms); m ← dec_text (get "message" ms);
  c ← dec_list dec_Condition (get "conditions" ms); Some (mkStatus p r d s h m c).

Definition zero_status : WorkloadDependencyStatus := mkStatus "" None None None None "" [].
Definition zero_meta : ObjectMeta := mkMeta "" "" "" 0 None ∅ [].

(** [omitzero] on metadata and status. *)
Definition enc_WD (wd : WorkloadDependency) : jv :=
  JMap (fields [("metadata", if decide (wd_Meta wd = zero_meta) then None else Some (enc_Meta (wd_Meta wd)));
                ("spec", Some (enc_Spec (wd_Spec wd)));
                ("status", if decide (wd_Status wd = zero_status) then None else Some (enc_Status (wd_Status wd)))]).
Definition dec_WD (v : jv) : option WorkloadDependency :=
  ms ← members v; m ← dec_Meta (get "metadata" ms); s ← dec_struct dec_Spec (get "spec" ms);
  st ← dec_struct dec_Status (get "status" ms); Some (mkWD m s st).
End Encoding.

(** ** Defaulting by the API server *)

Definition add_default (k : string) (d : jv) (ms : list (string * jv)) : list (string * jv) :=
  match get k ms with Some _ => ms | None => ms ++ [(k, d)] end.
Definition with_default (k : string) (d : jv) (v : jv) : jv :=
  match v with JMap ms => JMap (add_default k d ms) | _ => v end.
Definition map_member (k : string) (f : jv -> jv) (ms : list (string * jv)) : list (string * jv) :=
  (fun m : string * jv => (m.1, if String.eqb m.1 k then f m.2 else m.2)) <$> ms.
Definition at_key (k : string) (f : jv -> jv) (v : jv) : jv :=
  match v with JMap ms => JMap (map_member k f ms) | _ => v end.
Definition each (f : jv -> jv) (v : jv) : jv := match v with JList l => JList (f <$> l) | _ => v end.

(** The [+kubebuilder:default] markers, by type. *)
Definition default_HealthCondition (v : jv) : jv :=
  with_default "recoveryWindow" (JText "60s") (with_default "window" (JText "30s")
    (with_default "minReadyPercent" (JInt 100) v)).
Definition default_DependsOnEntry (v : jv) : jv := at_key "condition" default_HealthCondition v.
Definition default_OnDegraded (v : jv) : jv := with_default "action" (JText "ScaleToZero") v.
Definition default_SecretKeyRef (v : jv) : jv := with_default "key" (JText "url") v.
Definition default_Notify (v : jv) : jv := at_key "webhookSecretRef" default_SecretKeyRef v.
Definition default_Spec (v : jv) : jv :=
  with_default "mode" (JText "strict") (at_key "notify" default_Notify
    (at_key "onDegraded" default_OnDegraded (at_key "dependsOn" (each default_DependsOnEntry) v))).
Definition default_WD (v : jv) : jv := at_key "spec" default_Spec v.

(** ** What a write leaves *)

(** The range of times that RFC 3339 can write. *)
Definition storable (t : Z) : Prop := 0 <= t < 253402300800 * Second.

Definition or_default (s d : string) : string := if decide (s = "") then d else s.

Definition normal_HealthCondition (c : HealthCondition) : HealthCondition :=
  mkHealthCondition (if decide (MinReadyPercent c = 0) then 100 else MinReadyPercent c) (Window c) (RecoveryWindow c).
Definition normal_Entry (d : DependsOnEntry) : DependsOnEntry :=
  mkDependsOn (dep_Kind d) (dep_Name d) (dep_Namespace d) (normal_HealthCondition (dep_Condition d)).
Definition normal_Ref (r : SecretKeyRef) : SecretKeyRef := mkSecretKeyRef (sk_Name r) (or_default (sk_Key r) "url").
Definition normal_Notify (n : NotifySpec) : NotifySpec :=
  mkNotify (Webhook n) (normal_Ref <$> WebhookSecretRef n) (OnPhases n).
Definition normal_Spec (s : WorkloadDependencySpec) : WorkloadDependencySpec :=
  mkSpec (Dependent s) (normal_Entry <$> DependsOn s)
    (mkOnDegraded (or_default (Action (OnDegraded s)) ActionScaleToZero) (MaxSuspendDuration (OnDegraded s)))
    (or_default (Mode s) ModeStrict) (normal_Notify <$> Notify s).
Definition normal_Meta (m : ObjectMeta) : ObjectMeta :=
  mkMeta (om_Name m) (om_Namespace m) (om_ResourceVersion m) (om_Generation m)
    (trunc <$> om_DeletionTimestamp m) (om_Annotations m) (om_Finalizers m).
Definition normal_wd (wd : WorkloadDependency) : WorkloadDependency :=
  mkWD (normal_Meta (wd_Meta wd)) (normal_Spec (wd_Spec wd)) (normal_Status (wd_Status wd)).

(** The documented behaviour of apimachinery's encodings. *)
Class MetaJSONLaws `{MJ : MetaJSON} : Prop := {
  duration_roundtrip d : in_int64 d -> parse_Duration (fmt_Duration d) = Some d;
  time_roundtrip t : storable t -> parse_Time (fmt_Time t) = Some (trunc t);
  meta_absent : dec_Meta None = Some zero_meta;
  meta_roundtrip m : (forall t, om_DeletionTimestamp m = Some t -> storable t) ->
    dec_Meta (Some (enc_Meta m)) = Some (normal_Meta m);
  condition_roundtrip c : storable (c_LastTransitionTime c) -> dec_Condition (enc_Condition c) = Some (normal_Cond c)
}.

(** All times of the object can be written. *)
Definition storable_opt (o : option Z) : Prop := match o with Some t => storable t | None => True end.
Definition storable_wd (wd : WorkloadDependency) : Prop :=
  storable_opt (om_DeletionTimestamp (wd_Meta wd)) /\
  storable_opt (DegradedSince (wd_Status wd)) /\ storable_opt (SuspendedAt (wd_Status wd)) /\
  storable_opt (HealthySince (wd_Status wd)) /\
  Forall (fun c => storable (c_LastTransitionTime c)) (Conditions (wd_Status wd)).

(** *** Looking up what was encoded *)

Lemma get_fields k l : get k (fields l) = assoc k l.
Proof.
  induction l as [|[k' o] l IH]; [done|]. unfold fields in *. cbn [omap list_omap assoc].
  destruct o as [v|]; cbn; [|by destruct (String.eqb k' k)]. by destruct (String.eqb k' k).
Qed.

Lemma get_app k ms ms' : get k (ms ++ ms') = match get k ms with Some v => Some v | None => get k ms' end.
Proof. induction ms as [|[k' v] ms IH]; [done|]. cbn. by destruct (String.eqb k' k). Qed.

Lemma get_map_member k k0 f ms :
  get k (map_member k0 f ms) = (if String.eqb k k0 then f else id) <$> get k ms.
Proof.
  unfold map_member. induction ms as [|[k' v] ms IH]; [done|]. cbn. destruct (String.eqb k' k) eqn:E; [|done].
  apply String.eqb_eq in E as ->. cbn. by destruct (String.eqb k k0).
Qed.

Lemma opt_eta {A} (o : option A) : match o with Some v => Some v | None => None end = o.
Proof. by destruct o. Qed.

(** The member if it is there, or else the default. *)
Lemma get_add_default k k' d ms :
  get k (add_default k' d ms) =
  match get k ms with Some v => Some v | None => if String.eqb k' k then Some d else None end.
Proof.
  unfold add_default. destruct (get k' ms) as [v'|] eqn:E; [|by rewrite get_app].
  destruct (get k ms) eqn:Ek; [done|]. destruct (String.eqb k' k) eqn:Eq; [|done].
  apply String.eqb_eq in Eq as ->. congruence.
Qed.

Section RoundTrip.
Context `{MJ : MetaJSON} `{ML : !MetaJSONLaws}.

Lemma dec_omit_text s : dec_text (omit_text s) = Some s.
Proof. unfold omit_text. by case_decide; subst. Qed.

Lemma dec_default_text s d : dec_text (match omit_text s with Some v => Some v | None => Some (JText d) end) = Some (or_default s d).
Proof. unfold omit_text, or_default. by case_decide. Qed.

Lemma dec_default_int z d : in_int32 z -> in_int32 d ->
  dec_int32 (match omit_int z with Some v => Some v | None => Some (JInt d) end) =
  Some (if decide (z = 0) then d else z).
Proof. intros Hz Hd. unfold omit_int. case_decide; simpl; by rewrite decide_True. Qed.

(** Reduce a decoding: look up every member, then apply the codecs. *)
Ltac look := rewrite ?get_add_default, ?get_map_member, ?get_fields;
  cbn [assoc String.eqb Ascii.eqb Bool.eqb andb fmap option_fmap option_map id enc_Duration];
  rewrite ?opt_eta, ?option_fmap_id, ?dec_default_text, ?dec_omit_text.

Lemma HealthCondition_roundtrip c : schema_condition c ->
  dec_struct dec_HealthCondition (Some (default_HealthCondition (enc_HealthCondition c))) =
  Some (normal_HealthCondition c).
Proof.
  intros (Hp & Hw & Hr). unfold default_HealthCondition, enc_HealthCondition, with_default.
  cbn [dec_struct]. unfold dec_HealthCondition. look.
  rewrite dec_default_int by (unfold in_int32; lia). cbn. rewrite !duration_roundtrip by done. done.
Qed.

Lemma Entry_roundtrip d : schema_condition (dep_Condition d) ->
  dec_DependsOnEntry (default_DependsOnEntry (enc_DependsOnEntry d)) = Some (normal_Entry d).
Proof.
  intros Hc. unfold default_DependsOnEntry, enc_DependsOnEntry, at_key, dec_DependsOnEntry.
  cbn [members mbind option_bind]. look. rewrite HealthCondition_roundtrip by done.
  done.
Qed.

Lemma entries_roundtrip ds : Forall (fun d => schema_condition (dep_Condition d)) ds ->
  mapM dec_DependsOnEntry (default_DependsOnEntry <$> (enc_DependsOnEntry <$> ds)) = Some (normal_Entry <$> ds).
Proof.
  intros Hs. rewrite mapM_Some. rewrite <- list_fmap_compose. apply Forall2_fmap, Forall_Forall2_diag.
  eapply List.Forall_impl; [|exact Hs]. intros d Hd. by apply Entry_roundtrip.
Qed.

Lemma OnDegraded_roundtrip o : in_int64 (MaxSuspendDuration o) ->
  dec_struct dec_OnDegraded (Some (default_OnDegraded (enc_OnDegraded o))) =
  Some (mkOnDegraded (or_default (Action o) ActionScaleToZero) (MaxSuspendDuration o)).
Proof.
  intros Hd. unfold default_OnDegraded, enc_OnDegraded, with_default. cbn [dec_struct]. unfold dec_OnDegraded. look.
  cbn. by rewrite duration_roundtrip.
Qed.

Lemma phases_roundtrip (l : list string) : dec_list dec_phase (omit_list (JText <$> l)) = Some l.
Proof.
  assert (mapM dec_phase (JText <$> l) = Some l) as Hm by (induction l as [|s l IH]; [done|]; cbn; by rewrite IH).
  destruct l; [done|exact Hm].
Qed.

Lemma Notify_roundtrip n : dec_Notify (default_Notify (enc_Notify n)) = Some (normal_Notify n).
Proof.
  unfold default_Notify, enc_Notify, at_key, dec_Notify. cbn [members mbind option_bind]. look.
  rewrite phases_roundtrip. destruct n as [w [[rn rk]|] ps]; [|done]. cbn [WebhookSecretRef fmap option_fmap option_map dec_ptr].
  unfold default_SecretKeyRef, enc_SecretKeyRef, with_default, dec_SecretKeyRef. cbn [members mbind option_bind].
  look. done.
Qed.

Lemma Spec_roundtrip s : schema_spec s ->
  dec_struct dec_Spec (Some (default_Spec (enc_Spec s))) = Some (normal_Spec s).
Proof.
  intros (_ & Hd & _ & Hm & _). unfold default_Spec, enc_Spec, with_default, at_key. cbn [dec_struct].
  unfold dec_Spec. look. cbn [each dec_list]. rewrite entries_roundtrip by done. rewrite OnDegraded_roundtrip by done.
  assert (dec_struct dec_WorkloadRef (Some (enc_WorkloadRef (Dependent s))) = Some (Dependent s)) as ->.
  { unfold enc_WorkloadRef. cbn [dec_struct]. unfold dec_WorkloadRef. look. by destruct (Dependent s). }
  cbn [mbind option_bind]. destruct (Notify s) as [n|] eqn:Hn; unfold normal_Spec; rewrite Hn; [|done].
  cbn [fmap option_fmap option_map dec_ptr]. by rewrite Notify_roundtrip.
Qed.

Lemma time_ptr_roundtrip o : storable_opt o -> dec_ptr dec_Time (enc_Time <$> o) = Some (trunc <$> o).
Proof. intros Ho. destruct o as [t|]; [|done]. cbn. by rewrite time_roundtrip. Qed.

Lemma conditions_roundtrip cs : Forall (fun c => storable (c_LastTransitionTime c)) cs ->
  dec_list dec_Condition (omit_list (enc_Condition <$> cs)) = Some (normal_Cond <$> cs).
Proof.
  intros Hs. assert (mapM dec_Condition (enc_Condition <$> cs) = Some (normal_Cond <$> cs)) as Hm.
  { rewrite mapM_Some. apply Forall2_fmap, Forall_Forall2_diag. eapply List.Forall_impl; [|exact Hs].
    intros c Hc. by apply condition_roundtrip. }
  destruct cs; [done|exact Hm].
Qed.

Lemma Status_roundtrip wd : schema_wd wd -> storable_wd wd ->
  dec_struct dec_Status (Some (enc_Status (wd_Status wd))) = Some (normal_Status (wd_Status wd)).
Proof.
  intros [_ (_ & Hr & _)] (_ & H1 & H2 & H3 & Hc). unfold enc_Status. cbn [dec_struct]. unfold dec_Status. look.
  rewrite !time_ptr_roundtrip by done. rewrite conditions_roundtrip by done.
  destruct (wd_Status wd) as [p [r|] d s h m cs]; cbn in *; [|done]. by rewrite decide_True.
Qed.

Lemma wd_roundtrip wd : schema_wd wd -> storable_wd wd -> dec_WD (default_WD (enc_WD wd)) = Some (normal_wd wd).
Proof.
  intros Hs Ht. unfold default_WD, enc_WD, at_key, dec_WD. cbn [members mbind option_bind]. look.
  rewrite Spec_roundtrip by apply Hs.
  assert (dec_Meta (if decide (wd_Meta wd = zero_meta) then None else Some (enc_Meta (wd_Meta wd))) =
    Some (normal_Meta (wd_Meta wd))) as ->.
  { case_decide as Hz; [rewrite Hz; apply meta_absent|]. apply meta_roundtrip. intros t Hd.
    destruct Ht as [Ht _]. by rewrite Hd in Ht. }
  assert (dec_struct dec_Status (if decide (wd_Status wd = zero_status) then None else Some (enc_Status (wd_Status wd))) =
    Some (normal_Status (wd_Status wd))) as ->; [|done].
  case_decide as Hz; [by rewrite Hz|by apply Status_roundtrip].
Qed.
End RoundTrip.

(** ** The normal form keeps the meaning *)

Lemma or_default_idem s d : d <> "" -> or_default (or_default s d) d = or_default s d.
Proof. intros Hd. unfold or_default. by repeat case_decide. Qed.

Lemma storable_trunc t : storable t -> storable (trunc t).
Proof.
  unfold storable, trunc. intros [H0 H1]. split.
  - apply Z.mul_nonneg_nonneg; [by apply Z.div_pos|done].
  - pose proof (Z.mul_div_le t Second ltac:(done)). lia.
Qed.

Lemma normal_condition_idem c : normal_HealthCondition (normal_HealthCondition c) = normal_HealthCondition c.
Proof. unfold normal_HealthCondition; cbn. by repeat case_decide. Qed.

Lemma normal_wd_idem wd : normal_wd (normal_wd wd) = normal_wd wd.
Proof.
  unfold normal_wd, normal_Meta, normal_Spec, normal_Status. cbn. rewrite !trunc_fmap_idem, !or_default_idem by done.
  rewrite !fmap_idem.
  - f_equal. f_equal. destruct (Notify (wd_Spec wd)) as [[w [r|] ps]|]; [|done..].
    unfold normal_Notify, normal_Ref. cbn. by rewrite or_default_idem.
  - intros c. unfold normal_Cond. cbn. by rewrite trunc_idem.
  - intros d. unfold normal_Entry. cbn. by rewrite normal_condition_idem.
Qed.

Lemma normal_wd_schema wd : schema_wd wd -> schema_wd (normal_wd wd).
Proof.
  intros [(Hk & Hd & Ha & Hm & Hmo & Hn) (Hp & Hr & Hc)]. split.
  - split; [done|]. split.
    { apply Forall_fmap. eapply List.Forall_impl; [|exact Hd]. intros d (H1 & H2 & H3).
      split; [|done]. cbn. case_decide; lia. }
    split; [cbn; unfold or_default; case_decide; [by right; left|done]|]. split; [done|].
    split; [cbn; unfold or_default; case_decide; [by right; left|done]|].
    cbn. by destruct (Notify (wd_Spec wd)).
  - split; [done|]. split; [done|]. cbn. by rewrite <- list_fmap_compose.
Qed.

Lemma normal_wd_storable wd : storable_wd wd -> storable_wd (normal_wd wd).
Proof.
  assert (forall o, storable_opt o -> storable_opt (trunc <$> o)) as Ho.
  { intros [t|]; [apply storable_trunc|done]. }
  intros (H0 & H1 & H2 & H3 & Hc). split_and!; try (by apply Ho).
  apply Forall_fmap. eapply List.Forall_impl; [|exact Hc]. intros c. apply storable_trunc.
Qed.

Lemma minPercent_normal c : minPercent (normal_HealthCondition c) = minPercent c.
Proof. unfold minPercent, normal_HealthCondition. cbn. by repeat case_decide. Qed.

Lemma range_errs_normal f i ds : (forall i d, f i (normal_Entry d) = f i d) ->
  range_errs f i (normal_Entry <$> ds) = range_errs f i ds.
Proof. intros Hf. revert i. induction ds as [|d ds IH]; intros i; [done|]. cbn. by rewrite Hf, IH. Qed.

Lemma validateWD_normal wd : validateWD (normal_wd wd) = validateWD wd.
Proof.
  unfold validateWD. cbn. rewrite !range_errs_normal by done.
  destruct (DependsOn (wd_Spec wd)); destruct (Notify (wd_Spec wd)) as [[w [r|] ps]|]; done.
Qed.

Section Meaning.
Context `{UL : UnstructuredLib} `{GP : GoPlatform} {W : Type} `{KC : !KubeClient W}.

Lemma depStatus_normal w c ns : (depStatus w (normal_HealthCondition c) ns : MW W _) = depStatus w c ns.
Proof. unfold depStatus. by rewrite minPercent_normal. Qed.

Lemma maybeNotify_normal wd prev phase :
  (maybeNotify (normal_wd wd) prev phase : MW W unit) = maybeNotify wd prev phase.
Proof.
  destruct wd as [m [dt ds od mo [[u [[n k]|] ps]|]] st]; [|done..].
  unfold maybeNotify, resolveWebhookURL, normal_wd. cbn. unfold or_default.
  destruct (decide (k = "")) as [-> |Hk]; [done|]. by rewrite decide_False.
Qed.
End Meaning.

Section WireTheorem.
Context `{MJ : MetaJSON} `{ML : !MetaJSONLaws} `{UL : UnstructuredLib} `{GP : GoPlatform} {W : Type} `{KC : !KubeClient W}.

(** C35: writing an object to the API server and reading it back.  For every object
    of the schema whose times RFC 3339 can write, the encoding by the field tags,
    the server's defaulting and the decoding give the object's normal form: times
    to the second, and the defaults in the fields that [omitempty] dropped.  The
    normal form is a fixed point of a further write, is of the schema again, and
    means the same to klink: every dependency has the same status under it, the two
    windows are the same, the same notifications are sent, and the validator reports
    the same errors.  In particular a [minReadyPercent] of 0 and a Secret key of the
    empty string come back as 100 and url, which is how the code reads them. *)
Theorem wire_roundtrip wd : schema_wd wd -> storable_wd wd ->
  dec_WD (default_WD (enc_WD wd)) = Some (normal_wd wd) /\
  dec_WD (default_WD (enc_WD (normal_wd wd))) = Some (normal_wd wd) /\
  schema_wd (normal_wd wd) /\
  Forall2 (fun d d' => dep_ns (normal_wd wd) d' = dep_ns wd d /\
      forall w ns, (depStatus w (dep_Condition d') ns : MW W _) = depStatus w (dep_Condition d) ns)
    (DependsOn (wd_Spec wd)) (DependsOn (wd_Spec (normal_wd wd))) /\
  degradedWindow (normal_wd wd) = degradedWindow wd /\ recoveryWindow (normal_wd wd) = recoveryWindow wd /\
  (forall prev phase, (maybeNotify (normal_wd wd) prev phase : MW W unit) = maybeNotify wd prev phase) /\
  validateWD (normal_wd wd) = validateWD wd.
Proof.
  intros Hs Ht. split; [by apply wd_roundtrip|].
  split; [rewrite wd_roundtrip, normal_wd_idem by (auto using normal_wd_schema, normal_wd_storable); done|].
  split; [by apply normal_wd_schema|].
  split.
  { cbn. apply Forall2_fmap_r, Forall_Forall2_diag, List.Forall_forall. intros d _. split; [done|].
    intros w ns. apply depStatus_normal. }
  split_and!; [..|intros; apply maybeNotify_normal|apply validateWD_normal].
  all: unfold degradedWindow, recoveryWindow; cbn; by rewrite <- list_fmap_compose.
Qed.
End WireTheorem.
