(* ===== verification/Gate.v ===== *)
(** * The scale-up gate (internal/webhook/gate.go)

    The admission handler that denies scaling a workload up while a dependency
    of a gate-mode WorkloadDependency is not healthy, and fails open otherwise. *)

From S2P Require Import Prelude Types GoFloat Cluster Workload Health Safety Admission.
From Stdlib Require Import SpecFloat.

(** ** Replicas of a raw object *)

Section Replicas.
Context `{GP : GoPlatform} `{CD : Codec}.

(** [extractReplicas]; a missing object has no replicas. *)
Definition extractReplicas (raw : option string) (kind : string) : result Z :=
  match raw with
  | None => Ok 0
  | Some bytes =>
      match Unmarshal_map bytes with
      | Err e => Err e
      | Ok obj =>
          let spec := object_member "spec" obj in
          if decide (kind = "CronJob") then
            match member "suspend" spec with
            | Some (JBool true) => Ok 0
            | _ => Ok 1
            end
          else
            match member "replicas" spec with
            | Some (JNum r) => Ok (int32_of_float64 r)
            | _ => Ok 1
            end
      end
  end.

(** [checkReplicaHealth]: the verdict and the message. *)
Definition checkReplicaHealth (desired : option Z) (ready : Z) (cond : HealthCondition)
    (name : string) : bool * string :=
  let zero := (false, name +:+ " has 0 desired replicas") in
  match desired with
  | None => zero
  | Some d =>
      if decide (d = 0) then zero
      else
        let pct := readyPercent ready d in
        if pct <? minPercent cond then
          (false, fmt_d ready +:+ "/" +:+ fmt_d d +:+ " ready (" +:+ fmt_d pct +:+ "% < " +:+
                  fmt_d (minPercent cond) +:+ "%)")
        else (true, "")
  end.
End Replicas.

(** ** Responses *)

Definition allow : AdmissionResponse := mkResponse "" true 200 "" "".
Definition deny (reason : string) : AdmissionResponse := mkResponse "" false 403 reason "Forbidden".

Section Gate.
Context `{UL : UnstructuredLib} `{GP : GoPlatform} `{CD : Codec} {W : Type} `{KC : !KubeClient W}.

Definition isDependencyHealthy (kind name ns : string) (cond : HealthCondition)
    : MW W (result (bool * string)) :=
  let key := mkNN ns name in
  if decide (kind = "Rollout") then
    r ← client_GetRollout key;
    match r with
    | Err e => mret (Err e)
    | Ok obj =>
        let '(phase, _, _) := NestedString obj ["status"; "phase"] in
        if decide (phase = "Healthy" \/ phase = "Progressing" \/ phase = "Paused")
        then mret (Ok (true, ""))
        else mret (Ok (false, "phase=" +:+ phase))
    end
  else if decide (kind = "StatefulSet") then
    r ← client_GetStatefulSet key;
    match r with
    | Err e => mret (Err e)
    | Ok sts => mret (Ok (checkReplicaHealth (ss_Replicas sts) (ss_ReadyReplicas sts) cond name))
    end
  else
    r ← client_GetDeployment key;
    match r with
    | Err e => mret (Err e)
    | Ok dep => mret (Ok (checkReplicaHealth (dp_Replicas dep) (dp_ReadyReplicas dep) cond name))
    end.

Definition deny_reason (wd : WorkloadDependency) (dep : DependsOnEntry) (msg : string) : string :=
  "klink gate: scale blocked by WorkloadDependency/" +:+ wd_Name wd +:+ " — dependency " +:+
  dep_Kind dep +:+ "/" +:+ dep_Name dep +:+ " is not healthy: " +:+ msg.

(** The inner loop over [wd.Spec.DependsOn]: a denial, or on to the next. *)
Fixpoint check_deps (wd : WorkloadDependency) (deps : list DependsOnEntry)
    : MW W (option AdmissionResponse) :=
  match deps with
  | [] => mret None
  | dep :: deps' =>
      r ← isDependencyHealthy (dep_Kind dep) (dep_Name dep) (dep_ns wd dep) (dep_Condition dep);
      match r with
      | Err _ => check_deps wd deps'
      | Ok (healthy, msg) =>
          if negb healthy then mret (Some (deny (deny_reason wd dep msg)))
          else check_deps wd deps'
      end
  end.

(** [wd] is in gate mode and its dependent is the workload of the request. *)
Definition applies (req : AdmissionRequest) (wd : WorkloadDependency) : bool :=
  bool_decide (Mode (wd_Spec wd) = ModeGate) &&
  negb (negb (bool_decide (ref_Kind (Dependent (wd_Spec wd)) = ar_Kind req)) ||
        negb (bool_decide (ref_Name (Dependent (wd_Spec wd)) = ar_Name req)) ||
        negb (bool_decide (dependent_ns wd = ar_Namespace req))).

(** The outer loop over the listed WorkloadDependencies. *)
Fixpoint check_wds (req : AdmissionRequest) (items : list WorkloadDependency)
    : MW W AdmissionResponse :=
  match items with
  | [] => mret allow
  | wd :: items' =>
      if applies req wd then
        d ← check_deps wd (DependsOn (wd_Spec wd));
        match d with
        | Some resp => mret resp
        | None => check_wds req items'
        end
      else check_wds req items'
  end.

Definition gate_validate (req : AdmissionRequest) : MW W AdmissionResponse :=
  if decide (ar_Operation req = Create) then mret allow
  else
    match extractReplicas (ar_Object req) (ar_Kind req) with
    | Err _ => mret allow
    | Ok newReplicas =>
        let oldReplicas :=
          match extractReplicas (ar_OldObject req) (ar_Kind req) with Ok n => n | Err _ => 0 end in
        if newReplicas <=? oldReplicas then mret allow
        else
          l ← client_ListWDs (InNamespace (ar_Namespace req));
          match l with
          | Err _ => mret allow
          | Ok items => check_wds req items
          end
    end.

(** [ServeHTTP], from the body read (or not).  A review without a request makes
    [validate] dereference nil; the recovered panic becomes a 500. *)
Definition gate_ServeHTTP (body : result string) : MW W HttpReply :=
  match body with
  | Err _ => mret (HttpError 400 "failed to read body")
  | Ok b =>
      match Decode_review b with
      | Err _ => mret (HttpError 400 "failed to decode admission review")
      | Ok None => mret (HttpError 500 "internal server error")
      | Ok (Some req) =>
          resp ← gate_validate req;
          mret (HttpReview req (with_UID (ar_UID req) resp))
      end
  end.
End Gate.

(** ** The verdict as a function of what was fetched *)

Section GateSpec.
Context `{UL : UnstructuredLib} `{GP : GoPlatform} `{CD : Codec} {W : Type} `{KC : !KubeClient W}.

(** The gate's view of a fetched workload. *)
Definition gate_healthy (x : workloadAccessor) (cond : HealthCondition) : bool :=
  match x with
  | rolloutAccessor u => isHealthyAsDependency u
  | statefulSetAccessor s => (checkReplicaHealth (ss_Replicas s) (ss_ReadyReplicas s) cond "").1
  | deploymentAccessor d => (checkReplicaHealth (dp_Replicas d) (dp_ReadyReplicas d) cond "").1
  | cronJobAccessor _ => false
  end.

(** The call that answers [isDependencyHealthy]: CronJobs are looked up as Deployments. *)
Definition gate_kind (kind : string) : string :=
  if decide (kind = "CronJob") then "Deployment" else kind.

Lemma checkReplicaHealth_verdict desired ready cond n1 n2 :
  (checkReplicaHealth desired ready cond n1).1 = (checkReplicaHealth desired ready cond n2).1.
Proof.
  unfold checkReplicaHealth. destruct desired as [d|]; [|done]. by repeat case_match.
Qed.

Lemma isDependencyHealthy_spec kind name ns cond :
  (isDependencyHealthy kind name ns cond : MW W _) ⊨ fun r tr =>
    match r with
    | Err e => tr = [fetch_failed (gate_kind kind) (mkNN ns name) e]
    | Ok (h, _) => exists x, tr = [fetched (mkNN ns name) x] /\ h = gate_healthy x cond /\
        (forall c, x <> cronJobAccessor c)
    end.
Proof.
  unfold isDependencyHealthy, fetch_failed, gate_kind, client_GetRollout, client_GetStatefulSet,
    client_GetDeployment.
  destruct (decide (kind = "Rollout")) as [->|Hr];
    [|destruct (decide (kind = "StatefulSet")) as [->|Hs]].
  - apply tspec_bind_interact. intros [u|e]; [|by apply tspec_ret].
    destruct (NestedString u ["status"; "phase"]) as [[phase fo] er] eqn:Hn.
    assert (isHealthyAsDependency u = bool_decide (phase = "Healthy" \/ phase = "Progressing" \/ phase = "Paused")) as Hh.
    { unfold isHealthyAsDependency, rollout_phase. rewrite Hn. apply eq_bool_prop_intro.
      rewrite !orb_True, !bool_decide_spec.
      unfold rolloutPhaseHealthy, rolloutPhaseProgressing, rolloutPhasePaused. tauto. }
    destruct (decide _) as [Hd|Hd]; apply tspec_ret; exists (rolloutAccessor u);
      (split; [done|]); (split; [|done]); simpl; rewrite Hh.
    + by rewrite bool_decide_eq_true_2.
    + by rewrite bool_decide_eq_false_2.
  - apply tspec_bind_interact. intros [s|e]; apply tspec_ret; [|done].
    destruct (checkReplicaHealth _ _ _ _) as [h m] eqn:Hc. exists (statefulSetAccessor s).
    split; [done|]. split; [|done]. simpl.
    by rewrite (checkReplicaHealth_verdict _ _ _ "" name), Hc.
  - apply tspec_bind_interact. intros [d|e]; apply tspec_ret.
    + destruct (checkReplicaHealth _ _ _ _) as [h m] eqn:Hc. exists (deploymentAccessor d).
      split; [done|]. split; [|done]. simpl.
      by rewrite (checkReplicaHealth_verdict _ _ _ "" name), Hc.
    + destruct (decide (kind = "CronJob")); [done|]. by rewrite !decide_False.
Qed.

(** Evidence about one dependency of a gate-mode WorkloadDependency. *)
Definition seen_unhealthy (wd : WorkloadDependency) (dep : DependsOnEntry) (tr : list Eff) : Prop :=
  exists x, fetched (dep_key wd dep) x ∈ tr /\ gate_healthy x (dep_Condition dep) = false.
Definition seen_healthy_or_failed (wd : WorkloadDependency) (dep : DependsOnEntry) (tr : list Eff) : Prop :=
  (exists x, fetched (dep_key wd dep) x ∈ tr /\ gate_healthy x (dep_Condition dep) = true) \/
  (exists e, fetch_failed (gate_kind (dep_Kind dep)) (dep_key wd dep) e ∈ tr).

Lemma seen_fine_mono wd dep (tr tr' : list Eff) :
  tr ⊆ tr' -> seen_healthy_or_failed wd dep tr -> seen_healthy_or_failed wd dep tr'.
Proof.
  intros Hs [(x & Hx & ?)|(e & He)]; [left; exists x|right; exists e]; [split; [|done]|]; by apply Hs.
Qed.

Definition deps_outcome (wd : WorkloadDependency) (deps : list DependsOnEntry)
    (r : option AdmissionResponse) (tr : list Eff) : Prop :=
  Forall (fun e => is_read e) tr /\
  match r with
  | Some resp => exists dep msg, dep ∈ deps /\ seen_unhealthy wd dep tr /\
      resp = deny (deny_reason wd dep msg)
  | None => forall dep, dep ∈ deps -> seen_healthy_or_failed wd dep tr
  end.

(** A dependency that does not deny leaves the decision to the rest. *)
Lemma deps_outcome_cons wd dep deps r tr1 tr2 :
  Forall (fun e => is_read e) tr1 -> seen_healthy_or_failed wd dep tr1 ->
  deps_outcome wd deps r tr2 -> deps_outcome wd (dep :: deps) r (tr1 ++ tr2).
Proof.
  intros Hr Hd [Hr2 Ho]. split; [by apply Forall_app_2|]. destruct r as [resp|].
  - destruct Ho as (dep' & msg & Hin & (x & Hx & Hu) & ->). exists dep', msg.
    split; [by right|]. split; [|done]. exists x. split; [|done]. apply elem_of_app. by right.
  - intros dep' [->|Hin]%elem_of_cons.
    + eapply seen_fine_mono; [|exact Hd]. intros e He. apply elem_of_app. by left.
    + eapply seen_fine_mono; [|by apply Ho]. intros e He. apply elem_of_app. by right.
Qed.

Lemma check_deps_spec wd deps : (check_deps wd deps : MW W _) ⊨ deps_outcome wd deps.
Proof.
  induction deps as [|dep deps IH]; cbn [check_deps].
  { apply tspec_ret. split; [done|]. by intros dep ?%not_elem_of_nil. }
  eapply tspec_bind; [apply isDependencyHealthy_spec|]. fold (dep_key wd dep).
  intros [[h msg]|e] tr Hr.
  - destruct Hr as (x & -> & -> & _).
    assert (Forall (fun e => is_read e) [fetched (dep_key wd dep) x]) as Hread
      by (constructor; [by rewrite fetched_read|done]).
    destruct (gate_healthy x (dep_Condition dep)) eqn:Hg; simpl negb; cbv iota.
    + eapply tspec_mono; [apply IH|]. intros r tr'. apply deps_outcome_cons; [done|].
      left. exists x. split; [left|done].
    + apply tspec_ret. rewrite app_nil_r. split; [done|]. exists dep, msg. split; [left|].
      split; [|done]. exists x. split; [left|done].
  - subst tr. eapply tspec_mono; [apply IH|]. intros r tr'. apply deps_outcome_cons.
    + constructor; [by rewrite fetch_failed_read|done].
    + right. exists e. left.
Qed.

(** [wd] gates the workload of the request: it is in gate mode, and its dependent,
    looked for in its own namespace unless it names one, is that workload. *)
Record gated (req : AdmissionRequest) (wd : WorkloadDependency) : Prop := {
  gd_mode : Mode (wd_Spec wd) = ModeGate;
  gd_kind : ref_Kind (Dependent (wd_Spec wd)) = ar_Kind req;
  gd_name : ref_Name (Dependent (wd_Spec wd)) = ar_Name req;
  gd_namespace : ref_Namespace (Dependent (wd_Spec wd)) = ar_Namespace req /\ ar_Namespace req <> "" \/
                 ref_Namespace (Dependent (wd_Spec wd)) = "" /\ wd_Namespace wd = ar_Namespace req
}.

Lemma applies_gated req wd : applies req wd = true <-> gated req wd.
Proof.
  unfold applies. rewrite andb_true_iff, negb_true_iff, !orb_false_iff, !negb_false_iff, !bool_decide_eq_true.
  unfold dependent_ns, ns_or. split.
  - intros (Hm & (Hk & Hn) & Hns). split; [done..|]. case_decide as He; [by right|]. left. by rewrite <- Hns.
  - intros [Hm Hk Hn Hns]. split; [done|]. split; [done|].
    destruct Hns as [[-> He]|[-> Hw]]; [by rewrite decide_False|by rewrite decide_True].
Qed.

Definition wds_outcome (req : AdmissionRequest) (items : list WorkloadDependency)
    (resp : AdmissionResponse) (tr : list Eff) : Prop :=
  Forall (fun e => is_read e) tr /\
  ((exists wd dep msg, wd ∈ items /\ gated req wd /\ dep ∈ DependsOn (wd_Spec wd) /\
      seen_unhealthy wd dep tr /\ resp = deny (deny_reason wd dep msg)) \/
   (resp = allow /\ forall wd dep, wd ∈ items -> gated req wd ->
      dep ∈ DependsOn (wd_Spec wd) -> seen_healthy_or_failed wd dep tr)).

Lemma check_wds_spec req items : (check_wds req items : MW W _) ⊨ wds_outcome req items.
Proof.
  induction items as [|wd items IH]; cbn [check_wds].
  { apply tspec_ret. split; [done|]. right. split; [done|]. by intros wd dep ?%not_elem_of_nil. }
  destruct (applies req wd) eqn:Ha.
  2: { eapply tspec_mono; [exact IH|]. intros resp tr [Hr Ho]. split; [done|].
       destruct Ho as [(wd' & dep & msg & ? & Hrest)|[-> Hall]]; [left|right].
       - exists wd', dep, msg. split; [by right|done].
       - split; [done|]. intros wd' dep [->|?]%elem_of_cons Hg; [|by apply Hall].
         apply applies_gated in Hg. congruence. }
  apply applies_gated in Ha.
  eapply tspec_bind; [apply check_deps_spec|]. intros [resp|] tr [Hr Ho].
  - apply tspec_ret. rewrite app_nil_r. split; [done|]. left.
    destruct Ho as (dep & msg & ? & ? & ?). exists wd, dep, msg. split; [left|done].
  - eapply tspec_mono; [exact IH|]. intros resp tr' [Hr' Ho']. split; [by apply Forall_app_2|].
    destruct Ho' as [(wd' & dep & msg & ? & ? & ? & (x & Hx & Hg) & ->)|[-> Hall]]; [left|right].
    + exists wd', dep, msg. split; [by right|]. do 2 (split; [done|]). split; [|done].
      exists x. split; [|done]. apply elem_of_app. by right.
    + split; [done|]. intros wd' dep [->|Hin]%elem_of_cons Hap Hdep.
      * eapply seen_fine_mono; [|by apply Ho]. intros e He. apply elem_of_app. by left.
      * eapply seen_fine_mono; [|by apply (Hall wd')]. intros e He. apply elem_of_app. by right.
Qed.

(** The request raises the scale of an existing workload. *)
Definition scale_up (req : AdmissionRequest) : bool :=
  negb (bool_decide (ar_Operation req = Create)) &&
  match extractReplicas (ar_Object req) (ar_Kind req) with
  | Err _ => false
  | Ok n => match extractReplicas (ar_OldObject req) (ar_Kind req) with
            | Ok old => old <? n
            | Err _ => 0 <? n
            end
  end.

Lemma gate_validate_spec req :
  (gate_validate req : MW W _) ⊨ fun resp tr =>
    if scale_up req then
      exists lr rest, tr = EvListWDs (InNamespace (ar_Namespace req)) lr :: rest /\
        match lr with
        | Err _ => resp = allow /\ rest = []
        | Ok items => wds_outcome req items resp rest
        end
    else resp = allow /\ tr = [].
Proof.
  unfold gate_validate, scale_up, client_ListWDs.
  destruct (decide (ar_Operation req = Create)) as [Hc|Hc];
    [rewrite bool_decide_eq_true_2 by done; by apply tspec_ret|].
  rewrite bool_decide_eq_false_2 by done. cbn [negb andb].
  destruct (extractReplicas (ar_Object req) (ar_Kind req)) as [n|e]; [|by apply tspec_ret].
  set (old := match extractReplicas (ar_OldObject req) (ar_Kind req) with Ok n => n | Err _ => 0 end).
  assert (match extractReplicas (ar_OldObject req) (ar_Kind req) with
          | Ok old => old <? n | Err _ => 0 <? n end = negb (n <=? old)) as ->.
  { unfold old. by destruct (extractReplicas _ _); rewrite Z.ltb_antisym. }
  destruct (n <=? old); cbn [negb]; [by apply tspec_ret|].
  apply tspec_bind_interact. intros [items|e]; [|apply tspec_ret; by do 2 eexists].
  eapply tspec_mono; [apply check_wds_spec|]. intros resp tr Ho. by exists (Ok items), tr.
Qed.

(** The decision the gate owes on a request, given what it read: a request that
    does not raise the scale of an existing workload is allowed without a call; a
    denial names a dependency, seen unhealthy, of a listed WorkloadDependency that
    gates the workload; and a scale-up is allowed only if the list failed or every
    dependency of every such one was seen healthy or could not be read. *)
Record decided (req : AdmissionRequest) (resp : AdmissionResponse) (tr : list Eff) : Prop := {
  dc_reads : Forall (fun e => is_read e) tr;
  dc_other : scale_up req = false -> resp = allow /\ tr = [];
  dc_denied : Allowed resp = false -> scale_up req = true /\
    exists items wd dep msg, EvListWDs (InNamespace (ar_Namespace req)) (Ok items) ∈ tr /\
      wd ∈ items /\ gated req wd /\ dep ∈ DependsOn (wd_Spec wd) /\
      seen_unhealthy wd dep tr /\ resp = deny (deny_reason wd dep msg);
  dc_allowed : Allowed resp = true -> resp = allow /\ (scale_up req = true ->
    (exists e, EvListWDs (InNamespace (ar_Namespace req)) (Err e) ∈ tr) \/
    exists items, EvListWDs (InNamespace (ar_Namespace req)) (Ok items) ∈ tr /\
      forall wd dep, wd ∈ items -> gated req wd -> dep ∈ DependsOn (wd_Spec wd) ->
        seen_healthy_or_failed wd dep tr)
}.

Lemma gate_validate_decided req : (gate_validate req : MW W _) ⊨ decided req.
Proof.
  eapply tspec_mono; [apply gate_validate_spec|]. intros resp tr Ho. split.
  all: destruct (scale_up req); [|destruct Ho as [-> ->]; done].
  all: destruct Ho as (lr & rest & -> & Ho); try done.
  - destruct lr; [destruct Ho as [Hr _]|destruct Ho as [_ ->]]; by constructor.
  - intros Hd. split; [done|]. destruct lr as [items|e]; [|by destruct Ho as [-> _]].
    destruct Ho as [_ [(wd & dep & msg & ? & ? & ? & (x & Hx & Hg) & ->)|[-> _]]]; [|done].
    exists items, wd, dep, msg. split; [left|]. do 3 (split; [done|]). split; [|done].
    exists x. split; [by right|done].
  - intros Ha. destruct lr as [items|e].
    2: { destruct Ho as [-> ->]. split; [done|]. intros _. left. exists e. left. }
    destruct Ho as [_ [(wd & dep & msg & _ & _ & _ & _ & ->)|[-> Hall]]]; [done|].
    split; [done|]. intros _. right. exists items. split; [left|].
    intros wd dep ? ? ?. eapply seen_fine_mono; [|by apply (Hall wd)]. intros e He. by right.
Qed.

(** C12: the gate.  A request that does not raise the scale of an existing workload
    is allowed without any call.  Otherwise the WorkloadDependencies of the
    namespace are listed; the request is denied only if a listed gate-mode one
    has the workload as its dependent and a dependency that was fetched and seen
    unhealthy, and allowed only if the list failed or every dependency of every
    such one was seen healthy or could not be read.  Nothing is ever written. *)
Theorem gate_decides req :
  (gate_validate req : MW W _) ⊨ fun resp tr =>
    Forall (fun e => is_read e) tr /\
    (scale_up req = false -> resp = allow /\ tr = []) /\
    (Allowed resp = false -> scale_up req = true /\
       exists items wd dep msg, EvListWDs (InNamespace (ar_Namespace req)) (Ok items) ∈ tr /\
         wd ∈ items /\ gated req wd /\ dep ∈ DependsOn (wd_Spec wd) /\
         seen_unhealthy wd dep tr /\ resp = deny (deny_reason wd dep msg)) /\
    (Allowed resp = true -> resp = allow /\ (scale_up req = true ->
       (exists e, EvListWDs (InNamespace (ar_Namespace req)) (Err e) ∈ tr) \/
       exists items, EvListWDs (InNamespace (ar_Namespace req)) (Ok items) ∈ tr /\
         forall wd dep, wd ∈ items -> gated req wd -> dep ∈ DependsOn (wd_Spec wd) ->
           seen_healthy_or_failed wd dep tr)).
Proof. eapply tspec_mono; [apply gate_validate_decided|]. by intros resp tr [? ? ? ?]. Qed.

(** The replica count is set; the API server defaults it when it is not. *)
Definition has_replicas (x : workloadAccessor) : bool :=
  match x with
  | deploymentAccessor d => bool_decide (is_Some (dp_Replicas d))
  | statefulSetAccessor s => bool_decide (is_Some (ss_Replicas s))
  | cronJobAccessor _ => false
  | rolloutAccessor _ => true
  end.

Lemma checkReplicaHealth_ready desired ready cond :
  (checkReplicaHealth desired ready cond "").1 =
  bool_decide (is_Some desired) &&
  (negb (bool_decide (default 1 desired = 0)) &&
   (minPercent cond <=? readyPercent ready (default 1 desired))).
Proof.
  unfold checkReplicaHealth. destruct desired as [d|]; [|done].
  rewrite (bool_decide_eq_true_2 (is_Some (Some d))) by by eexists. cbn [default andb].
  destruct (decide (d = 0)) as [->|Hd]; [done|].
  rewrite (bool_decide_eq_false_2 (d = 0)) by done. cbn [negb andb].
  rewrite (Z.leb_antisym (readyPercent ready d)). by destruct (_ <? _).
Qed.

Lemma gate_healthy_ready x cond : gate_healthy x cond = has_replicas x && workload_ready x cond.
Proof. destruct x as [d|s|c|u]; simpl; [apply checkReplicaHealth_ready..|done|done]. Qed.

(** A Deployment or StatefulSet whose replica count is set and not zero. *)
Definition nonzero_count (x : workloadAccessor) : bool :=
  match x with
  | deploymentAccessor d => match dp_Replicas d with Some n => negb (bool_decide (n = 0)) | None => false end
  | statefulSetAccessor s => match ss_Replicas s with Some n => negb (bool_decide (n = 0)) | None => false end
  | _ => false
  end.

Lemma nonzero_known x : nonzero_count x = true -> has_replicas x = true /\ maybe_suspended x = false.
Proof. destruct x as [[n ns [r|] rd]|[n ns [r|] rd]|c|u]; simpl; try done; by intros ->%negb_true_iff. Qed.

(** C13: the gate and the reconciler judge a dependency alike.  On the workload the
    gate fetched, take the reconciler's [depStatus] of the same object in any
    world.  What the gate calls healthy the reconciler calls healthy, without a
    call.  On a Deployment or StatefulSet whose replica count is set and not zero
    the two verdicts are the same.  On any object with a known count, what the gate
    calls unhealthy the reconciler does not call healthy: it answers unhealthy,
    fails, or answers co-suspended, and the last only if it listed a suspended
    WorkloadDependency of that workload. *)
Theorem gate_agrees_with_reconciler kind name ns cond ns' :
  (isDependencyHealthy kind name ns cond : MW W _) ⊨ fun r tr => forall h msg, r = Ok (h, msg) ->
    exists x, tr = [fetched (mkNN ns name) x] /\
      (h = true -> (depStatus x cond ns' : MW W _) ⊨ fun s calls => s = Ok depHealthy /\ calls = []) /\
      (nonzero_count x = true -> (depStatus x cond ns' : MW W _) ⊨ fun s calls =>
         s = Ok (if h then depHealthy else depUnhealthy) /\ calls = []) /\
      (has_replicas x = true -> h = false -> (depStatus x cond ns' : MW W _) ⊨ fun s calls =>
         match s with
         | Err _ | Ok depUnhealthy => True
         | Ok depHealthy => False
         | Ok depCoSuspended => exists items wd, wd ∈ items /\ Phase (wd_Status wd) = PhaseSuspended /\
             calls = [EvListWDs (MatchingFields indexDependentName (ns' +:+ "/" +:+ GetName x)) (Ok items)]
         end).
Proof.
  eapply tspec_mono; [apply isDependencyHealthy_spec|]. intros r tr Hr h msg ->.
  destruct Hr as (x & -> & -> & _). exists x. split; [done|]. rewrite gate_healthy_ready.
  split; [|split].
  - intros [_ Hw]%andb_true_iff. eapply tspec_mono; [apply depStatus_spec|]. by rewrite Hw.
  - intros [-> Hs]%nonzero_known. cbn [andb]. eapply tspec_mono; [apply depStatus_spec|].
    rewrite Hs. by destruct (workload_ready x cond).
  - intros ->. cbn [andb]. intros Hw. eapply tspec_mono; [apply depStatus_spec|]. rewrite Hw.
    intros s calls Hs. destruct (maybe_suspended x); [|by destruct Hs as [-> _]].
    destruct Hs as ([items|e] & -> & ->); [|done]. destruct (any_suspended items) eqn:Ha; [|done].
    apply any_suspended_true in Ha as (wd & Hin & Hp). by exists items, wd.
Qed.

(** C22: the gate's HTTP answers.  A review with a request is answered with the
    request's UID on the very decision owed on that request by what was read while
    serving it; an unreadable body or review with a 400 and a review without a
    request with a 500, both without any call. *)
Theorem gate_http_reply body :
  (gate_ServeHTTP body : MW W _) ⊨ fun reply tr =>
    match reply with
    | HttpReview req resp => (exists b, body = Ok b /\ Decode_review b = Ok (Some req)) /\
        exists verdict, decided req verdict tr /\ resp = with_UID (ar_UID req) verdict /\
          resp_UID resp = ar_UID req /\ Allowed resp = Allowed verdict
    | HttpError code _ => tr = [] /\
        (code = 500 <-> exists b, body = Ok b /\ Decode_review b = Ok None) /\
        (code = 400 \/ code = 500)
    end.
Proof.
  unfold gate_ServeHTTP. destruct body as [b|e].
  2: { apply tspec_ret. split; [done|]. split; [|by left]. split; [done|]. by intros (b & ? & _). }
  destruct (Decode_review b) as [[req|]|e] eqn:Hd.
  - eapply tspec_bind; [apply gate_validate_decided|]. intros verdict tr Hv. apply tspec_ret.
    rewrite app_nil_r. split; [by exists b|]. by exists verdict.
  - apply tspec_ret. split; [done|]. split; [|by right]. split; [|done]. intros _. by exists b.
  - apply tspec_ret. split; [done|]. split; [|by left]. split; [done|].
    intros (b' & [= <-] & Hb). congruence.
Qed.
End GateSpec.
