(* ===== verification/Tls.v ===== *)
(** * Webhook certificates (internal/webhook/tls.go and the rotation in server.go)

    The TLS manager keeps a self-signed certificate in a Secret, renews it before
    it expires, and publishes it as the caBundle of the webhook configurations.
    Cryptography, PEM and X.509 are library code: their functions are the
    operations of [CryptoLib], with their documented laws in [CryptoLaws]. *)

From S2P Require Import Prelude Types.

Definition Day : Z := 24 * Hour.
Definition certRenewBefore : Z := 30 * Day.
Definition certValidity : Z := 365 * Day.
Definition tlsSecretName : string := "klink-webhook-tls".
Definition webhookConfigName : string := "klink-gate".
Definition wdValidatorName : string := "klink-wd-validator".

(** ** Objects *)

Record Secret := mkSecret {
  sec_Name : string;
  sec_Namespace : string;
  sec_Type : string;
  sec_Data : gmap string string
}.

(** A ValidatingWebhookConfiguration, down to the CA bundle of each webhook. *)
Record WebhookConfiguration := mkWHC {
  whc_Name : string;
  whc_Webhooks : list (string * string)
}.

(** The certificate template of [generateCert]. *)
Record CertTemplate := mkTemplate {
  tp_SerialNumber : Z;
  tp_Organization : list string;
  tp_CommonName : string;
  tp_DNSNames : list string;
  tp_NotBefore : Z;
  tp_NotAfter : Z;
  tp_KeyUsage : list string;
  tp_ExtKeyUsage : list string;
  tp_BasicConstraintsValid : bool;
  tp_IsCA : bool
}.

(** [rsa], [x509], [pem] and [tls]: [nil] blocks and errors are [None]. *)
Class CryptoLib := {
  PrivateKey : Type;
  TLSCertificate : Type;
  pem_Encode : string -> string -> string;
  pem_Decode : string -> option string;
  ParseCertificate_NotAfter : string -> option Z;
  MarshalPKCS1PrivateKey : PrivateKey -> string;
  X509KeyPair : string -> string -> result TLSCertificate
}.

Record TLSManager := mkTLSManager { tm_namespace : string; tm_svcName : string }.

(** ** Interactions *)

Inductive TlsEff `{CryptoLib} :=
  | TeNow (t : Z)
  | TeGetSecret (k : NamespacedName) (r : result Secret)
  | TeCreateSecret (s : Secret) (r : result unit)
  | TeUpdateSecret (s : Secret) (r : result unit)
  | TeGetWHC (name : string) (r : result WebhookConfiguration)
  | TePatchWHC (base new : WebhookConfiguration) (r : result unit)
  | TeGenerateKey (r : result PrivateKey)
  | TeRandInt (r : result Z)
  | TeCreateCertificate (t : CertTemplate) (r : result string)
  | TeSelect (done : bool)
  | TeLoaded (c : TLSCertificate).

Class TlsWorld `{CryptoLib} (H : Type) := {
  tw_Now : H -> Z * H;
  tw_GetSecret : NamespacedName -> H -> result Secret * H;
  tw_CreateSecret : Secret -> H -> result unit * H;
  tw_UpdateSecret : Secret -> H -> result unit * H;
  tw_GetWHC : string -> H -> result WebhookConfiguration * H;
  tw_PatchWHC : WebhookConfiguration -> WebhookConfiguration -> H -> result unit * H;
  tw_GenerateKey : H -> result PrivateKey * H;
  tw_RandInt : H -> result Z * H;
  tw_CreateCertificate : CertTemplate -> PrivateKey -> H -> result string * H;
  tw_Select : H -> bool * H
}.

Section Tls.
Context `{CL : CryptoLib} {H : Type} `{TW : !TlsWorld H}.

Abbreviation TM A := (M H TlsEff A).

Definition tls_Now : TM Z := interact TeNow tw_Now.

(** [time.Until(cert.NotAfter) < certRenewBefore] *)
Definition certNeedsRenewal (certPEM : string) : TM bool :=
  match pem_Decode certPEM with
  | None => mret true
  | Some block =>
      match ParseCertificate_NotAfter block with
      | None => mret true
      | Some notAfter =>
          now ← tls_Now;
          mret (time_sub notAfter now <? certRenewBefore)
      end
  end.

Definition dnsNames (m : TLSManager) : list string :=
  [ tm_svcName m;
    tm_svcName m +:+ "." +:+ tm_namespace m;
    tm_svcName m +:+ "." +:+ tm_namespace m +:+ ".svc";
    tm_svcName m +:+ "." +:+ tm_namespace m +:+ ".svc.cluster.local" ].

Definition template (m : TLSManager) (now serial : Z) : CertTemplate :=
  mkTemplate serial ["klink"] (tm_svcName m +:+ "." +:+ tm_namespace m +:+ ".svc") (dnsNames m)
    (now - Minute) (now + certValidity)
    ["KeyEncipherment"; "DigitalSignature"; "CertSign"] ["ServerAuth"] true true.

Definition generateCert (m : TLSManager) : TM (result (string * string)) :=
  k ← interact TeGenerateKey tw_GenerateKey;
  match k with
  | Err e => mret (Err e)
  | Ok key =>
      now ← tls_Now;
      s ← interact TeRandInt tw_RandInt;
      match s with
      | Err e => mret (Err e)
      | Ok serial =>
          let t := template m now serial in
          d ← interact (TeCreateCertificate t) (tw_CreateCertificate t key);
          match d with
          | Err e => mret (Err e)
          | Ok certDER =>
              mret (Ok (pem_Encode "CERTIFICATE" certDER,
                        pem_Encode "RSA PRIVATE KEY" (MarshalPKCS1PrivateKey key)))
          end
      end
  end.

(** Every webhook of the configuration gets the CA bundle. *)
Definition set_ca (caPEM : string) (whc : WebhookConfiguration) : WebhookConfiguration :=
  mkWHC (whc_Name whc) ((fun wh => (wh.1, caPEM)) <$> whc_Webhooks whc).

(** The loop of [patchWebhookCABundle] over the configuration names. *)
Fixpoint patch_loop (names : list string) (caPEM : string) : TM (option api_error) :=
  match names with
  | [] => mret None
  | name :: names' =>
      g ← interact (TeGetWHC name) (tw_GetWHC name);
      match g with
      | Err e => if IsNotFound e then patch_loop names' caPEM else mret (Some e)
      | Ok whc =>
          r ← interact (TePatchWHC whc (set_ca caPEM whc)) (tw_PatchWHC whc (set_ca caPEM whc));
          match r with
          | Err e => mret (Some e)
          | Ok _ => patch_loop names' caPEM
          end
      end
  end.

Definition patchWebhookCABundle (caPEM : string) : TM (option api_error) :=
  patch_loop [webhookConfigName; wdValidatorName] caPEM.

(** [secret.Data[key]]: nil reads as empty. *)
Definition data (s : Secret) (key : string) : string := default "" (sec_Data s !! key).

Definition PatchCABundle (m : TLSManager) : TM (option api_error) :=
  let k := mkNN (tm_namespace m) tlsSecretName in
  g ← interact (TeGetSecret k) (tw_GetSecret k);
  match g with
  | Err e => mret (Some e)
  | Ok s => patchWebhookCABundle (data s "tls.crt")
  end.

(** The new pair is generated, saved and published.  [existing] is the Secret
    read, if any: [errors.IsNotFound(err)] looks at the error of [generateCert],
    which is nil here, so the empty name decides. *)
Definition rotate (m : TLSManager) (existing : option Secret) : TM (result (string * string)) :=
  g ← generateCert m;
  match g with
  | Err e => mret (Err (ErrOther "generate cert"))
  | Ok (certPEM, keyPEM) =>
      let newData := <["tls.crt" := certPEM]> (<["tls.key" := keyPEM]> (∅ : gmap string string)) in
      let name := match existing with Some s => sec_Name s | None => "" end in
      saved ← (if decide (name = "") then
                 let s := mkSecret tlsSecretName (tm_namespace m) "kubernetes.io/tls" newData in
                 interact (TeCreateSecret s) (tw_CreateSecret s)
               else
                 let s := match existing with
                          | Some s => mkSecret (sec_Name s) (sec_Namespace s) (sec_Type s) newData
                          | None => mkSecret "" "" "" newData
                          end in
                 interact (TeUpdateSecret s) (tw_UpdateSecret s));
      match saved with
      | Err e => mret (Err (ErrOther (if decide (name = "") then "create tls secret" else "update tls secret")))
      | Ok _ =>
          _ ← patchWebhookCABundle certPEM;
          mret (Ok (certPEM, keyPEM))
      end
  end.

Definition EnsureCert (m : TLSManager) : TM (result (string * string)) :=
  let k := mkNN (tm_namespace m) tlsSecretName in
  g ← interact (TeGetSecret k) (tw_GetSecret k);
  match g with
  | Ok secret =>
      let certPEM := data secret "tls.crt" in
      let keyPEM := data secret "tls.key" in
      renew ← certNeedsRenewal certPEM;
      if renew : bool then rotate m (Some secret)
      else
        _ ← patchWebhookCABundle certPEM;
        mret (Ok (certPEM, keyPEM))
  | Err e => if IsNotFound e then rotate m None else mret (Err (ErrOther "get tls secret"))
  end.

(** ** The certificate in the running server (server.go) *)

(** [WebhookRunnable.Start] up to the server: the holder the handshakes read. *)
Definition prepare (m : TLSManager) : TM (result (option TLSCertificate)) :=
  e ← EnsureCert m;
  match e with
  | Err _ => mret (Err (ErrOther "ensure webhook cert"))
  | Ok (certPEM, keyPEM) =>
      match X509KeyPair certPEM keyPEM with
      | Err _ => mret (Err (ErrOther "load webhook keypair"))
      | Ok cert => emit (TeLoaded cert) ≫= fun _ => mret (Ok (Some cert))
      end
  end.

End Tls.

(** [TLSManager.StartRotationLoop]'s body, which also patches the bundle. *)
Definition manager_tick `{CL : CryptoLib} {H : Type} `{TW : !TlsWorld H} (m : TLSManager)
    : M H TlsEff unit :=
  e ← EnsureCert m;
  match e with
  | Err _ => mret tt
  | Ok _ => _ ← PatchCABundle m; mret tt
  end.

(** [TLSManager.StartRotationLoop], observed for at most [fuel] rounds. *)
Fixpoint StartRotationLoop `{CL : CryptoLib} {H : Type} `{TW : !TlsWorld H} (fuel : nat) (m : TLSManager)
    : M H TlsEff unit :=
  match fuel with
  | O => mret tt
  | S fuel' =>
      done ← interact TeSelect tw_Select;
      if done : bool then mret tt
      else _ ← manager_tick m; StartRotationLoop fuel' m
  end.

(** ** Documented behaviour of the libraries

    Decoding inverts encoding, and a created certificate parses to its template's
    expiry, to the second (ASN.1 times have no fraction). *)
Class TlsLaws `{CL : CryptoLib} {H : Type} `{TW : !TlsWorld H} : Prop := {
  pem_decode_encode ty b : pem_Decode (pem_Encode ty b) = Some b;
  create_parse t key w der : (tw_CreateCertificate t key w).1 = Ok der ->
    ParseCertificate_NotAfter der = Some (tp_NotAfter t / Second * Second)
}.

Section TlsSpec.
Context `{CL : CryptoLib} {H : Type} `{TW : !TlsWorld H}.

(** The certificate had at least [certRenewBefore] left at a clock reading. *)
Definition valid_for (cert : string) (tr : list TlsEff) : Prop :=
  exists t block na, TeNow t ∈ tr /\ pem_Decode cert = Some block /\
    ParseCertificate_NotAfter block = Some na /\ certRenewBefore <= time_sub na t.

Definition holds_pair (s : Secret) (cert key : string) : Prop :=
  data s "tls.crt" = cert /\ data s "tls.key" = key.

(** The pair is what the Secret holds: read from it, or written to it. *)
Definition persisted (m : TLSManager) (cert key : string) (tr : list TlsEff) : Prop :=
  exists s, holds_pair s cert key /\
    (TeGetSecret (mkNN (tm_namespace m) tlsSecretName) (Ok s) ∈ tr \/
     (sec_Name s = tlsSecretName /\ sec_Namespace s = tm_namespace m /\ TeCreateSecret s (Ok tt) ∈ tr) \/
     (TeUpdateSecret s (Ok tt) ∈ tr /\
      exists s0, TeGetSecret (mkNN (tm_namespace m) tlsSecretName) (Ok s0) ∈ tr /\
        sec_Name s = sec_Name s0 /\ sec_Namespace s = sec_Namespace s0)).

Lemma valid_for_mono cert (tr tr' : list TlsEff) : tr ⊆ tr' -> valid_for cert tr -> valid_for cert tr'.
Proof. intros Hs (t & b & na & ? & ?). exists t, b, na. split; [by apply Hs|done]. Qed.

Lemma persisted_mono m cert key (tr tr' : list TlsEff) :
  tr ⊆ tr' -> persisted m cert key tr -> persisted m cert key tr'.
Proof.
  intros Hs (s & Hp & [?|[(? & ? & ?)|(? & s0 & ? & ?)]]); exists s; (split; [done|]).
  - left. by apply Hs.
  - right. left. do 2 (split; [done|]). by apply Hs.
  - right. right. split; [by apply Hs|]. exists s0. split; [by apply Hs|done].
Qed.

(** The configuration [name] is absent, or carries the bundle in every webhook. *)
Definition published (ca name : string) (tr : list TlsEff) : Prop :=
  (exists e, IsNotFound e = true /\ TeGetWHC name (Err e) ∈ tr) \/
  (exists whc, TeGetWHC name (Ok whc) ∈ tr /\ TePatchWHC whc (set_ca ca whc) (Ok tt) ∈ tr).

Lemma published_mono ca name (tr tr' : list TlsEff) :
  tr ⊆ tr' -> published ca name tr -> published ca name tr'.
Proof.
  intros Hs [(e & ? & ?)|(whc & ? & ?)]; [left; exists e|right; exists whc];
    (split; [done || by apply Hs|by apply Hs]).
Qed.

Lemma patch_loop_spec names ca :
  (patch_loop names ca : M H TlsEff _) ⊨ fun r tr =>
    r = None -> forall name, name ∈ names -> published ca name tr.
Proof.
  induction names as [|n names IH]; cbn [patch_loop].
  { apply tspec_ret. by intros _ name ?%not_elem_of_nil. }
  apply tspec_bind_interact. intros [whc|e].
  - apply tspec_bind_interact. intros [[]|e]; [|by apply tspec_ret].
    eapply tspec_mono; [exact IH|]. intros r tr Hr ->. intros name [->|Hin]%elem_of_cons.
    + right. exists whc. split; [left|right; left].
    + eapply published_mono; [|by apply Hr]. intros x Hx. right. by right.
  - destruct (IsNotFound e) eqn:He; [|by apply tspec_ret].
    eapply tspec_mono; [exact IH|]. intros r tr Hr ->. intros name [->|Hin]%elem_of_cons.
    + left. exists e. split; [done|left].
    + eapply published_mono; [|by apply Hr]. intros x Hx. by right.
Qed.

Lemma certNeedsRenewal_spec cert :
  (certNeedsRenewal cert : M H TlsEff bool) ⊨ fun renew tr => renew = false -> valid_for cert tr.
Proof.
  unfold certNeedsRenewal, tls_Now, valid_for.
  destruct (pem_Decode cert) as [b|]; [|by apply tspec_ret].
  destruct (ParseCertificate_NotAfter b) as [na|] eqn:Hp; [|by apply tspec_ret].
  apply tspec_bind_interact. intros now. apply tspec_ret. intros Hr%Z.ltb_ge.
  exists now, b, na. split; [left|done].
Qed.

(** A fresh pair is valid: 365 days against the 30 asked for. *)
Lemma generateCert_spec `{!TlsLaws} m :
  (generateCert m : M H TlsEff _) ⊨ fun r tr => forall cert key, r = Ok (cert, key) -> valid_for cert tr.
Proof.
  unfold generateCert, tls_Now. apply tspec_bind_interact. intros [k|e]; [|by apply tspec_ret].
  apply tspec_bind_interact. intros now. apply tspec_bind_interact.
  intros [serial|e]; [|by apply tspec_ret].
  apply tspec_bind_interact_from. intros [der|e] [w Hw]; [|by apply tspec_ret].
  apply tspec_ret. intros cert key [= <- _].
  exists now, der, (tp_NotAfter (template m now serial) / Second * Second).
  split; [right; left|]. split; [apply pem_decode_encode|]. split; [by eapply create_parse|].
  unfold template, certRenewBefore, certValidity, Day, Hour, Minute, time_sub. simpl tp_NotAfter.
  pose proof (Z.mul_div_le (now + 365 * (24 * (60 * (60 * Second)))) Second ltac:(done)) as Hle.
  pose proof (Z.mod_pos_bound (now + 365 * (24 * (60 * (60 * Second)))) Second ltac:(done)) as Hmod.
  rewrite Z.mod_eq in Hmod by done. unfold Second, Millisecond in *. lia.
Qed.

Lemma rotate_spec `{!TlsLaws} m existing tr0 :
  (forall s, existing = Some s -> TeGetSecret (mkNN (tm_namespace m) tlsSecretName) (Ok s) ∈ tr0) ->
  (rotate m existing : M H TlsEff _) ⊨ fun r tr => forall cert key, r = Ok (cert, key) ->
    valid_for cert (tr0 ++ tr) /\ persisted m cert key (tr0 ++ tr).
Proof.
  intros Hex. unfold rotate. eapply tspec_bind; [apply generateCert_spec|].
  intros [[c k]|e] tr Hgen; [|by apply tspec_ret]. specialize (Hgen c k eq_refl).
  set (d := <["tls.crt" := c]> (<["tls.key" := k]> (∅ : gmap string string))).
  assert (forall n ns ty, holds_pair (mkSecret n ns ty d) c k) as Hpair.
  { intros n ns ty. unfold holds_pair, data, d. cbn [sec_Data]. split; [by rewrite lookup_insert_eq|].
    by rewrite lookup_insert_ne, lookup_insert_eq. }
  set (name := match existing with Some s => sec_Name s | None => "" end).
  eapply (tspec_bind _ _ (fun r tr1 => r = Ok tt -> persisted m c k (tr0 ++ tr1))).
  - destruct (decide (name = "")) as [Hn|Hn]; apply tspec_interact; intros r Hr; subst r.
    + eexists. split; [apply Hpair|]. right. left. do 2 (split; [done|]).
      apply elem_of_app. right. left.
    + unfold name in Hn. destruct existing as [s|]; [|done].
      eexists. split; [apply Hpair|]. right. right. split; [apply elem_of_app; right; left|].
      exists s. split; [|done]. apply elem_of_app. left. by apply Hex.
  - intros [[]|e] tr1 Hsaved; [|by apply tspec_ret]. specialize (Hsaved eq_refl).
    eapply tspec_bind; [apply patch_loop_spec|].
    intros err tr2 _. apply tspec_ret. intros cert key [= <- <-]. split.
    + eapply valid_for_mono; [|exact Hgen]. intros x Hx. apply elem_of_app. right. apply elem_of_app. by left.
    + eapply persisted_mono; [|exact Hsaved]. intros x Hx. rewrite !elem_of_app in *. tauto.
Qed.

Lemma EnsureCert_spec `{!TlsLaws} m :
  (EnsureCert m : M H TlsEff _) ⊨ fun r tr => forall cert key, r = Ok (cert, key) ->
    valid_for cert tr /\ persisted m cert key tr.
Proof.
  unfold EnsureCert. apply tspec_bind_interact. intros [s|e].
  2: { destruct (IsNotFound e); [|by apply tspec_ret].
       eapply tspec_mono; [by apply (rotate_spec m None [TeGetSecret (mkNN (tm_namespace m) tlsSecretName) (Err e)])|done]. }
  eapply tspec_bind; [apply certNeedsRenewal_spec|]. intros [] tr Hv.
  - eapply tspec_mono; [apply (rotate_spec m (Some s) (TeGetSecret (mkNN (tm_namespace m) tlsSecretName) (Ok s) :: tr))|done].
    intros ? [= <-]. left.
  - specialize (Hv eq_refl). eapply tspec_bind; [apply patch_loop_spec|].
    intros err tr2 _. apply tspec_ret. intros cert key [= <- <-]. split.
    + eapply valid_for_mono; [|exact Hv]. intros x Hx. right. apply elem_of_app. by left.
    + exists s. split; [done|]. left. left.
Qed.

(** C20: a certificate handed to the server is persisted and has at least thirty
    days left.  Whenever [EnsureCert] returns a pair, the pair is what the Secret
    holds: read from it, or successfully created in it, or successfully written
    over the one read.  And at a clock reading of the same call its expiry lay at
    least [certRenewBefore] ahead, so twelve-hourly checks never let it expire. *)
Theorem EnsureCert_sound `{!TlsLaws} m :
  (EnsureCert m : M H TlsEff _) ⊨ fun r tr => forall cert key, r = Ok (cert, key) ->
    persisted m cert key tr /\
    exists t block na, TeNow t ∈ tr /\ pem_Decode cert = Some block /\
      ParseCertificate_NotAfter block = Some na /\
      forall t', t' <= t + 60 * (12 * Hour) -> t' <= na.
Proof.
  eapply tspec_mono; [apply EnsureCert_spec|]. intros r tr Hr cert key ->.
  destruct (Hr cert key eq_refl) as [(t & b & na & ? & ? & ? & Hle) ?]. split; [done|].
  exists t, b, na. do 3 (split; [done|]). intros t' Ht'.
  unfold certRenewBefore, Day, Hour, Minute, time_sub, Second, Millisecond in *. lia.
Qed.

(** *** The holder *)

(** What the server may hold: the last pair loaded, which was persisted and valid
    when it was loaded. *)
Definition loaded_good (m : TLSManager) (c : TLSCertificate) (tr : list TlsEff) : Prop :=
  exists cert key, X509KeyPair cert key = Ok c /\ valid_for cert tr /\ persisted m cert key tr.

Definition no_load (tr : list TlsEff) : Prop := forall c, TeLoaded c ∉ tr.

Lemma no_load_app tr1 tr2 : no_load (tr1 ++ tr2) <-> no_load tr1 /\ no_load tr2.
Proof.
  unfold no_load. setoid_rewrite not_elem_of_app.
  split; [intros Hn; split; intros c; apply Hn|intros [? ?]; eauto].
Qed.

Definition not_load (e : TlsEff) : Prop := forall c, e <> TeLoaded c.

Lemma not_load_no_load tr : Forall not_load tr -> no_load tr.
Proof. intros Hf c Hin. rewrite Forall_forall in Hf. by apply (Hf _ Hin c). Qed.

Lemma patch_loop_no_load names ca : emits not_load (patch_loop names ca : M H TlsEff _).
Proof.
  induction names as [|n names IH]; cbn [patch_loop]; [apply emits_ret|].
  apply emits_bind; [by apply emits_interact|]. intros [whc|e]; [|destruct (IsNotFound e); [done|apply emits_ret]].
  apply emits_bind; [by apply emits_interact|]. intros [[]|e]; [done|apply emits_ret].
Qed.

Lemma rotate_no_load m existing : emits not_load (rotate m existing : M H TlsEff _).
Proof.
  unfold rotate, generateCert, tls_Now, patchWebhookCABundle. apply emits_bind.
  { emit_auto; done. }
  intros [[c k]|e]; [|apply emits_ret]. apply emits_bind; [destruct (decide _); by apply emits_interact|].
  intros [[]|e]; [|apply emits_ret]. apply emits_bind; [apply patch_loop_no_load|]. intros. apply emits_ret.
Qed.

Lemma EnsureCert_no_load m : emits not_load (EnsureCert m : M H TlsEff _).
Proof.
  unfold EnsureCert. apply emits_bind; [by apply emits_interact|]. intros [s|e].
  2: destruct (IsNotFound e); [apply rotate_no_load|apply emits_ret].
  apply emits_bind.
  { unfold certNeedsRenewal, tls_Now. emit_auto; done. }
  intros []; [apply rotate_no_load|]. apply emits_bind; [apply patch_loop_no_load|]. intros. apply emits_ret.
Qed.

(** C21: the CA bundle reaches both webhook configurations.  When
    [patchWebhookCABundle] reports success, each of the two configurations is
    either not installed or was successfully patched so that every one of its
    webhooks, and nothing else, carries the given bundle. *)
Theorem caBundle_published ca :
  (patchWebhookCABundle ca : M H TlsEff _) ⊨ fun r tr => r = None ->
    published ca webhookConfigName tr /\ published ca wdValidatorName tr /\
    forall whc, whc_Name (set_ca ca whc) = whc_Name whc /\
      (whc_Webhooks (set_ca ca whc)).*1 = (whc_Webhooks whc).*1 /\
      Forall (fun wh => wh.2 = ca) (whc_Webhooks (set_ca ca whc)).
Proof.
  eapply tspec_mono; [apply patch_loop_spec|]. intros r tr Hr ->.
  split; [apply Hr; [done|left]|]. split; [apply Hr; [done|right; left]|].
  intros [n whs]. unfold set_ca. simpl. split; [done|]. split.
  - rewrite <- list_fmap_compose. by apply list_fmap_ext.
  - apply Forall_fmap. by apply Forall_true.
Qed.
End TlsSpec.
