(* ===== verification/Server.v ===== *)
(** * The webhook server (internal/webhook/server.go)

    The routing of requests to the two admission handlers and the health probe,
    through [http.ServeMux], and the life of the server: the goroutines of
    [WebhookRunnable.Start] (the listener, the rotation loop, the shutdown on
    cancellation) as a step relation in which they interleave freely. *)

From S2P Require Import Prelude Types GoFloat Cluster Workload Health Safety Admission Gate.
From S2P Require Import Validator Tls.
From Stdlib Require Import Ascii.

(** ** [http.ServeMux] on the patterns of [Start]

    Patterns without method, host, wildcard or trailing slash match a path of one
    segment, after percent-decoding it.  A path that is not in canonical form is
    redirected to that form, except for CONNECT. *)

Definition slash : ascii := "/"%char.

(** [strings.Split(p, "/")]. *)
Fixpoint split_slash (p : string) : list string :=
  match p with
  | EmptyString => [EmptyString]
  | String c p' =>
      if decide (c = slash) then EmptyString :: split_slash p'
      else match split_slash p' with
           | s :: ss => String c s :: ss
           | [] => [String c EmptyString]
           end
  end.

(** The elements of a rooted path after [path.Clean]: empty elements and dots
    disappear, a double dot removes what is before it, in [acc] reversed. *)
Fixpoint clean_elements (acc ss : list string) : list string :=
  match ss with
  | [] => rev acc
  | s :: ss' =>
      if decide (s = "") then clean_elements acc ss'
      else if decide (s = ".") then clean_elements acc ss'
      else if decide (s = "..") then clean_elements (tail acc) ss'
      else clean_elements (s :: acc) ss'
  end.

Definition rooted (ss : list string) : string :=
  match ss with
  | [] => "/"
  | _ => String.concat "" ((fun s => String slash s) <$> ss)
  end.

Fixpoint ends_in_slash (p : string) : bool :=
  match p with
  | EmptyString => false
  | String c EmptyString => bool_decide (c = slash)
  | String _ p' => ends_in_slash p'
  end.

(** net/http's [cleanPath]: [path.Clean] that keeps a trailing slash. *)
Definition cleanPath (p : string) : string :=
  match clean_elements [] (split_slash p) with
  | [] => "/"
  | ss => if ends_in_slash p then rooted ss +:+ "/" else rooted ss
  end.

Definition hex_digit (c : ascii) : option N :=
  let n := N_of_ascii c in
  if decide (48 <= n <= 57)%N then Some (n - 48)%N
  else if decide (65 <= n <= 70)%N then Some (n - 55)%N
  else if decide (97 <= n <= 102)%N then Some (n - 87)%N
  else None.

(** [url.PathUnescape]; [None] is its error. *)
Fixpoint PathUnescape (s : string) : option string :=
  match s with
  | EmptyString => Some EmptyString
  | String c s1 =>
      if decide (c = "%"%char) then
        match s1 with
        | String a (String b s2) =>
            x ← hex_digit a; y ← hex_digit b; r ← PathUnescape s2;
            Some (String (ascii_of_N (16 * x + y)) r)
        | _ => None
        end
      else r ← PathUnescape s1; Some (String c r)
  end.

(** [pathUnescape]: an undecodable segment stands for itself. *)
Definition pathUnescape (s : string) : string := default s (PathUnescape s).

(** The one segment of a path that the patterns can match. *)
Definition only_segment (p : string) : option string :=
  match p with
  | String c p' =>
      match p' with
      | EmptyString => None
      | _ => match split_slash p' with [s] => Some (pathUnescape s) | _ => None end
      end
  | EmptyString => None
  end.

Record HttpRequest := mkHttpRequest {
  rq_Method : string;
  rq_RequestURI : string;
  rq_EscapedPath : string;
  rq_Body : result string
}.

Inductive Target := ToGate | ToWDValidator | ToHealthz | ToNotFound | ToBadRequest | ToRedirect (path : string).

(** The handlers registered in [Start]. *)
Definition handler_of (segment : option string) : Target :=
  match segment with
  | Some s =>
      if decide (s = "validate") then ToGate
      else if decide (s = "validate-wd") then ToWDValidator
      else if decide (s = "healthz") then ToHealthz
      else ToNotFound
  | None => ToNotFound
  end.

(** Where a request goes.  The path of a redirect is the [URL.Path] that net/http
    puts into the Location; [url.URL.String] escapes it for the wire. *)
Definition route (rq : HttpRequest) : Target :=
  if decide (rq_RequestURI rq = "*") then ToBadRequest
  else if decide (rq_Method rq = "CONNECT") then handler_of (only_segment (rq_EscapedPath rq))
  else
    let path := cleanPath (rq_EscapedPath rq) in
    if decide (path = rq_EscapedPath rq) then handler_of (only_segment path) else ToRedirect path.

Inductive ServerReply :=
  | Handled (r : HttpReply)
  | Status (code : Z)
  | Redirect (path : string).

Section Mux.
Context `{UL : UnstructuredLib} `{GP : GoPlatform} `{CD : Codec} {W : Type} `{KC : !KubeClient W}.

(** One request to the server's handler. *)
Definition serveHTTP (rq : HttpRequest) : MW W ServerReply :=
  match route rq with
  | ToGate => r ← gate_ServeHTTP (rq_Body rq); mret (Handled r)
  | ToWDValidator => mret (Handled (wd_ServeHTTP (rq_Body rq)))
  | ToHealthz => mret (Status 200)
  | ToNotFound => mret (Status 404)
  | ToBadRequest => mret (Status 400)
  | ToRedirect p => mret (Redirect p)
  end.
End Mux.

(** *** Canonical paths *)

(** An element that [clean_elements] keeps. *)
Definition no_slash (s : string) : Prop := split_slash s = [s].
Definition plain (s : string) : Prop := s <> "" /\ s <> "." /\ s <> ".." /\ no_slash s.

Lemma split_slash_parts p : Forall no_slash (split_slash p).
Proof.
  induction p as [|c p IH]; [by repeat constructor|]. simpl.
  destruct (decide (c = slash)); [by constructor|].
  destruct (split_slash p) as [|s ss] eqn:Hp.
  { repeat constructor. unfold no_slash. simpl. by rewrite decide_False. }
  inversion IH as [|? ? Hs Hss]; subst. constructor; [|done].
  unfold no_slash in *. simpl. by rewrite decide_False, Hs.
Qed.

Lemma clean_elements_plain acc ss :
  Forall plain acc -> Forall no_slash ss -> Forall plain (clean_elements acc ss).
Proof.
  revert acc. induction ss as [|s ss IH]; intros acc Ha Hs; cbn [clean_elements]; [by apply Forall_rev|].
  inversion Hs; subst. repeat case_decide; apply IH; try done.
  - destruct acc as [|a acc]; [done|]. by inversion Ha.
  - by constructor.
Qed.

Lemma clean_elements_id acc ss : Forall plain ss -> clean_elements acc ss = rev acc ++ ss.
Proof.
  revert acc. induction ss as [|s ss IH]; intros acc Hs; cbn [clean_elements]; [by rewrite app_nil_r|].
  inversion Hs as [|? ? (?&?&?&?) ?]; subst. rewrite !decide_False by done. rewrite IH by done.
  simpl. by rewrite <- app_assoc.
Qed.

Lemma clean_elements_snoc acc ss : clean_elements acc (ss ++ [""]) = clean_elements acc ss.
Proof.
  revert acc. induction ss as [|s ss IH]; intros acc; cbn [clean_elements app]; [done|].
  by rewrite !IH.
Qed.

(** Splitting undoes joining. *)
Lemma split_slash_app s p : no_slash s -> split_slash (s +:+ String slash p) = s :: split_slash p.
Proof.
  unfold no_slash. induction s as [|c s IH]; intros Hs; [done|]. simpl in *.
  destruct (decide (c = slash)); [by destruct (split_slash s)|].
  destruct (split_slash s) as [|s' ss] eqn:E; [by injection Hs as <-|]. injection Hs as -> ->.
  by rewrite IH.
Qed.

Lemma string_app_nil s : s +:+ "" = s.
Proof. induction s as [|c s IH]; [done|]. change (String c (s +:+ "") = String c s). by rewrite IH. Qed.

Definition joined (ss : list string) : string := String.concat "" ((fun s => String slash s) <$> ss).

Lemma joined_cons s ss : joined (s :: ss) = String slash (s +:+ joined ss).
Proof.
  unfold joined. destruct ss as [|s' ss]; [|done].
  change (String slash s = String slash (s +:+ "")). by rewrite string_app_nil.
Qed.

Lemma split_joined ss : Forall no_slash ss -> ss <> [] -> split_slash (joined ss) = "" :: ss.
Proof.
  induction ss as [|s ss IH]; intros Hs Hne; [done|]. inversion Hs; subst.
  rewrite joined_cons. cbn [split_slash]. rewrite decide_True by done. f_equal.
  destruct ss as [|s' ss]; [unfold joined; simpl; by rewrite string_app_nil|].
  assert (exists q, joined (s' :: ss) = String slash q) as [q Hq] by (rewrite joined_cons; eauto).
  specialize (IH ltac:(done) ltac:(done)). rewrite Hq in *. rewrite split_slash_app by done.
  cbn [split_slash] in IH. rewrite decide_True in IH by done. by injection IH as ->.
Qed.

Lemma string_app_assoc (a b c : string) : (a +:+ b) +:+ c = a +:+ (b +:+ c).
Proof.
  induction a as [|x a IH]; [done|].
  change (String x ((a +:+ b) +:+ c) = String x (a +:+ (b +:+ c))). by rewrite IH.
Qed.

Lemma joined_app_nil ss : ss <> [] -> joined ss +:+ "/" = joined (ss ++ [""]).
Proof.
  induction ss as [|s ss IH]; intros Hne; [done|]. simpl app. rewrite !joined_cons.
  change (String slash ((s +:+ joined ss) +:+ "/") = String slash (s +:+ joined (ss ++ [""]))).
  rewrite string_app_assoc. destruct ss as [|s' ss]; [done|]. by rewrite IH.
Qed.

Lemma ends_in_slash_app p : ends_in_slash (p +:+ "/") = true.
Proof.
  induction p as [|c p IH]; [done|]. change (ends_in_slash (String c (p +:+ "/")) = true).
  destruct p as [|c' p]; [done|]. exact IH.
Qed.

Lemma ends_in_slash_plain s p : s <> "" -> no_slash s ->
  ends_in_slash (p +:+ String slash s) = false.
Proof.
  intros Hs Hn. induction p as [|c p IH].
  - destruct s as [|c s]; [done|]. change (ends_in_slash (String c s) = false). clear Hs.
    revert c Hn. unfold no_slash. induction s as [|d s IH]; intros c Hn; simpl in Hn.
    + simpl. case_decide; [done|]. by rewrite bool_decide_eq_false_2.
    + destruct (decide (c = slash)); [by destruct (if decide _ then _ else _)|].
      change (ends_in_slash (String d s) = false). apply IH. simpl.
      destruct (if decide (d = slash) then _ else _) as [|x xs] eqn:E; [done|]. by injection Hn as -> ->.
  - change (ends_in_slash (String c (p +:+ String slash s)) = false). by destruct p.
Qed.

Lemma joined_last ss s : exists p, joined (ss ++ [s]) = p +:+ String slash s.
Proof.
  induction ss as [|s' ss [p Hp]]; [by exists ""|]. exists (String slash (s' +:+ p)).
  simpl app. rewrite joined_cons, Hp, <- string_app_assoc. done.
Qed.

Lemma cleanPath_cases p : let ss := clean_elements [] (split_slash p) in
  Forall plain ss /\
  (ss = [] /\ cleanPath p = "/" \/
   ss <> [] /\ cleanPath p = if ends_in_slash p then joined (ss ++ [""]) else joined ss).
Proof.
  intros ss. split; [apply clean_elements_plain; [done|apply split_slash_parts]|].
  unfold cleanPath. fold ss. destruct ss as [|s ss'] eqn:E; [by left|]. right. split; [done|].
  destruct (ends_in_slash p); [|done]. by rewrite <- joined_app_nil.
Qed.

Lemma plain_no_slash ss : Forall plain ss -> Forall no_slash ss.
Proof. intros Hs. eapply List.Forall_impl; [|exact Hs]. by intros s (?&?&?&?). Qed.

Lemma cleanPath_idem p : cleanPath (cleanPath p) = cleanPath p.
Proof.
  destruct (cleanPath_cases p) as [Hpl [[_ ->]|[Hne ->]]]; [done|].
  set (ss := clean_elements [] (split_slash p)) in *. pose proof (plain_no_slash _ Hpl) as Hns.
  destruct (ends_in_slash p).
  - unfold cleanPath. rewrite split_joined by (try apply Forall_app_2; try by repeat constructor; by destruct ss).
    change ("" :: ss ++ [""]) with (("" :: ss) ++ [""]). rewrite clean_elements_snoc.
    cbn [clean_elements]. rewrite decide_True by done. rewrite clean_elements_id by done. simpl app.
    rewrite <- joined_app_nil by done. rewrite ends_in_slash_app. by destruct ss.
  - unfold cleanPath. rewrite split_joined by done. cbn [clean_elements]. rewrite decide_True by done.
    rewrite clean_elements_id by done. simpl app.
    destruct (exists_last Hne) as (ss' & s & He). rewrite He in *.
    apply Forall_app in Hpl as [_ Hpl]. inversion Hpl as [|? ? (?&?&?&?) _]; subst.
    destruct (joined_last ss' s) as [q Hq]. 
    assert (ends_in_slash (joined (ss' ++ [s])) = false) as -> by (rewrite Hq; by apply ends_in_slash_plain).
    by destruct (ss' ++ [s]).
Qed.

(** *** What the routes amount to *)

Section MuxSpec.
Context `{UL : UnstructuredLib} `{GP : GoPlatform} `{CD : Codec} {W : Type} `{KC : !KubeClient W}.

Lemma route_at rq path seg : rq_RequestURI rq <> "*" -> rq_EscapedPath rq = path ->
  cleanPath path = path -> only_segment path = seg -> route rq = handler_of seg.
Proof.
  intros Hu Hp Hc Hs. unfold route. rewrite decide_False by done. rewrite Hp, Hc, Hs.
  rewrite (decide_True (P := path = path)) by done. by destruct (decide (rq_Method rq = _)).
Qed.

Lemma handler_of_redirect seg p : handler_of seg <> ToRedirect p.
Proof. unfold handler_of. by repeat case_match. Qed.

Lemma route_canonical rq p : cleanPath (rq_EscapedPath rq) = rq_EscapedPath rq -> route rq <> ToRedirect p.
Proof.
  intros Hc. unfold route. rewrite Hc, (decide_True (P := rq_EscapedPath rq = _)) by done.
  repeat case_decide; [done|apply handler_of_redirect..].
Qed.

Lemma serveHTTP_redirect rq s p : (serveHTTP rq s : ServerReply * Sys W Eff).1 = Redirect p ->
  route rq = ToRedirect p.
Proof.
  unfold serveHTTP. destruct (route rq); unfold mbind, M_bind; simpl; try done; [|congruence].
  by destruct (gate_ServeHTTP (rq_Body rq) s).
Qed.

(** C31: the webhook server answers each path with its own handler.  [/validate]
    goes to the gate, [/validate-wd] to the validator, [/healthz] answers 200, in
    each case whatever the method; a request for [*] gets a 400.  A request whose
    path does not decode to the single segment [validate] never reaches the
    cluster.  A redirect names a
    canonical path, different from the one asked for, and that path is not
    redirected again: clients cannot be sent in circles. *)
Theorem server_routes rq (s : Sys W Eff) :
  let path := rq_EscapedPath rq in
  (rq_RequestURI rq = "*" -> serveHTTP rq s = (Status 400, s)) /\
  (rq_RequestURI rq <> "*" ->
    (path = "/validate" -> serveHTTP rq s = (r ← gate_ServeHTTP (rq_Body rq); mret (Handled r)) s) /\
    (path = "/validate-wd" -> serveHTTP rq s = (Handled (wd_ServeHTTP (rq_Body rq)), s)) /\
    (path = "/healthz" -> serveHTTP rq s = (Status 200, s)) /\
    (only_segment path <> Some "validate" -> (serveHTTP rq s).2 = s)) /\
  (forall p, (serveHTTP rq s).1 = Redirect p ->
     p <> path /\ p = cleanPath path /\
     forall rq' (s' : Sys W Eff) p', rq_EscapedPath rq' = p -> (serveHTTP rq' s').1 <> Redirect p').
Proof.
  intros path. split_and!.
  - intros Hu. unfold serveHTTP, route. by rewrite decide_True.
  - intros Hu. split_and!; intros Hp; unfold serveHTTP.
    1-3: by rewrite (route_at rq _ _ Hu Hp eq_refl eq_refl).
    destruct (route rq) eqn:Hr; try done. destruct Hp. revert Hr. unfold route. fold path.
    rewrite decide_False by done. unfold handler_of.
    destruct (decide (rq_Method rq = _)); [by repeat case_match; intros; subst|].
    destruct (decide (cleanPath path = path)) as [-> |]; [by repeat case_match; intros; subst|done].
  - intros p Hr%serveHTTP_redirect. revert Hr. unfold route. fold path. case_decide; [done|].
    case_decide; [by intros ?%handler_of_redirect|]. case_decide; [by intros ?%handler_of_redirect|].
    intros [= <-]. split; [done|]. split; [done|]. intros rq' s' p' He Hr%serveHTTP_redirect.
    eapply route_canonical; [|exact Hr]. rewrite He. apply cleanPath_idem.
Qed.

Example redirects_to_validate rq :
  route (mkHttpRequest "POST" "//x/../validate" "//x/../validate" rq) = ToRedirect "/validate".
Proof. vm_compute. reflexivity. Qed.

Example encoded_segment rq :
  route (mkHttpRequest "POST" "/v%61lidate" "/v%61lidate" rq) = ToGate /\
  route (mkHttpRequest "POST" "/validate/" "/validate/" rq) = ToNotFound.
Proof. split; vm_compute; reflexivity. Qed.
End MuxSpec.

(** ** The life of the server

    After [prepare], three goroutines run beside the listener's: the rotation
    loop, which computes a pair and then stores it in the mutex-protected holder;
    the handshakes, each of which reads the holder; and the one that waits for the
    cancellation and shuts the server down. *)

Section Life.
Context `{CL : CryptoLib} {H : Type} `{TW : !TlsWorld H}.

(** The rotation loop: in its select, about to store a loaded pair, or returned. *)
Inductive LoopState := Selecting | Storing (c : TLSCertificate) | Stopped.

(** [Start]'s own goroutine: returned before there was a server, in
    ListenAndServeTLS, or returned from it with an error or nil. *)
Inductive MainState := Failed (err : api_error) | Serving | Returned (err : option api_error).

(** There is a server, with its goroutines and connections; connections already
    accepted outlive a shutdown and the return of the listener. *)
Definition running (p : MainState) : Prop := forall e, p <> Failed e.

Inductive SrvEff :=
  | SeTls (e : TlsEff)
  | SeHandshake (presented : option TLSCertificate).

Record Server := mkServer {
  sv_world : H;
  sv_trace : list SrvEff;
  sv_holder : option TLSCertificate;
  sv_loop : LoopState;
  sv_main : MainState;
  sv_cancelled : bool;
  sv_shutdown : bool
}.

(** The body of the loop up to [holder.set]: the pair to store, if any. *)
Definition rotate_pair (m : TLSManager) : M H TlsEff (option TLSCertificate) :=
  e ← EnsureCert m;
  match e with
  | Err _ => mret None
  | Ok (certPEM, keyPEM) =>
      match X509KeyPair certPEM keyPEM with
      | Err _ => mret None
      | Ok cert => mret (Some cert)
      end
  end.

(** Run a computation of the TLS manager as part of the server. *)
Definition run_tls {A} (c : M H TlsEff A) (s : Server) : A * H * list SrvEff :=
  let '(a, s') := c (MkSys (sv_world s) []) in
  (a, env s', SeTls <$> out s').

Inductive server_step (m : TLSManager) : Server -> Server -> Prop :=
  | step_handshake w tr h l p c d : running p ->
      server_step m (mkServer w tr h l p c d) (mkServer w (tr ++ [SeHandshake h]) h l p c d)
  | step_tick w tr h p c d s o w' tr' :
      s = mkServer w tr h Selecting p c d ->
      run_tls (rotate_pair m) s = (o, w', tr') ->
      server_step m s
        (mkServer w' (tr ++ tr') h (match o with Some x => Storing x | None => Selecting end) p c d)
  | step_store w tr h x p c d :
      server_step m (mkServer w tr h (Storing x) p c d)
        (mkServer w (tr ++ [SeTls (TeLoaded x)]) (Some x) Selecting p c d)
  | step_loop_done w tr h p d :
      server_step m (mkServer w tr h Selecting p true d) (mkServer w tr h Stopped p true d)
  | step_cancel w tr h l p c d :
      server_step m (mkServer w tr h l p c d) (mkServer w tr h l p true d)
  | step_shutdown w tr h l p d : running p ->
      server_step m (mkServer w tr h l p true d) (mkServer w tr h l p true true)
  | step_closed w tr h l c :
      server_step m (mkServer w tr h l Serving c true) (mkServer w tr h l (Returned None) c true)
  | step_listen_error w tr h l c d e :
      server_step m (mkServer w tr h l Serving c d)
        (mkServer w tr h l (Returned (Some (ErrOther ("webhook server: " +:+ e)))) c d).

(** [Start] up to the listener, in world [w0]: it fails, or the server runs. *)
Inductive server_start (m : TLSManager) (w0 : H) : Server -> Prop :=
  | start_failed s' e :
      prepare m (MkSys w0 []) = (Err e, s') ->
      server_start m w0
        (mkServer (env s') (SeTls <$> out s') None Stopped (Failed e) false false)
  | start_serving s' h :
      prepare m (MkSys w0 []) = (Ok h, s') ->
      server_start m w0 (mkServer (env s') (SeTls <$> out s') h Selecting Serving false false).

End Life.

(** *** What every reachable state guarantees *)

Section LifeSpec.
Context `{CL : CryptoLib} {H : Type} `{TW : !TlsWorld H} `{TL : !TlsLaws}.

Abbreviation Srv := (Server (H := H)).

(** The TLS part of a trace. *)
Definition tls_events (tr : list SrvEff) : list TlsEff :=
  omap (fun e => match e with SeTls x => Some x | SeHandshake _ => None end) tr.

Lemma tls_events_app tr1 tr2 : tls_events (tr1 ++ tr2) = tls_events tr1 ++ tls_events tr2.
Proof. apply omap_app. Qed.

Lemma tls_events_tls (tr : list TlsEff) : tls_events (SeTls <$> tr) = tr.
Proof. unfold tls_events. induction tr as [|e tr IH]; [done|]. simpl. f_equal. exact IH. Qed.

(** The holder after [tr]: the last pair stored, which was good when it was. *)
Definition holder_of (m : TLSManager) (h : option TLSCertificate) (tr : list SrvEff) : Prop :=
  exists pre c post, tls_events tr = pre ++ TeLoaded c :: post /\ no_load post /\ h = Some c /\
    loaded_good m c pre.

(** Every handshake so far presented the certificate stored last before it. *)
Definition handshakes_good (m : TLSManager) (tr : list SrvEff) : Prop :=
  forall pre c post, tr = pre ++ SeHandshake c :: post -> holder_of m c pre.

Record server_inv (m : TLSManager) (s : Srv) : Prop := {
  inv_handshakes : handshakes_good m (sv_trace s);
  inv_running : running (sv_main s) -> is_Some (sv_holder s);
  inv_holder : is_Some (sv_holder s) -> holder_of m (sv_holder s) (sv_trace s);
  inv_storing c : sv_loop s = Storing c -> loaded_good m c (tls_events (sv_trace s));
  inv_shutdown : sv_shutdown s = true -> sv_cancelled s = true;
  inv_returned : sv_main s = Returned None -> sv_shutdown s = true
}.

Lemma loaded_good_app m c tr tr' : loaded_good m c tr -> loaded_good m c (tr ++ tr').
Proof.
  intros (cert & key & ? & ? & ?). exists cert, key. split; [done|].
  split; [eapply valid_for_mono; [|done]|eapply persisted_mono; [|done]]; intros x ?; apply elem_of_app; by left.
Qed.

(** Events that store nothing leave the holder's meaning alone. *)
Lemma holder_of_app m h tr tr' : holder_of m h tr -> no_load (tls_events tr') -> holder_of m h (tr ++ tr').
Proof.
  intros (pre & c & post & E & N & -> & G) N'. exists pre, c, (post ++ tls_events tr').
  rewrite tls_events_app, E, <- app_assoc. split; [done|]. split; [by apply no_load_app|done].
Qed.

Lemma handshakes_app m tr tr' : handshakes_good m tr ->
  (forall c, SeHandshake c ∉ tr') -> handshakes_good m (tr ++ tr').
Proof.
  intros Hg Hn pre c post E. apply app_eq_inv in E as [(k & E1 & E2)|(k & E1 & E2)].
  - destruct k as [|e k]; simpl in E2.
    + exfalso. apply (Hn c). rewrite <- E2. left.
    + injection E2 as <- E2. by apply (Hg pre c k).
  - exfalso. apply (Hn c). rewrite E2. apply elem_of_app. right. left.
Qed.

Lemma handshakes_snoc m tr h : handshakes_good m tr -> holder_of m h tr ->
  handshakes_good m (tr ++ [SeHandshake h]).
Proof.
  intros Hg Hh pre c post E. destruct post as [|e post].
  - apply app_inj_tail in E as [<- [= <-]]. done.
  - destruct (exists_last (l := e :: post)) as (post' & e' & Ep); [done|].
    rewrite Ep, app_comm_cons, app_assoc in E. apply app_inj_tail in E as [-> _]. by apply (Hg pre c post').
Qed.

Lemma no_handshake_tls (tr : list TlsEff) c : SeHandshake c ∉ SeTls <$> tr.
Proof. by intros (e & ? & _)%list_elem_of_fmap. Qed.

Lemma rotate_pair_spec m : (rotate_pair m : M H TlsEff _) ⊨ fun o tr =>
  no_load tr /\ forall c, o = Some c -> loaded_good m c tr.
Proof.
  unfold rotate_pair. eapply tspec_bind; [apply tspec_conj; [apply EnsureCert_spec|apply EnsureCert_no_load]|].
  intros r tr [Hr Hn%not_load_no_load].
  destruct r as [[cert key]|e]; [|by apply tspec_ret; rewrite app_nil_r].
  destruct (Hr cert key eq_refl) as [Hv Hp].
  destruct (X509KeyPair cert key) as [c|e] eqn:Hx; apply tspec_ret; rewrite app_nil_r; (split; [done|]); [|done].
  intros c' [= <-]. by exists cert, key.
Qed.

Lemma run_tls_spec {A} (c : M H TlsEff A) Q (s : Srv) a w' tr' :
  c ⊨ Q -> run_tls c s = (a, w', tr') -> exists tr, tr' = SeTls <$> tr /\ Q a tr.
Proof.
  intros Hc. unfold run_tls. destruct (Hc (MkSys (sv_world s) [])) as (tr & Ho & HQ).
  destruct (c (MkSys (sv_world s) [])) as [a' s']; simpl in *. intros [= <- _ <-]. exists tr. by rewrite Ho.
Qed.

Lemma prepare_spec m : (prepare m : M H TlsEff _) ⊨ fun r tr => forall h, r = Ok h ->
  exists pre c, tr = pre ++ [TeLoaded c] /\ h = Some c /\ loaded_good m c pre.
Proof.
  unfold prepare. eapply tspec_bind; [apply EnsureCert_spec|]. intros r tr Hr.
  destruct r as [[cert key]|e]; [|by apply tspec_ret]. destruct (Hr cert key eq_refl) as [Hv Hp].
  destruct (X509KeyPair cert key) as [c|e] eqn:Hx; [|by apply tspec_ret].
  apply tspec_bind_emit, tspec_ret. intros h [= <-]. exists tr, c. do 2 (split; [done|]). by exists cert, key.
Qed.

Lemma start_inv m w0 s : server_start m w0 s -> server_inv m s.
Proof.
  intros [s' e Hp|s' h Hp].
  - split; simpl; try done.
    + intros pre c post E. exfalso. apply (no_handshake_tls (out s') c). rewrite E.
      apply elem_of_app. right. left.
    + intros Hr. by destruct (Hr e).
  - destruct (prepare_spec m (MkSys w0 [])) as (tr & Ho & Hh). rewrite Hp in Ho, Hh. simpl in *. subst tr.
    destruct (Hh h eq_refl) as (pre & c & E & -> & G).
    split; simpl; try done.
    + intros pre' c' post' E'. exfalso. apply (no_handshake_tls (out s') c'). rewrite E'.
      apply elem_of_app. right. left.
    + intros _. exists pre, c, []. rewrite tls_events_tls, E. split; [done|]. split; [|done].
      by intros ? ?%not_elem_of_nil.
Qed.

Lemma step_inv m s s' : server_step m s s' -> server_inv m s -> server_inv m s'.
Proof.
  intros Hstep [Hhs Hsv Hho Hst Hsh Hre]. destruct Hstep as [? ? ? ? ? ? ? Hp| ? ? ? ? ? ? s o w' tr' -> Hrun| | | | | | ]; simpl in *.
  - split; simpl; try done.
    + apply handshakes_snoc; [done|]. by apply Hho, Hsv.
    + intros Hh. apply holder_of_app; [by apply Hho|]. by intros ? ?%not_elem_of_nil.
    + intros x Hx. rewrite tls_events_app. by apply loaded_good_app, Hst.
  - destruct (run_tls_spec _ _ _ _ _ _ (rotate_pair_spec m) Hrun) as (trt & -> & Hn & Hg).
    split; simpl; try done.
    + apply handshakes_app; [done|]. apply no_handshake_tls.
    + intros Hh. apply holder_of_app; [by apply Hho|]. by rewrite tls_events_tls.
    + intros x Hx. destruct o as [y|]; [|done]. injection Hx as ->. rewrite tls_events_app, tls_events_tls.
      destruct (Hg x eq_refl) as (cert & key & ? & ? & ?). exists cert, key. split; [done|].
      split; [eapply valid_for_mono; [|done]|eapply persisted_mono; [|done]]; intros z ?; apply elem_of_app; by right.
  - split; simpl; try done.
    + apply handshakes_app; [done|]. by intros c' [=]%list_elem_of_singleton.
    + intros _. exists (tls_events tr), x, []. rewrite tls_events_app. split; [done|].
      split; [by intros ? ?%not_elem_of_nil|]. split; [done|]. by apply Hst.
  - by split.
  - by split.
  - by split.
  - split; try done. intros _. by apply Hsv.
  - split; try done. intros _. by apply Hsv.
Qed.

Lemma reachable_inv m w0 s0 s : server_start m w0 s0 -> rtc (server_step m) s0 s -> server_inv m s.
Proof.
  intros Hs Hr. pose proof (start_inv m w0 s0 Hs) as Hi. clear Hs.
  induction Hr as [|s1 s2 s3 Hst _ IH]; [done|]. by eapply IH, step_inv.
Qed.

(** A serving server can always be brought to an orderly end: the pending pair is
    stored, the context cancelled, the loop and the listener stop. *)
Lemma graceful_end m (s : Srv) : sv_main s = Serving ->
  exists s', rtc (server_step m) s s' /\ sv_main s' = Returned None /\ sv_loop s' = Stopped.
Proof.
  assert (forall w tr h l c d, l <> Stopped -> (forall x, l <> Storing x) -> exists s',
    rtc (server_step m) (mkServer w tr h l Serving c d : Srv) s' /\
    sv_main s' = Returned None /\ sv_loop s' = Stopped) as Hsel.
  { intros w tr h l c d Hl Hx. destruct l as [|x|]; [|by destruct (Hx x)|done].
    exists (mkServer w tr h Stopped (Returned None) true true). split; [|done].
    eapply rtc_l; [apply step_cancel|]. eapply rtc_l; [apply step_loop_done|].
    eapply rtc_l; [by apply step_shutdown|]. eapply rtc_l; [apply step_closed|]. apply rtc_refl. }
  destruct s as [w tr h l p c d]. simpl. intros ->. destruct l as [|x|].
  - by apply Hsel.
  - destruct (Hsel w (tr ++ [SeTls (TeLoaded x)]) (Some x) Selecting c d) as (s' & Hr & ? & ?); [done..|].
    exists s'. split; [|done]. by eapply rtc_l; [apply step_store|].
  - exists (mkServer w tr h Stopped (Returned None) true true). split; [|done].
    eapply rtc_l; [apply step_cancel|]. eapply rtc_l; [by apply step_shutdown|].
    eapply rtc_l; [apply step_closed|]. apply rtc_refl.
Qed.

(** C32: the running server, whatever the interleaving of handshakes, rotations,
    cancellation and listener errors.  Every handshake ever made presented the
    pair stored last before it, never nil, and that pair had been persisted in the
    Secret and valid for thirty days when it was loaded; so does the next one
    while the server is serving.  [Start] returns nil only after the context was
    cancelled, and from every serving state an orderly end, with the rotation loop
    stopped, can be reached. *)
Theorem server_lifecycle m w0 (s0 s : Srv) : server_start m w0 s0 -> rtc (server_step m) s0 s ->
  handshakes_good m (sv_trace s) /\
  (sv_main s = Serving -> holder_of m (sv_holder s) (sv_trace s)) /\
  (sv_main s = Returned None -> sv_cancelled s = true) /\
  (sv_main s = Serving -> exists s', rtc (server_step m) s s' /\
     sv_main s' = Returned None /\ sv_loop s' = Stopped).
Proof.
  intros Hs Hr. destruct (reachable_inv m w0 s0 s Hs Hr) as [Hhs Hsv Hho Hst Hsh Hre].
  split; [done|]. split; [by intros Hm; apply Hho, Hsv; rewrite Hm|]. split; [by intros ?; apply Hsh, Hre|].
  apply graceful_end.
Qed.
End LifeSpec.
