(* ===== verification/Trust.v ===== *)
(** * What the certificate code writes

    Which Secrets and webhook configurations internal/webhook/tls.go and server.go
    write, in any number of rotation rounds, and what they write there: the API
    server is told to trust only certificates that are in klink's own Secret. *)

From S2P Require Import Prelude Types Tls Server.

Section Trust.
Context `{CL : CryptoLib} {H : Type} `{TW : !TlsWorld H}.
Variable m : TLSManager.

Definition secret_key : NamespacedName := mkNN (tm_namespace m) tlsSecretName.

(** The certificate was read from klink's Secret or saved in it. *)
Definition own_cert (hist : list TlsEff) (ca : string) : Prop :=
  exists s, ca = data s "tls.crt" /\
    (TeGetSecret secret_key (Ok s) ∈ hist \/ TeCreateSecret s (Ok tt) ∈ hist \/ TeUpdateSecret s (Ok tt) ∈ hist).

(** The write [e] is justified by the history before it. *)
Definition write_ok (hist : list TlsEff) (e : TlsEff) : Prop :=
  match e with
  | TeCreateSecret s _ =>
      sec_Name s = tlsSecretName /\ sec_Namespace s = tm_namespace m /\
      ((exists err, IsNotFound err = true /\ TeGetSecret secret_key (Err err) ∈ hist) \/
       exists old, TeGetSecret secret_key (Ok old) ∈ hist /\ sec_Name old = "")
  | TeUpdateSecret s _ =>
      exists old, TeGetSecret secret_key (Ok old) ∈ hist /\
        sec_Name s = sec_Name old /\ sec_Namespace s = sec_Namespace old /\ sec_Type s = sec_Type old
  | TePatchWHC base new _ =>
      (exists name, name ∈ [webhookConfigName; wdValidatorName] /\ TeGetWHC name (Ok base) ∈ hist) /\
      exists ca, own_cert hist ca /\ new = set_ca ca base
  | _ => True
  end.

Definition guarded (hist tr : list TlsEff) : Prop :=
  forall pre e post, tr = pre ++ e :: post -> write_ok (hist ++ pre) e.

Lemma guarded_nil hist : guarded hist [].
Proof. by intros [] e post. Qed.

Lemma guarded_cons hist e tr : write_ok hist e -> guarded (hist ++ [e]) tr -> guarded hist (e :: tr).
Proof.
  intros He Htr [|x pre] e' post Heq; simplify_eq/=; [by rewrite app_nil_r|].
  change (hist ++ x :: pre) with (hist ++ [x] ++ pre). rewrite app_assoc. by eapply Htr.
Qed.

Lemma guarded_app hist tr tr' : guarded hist tr -> guarded (hist ++ tr) tr' -> guarded hist (tr ++ tr').
Proof.
  revert hist. induction tr as [|e tr IH]; intros hist Htr Htr'; [by rewrite app_nil_r in Htr'|].
  simpl. apply guarded_cons; [rewrite <- (app_nil_r hist); by apply (Htr [] e tr)|].
  apply IH; [|by rewrite <- app_assoc].
  intros pre e' post ->. rewrite <- app_assoc. by apply (Htr (e :: pre) e' post).
Qed.

Lemma own_cert_app hist tr ca : own_cert hist ca -> own_cert (hist ++ tr) ca.
Proof. intros (s & ? & Hs). exists s. split; [done|]. rewrite !elem_of_app. tauto. Qed.

(** [justified hist c R]: run after [hist], [c] only makes justified writes, and its
    result and the new history satisfy [R]. *)
Definition justified {A} (hist : list TlsEff) (c : M H TlsEff A) (R : list TlsEff -> A -> Prop) : Prop :=
  c ⊨ fun a tr => guarded hist tr /\ R (hist ++ tr) a.

Lemma justified_ret {A} hist (a : A) (R : list TlsEff -> A -> Prop) : R hist a -> justified hist (mret a) R.
Proof. intros HR. apply tspec_ret. split; [apply guarded_nil|by rewrite app_nil_r]. Qed.

Lemma justified_bind {A B} hist (c : M H TlsEff A) (k : A -> M H TlsEff B) R S :
  justified hist c R -> (forall hist' a, R hist' a -> justified hist' (k a) S) -> justified hist (c ≫= k) S.
Proof.
  intros Hc Hk. eapply tspec_bind; [exact Hc|]. intros a tr [Htr HR].
  eapply tspec_mono; [by apply (Hk _ _ HR)|]. intros b tr' [Htr' HS].
  split; [by apply guarded_app|by rewrite app_assoc].
Qed.

Lemma justified_call {A B} hist (ev : A -> TlsEff) (f : H -> A * H) (k : A -> M H TlsEff B) S :
  (forall a, write_ok hist (ev a) /\ justified (hist ++ [ev a]) (k a) S) -> justified hist (interact ev f ≫= k) S.
Proof.
  intros Hk. apply tspec_bind_interact. intros a. destruct (Hk a) as [Hw Hj].
  eapply tspec_mono; [exact Hj|]. intros b tr [Htr HS].
  split; [by apply guarded_cons|by rewrite <- app_assoc in HS].
Qed.

Lemma justified_weaken {A} hist (c : M H TlsEff A) (R S : list TlsEff -> A -> Prop) :
  justified hist c R -> (forall h a, R h a -> S h a) -> justified hist c S.
Proof. intros Hc HS. eapply tspec_mono; [exact Hc|]. intros a tr [? ?]. auto. Qed.

Abbreviation anything := (fun (_ : list TlsEff) _ => True).

(** *** The parts *)

Lemma patch_loop_justified hist names ca : names ⊆ [webhookConfigName; wdValidatorName] -> own_cert hist ca ->
  justified hist (patch_loop names ca) anything.
Proof.
  revert hist. induction names as [|n names IH]; intros hist Hn Hca; cbn [patch_loop]; [by apply justified_ret|].
  assert (names ⊆ [webhookConfigName; wdValidatorName]) as Hn' by (intros x Hx; apply Hn; by right).
  apply justified_call. intros [whc|e]; (split; [done|]).
  - apply justified_call. intros r. split.
    + split; [exists n; split; [apply Hn; left|apply elem_of_app; right; left]|].
      exists ca. split; [by apply own_cert_app|done].
    + destruct r; [|by apply justified_ret]. apply IH; [done|]. by do 2 apply own_cert_app.
  - destruct (IsNotFound e); [|by apply justified_ret]. apply IH; [done|]. by apply own_cert_app.
Qed.

Lemma publish_justified hist ca : own_cert hist ca -> justified hist (patchWebhookCABundle ca) anything.
Proof. by apply patch_loop_justified. Qed.

Lemma PatchCABundle_justified hist : justified hist (PatchCABundle m) anything.
Proof.
  unfold PatchCABundle. apply justified_call. intros [s|e]; (split; [done|]); [|by apply justified_ret].
  apply publish_justified. exists s. split; [done|]. left. apply elem_of_app. right. left.
Qed.

(** Generating a pair writes nothing and keeps the history. *)
Lemma generateCert_justified hist : justified hist (generateCert m) (fun h _ => exists tr, h = hist ++ tr).
Proof.
  unfold generateCert, tls_Now. apply justified_call. intros [key|e]; (split; [done|]); [|apply justified_ret; by eexists].
  apply justified_call. intros now. split; [done|].
  apply justified_call. intros [serial|e]; (split; [done|]); [|apply justified_ret; rewrite <- !app_assoc; by eexists].
  apply justified_call. intros d. split; [done|]. destruct d; apply justified_ret; rewrite <- !app_assoc; by eexists.
Qed.

Lemma data_crt (c k : string) nm ns ty : data (mkSecret nm ns ty (<["tls.crt" := c]> (<["tls.key" := k]> ∅))) "tls.crt" = c.
Proof. unfold data. simpl. by rewrite lookup_insert_eq. Qed.

(** What [EnsureCert] knows when it rotates. *)
Definition read_answer (hist : list TlsEff) (existing : option Secret) : Prop :=
  match existing with
  | Some s => TeGetSecret secret_key (Ok s) ∈ hist
  | None => exists e, IsNotFound e = true /\ TeGetSecret secret_key (Err e) ∈ hist
  end.

Lemma read_answer_app hist tr existing : read_answer hist existing -> read_answer (hist ++ tr) existing.
Proof.
  destruct existing; simpl; [intros ?; apply elem_of_app; by left|].
  intros (e & ? & ?). exists e. split; [done|]. apply elem_of_app. by left.
Qed.

Lemma rotate_justified hist existing : read_answer hist existing -> justified hist (rotate m existing) anything.
Proof.
  intros Hr. unfold rotate. eapply justified_bind; [apply generateCert_justified|].
  intros hist1 [[cert key]|e] [tr ->]; [|by apply justified_ret].
  apply (read_answer_app _ tr) in Hr. set (h1 := hist ++ tr) in *. clearbody h1. cbv zeta.
  destruct (decide _) as [Hn|Hn].
  - apply justified_call. intros r. split.
    + split; [done|]. split; [done|]. destruct existing as [s|]; [right; by exists s|by left].
    + destruct r as [[]|e]; [|by apply justified_ret]. eapply justified_bind; [|intros; by apply justified_ret].
      apply publish_justified. eexists. split; [symmetry; apply data_crt|]. right. left. apply elem_of_app. right. left.
  - destruct existing as [s|]; [|done]. apply justified_call. intros r. split; [by exists s|].
    destruct r as [[]|e]; [|by apply justified_ret]. eapply justified_bind; [|intros; by apply justified_ret].
    apply publish_justified. eexists. split; [symmetry; apply data_crt|]. right. right. apply elem_of_app. right. left.
Qed.

Lemma certNeedsRenewal_justified hist cert :
  justified hist (certNeedsRenewal cert) (fun h _ => exists tr, h = hist ++ tr).
Proof.
  unfold certNeedsRenewal, tls_Now. assert (exists tr, hist = hist ++ tr) as Hsame by (exists []; by rewrite app_nil_r).
  destruct (pem_Decode cert) as [b|]; [destruct (ParseCertificate_NotAfter b)|]; [|by apply justified_ret..].
  apply justified_call. intros now. split; [done|]. apply justified_ret. by eexists.
Qed.

Lemma EnsureCert_justified hist : justified hist (EnsureCert m) anything.
Proof.
  unfold EnsureCert. apply justified_call. intros [s|e]; (split; [done|]).
  - eapply justified_bind; [apply certNeedsRenewal_justified|]. intros h renew [tr ->].
    assert (read_answer ((hist ++ [TeGetSecret secret_key (Ok s)]) ++ tr) (Some s)) as Hr
      by (apply read_answer_app, elem_of_app; right; left).
    destruct renew; [by apply rotate_justified|]. eapply justified_bind; [|intros; by apply justified_ret].
    apply publish_justified. exists s. split; [done|by left].
  - destruct (IsNotFound e) eqn:He; [|by apply justified_ret]. apply rotate_justified. exists e. split; [done|].
    apply elem_of_app. right. left.
Qed.

(** *** The running server *)

Lemma prepare_justified hist : justified hist (prepare m) anything.
Proof.
  eapply justified_bind; [apply EnsureCert_justified|]. intros h [[cert key]|e] _; [|by apply justified_ret].
  destruct (X509KeyPair cert key); [|by apply justified_ret].
  apply tspec_bind_emit, tspec_ret. split; [|done]. apply guarded_cons; [done|apply guarded_nil].
Qed.

Lemma rotate_pair_justified hist : justified hist (rotate_pair m) anything.
Proof.
  eapply justified_bind; [apply EnsureCert_justified|]. intros h [[cert key]|e] _; [|by apply justified_ret].
  destruct (X509KeyPair cert key); by apply justified_ret.
Qed.

Abbreviation Srv := (Server (H := H)).

Lemma start_guarded w0 (s : Srv) : server_start m w0 s -> guarded [] (tls_events (sv_trace s)).
Proof.
  intros Hs. destruct (prepare_justified [] (MkSys w0 [])) as (tr & Ho & Hg & _).
  destruct Hs as [s' e Hp|s' h Hp]; simpl; rewrite Hp in Ho; simpl in Ho; by rewrite tls_events_tls, Ho.
Qed.

Lemma step_guarded (s s' : Srv) : server_step m s s' ->
  guarded [] (tls_events (sv_trace s)) -> guarded [] (tls_events (sv_trace s')).
Proof.
  intros Hstep Hg. destruct Hstep as [| ? ? ? ? ? ? s o w' tr' -> Hrun| | | | | | ]; simpl in *; try done.
  - rewrite tls_events_app. by apply guarded_app; [|apply guarded_nil].
  - destruct (run_tls_spec _ _ _ _ _ _ (rotate_pair_justified (tls_events tr)) Hrun) as (trt & -> & Ht & _).
    rewrite tls_events_app, tls_events_tls. by apply guarded_app.
  - rewrite tls_events_app. apply guarded_app; [done|]. apply guarded_cons; [done|apply guarded_nil].
Qed.

Lemma reachable_guarded w0 (s0 s : Srv) :
  server_start m w0 s0 -> rtc (server_step m) s0 s -> guarded [] (tls_events (sv_trace s)).
Proof.
  intros Hs%start_guarded Hr. induction Hr as [|s1 s2 s3 Hst _ IH]; [done|]. by eapply IH, step_guarded.
Qed.

Lemma StartRotationLoop_justified fuel hist : justified hist (StartRotationLoop fuel m) anything.
Proof.
  revert hist. induction fuel as [|fuel IH]; intros hist; cbn [StartRotationLoop]; [by apply justified_ret|].
  apply justified_call. intros []; (split; [done|]); [by apply justified_ret|].
  eapply (justified_bind _ _ _ anything); [|intros; apply IH].
  eapply justified_bind; [apply EnsureCert_justified|]. intros h [c|e] _; [|by apply justified_ret].
  eapply justified_bind; [apply PatchCABundle_justified|]. intros. by apply justified_ret.
Qed.

(** C33: the certificate code writes only what is its own.  In every reachable state
    of the server, whatever the interleaving, and in any number of rounds of the TLS
    manager's own loop, and whatever the API server answers, every write is
    justified by the calls before it.  A Secret is created only under klink's name
    in its namespace, after it was reported missing; it is updated only in its
    data.  A webhook configuration is patched only if it is one of the two of klink
    and was just read, only in its CA bundles, and only with a certificate that was
    read from klink's Secret or has been saved there. *)
Theorem tls_writes_justified w0 (s0 s : Srv) fuel :
  server_start m w0 s0 -> rtc (server_step m) s0 s ->
  (forall pre e post, tls_events (sv_trace s) = pre ++ e :: post -> write_ok pre e) /\
  ((StartRotationLoop fuel m : M H TlsEff _) ⊨ fun _ tr => forall pre e post, tr = pre ++ e :: post -> write_ok pre e).
Proof.
  intros Hs Hr. split.
  - intros pre e post Heq. by apply (reachable_guarded w0 s0 s Hs Hr pre e post).
  - eapply tspec_mono; [apply (StartRotationLoop_justified fuel [])|].
    intros a tr [Hg _] pre e post Heq. by apply (Hg pre e post).
Qed.
End Trust.
