(* ===== verification/MemTls.v ===== *)
(** * A certificate library and store in memory

    A toy instance of [CryptoLib] and [TlsWorld] that satisfies [TlsLaws]: a
    certificate is the text of its expiry.  It shows that the laws the TLS
    theorems rely on can hold, and runs them on an expiring certificate. *)

From S2P Require Import Prelude Types Tls Server Trust.

(** Expiry times as text: a sign and the binary digits below the leading one. *)
Fixpoint pos_text (p : positive) : string :=
  match p with
  | xH => ""
  | xO p => String (Ascii.ascii_of_nat 48) (pos_text p)
  | xI p => String (Ascii.ascii_of_nat 49) (pos_text p)
  end.

Fixpoint text_pos (s : string) : positive :=
  match s with
  | "" => xH
  | String c s' => if decide (c = Ascii.ascii_of_nat 48) then xO (text_pos s') else xI (text_pos s')
  end.

Definition z_text (z : Z) : string :=
  match z with
  | Z0 => "z"
  | Zpos p => "p" +:+ pos_text p
  | Zneg p => "n" +:+ pos_text p
  end.

Definition text_z (s : string) : option Z :=
  match s with
  | "" => None
  | String c s' =>
      if decide (String c "" = "z") then Some 0
      else if decide (String c "" = "p") then Some (Zpos (text_pos s'))
      else if decide (String c "" = "n") then Some (Zneg (text_pos s'))
      else None
  end.

Lemma text_pos_text p : text_pos (pos_text p) = p.
Proof. induction p as [p IH|p IH|]; simpl; [by rewrite IH|by rewrite IH|done]. Qed.

Lemma text_z_text z : text_z (z_text z) = Some z.
Proof.
  destruct z as [|p|p]; [done|..].
  - by apply (f_equal (fun q => Some (Zpos q))), text_pos_text.
  - by apply (f_equal (fun q => Some (Zneg q))), text_pos_text.
Qed.

#[export] Instance mem_crypto : CryptoLib := {
  PrivateKey := unit;
  TLSCertificate := string;
  pem_Encode _ b := b;
  pem_Decode s := Some s;
  ParseCertificate_NotAfter := text_z;
  MarshalPKCS1PrivateKey _ := "key";
  X509KeyPair c _ := Ok c
}.

Record CertWorld := mkCertWorld { cw_clock : Z; cw_secret : option Secret }.

#[export] Instance mem_tls : TlsWorld CertWorld := {
  tw_Now w := (cw_clock w, w);
  tw_GetSecret _ w :=
    (match cw_secret w with Some s => Ok s | None => Err (ErrNotFound "secret") end, w);
  tw_CreateSecret s w := (Ok tt, mkCertWorld (cw_clock w) (Some s));
  tw_UpdateSecret s w := (Ok tt, mkCertWorld (cw_clock w) (Some s));
  tw_GetWHC _ w := (Err (ErrNotFound "webhook configuration"), w);
  tw_PatchWHC _ _ w := (Ok tt, w);
  tw_GenerateKey w := (Ok tt, w);
  tw_RandInt w := (Ok 1, w);
  tw_CreateCertificate t _ w := (Ok (z_text (tp_NotAfter t / Second * Second)), w);
  tw_Select w := (false, w)
}.

#[export] Instance mem_tls_laws : TlsLaws.
Proof.
  split; [done|]. intros t key w der [= <-]. apply text_z_text.
Qed.

Definition manager : TLSManager := mkTLSManager "klink-system" "klink-webhook".

(** A certificate with ten days left is replaced by one with a year. *)
Definition expiring : CertWorld :=
  mkCertWorld 0 (Some (mkSecret tlsSecretName "klink-system" "kubernetes.io/tls"
    {[ "tls.crt" := z_text (10 * Day); "tls.key" := "old" ]})).

Example expiring_is_rotated :
  (EnsureCert manager (MkSys expiring [])).1 = Ok (z_text (365 * Day), "key").
Proof. vm_compute. reflexivity. Qed.

Lemma EnsureCert_sound_witness :
  (EnsureCert manager : M CertWorld TlsEff _) ⊨ fun r tr => forall cert key,
    r = Ok (cert, key) -> persisted manager cert key tr.
Proof.
  eapply tspec_mono; [apply (EnsureCert_sound manager)|].
  intros r tr Hr cert key He. apply (Hr cert key He).
Defined.

(** ** A server that rotates under way

    The stored certificate has ten days left.  A first handshake sees the new
    one that [prepare] made; then the loop runs, a handshake comes in between the
    loading and the storing, and another after it. *)
Definition started : Server (H := CertWorld) :=
  let '(r, s) := prepare manager (MkSys expiring []) in
  mkServer (env s) (SeTls <$> out s) (match r with Ok h => h | Err _ => None end)
    Selecting Serving false false.

Lemma started_starts : server_start manager expiring started.
Proof.
  unfold started. destruct (prepare manager (MkSys expiring [])) as [r s] eqn:E.
  assert (is_ok r = true) as Hr.
  { transitivity (is_ok (fst (prepare manager (MkSys expiring [])))); [by rewrite E|vm_compute; reflexivity]. }
  destruct r as [h|e]; [|discriminate Hr]. by apply start_serving.
Defined.

Definition handshake (s : Server (H := CertWorld)) : Server :=
  mkServer (sv_world s) (sv_trace s ++ [SeHandshake (sv_holder s)]) (sv_holder s) (sv_loop s) (sv_main s)
    (sv_cancelled s) (sv_shutdown s).
Definition tick (s : Server (H := CertWorld)) : Server :=
  let '(o, w', tr') := run_tls (rotate_pair manager) s in
  mkServer w' (sv_trace s ++ tr') (sv_holder s)
    (match o with Some x => Storing x | None => Selecting end) (sv_main s) (sv_cancelled s) (sv_shutdown s).

Lemma handshake_steps s : sv_main s = Serving -> server_step manager s (handshake s).
Proof. destruct s. simpl. intros ->. apply step_handshake. intros e. discriminate. Defined.

Lemma tick_steps s : sv_loop s = Selecting -> server_step manager s (tick s).
Proof.
  intros Hl. unfold tick. destruct (run_tls (rotate_pair manager) s) as [[o w'] tr'] eqn:E.
  eapply (step_tick manager (sv_world s) (sv_trace s) (sv_holder s) (sv_main s)); [|exact E].
  destruct s. simpl in *. by rewrite Hl.
Defined.

Definition rotated : Server (H := CertWorld) := handshake (tick (handshake started)).

Lemma rotated_reached : rtc (server_step manager) started rotated.
Proof.
  eapply rtc_l; [apply handshake_steps; vm_compute; reflexivity|].
  eapply rtc_l; [apply tick_steps; vm_compute; reflexivity|].
  eapply rtc_l; [apply handshake_steps; vm_compute; reflexivity|]. apply rtc_refl.
Defined.

Lemma server_lifecycle_witness : handshakes_good manager (sv_trace rotated).
Proof. apply (server_lifecycle manager expiring started rotated started_starts rotated_reached). Defined.

Definition is_update (e : TlsEff) : bool := match e with TeUpdateSecret _ _ => true | _ => false end.

(** The run writes the first certificate over the expiring one, and rightly so. *)
Lemma tls_writes_justified_witness :
  existsb is_update (tls_events (sv_trace rotated)) = true /\
  (forall pre e post, tls_events (sv_trace rotated) = pre ++ e :: post -> write_ok manager pre e).
Proof.
  split; [vm_compute; reflexivity|].
  apply (tls_writes_justified manager expiring started rotated 2 started_starts rotated_reached).
Defined.
