(* ===== verification/Flags.v ===== *)
(** * Command-line flags (the first half of cmd/main.go)

    The flags [main] defines, with their defaults, and [flag.Parse] of the
    standard library on them: one or two dashes, [name=value] or [name value],
    booleans that need no value, and the end of the flags at the first other
    argument or after a double dash.  Flags that libraries bind to the same
    command line (zap's options, the kubeconfig of controller-runtime) are the
    class [LibFlags]. *)

From S2P Require Import Prelude.
From Stdlib Require Import Ascii.

(** The variables of [main] that flags set. *)
Record Flags := mkFlags {
  metricsAddr : string;
  probeAddr : string;
  enableLeaderElection : bool;
  secureMetrics : bool;
  webhookCertPath : string;
  webhookCertName : string;
  webhookCertKey : string;
  metricsCertPath : string;
  metricsCertName : string;
  metricsCertKey : string;
  enableHTTP2 : bool;
  enableGateWebhook : bool;
  webhookAddr : string;
  webhookSvcName : string;
  operatorNamespace : string;
  watchNamespace : string
}.

#[export] Instance Flags_eq_dec : EqDecision Flags.
Proof. solve_decision. Defined.

Definition default_flags : Flags :=
  mkFlags "0" ":8081" false false "" "tls.crt" "tls.key" "" "tls.crt" "tls.key" false false ":9443"
    "klink-webhook" "klink-system" "".

(** [flag.StringVar] and [flag.BoolVar]: what setting the flag does. *)
Inductive FlagVar :=
  | StringVar (set : string -> Flags -> Flags)
  | BoolVar (set : bool -> Flags -> Flags).

Definition set_metricsAddr v f := mkFlags v (probeAddr f) (enableLeaderElection f) (secureMetrics f)
  (webhookCertPath f) (webhookCertName f) (webhookCertKey f) (metricsCertPath f) (metricsCertName f)
  (metricsCertKey f) (enableHTTP2 f) (enableGateWebhook f) (webhookAddr f) (webhookSvcName f)
  (operatorNamespace f) (watchNamespace f).
Definition set_probeAddr v f := mkFlags (metricsAddr f) v (enableLeaderElection f) (secureMetrics f)
  (webhookCertPath f) (webhookCertName f) (webhookCertKey f) (metricsCertPath f) (metricsCertName f)
  (metricsCertKey f) (enableHTTP2 f) (enableGateWebhook f) (webhookAddr f) (webhookSvcName f)
  (operatorNamespace f) (watchNamespace f).
Definition set_enableLeaderElection v f := mkFlags (metricsAddr f) (probeAddr f) v (secureMetrics f)
  (webhookCertPath f) (webhookCertName f) (webhookCertKey f) (metricsCertPath f) (metricsCertName f)
  (metricsCertKey f) (enableHTTP2 f) (enableGateWebhook f) (webhookAddr f) (webhookSvcName f)
  (operatorNamespace f) (watchNamespace f).
Definition set_secureMetrics v f := mkFlags (metricsAddr f) (probeAddr f) (enableLeaderElection f) v
  (webhookCertPath f) (webhookCertName f) (webhookCertKey f) (metricsCertPath f) (metricsCertName f)
  (metricsCertKey f) (enableHTTP2 f) (enableGateWebhook f) (webhookAddr f) (webhookSvcName f)
  (operatorNamespace f) (watchNamespace f).
Definition set_webhookCertPath v f := mkFlags (metricsAddr f) (probeAddr f) (enableLeaderElection f)
  (secureMetrics f) v (webhookCertName f) (webhookCertKey f) (metricsCertPath f) (metricsCertName f)
  (metricsCertKey f) (enableHTTP2 f) (enableGateWebhook f) (webhookAddr f) (webhookSvcName f)
  (operatorNamespace f) (watchNamespace f).
Definition set_webhookCertName v f := mkFlags (metricsAddr f) (probeAddr f) (enableLeaderElection f)
  (secureMetrics f) (webhookCertPath f) v (webhookCertKey f) (metricsCertPath f) (metricsCertName f)
  (metricsCertKey f) (enableHTTP2 f) (enableGateWebhook f) (webhookAddr f) (webhookSvcName f)
  (operatorNamespace f) (watchNamespace f).
Definition set_webhookCertKey v f := mkFlags (metricsAddr f) (probeAddr f) (enableLeaderElection f)
  (secureMetrics f) (webhookCertPath f) (webhookCertName f) v (metricsCertPath f) (metricsCertName f)
  (metricsCertKey f) (enableHTTP2 f) (enableGateWebhook f) (webhookAddr f) (webhookSvcName f)
  (operatorNamespace f) (watchNamespace f).
Definition set_metricsCertPath v f := mkFlags (metricsAddr f) (probeAddr f) (enableLeaderElection f)
  (secureMetrics f) (webhookCertPath f) (webhookCertName f) (webhookCertKey f) v (metricsCertName f)
  (metricsCertKey f) (enableHTTP2 f) (enableGateWebhook f) (webhookAddr f) (webhookSvcName f)
  (operatorNamespace f) (watchNamespace f).
Definition set_metricsCertName v f := mkFlags (metricsAddr f) (probeAddr f) (enableLeaderElection f)
  (secureMetrics f) (webhookCertPath f) (webhookCertName f) (webhookCertKey f) (metricsCertPath f) v
  (metricsCertKey f) (enableHTTP2 f) (enableGateWebhook f) (webhookAddr f) (webhookSvcName f)
  (operatorNamespace f) (watchNamespace f).
Definition set_metricsCertKey v f := mkFlags (metricsAddr f) (probeAddr f) (enableLeaderElection f)
  (secureMetrics f) (webhookCertPath f) (webhookCertName f) (webhookCertKey f) (metricsCertPath f)
  (metricsCertName f) v (enableHTTP2 f) (enableGateWebhook f) (webhookAddr f) (webhookSvcName f)
  (operatorNamespace f) (watchNamespace f).
Definition set_enableHTTP2 v f := mkFlags (metricsAddr f) (probeAddr f) (enableLeaderElection f)
  (secureMetrics f) (webhookCertPath f) (webhookCertName f) (webhookCertKey f) (metricsCertPath f)
  (metricsCertName f) (metricsCertKey f) v (enableGateWebhook f) (webhookAddr f) (webhookSvcName f)
  (operatorNamespace f) (watchNamespace f).
Definition set_enableGateWebhook v f := mkFlags (metricsAddr f) (probeAddr f) (enableLeaderElection f)
  (secureMetrics f) (webhookCertPath f) (webhookCertName f) (webhookCertKey f) (metricsCertPath f)
  (metricsCertName f) (metricsCertKey f) (enableHTTP2 f) v (webhookAddr f) (webhookSvcName f)
  (operatorNamespace f) (watchNamespace f).
Definition set_webhookAddr v f := mkFlags (metricsAddr f) (probeAddr f) (enableLeaderElection f)
  (secureMetrics f) (webhookCertPath f) (webhookCertName f) (webhookCertKey f) (metricsCertPath f)
  (metricsCertName f) (metricsCertKey f) (enableHTTP2 f) (enableGateWebhook f) v (webhookSvcName f)
  (operatorNamespace f) (watchNamespace f).
Definition set_webhookSvcName v f := mkFlags (metricsAddr f) (probeAddr f) (enableLeaderElection f)
  (secureMetrics f) (webhookCertPath f) (webhookCertName f) (webhookCertKey f) (metricsCertPath f)
  (metricsCertName f) (metricsCertKey f) (enableHTTP2 f) (enableGateWebhook f) (webhookAddr f) v
  (operatorNamespace f) (watchNamespace f).
Definition set_operatorNamespace v f := mkFlags (metricsAddr f) (probeAddr f) (enableLeaderElection f)
  (secureMetrics f) (webhookCertPath f) (webhookCertName f) (webhookCertKey f) (metricsCertPath f)
  (metricsCertName f) (metricsCertKey f) (enableHTTP2 f) (enableGateWebhook f) (webhookAddr f)
  (webhookSvcName f) v (watchNamespace f).
Definition set_watchNamespace v f := mkFlags (metricsAddr f) (probeAddr f) (enableLeaderElection f)
  (secureMetrics f) (webhookCertPath f) (webhookCertName f) (webhookCertKey f) (metricsCertPath f)
  (metricsCertName f) (metricsCertKey f) (enableHTTP2 f) (enableGateWebhook f) (webhookAddr f)
  (webhookSvcName f) (operatorNamespace f) v.

(** The table that the calls of [flag.StringVar] and [flag.BoolVar] build. *)
Definition formal : list (string * FlagVar) :=
  [ ("metrics-bind-address", StringVar set_metricsAddr);
    ("health-probe-bind-address", StringVar set_probeAddr);
    ("leader-elect", BoolVar set_enableLeaderElection);
    ("metrics-secure", BoolVar set_secureMetrics);
    ("webhook-cert-path", StringVar set_webhookCertPath);
    ("webhook-cert-name", StringVar set_webhookCertName);
    ("webhook-cert-key", StringVar set_webhookCertKey);
    ("metrics-cert-path", StringVar set_metricsCertPath);
    ("metrics-cert-name", StringVar set_metricsCertName);
    ("metrics-cert-key", StringVar set_metricsCertKey);
    ("enable-http2", BoolVar set_enableHTTP2);
    ("enable-gate-webhook", BoolVar set_enableGateWebhook);
    ("gate-webhook-addr", StringVar set_webhookAddr);
    ("gate-webhook-service", StringVar set_webhookSvcName);
    ("namespace", StringVar set_operatorNamespace);
    ("watch-namespace", StringVar set_watchNamespace) ].

Fixpoint find_flag (name : string) (l : list (string * FlagVar)) : option FlagVar :=
  match l with
  | [] => None
  | (n, v) :: l' => if decide (n = name) then Some v else find_flag name l'
  end.

(** [strconv.ParseBool]. *)
Definition ParseBool (s : string) : option bool :=
  if decide (s ∈ ["1"; "t"; "T"; "TRUE"; "true"; "True"]) then Some true
  else if decide (s ∈ ["0"; "f"; "F"; "FALSE"; "false"; "False"]) then Some false
  else None.

(** Flags bound by libraries: whether a name is one, and a boolean one, and
    whether it accepts a value. *)
Class LibFlags := {
  lib_flag : string -> option bool;
  lib_accepts : string -> string -> bool
}.

(** What [flag.Parse] comes to: the flags set, or the process ends with 0 after
    printing the usage, or with 2. *)
Inductive Parsed :=
  | ParsedFlags (f : Flags) (lib : list (string * string)) (rest : list string)
  | ParseHelp
  | ParseError (msg : string).

(** The dashes: not a flag, the end of the flags, bad syntax, or the text after them. *)
Inductive Lexed := NotFlag | EndOfFlags | BadSyntax | FlagText (t : string).

Definition lex (s : string) : Lexed :=
  match s with
  | String "-" s1 =>
      match s1 with
      | EmptyString => NotFlag
      | String "-" EmptyString => EndOfFlags
      | String "-" (String c t as s2) =>
          if decide (c = "-"%char \/ c = "="%char) then BadSyntax else FlagText s2
      | String c t => if decide (c = "="%char) then BadSyntax else FlagText s1
      end
  | _ => NotFlag
  end%char.

(** The name and, after the first equals sign that is not the first character,
    the value. *)
Fixpoint split_eq (t : string) : string * option string :=
  match t with
  | EmptyString => (EmptyString, None)
  | String c t' =>
      if decide (c = "="%char) then (EmptyString, Some t')
      else let '(n, v) := split_eq t' in (String c n, v)
  end.

Definition name_value (t : string) : string * option string :=
  match t with
  | EmptyString => (EmptyString, None)
  | String c t' => let '(n, v) := split_eq t' in (String c n, v)
  end.

Section Parse.
Context `{LF : LibFlags}.

(** How a name is declared: a flag of [main] or of a library, boolean or not. *)
Inductive Declared := OwnFlag (v : FlagVar) | LibFlag (is_bool : bool).
Definition declared (name : string) : option Declared :=
  match find_flag name formal with
  | Some v => Some (OwnFlag v)
  | None => LibFlag <$> lib_flag name
  end.
Definition is_bool_flag (d : Declared) : bool :=
  match d with
  | OwnFlag (BoolVar _) | LibFlag true => true
  | _ => false
  end.

(** [flag.Value.Set]. *)
Definition set_flag (name value : string) (d : Declared) (st : Flags * list (string * string))
    : option (Flags * list (string * string)) :=
  match d with
  | OwnFlag (StringVar set) => Some (set value st.1, st.2)
  | OwnFlag (BoolVar set) => b ← ParseBool value; Some (set b st.1, st.2)
  | LibFlag _ => if lib_accepts name value then Some (st.1, st.2 ++ [(name, value)]) else None
  end.

(** [FlagSet.Parse]: [parseOne] until it stops. *)
Fixpoint Parse_loop (args : list string) (st : Flags * list (string * string)) {struct args} : Parsed :=
  match args with
  | [] => ParsedFlags st.1 st.2 []
  | s :: args' =>
      match lex s with
      | NotFlag => ParsedFlags st.1 st.2 args
      | EndOfFlags => ParsedFlags st.1 st.2 args'
      | BadSyntax => ParseError ("bad flag syntax: " +:+ s)
      | FlagText t =>
          let '(name, value) := name_value t in
          match declared name with
          | None =>
              if decide (name = "help" \/ name = "h") then ParseHelp
              else ParseError ("flag provided but not defined: -" +:+ name)
          | Some d =>
              match value with
              | Some v =>
                  match set_flag name v d st with
                  | Some st' => Parse_loop args' st'
                  | None => ParseError ("invalid value for -" +:+ name)
                  end
              | None =>
                  if is_bool_flag d then
                    match set_flag name "true" d st with
                    | Some st' => Parse_loop args' st'
                    | None => ParseError ("invalid boolean flag " +:+ name)
                    end
                  else
                    match args' with
                    | [] => ParseError ("flag needs an argument: -" +:+ name)
                    | v :: args'' =>
                        match set_flag name v d st with
                        | Some st' => Parse_loop args'' st'
                        | None => ParseError ("invalid value for -" +:+ name)
                        end
                    end
              end
          end
      end
  end.

Definition Parse (args : list string) : Parsed := Parse_loop args (default_flags, []).
End Parse.

(** ** Printing flags

    [print_flags f] sets every flag; [print_bool] is accepted by [ParseBool]. *)

Definition print_bool (b : bool) : string := if b then "true" else "false".

Definition print_flags (f : Flags) : list string :=
  [ "--metrics-bind-address=" +:+ metricsAddr f;
    "--health-probe-bind-address=" +:+ probeAddr f;
    "--leader-elect=" +:+ print_bool (enableLeaderElection f);
    "--metrics-secure=" +:+ print_bool (secureMetrics f);
    "--webhook-cert-path=" +:+ webhookCertPath f;
    "--webhook-cert-name=" +:+ webhookCertName f;
    "--webhook-cert-key=" +:+ webhookCertKey f;
    "--metrics-cert-path=" +:+ metricsCertPath f;
    "--metrics-cert-name=" +:+ metricsCertName f;
    "--metrics-cert-key=" +:+ metricsCertKey f;
    "--enable-http2=" +:+ print_bool (enableHTTP2 f);
    "--enable-gate-webhook=" +:+ print_bool (enableGateWebhook f);
    "--gate-webhook-addr=" +:+ webhookAddr f;
    "--gate-webhook-service=" +:+ webhookSvcName f;
    "--namespace=" +:+ operatorNamespace f;
    "--watch-namespace=" +:+ watchNamespace f ].

Section ParseSpec.
Context `{LF : LibFlags}.

(** One printed string flag, and one printed boolean. *)
Lemma parse_string_flag name set v rest st :
  find_flag name formal = Some (StringVar set) ->
  lex ("--" +:+ name +:+ "=" +:+ v) = FlagText (name +:+ "=" +:+ v) ->
  name_value (name +:+ "=" +:+ v) = (name, Some v) ->
  Parse_loop (("--" +:+ name +:+ "=" +:+ v) :: rest) st = Parse_loop rest (set v st.1, st.2).
Proof. intros Hf Hl Hn. cbn [Parse_loop]. rewrite Hl, Hn. unfold declared. by rewrite Hf. Qed.

Lemma parse_bool_flag name set b rest st :
  find_flag name formal = Some (BoolVar set) ->
  lex ("--" +:+ name +:+ "=" +:+ print_bool b) = FlagText (name +:+ "=" +:+ print_bool b) ->
  name_value (name +:+ "=" +:+ print_bool b) = (name, Some (print_bool b)) ->
  Parse_loop (("--" +:+ name +:+ "=" +:+ print_bool b) :: rest) st = Parse_loop rest (set b st.1, st.2).
Proof.
  intros Hf Hl Hn. cbn [Parse_loop]. rewrite Hl, Hn. unfold declared. rewrite Hf. cbn [set_flag].
  assert (ParseBool (print_bool b) = Some b) as -> by (destruct b; reflexivity). done.
Qed.

Ltac one_flag lem name :=
  etrans; [refine (lem name _ _ _ _ _ _ _); reflexivity|].

(** C30: printing and parsing flags.  Whatever was set before, the arguments that
    print [f] set every flag of [main] to its value in [f], values with spaces,
    dashes or equals signs included, and the parser goes on with the rest; so
    from the defaults it yields exactly [f] and leaves the remaining arguments. *)
Theorem flags_roundtrip f rest st :
  Parse_loop (print_flags f ++ rest) st = Parse_loop rest (f, st.2) /\
  Parse (print_flags f) = ParsedFlags f [] [].
Proof.
  assert (forall rest st, Parse_loop (print_flags f ++ rest) st = Parse_loop rest (f, st.2)) as Hr.
  { intros r s. unfold print_flags. cbn [app].
    one_flag parse_string_flag "metrics-bind-address". one_flag parse_string_flag "health-probe-bind-address".
    one_flag parse_bool_flag "leader-elect". one_flag parse_bool_flag "metrics-secure".
    one_flag parse_string_flag "webhook-cert-path". one_flag parse_string_flag "webhook-cert-name".
    one_flag parse_string_flag "webhook-cert-key". one_flag parse_string_flag "metrics-cert-path".
    one_flag parse_string_flag "metrics-cert-name". one_flag parse_string_flag "metrics-cert-key".
    one_flag parse_bool_flag "enable-http2". one_flag parse_bool_flag "enable-gate-webhook".
    one_flag parse_string_flag "gate-webhook-addr". one_flag parse_string_flag "gate-webhook-service".
    one_flag parse_string_flag "namespace". one_flag parse_string_flag "watch-namespace".
    by destruct f. }
  split; [apply Hr|]. unfold Parse. rewrite <- (app_nil_r (print_flags f)), Hr. done.
Qed.
End ParseSpec.
