(* ===== verification/Manager.v ===== *)
(** * Startup (cmd/main.go and [SetupWithManager])

    [main] from its arguments to the exit status: the options of the manager, the
    registration of the field indexes and of the controller, the webhook server,
    the health checks and the start.  controller-runtime's manager is library
    code: its calls are the class [ManagerLib], and each is recorded with its
    outcome. *)

From S2P Require Import Prelude Types Cluster Health Watch Tls Flags.

(** ** Options *)

(** [tls.Config], down to the field the options touch. *)
Record TlsConfig := mkTlsConfig { NextProtos : list string }.
Definition TLSOpt : Type := TlsConfig -> TlsConfig.

Definition disableHTTP2 : TLSOpt := fun _ => mkTlsConfig ["http/1.1"].

(** What a server does with its options before it listens. *)
Definition apply_opts (opts : list TLSOpt) (c : TlsConfig) : TlsConfig := foldl (fun c o => o c) c opts.

Record WebhookServerOptions := mkWebhookServerOptions {
  wso_TLSOpts : list TLSOpt;
  wso_CertDir : string;
  wso_CertName : string;
  wso_KeyName : string
}.

(** [FilterProvider] is authentication and authorization, or nil. *)
Record MetricsServerOptions := mkMetricsServerOptions {
  mso_BindAddress : string;
  mso_SecureServing : bool;
  mso_TLSOpts : list TLSOpt;
  mso_WithAuth : bool;
  mso_CertDir : string;
  mso_CertName : string;
  mso_KeyName : string
}.

(** [cache.Options]: the namespaces cached for a kind, and for the other kinds
    ([None]: all). *)
Record CacheOptions := mkCacheOptions {
  ByObject : gmap string (gset string);
  DefaultNamespaces : option (gset string)
}.

Record ManagerOptions := mkManagerOptions {
  mo_Metrics : MetricsServerOptions;
  mo_WebhookServer : WebhookServerOptions;
  mo_HealthProbeBindAddress : string;
  mo_LeaderElection : bool;
  mo_LeaderElectionID : string;
  mo_Cache : CacheOptions
}.

Definition tlsOpts (f : Flags) : list TLSOpt := if enableHTTP2 f then [] else [disableHTTP2].

Definition webhookServerOptions (f : Flags) : WebhookServerOptions :=
  if decide (webhookCertPath f = "") then mkWebhookServerOptions (tlsOpts f) "" "" ""
  else mkWebhookServerOptions (tlsOpts f) (webhookCertPath f) (webhookCertName f) (webhookCertKey f).

Definition metricsServerOptions (f : Flags) : MetricsServerOptions :=
  let '(dir, cert, key) :=
    if decide (metricsCertPath f = "") then ("", "", "")
    else (metricsCertPath f, metricsCertName f, metricsCertKey f) in
  mkMetricsServerOptions (metricsAddr f) (secureMetrics f) (tlsOpts f) (secureMetrics f) dir cert key.

Definition cacheOpts (f : Flags) : CacheOptions :=
  mkCacheOptions {[ "Secret" := {[ operatorNamespace f ]} ]}
    (if decide (watchNamespace f = "") then None else Some {[ watchNamespace f ]}).

Definition managerOptions (f : Flags) : ManagerOptions :=
  mkManagerOptions (metricsServerOptions f) (webhookServerOptions f) (probeAddr f)
    (enableLeaderElection f) "34fd0290.klink.dev" (cacheOpts f).

(** ** Calls of the manager *)

(** The controller that the builder completes. *)
Record ControllerSpec := mkController {
  cs_For : string;
  cs_Watches : list string;
  cs_Named : string
}.

(** [WebhookRunnable], made by [NewWebhookRunnable] and [NewTLSManager]. *)
Record WebhookRunnable := mkRunnable { wr_tlsMgr : TLSManager; wr_addr : string }.

Inductive MainEff :=
  | MeGetConfig (r : option api_error)
  | MeNewManager (o : ManagerOptions) (r : option api_error)
  | MeIndexField (field : string) (extract : WorkloadDependency -> list string) (r : option api_error)
  | MeComplete (c : ControllerSpec) (r : option api_error)
  | MeAdd (w : WebhookRunnable) (r : option api_error)
  | MeAddHealthz (name : string) (r : option api_error)
  | MeAddReadyz (name : string) (r : option api_error)
  | MeStart (r : option api_error).

Class ManagerLib (W : Type) := {
  ml_GetConfig : W -> option api_error * W;
  ml_NewManager : ManagerOptions -> W -> option api_error * W;
  ml_IndexField : string -> (WorkloadDependency -> list string) -> W -> option api_error * W;
  ml_Complete : ControllerSpec -> W -> option api_error * W;
  ml_Add : WebhookRunnable -> W -> option api_error * W;
  ml_AddHealthz : string -> W -> option api_error * W;
  ml_AddReadyz : string -> W -> option api_error * W;
  ml_Start : W -> option api_error * W
}.

Definition klinkController : ControllerSpec :=
  mkController "WorkloadDependency" ["Deployment"; "StatefulSet"; "CronJob"; "Rollout"]
    "workloaddependency".

Definition gateRunnable (f : Flags) : WebhookRunnable :=
  mkRunnable (mkTLSManager (operatorNamespace f) (webhookSvcName f)) (webhookAddr f).

Section Main.
Context {W : Type} `{ML : !ManagerLib W} `{LF : LibFlags}.

Definition SetupWithManager : M W MainEff (option api_error) :=
  r1 ← interact (MeIndexField indexDependentName index_dependent)
         (ml_IndexField indexDependentName index_dependent);
  match r1 with
  | Some _ => mret (Some (ErrOther ("register field index " +:+ indexDependentName)))
  | None =>
      r2 ← interact (MeIndexField indexDependsOnName index_dependsOn)
             (ml_IndexField indexDependsOnName index_dependsOn);
      match r2 with
      | Some _ => mret (Some (ErrOther ("register field index " +:+ indexDependsOnName)))
      | None => interact (MeComplete klinkController) (ml_Complete klinkController)
      end
  end.

(** [main] after the flags; the result is the exit status. *)
Definition run (f : Flags) : M W MainEff Z :=
  c ← interact MeGetConfig ml_GetConfig;
  match c with
  | Some _ => mret 1
  | None =>
  n ← interact (MeNewManager (managerOptions f)) (ml_NewManager (managerOptions f));
  match n with
  | Some _ => mret 1
  | None =>
  s ← SetupWithManager;
  match s with
  | Some _ => mret 1
  | None =>
  a ← (if enableGateWebhook f then interact (MeAdd (gateRunnable f)) (ml_Add (gateRunnable f))
       else mret None);
  match a with
  | Some _ => mret 1
  | None =>
  h ← interact (MeAddHealthz "healthz") (ml_AddHealthz "healthz");
  match h with
  | Some _ => mret 1
  | None =>
  z ← interact (MeAddReadyz "readyz") (ml_AddReadyz "readyz");
  match z with
  | Some _ => mret 1
  | None =>
  t ← interact MeStart ml_Start;
  match t with
  | Some _ => mret 1
  | None => mret 0
  end end end end end end end.

Definition main (args : list string) : M W MainEff Z :=
  match Parse args with
  | ParseHelp => mret 0
  | ParseError _ => mret 2
  | ParsedFlags f _ _ => run f
  end.
End Main.

(** ** The startup sequence *)

Section MainSpec.
Context {W : Type} `{ML : !ManagerLib W} `{LF : LibFlags}.

Definition startup_calls (f : Flags) : list (option api_error -> MainEff) :=
  [ MeGetConfig; MeNewManager (managerOptions f);
    MeIndexField indexDependentName index_dependent; MeIndexField indexDependsOnName index_dependsOn;
    MeComplete klinkController ] ++
  (if enableGateWebhook f then [MeAdd (gateRunnable f)] else []) ++
  [ MeAddHealthz "healthz"; MeAddReadyz "readyz"; MeStart ].

(** All calls succeed, or one fails and is the last. *)
Definition ran_until (calls : list (option api_error -> MainEff)) (code : Z) (tr : list MainEff) : Prop :=
  (code = 0 /\ tr = (fun c => c None) <$> calls) \/
  (code = 1 /\ exists pre c post e, calls = pre ++ c :: post /\
     tr = ((fun c => c None) <$> pre) ++ [c (Some e)]).

Lemma ran_until_failed c calls e : ran_until (c :: calls) 1 [c (Some e)].
Proof. right. split; [done|]. by exists [], c, calls, e. Qed.

Lemma ran_until_cons c calls code tr :
  ran_until calls code tr -> ran_until (c :: calls) code (c None :: tr).
Proof.
  intros [[-> ->]|[-> (pre & c' & post & e & -> & ->)]]; [by left|]. right. split; [done|].
  by exists (c :: pre), c', post, e.
Qed.

Lemma run_ran f : (run f : M W MainEff Z) ⊨ ran_until (startup_calls f).
Proof.
  unfold run, SetupWithManager, startup_calls. cbn [app].
  repeat first
    [ apply tspec_ret
    | apply tspec_bind_assoc
    | apply tspec_bind_ret
    | apply tspec_bind_interact; intros [?|];
      [ repeat (apply tspec_bind_ret); apply tspec_ret; repeat apply ran_until_cons; apply ran_until_failed | ]
    | match goal with |- context [if enableGateWebhook f then _ else _] => destruct (enableGateWebhook f) end; cbn [app] ];
    repeat apply ran_until_cons; by left.
Qed.

(** C29: startup is all or nothing.  Help ends with status 0 and a bad command line
    with status 2, before anything is done.  Otherwise [main] makes the calls of
    [startup_calls] in this order, the webhook server only if it is enabled, and
    the first that fails ends the program with status 1: the manager is started
    only when everything before succeeded, and status 0 means that it ran and
    was stopped. *)
Theorem main_startup args : (main args : M W MainEff Z) ⊨ fun code tr =>
  match Parse args with
  | ParseHelp => code = 0 /\ tr = []
  | ParseError _ => code = 2 /\ tr = []
  | ParsedFlags f _ _ => ran_until (startup_calls f) code tr
  end.
Proof. unfold main. destruct (Parse args); [apply run_ran|by apply tspec_ret..]. Qed.
End MainSpec.
