(* ===== verification/Wiring.v ===== *)
(** * The parts put together

    What [main] configures meets what the controller does with it: every index it
    queries is one that [SetupWithManager] registers, and the cache options decide
    which objects it can see at all.  A first section follows
    every call of the reconciler, the watch function and the gate, with the
    answers that the client gives. *)

From S2P Require Import Prelude Types GoFloat Cluster Workload Metrics Notify Status Health.
From S2P Require Import Cycles Reconciler Safety Watch Admission Gate Tls Flags Manager.

Section Calls.
Context `{UL : UnstructuredLib} `{GP : GoPlatform} `{CU : ControllerUtil} `{CD : Codec}
  {W : Type} `{KC : !KubeClient W}.

(** [P] holds of every call klink may make, with an answer the client gives. *)
Record calls_ok (P : Eff -> Prop) : Prop := {
  ok_now t : P (EvNow t);
  ok_GetWD k w : P (EvGetWD k (kc_GetWD k w).1);
  ok_ListWDs o w :
    (forall i key, o = MatchingFields i key -> i = indexDependentName \/ i = indexDependsOnName) ->
    P (EvListWDs o (kc_ListWDs o w).1);
  ok_UpdateWD wd w : P (EvUpdateWD wd (kc_UpdateWD wd w).1);
  ok_StatusUpdate wd w : P (EvStatusUpdate wd (kc_StatusUpdateWD wd w).1);
  ok_GetDeployment k w : P (EvGetDeployment k (kc_GetDeployment k w).1);
  ok_GetStatefulSet k w : P (EvGetStatefulSet k (kc_GetStatefulSet k w).1);
  ok_GetCronJob k w : P (EvGetCronJob k (kc_GetCronJob k w).1);
  ok_GetRollout k w : P (EvGetRollout k (kc_GetRollout k w).1);
  ok_Patch b n w : P (EvPatch b n (kc_Patch b n w).1);
  ok_GetSecret k w : P (EvGetSecret k (kc_GetSecret k w).1);
  ok_Event k t r f a : P (EvEvent k t r f a);
  ok_Metric op : P (EvMetric op);
  ok_Notify u p : P (EvNotify u p)
}.

Lemma emits_interact_from {A} (P : Eff -> Prop) (ev : A -> Eff) (f : W -> A * W) :
  (forall w, P (ev (f w).1)) -> emits P (interact ev f).
Proof.
  intros HP s. unfold interact. specialize (HP (env s)). destruct (f (env s)) as [a w].
  exists [ev a]. split; [done|]. by repeat constructor.
Qed.

Section Follow.
Context (P : Eff -> Prop) (HP : calls_ok P).

(** Follow a program, call by call. *)
Ltac call_step :=
  lazymatch goal with
  | |- emits _ (mret _) => apply emits_ret
  | |- emits _ (emit _) => apply emits_emit; apply HP
  | |- emits _ (interact _ _) =>
      apply emits_interact_from; intros ?; apply HP; intros ? ? [=]; subst; auto
  | |- emits _ (_ ≫= _) => apply emits_bind; [|intros ?]
  | |- emits _ (let '(_, _) := ?p in _) => destruct p eqn:?
  | |- emits _ (match ?x with _ => _ end) => destruct x eqn:?
  | |- emits _ ((match ?x with _ => _ end) _) => destruct x eqn:?
  | |- emits _ _ => solve [eauto with calls]
  end.
Ltac call_auto := repeat (call_step; cbv beta iota zeta).

Create HintDb calls.

Lemma now_calls : emits P (time_Now : MW W Z).
Proof. apply emits_interact_from. intros. apply HP. Qed.
#[local] Hint Resolve now_calls : calls.

Lemma getWorkload_calls kind name ns : emits P (getWorkload kind name ns : MW W _).
Proof.
  unfold getWorkload, getRollout, client_GetStatefulSet, client_GetCronJob, client_GetRollout,
    client_GetDeployment. call_auto.
Qed.
Lemma isSuspendedByKlink_calls name ns : emits P (isSuspendedByKlink name ns : MW W _).
Proof. unfold isSuspendedByKlink, client_ListWDs. call_auto. Qed.
#[local] Hint Resolve getWorkload_calls isSuspendedByKlink_calls : calls.

Lemma depStatus_calls w cond ns : emits P (depStatus w cond ns : MW W _).
Proof. unfold depStatus, suspended_or_unhealthy. call_auto. Qed.
#[local] Hint Resolve depStatus_calls : calls.

Lemma evalDependsOn_calls wd deps ok msg : emits P (evalDependsOn wd deps ok msg : MW W _).
Proof.
  revert ok msg. induction deps as [|dep deps IH]; intros ok msg; cbn [evalDependsOn]; [apply emits_ret|].
  call_auto.
Qed.

Lemma recordPhase_calls ns name phase : emits P (recordPhase ns name phase : MW W unit).
Proof. apply recordPhase_quiet. intros. apply HP. Qed.
Lemma recordReconcileError_calls ns ty : emits P (recordReconcileError ns ty : MW W unit).
Proof. apply recordReconcileError_quiet. intros. apply HP. Qed.
Lemma recordScaleToZero_calls ns kind name : emits P (recordScaleToZero ns kind name : MW W unit).
Proof. apply recordScaleToZero_quiet. intros. apply HP. Qed.
Lemma recordReplicasRestored_calls ns kind name : emits P (recordReplicasRestored ns kind name : MW W unit).
Proof. apply recordReplicasRestored_quiet. intros. apply HP. Qed.
Lemma applyFields_calls phase msg sn wd : emits P (applyFields phase msg sn wd : MW W _).
Proof. apply applyFields_emits. intros. apply HP. Qed.
Lemma maybeNotify_calls wd prev phase : emits P (maybeNotify wd prev phase : MW W unit).
Proof. unfold maybeNotify, resolveWebhookURL, client_GetSecret. call_auto. Qed.
#[local] Hint Resolve evalDependsOn_calls recordPhase_calls recordReconcileError_calls
  recordScaleToZero_calls recordReplicasRestored_calls applyFields_calls maybeNotify_calls : calls.

Lemma update_loop_calls fuel phase msg sn wd : emits P (update_loop fuel phase msg sn wd : MW W _).
Proof.
  revert wd. induction fuel as [|fuel IH]; intros wd; cbn [update_loop]; [apply emits_ret|].
  unfold client_StatusUpdate, client_GetWD. call_auto.
Qed.
#[local] Hint Resolve update_loop_calls : calls.

Lemma setStatus_calls wd phase msg result : emits P (setStatus wd phase msg result : MW W Ret).
Proof. unfold setStatus. call_auto. Qed.
Lemma suspendWorkload_calls wd w msg : emits P (suspendWorkload wd w msg : MW W _).
Proof. unfold suspendWorkload, client_Patch, Eventf. call_auto. Qed.
Lemma restoreWorkload_calls wd w : emits P (restoreWorkload wd w : MW W _).
Proof. unfold restoreWorkload, client_Patch, Eventf. call_auto. Qed.
#[local] Hint Resolve setStatus_calls suspendWorkload_calls restoreWorkload_calls : calls.

Lemma handleDegraded_calls wd dep msg now : emits P (handleDegraded wd dep msg now : MW W Ret).
Proof. unfold handleDegraded, time_Since. call_auto. Qed.
Lemma handleSuspended_calls wd dep msg : emits P (handleSuspended wd dep msg : MW W Ret).
Proof. unfold handleSuspended, Eventf. call_auto. Qed.
Lemma handleHealthy_calls wd dep now : emits P (handleHealthy wd dep now : MW W Ret).
Proof. unfold handleHealthy, time_Since. call_auto. Qed.
Lemma handleDeletion_calls wd : emits P (handleDeletion wd : MW W Ret).
Proof. unfold handleDeletion, client_UpdateWD. call_auto. Qed.
Lemma reconcileSuspended_calls wd dep msg : emits P (reconcileSuspended wd dep msg : MW W Ret).
Proof. unfold reconcileSuspended, time_Since, Eventf. pose proof handleSuspended_calls. call_auto. Qed.
Lemma DetectCycle_calls wd : emits P (DetectCycle wd : MW W _).
Proof. unfold DetectCycle, client_ListWDs. call_auto. Qed.
#[local] Hint Resolve handleDegraded_calls handleSuspended_calls handleHealthy_calls handleDeletion_calls
  reconcileSuspended_calls DetectCycle_calls : calls.

Lemma reconcileEvaluated_calls wd dep ok msg : emits P (reconcileEvaluated wd dep ok msg : MW W Ret).
Proof. unfold reconcileEvaluated. call_auto. Qed.
#[local] Hint Resolve reconcileEvaluated_calls : calls.

Lemma Reconcile_calls req : emits P (Reconcile req : MW W Ret).
Proof.
  unfold Reconcile, reconcileActive, admitNew, client_GetWD, client_UpdateWD, Eventf. call_auto.
Qed.

Lemma findWDs_calls obj : emits P (findWDsForWorkload obj : MW W _).
Proof. unfold findWDsForWorkload, client_ListWDs. call_auto. Qed.
End Follow.
End Calls.

(** ** What [SetupWithManager] sets up *)

Section SetUp.
Context `{UL : UnstructuredLib} `{GP : GoPlatform} `{CU : ControllerUtil} {W : Type} `{KC : !KubeClient W}.
Context {V : Type} `{ML : !ManagerLib V}.

(** The controller of these calls is notified of changes to objects of this kind. *)
Definition watched (calls : list MainEff) (kind : string) : Prop :=
  exists c, MeComplete c None ∈ calls /\ (kind = cs_For c \/ kind ∈ cs_Watches c).

(** The values an index has to yield for an object. *)
Definition index_meaning (index : string) (wd : WorkloadDependency) (key : string) : Prop :=
  (index = indexDependentName /\
     key = dependent_ns wd +:+ "/" +:+ ref_Name (Dependent (wd_Spec wd))) \/
  (index = indexDependsOnName /\
     exists dep, dep ∈ DependsOn (wd_Spec wd) /\ key = dep_ns wd dep +:+ "/" +:+ dep_Name dep).

(** The index was registered, with a function that yields these values, before a
    controller was completed. *)
Definition indexed (calls : list MainEff) (index : string) : Prop :=
  exists pre extract mid c post,
    calls = pre ++ MeIndexField index extract None :: mid ++ MeComplete c None :: post /\
    forall wd key, key ∈ extract wd <-> index_meaning index wd key.

(** The call [e] only uses what these calls have set up: it reads objects of
    watched kinds and queries registered indexes. *)
Definition set_up (calls : list MainEff) (e : Eff) : Prop :=
  match e with
  | EvGetWD _ _ => watched calls "WorkloadDependency"
  | EvListWDs (MatchingFields index _) _ => watched calls "WorkloadDependency" /\ indexed calls index
  | EvListWDs (InNamespace _) _ => watched calls "WorkloadDependency"
  | EvGetDeployment _ _ => watched calls "Deployment"
  | EvGetStatefulSet _ _ => watched calls "StatefulSet"
  | EvGetCronJob _ _ => watched calls "CronJob"
  | EvGetRollout _ _ => watched calls "Rollout"
  | EvGetSecret _ _ => watched calls "Secret"
  | EvNow _ | EvUpdateWD _ _ | EvStatusUpdate _ _ | EvPatch _ _ _ | EvEvent _ _ _ _ _ | EvMetric _
  | EvNotify _ _ => True
  end.

Definition is_secret_read (e : Eff) : bool := match e with EvGetSecret _ _ => true | _ => false end.

(** What a successful registration leaves behind. *)
Record ready (calls : list MainEff) : Prop := {
  rd_watched kind :
    kind ∈ ["WorkloadDependency"; "Deployment"; "StatefulSet"; "CronJob"; "Rollout"] -> watched calls kind;
  rd_indexed index : index = indexDependentName \/ index = indexDependsOnName -> indexed calls index
}.

Lemma index_dependent_meaning wd key :
  key ∈ index_dependent wd <-> index_meaning indexDependentName wd key.
Proof.
  unfold index_dependent, index_meaning. rewrite list_elem_of_singleton.
  split; [by left|]. by intros [[_ ->]|[[=] _]].
Qed.

Lemma index_dependsOn_meaning wd key :
  key ∈ index_dependsOn wd <-> index_meaning indexDependsOnName wd key.
Proof.
  unfold index_dependsOn, index_meaning. rewrite list_elem_of_fmap. split.
  - intros (dep & -> & Hin). right. split; [done|]. by exists dep.
  - intros [[[=] _]|[_ (dep & Hin & ->)]]. by exists dep.
Qed.

Lemma SetupWithManager_ready :
  (SetupWithManager : M V MainEff _) ⊨ fun r calls => r = None -> ready calls.
Proof.
  unfold SetupWithManager. apply tspec_bind_interact. intros [?|]; [by apply tspec_ret|].
  apply tspec_bind_interact. intros [?|]; [by apply tspec_ret|].
  apply tspec_interact. intros r ->. split.
  - intros kind Hk. exists klinkController. split; [by right; right; left|]. simpl. set_solver.
  - intros index [-> | ->].
    + exists [], index_dependent, [MeIndexField indexDependsOnName index_dependsOn None], klinkController, [].
      split; [done|]. apply index_dependent_meaning.
    + exists [MeIndexField indexDependentName index_dependent None], index_dependsOn, [], klinkController, [].
      split; [done|]. apply index_dependsOn_meaning.
Qed.

Lemma ready_calls calls : ready calls ->
  calls_ok (W := W) (fun e => is_secret_read e = false -> set_up calls e).
Proof.
  intros [Hw Hi]. split; intros; simpl in *; try done; try (apply Hw; set_solver).
  destruct o as [ns|i key]; [apply Hw; set_solver|]. split; [apply Hw; set_solver|]. by eapply Hi, H.
Qed.

(** C28: [SetupWithManager] prepares what the controller relies on.  When it
    succeeds, by its own calls to the manager, every object that a reconcile or the
    mapping of a changed workload reads is of a kind whose changes wake the
    controller, and every indexed query uses an index that was registered before
    the controller was completed, with a function that yields the names of the
    dependent, or of the dependencies.  The one read left out is that of the Secret
    that holds a notification URL, which nothing watches. *)
Theorem startup_covers_controller req obj :
  (SetupWithManager : M V MainEff _) ⊨ fun r calls => r = None ->
    emits (fun e => is_secret_read e = false -> set_up calls e) (Reconcile req : MW W Ret) /\
    emits (fun e => is_secret_read e = false -> set_up calls e) (findWDsForWorkload obj : MW W _).
Proof.
  eapply tspec_mono; [apply SetupWithManager_ready|]. intros r calls Hr Hn.
  split; [apply Reconcile_calls|apply findWDs_calls]; by apply ready_calls, Hr.
Qed.
End SetUp.

(** ** What the cache lets klink see *)

(** An object of this kind in this namespace is in the cache. *)
Definition visible (o : CacheOptions) (kind ns : string) : Prop :=
  match ByObject o !! kind with
  | Some s => ns ∈ s
  | None => match DefaultNamespaces o with Some s => ns ∈ s | None => True end
  end.

#[export] Instance visible_dec o kind ns : Decision (visible o kind ns).
Proof. unfold visible. repeat case_match; apply _. Defined.

(** The documented behaviour of a manager's client with cache options [o]: typed
    objects are read from the cache, which holds nothing outside the configured
    namespaces; unstructured objects are read from the API server.  An object
    found has the name and namespace asked for. *)
Class CachedClient `{UL : UnstructuredLib} (o : CacheOptions) {W : Type} `{KC : !KubeClient W} : Prop := {
  cc_WD k w wd : (kc_GetWD k w).1 = Ok wd -> visible o "WorkloadDependency" (nn_Namespace k) /\ wd_key wd = k;
  cc_Deployment k w d : (kc_GetDeployment k w).1 = Ok d ->
    visible o "Deployment" (nn_Namespace k) /\ dp_Namespace d = nn_Namespace k;
  cc_StatefulSet k w s : (kc_GetStatefulSet k w).1 = Ok s ->
    visible o "StatefulSet" (nn_Namespace k) /\ ss_Namespace s = nn_Namespace k;
  cc_CronJob k w c : (kc_GetCronJob k w).1 = Ok c ->
    visible o "CronJob" (nn_Namespace k) /\ cj_Namespace c = nn_Namespace k;
  cc_Rollout k w u : (kc_GetRollout k w).1 = Ok u -> uns_Namespace u = nn_Namespace k;
  cc_Secret k w d : (kc_GetSecret k w).1 = Ok d -> visible o "Secret" (nn_Namespace k)
}.

Section Cached.
Context `{UL : UnstructuredLib} `{GP : GoPlatform} `{CU : ControllerUtil} {W : Type} `{KC : !KubeClient W}.

(** What the cache guarantees of an answer. *)
Definition cached_answer (o : CacheOptions) (e : Eff) : Prop :=
  match e with
  | EvGetWD k (Ok wd) => visible o "WorkloadDependency" (nn_Namespace k) /\ wd_key wd = k
  | EvGetDeployment k (Ok d) => visible o "Deployment" (nn_Namespace k) /\ dp_Namespace d = nn_Namespace k
  | EvGetStatefulSet k (Ok s) => visible o "StatefulSet" (nn_Namespace k) /\ ss_Namespace s = nn_Namespace k
  | EvGetCronJob k (Ok c) => visible o "CronJob" (nn_Namespace k) /\ cj_Namespace c = nn_Namespace k
  | EvGetRollout k (Ok u) => uns_Namespace u = nn_Namespace k
  | EvGetSecret k (Ok _) => visible o "Secret" (nn_Namespace k)
  | _ => True
  end.

Lemma cached_calls o `{!CachedClient o} : calls_ok (W := W) (cached_answer o).
Proof.
  split; intros; simpl; try done.
  - destruct (kc_GetWD k w).1 eqn:E; [by apply (cc_WD k w)|done].
  - destruct (kc_GetDeployment k w).1 eqn:E; [by apply (cc_Deployment k w)|done].
  - destruct (kc_GetStatefulSet k w).1 eqn:E; [by apply (cc_StatefulSet k w)|done].
  - destruct (kc_GetCronJob k w).1 eqn:E; [by apply (cc_CronJob k w)|done].
  - destruct (kc_GetRollout k w).1 eqn:E; [by apply (cc_Rollout k w)|done].
  - destruct (kc_GetSecret k w).1 eqn:E; [by eapply (cc_Secret k w)|done].
Qed.

(** In single-namespace mode everything but Secrets is confined. *)
Lemma visible_single f kind ns : watchNamespace f <> "" -> kind <> "Secret" ->
  visible (cacheOpts f) kind ns -> ns = watchNamespace f.
Proof.
  intros Hw Hk. unfold visible, cacheOpts. simpl. rewrite lookup_singleton_ne by done.
  rewrite decide_False by done. set_solver.
Qed.

(** C27: single-namespace mode confines the operator.  With [--watch-namespace] a
    reconcile acts only for a WorkloadDependency of that namespace, and every
    workload it writes lies in that namespace, unless it is a Rollout: these are
    read past the cache, and no other check keeps klink from scaling one that a
    WorkloadDependency names in a foreign namespace. *)
Theorem single_namespace_mode f req `{!CachedClient (cacheOpts f)} : watchNamespace f <> "" ->
  (Reconcile req : MW W Ret) ⊨ fun _ tr =>
    (forall wd, head tr = Some (EvGetWD req (Ok wd)) -> wd_Namespace wd = watchNamespace f) /\
    (forall b n, patched tr b n ->
       GetNamespace b = watchNamespace f \/
       exists u wd, b = rolloutAccessor u /\ head tr = Some (EvGetWD req (Ok wd)) /\
         GetNamespace b = dependent_ns wd).
Proof.
  intros Hw. eapply tspec_mono; [apply tspec_conj; [apply reconcile_patches|
    apply (Reconcile_calls _ (cached_calls (cacheOpts f)))]|].
  intros ret tr [Hp Hc]. rewrite Forall_forall in Hc. split.
  - intros wd Hh. assert (EvGetWD req (Ok wd) ∈ tr) as Hin by (destruct tr as [|e tr]; [done|]; injection Hh as ->; left).
    destruct (Hc _ Hin) as [Hv <-]. by eapply (visible_single f "WorkloadDependency").
  - intros b n Hb. destruct (Hp b n Hb) as (wd & Hh & Hf & _). pose proof (Hc _ Hf) as Hv.
    destruct b as [d|s|c|u]; simpl in Hv |- *.
    1-3: left; destruct Hv as [Hv ->]; by apply (visible_single f _ _ Hw) in Hv.
    right. by exists u, wd.
Qed.

End Cached.
