(* ===== verification/Scenarios.v ===== *)
(** * Concrete scenarios

    Small clusters on which the general theorems are applied, and runs that pin
    down behaviours of the reconciler a reader of the documentation would not
    expect.  Everything here is evaluated by the kernel. *)

From S2P Require Import Prelude Types GoFloat Cluster Workload Metrics Notify Status Health.
From S2P Require Import Cycles Reconciler Safety Phases Finalizer Watch Schema ApiServer MemCluster Lifecycle.
From S2P Require Import Tls.

(** ** A cluster with one dependency: api needs db *)

Definition key (name : string) : NamespacedName := mkNN "prod" name.

Definition status0 : WorkloadDependencyStatus := mkStatus PhaseHealthy None None None None "" [].

Definition deployment (name : string) (replicas ready : Z) : Deployment :=
  mkDeployment name "prod" (Some replicas) ready.

Definition needs_db (kind : string) (mode : string) (maxSuspend : Z)
    (annotations : gmap string string) (deleted : option Z) (st : WorkloadDependencyStatus)
    : WorkloadDependency :=
  mkWD (mkMeta "api-needs-db" "prod" "1" 1 deleted annotations [FinalizerName])
    (mkSpec (mkRef kind "api" "") [mkDependsOn "Deployment" "db" "" (mkHealthCondition 0 0 0)]
       (mkOnDegraded ActionScaleToZero maxSuspend) mode None) st.

Definition cluster (now : Z) (wd : WorkloadDependency) (api db : Deployment) : World :=
  mkWorld now {[ wd_key wd := wd ]} {[ key "api" := api; key "db" := db ]} ∅ ∅ ∅ ∅.

Definition req0 : NamespacedName := key "api-needs-db".
Definition wd_soft : WorkloadDependency := needs_db "Deployment" ModeSoft 0 ∅ None status0.
Definition api_up : workloadAccessor := deploymentAccessor (deployment "api" 3 3).
Definition outage_world : World := cluster (1000 * Second) wd_soft (deployment "api" 3 3) (deployment "db" 1 0).

Lemma outage_managed : managed (sv_objects outage_world) req0 wd_soft.
Proof.
  split.
  - vm_compute. reflexivity.
  - reflexivity.
  - reflexivity.
  - left.
  - vm_compute. discriminate.
  - split; vm_compute; discriminate.
  - apply (bool_decide_eq_true (crd_wd wd_soft)). vm_compute. reflexivity.
  - constructor; [split; vm_compute; discriminate|constructor].
  - reflexivity.
  - split; [intros [? H]; discriminate H|vm_compute; discriminate].
  - intros [? H]. discriminate H.
  - intros n H. discriminate H.
Defined.

Lemma outage_steady : steady (sv_objects outage_world) wd_soft api_up.
Proof.
  split; [vm_compute; reflexivity|reflexivity|split; [split; vm_compute; congruence|exact I]|vm_compute; discriminate|
    reflexivity].
Defined.

Definition world_after (w : World) : World := env (Reconcile req0 (MkSys w [])).2.

(** The refinement theorem at the first reconcile of an outage: whatever step it is,
    it is one that the machine takes from its first state. *)
Lemma reconcile_refines_witness :
  exists s' a wd' y,
    astep wd_soft (1000 * Second) (clock (world_after outage_world)) false AOk s' a /\
    stepped (sv_objects outage_world) req0 wd_soft api_up s' a (sv_objects (world_after outage_world)) wd' y.
Proof.
  destruct (reconcile_refines outage_world req0 wd_soft api_up (mem_calm _) (mem_fresh _) outage_managed outage_steady [])
    as (_ & _ & s' & a & wd' & y & Ha & Hs).
  assert (all_fine (sv_objects outage_world) wd_soft = false) as Hf by (vm_compute; reflexivity).
  assert (abs wd_soft = AOk) as Hw by (vm_compute; reflexivity). rewrite Hf, Hw in Ha.
  exists s', a, wd', y. split; [exact Ha|exact Hs].
Defined.

(** The whole outage, with the database coming back ten minutes later. *)
Definition db_set (ready : Z) (t : Z) (w : World) : World :=
  with_clock t (with_deployments (insert (key "db") (deployment "db" 1 ready)) w).

Lemma db_set_meanwhile ready t w n r :
  deployments w !! key "api" = Some (deployment "api" n r) -> 0 <= n -> in_int32 n ->
  meanwhile req0 wd_soft w (db_set ready t w).
Proof.
  intros Hd Hn Hi. split; [apply mem_calm|apply mem_fresh|reflexivity|]. intros y Hy. unfold dependent_is in Hy.
  change (deploymentAccessor <$> deployments w !! key "api" = Some y) in Hy. rewrite Hd in Hy. injection Hy as <-.
  eexists. split; [|split; reflexivity]. split; [|reflexivity|split; [exact Hi|exact I]|exact Hn|reflexivity].
  change (deploymentAccessor <$> <[key "db" := deployment "db" 1 ready]> (deployments w) !! key "api" =
    Some (deploymentAccessor (deployment "api" n r))).
  rewrite lookup_insert_ne by (vm_compute; discriminate). rewrite Hd. reflexivity.
Defined.

Definition outage1 : World := db_set 0 (1040 * Second) (world_after outage_world).
Definition outage2 : World := db_set 1 (1600 * Second) (world_after outage1).
Definition outage3 : World := db_set 1 (1700 * Second) (world_after outage2).

Lemma full_cycle_witness :
  in_state (sv_objects (world_after outage3)) req0 AOk /\
  scaled (sv_objects (world_after outage3)) wd_soft api_up (3, false).
Proof.
  assert (is_down api_up = false) as Hup by (vm_compute; reflexivity).
  assert (abs wd_soft = AOk) as Habs by (vm_compute; reflexivity).
  assert (all_fine (sv_objects outage_world) wd_soft = false) as Hbad by (vm_compute; reflexivity).
  destruct (full_cycle outage_world req0 wd_soft api_up (mem_calm _) (mem_fresh _) outage_managed outage_steady
    Hup Habs Hbad []) as (_ & _ & _ & Hnext1).
  assert (meanwhile req0 wd_soft (world_after outage_world) outage1) as Hm1.
  { eapply db_set_meanwhile; [vm_compute; reflexivity|vm_compute; discriminate|split; vm_compute; congruence]. }
  assert (degradedWindow wd_soft <= time_sub (sv_clock outage1) (sv_clock (world_after outage_world))) as Hw1
    by (vm_compute; discriminate).
  destruct (Hnext1 outage1 Hm1 ltac:(vm_compute; reflexivity) Hw1 [])
    as (_ & _ & _ & Hnext2).
  assert (meanwhile req0 wd_soft (world_after outage1) outage2) as Hm2.
  { eapply db_set_meanwhile; [vm_compute; reflexivity|vm_compute; discriminate|split; vm_compute; congruence]. }
  destruct (Hnext2 outage2 Hm2 ltac:(vm_compute; reflexivity) []) as (_ & _ & Hnext3).
  assert (meanwhile req0 wd_soft (world_after outage2) outage3) as Hm3.
  { eapply db_set_meanwhile; [vm_compute; reflexivity|vm_compute; discriminate|split; vm_compute; congruence]. }
  assert (recoveryWindow wd_soft <= time_sub (sv_clock outage3) (sv_clock (world_after outage2))) as Hw3
    by (vm_compute; discriminate).
  destruct (Hnext3 outage3 Hm3 ltac:(vm_compute; reflexivity) Hw3 [])
    as (_ & Hst & _ & Hsc).
  split; [exact Hst|exact Hsc].
Defined.

(** The dependent really is at zero in the middle of it. *)
Example outage_scaled_down :
  deployments (world_after outage1) !! key "api" = Some (deployment "api" 0 3).
Proof. vm_compute. reflexivity. Qed.

(** ** The other theorems at concrete inputs *)

Lemma depStatus_threshold_witness :
  (depStatus (deploymentAccessor (mkDeployment "db" "prod" (Some 4) 3)) (mkHealthCondition 70 0 0) "prod"
     : MW World _) ⊨ fun r tr => r = Ok depHealthy.
Proof.
  eapply tspec_mono.
  - apply (depStatus_threshold (deploymentAccessor (mkDeployment "db" "prod" (Some 4) 3)) 3 4
      (mkHealthCondition 70 0 0) "prod").
    + left. exists "db", "prod". reflexivity.
    + vm_compute. intuition discriminate.
    + vm_compute. intuition discriminate.
    + vm_compute. reflexivity.
    + vm_compute. discriminate.
  - intros r tr (_ & _ & Hup & _). apply Hup. vm_compute. reflexivity.
Defined.

Definition wd_cond : WorkloadDependency :=
  upd_Status (set_Conditions [mkCondition "Ready" "True" "DependenciesHealthy" "" 5 1]) wd_soft.

Lemma setCondition_ready_witness :
  exists c, c ∈ Conditions (wd_Status (set_condition_at 9 PhaseSuspended "down" wd_cond)) /\
    c_Status c = "False" /\ c_LastTransitionTime c = 9.
Proof.
  destruct (setCondition_ready 9 PhaseSuspended "down" wd_cond "Ready" "False" "DependentSuspended")
    as (_ & _ & c & Hin & _ & Hs & _ & _ & _ & _ & Hnew).
  - vm_compute. reflexivity.
  - apply NoDup_singleton.
  - exists c. split; [exact Hin|]. split; [exact Hs|]. apply Hnew.
    intros c0 ->%list_elem_of_singleton _. vm_compute. discriminate.
Defined.

(** A change of the reason alone moves the time as well. *)
Example reason_moves_transition_time :
  let wd := upd_Status (set_Conditions [mkCondition "Ready" "False" "DependencyDegraded" "" 5 1]) wd_soft in
  (fun c => (c_Status c, c_LastTransitionTime c)) <$> Conditions (wd_Status (set_condition_at 9 PhaseSuspended "down" wd)) =
    [("False", 9)].
Proof. vm_compute. reflexivity. Qed.

(** The gauges of a dependency that goes from Healthy to Suspended. *)
Lemma phase_gauges_follow_status_witness :
  (setStatus wd_soft PhaseSuspended "db is down" None : MW World Ret) ⊨ fun _ tr =>
    forall wd' srv, EvStatusUpdate wd' (Ok srv) ∈ tr ->
      metric_value dependencyPhase [wd_Namespace srv; wd_Name srv; PhaseSuspended] 0 tr = 1 /\
      metric_value dependencyPhase [wd_Namespace srv; wd_Name srv; PhaseHealthy] 1 tr = 0.
Proof.
  eapply tspec_mono.
  - apply (phase_gauges_follow_status wd_soft PhaseSuspended "db is down" None).
    apply (bool_decide_eq_true (PhaseSuspended ∈ allPhases)). vm_compute. reflexivity.
  - intros ret tr [Hok _] wd' srv Hin. destruct (Hok wd' srv Hin) as (H1 & H0 & _). split; [apply H1|].
    apply H0; [apply (bool_decide_eq_true (PhaseHealthy ∈ allPhases)); vm_compute; reflexivity|vm_compute; discriminate].
Defined.

Lemma suspend_restore_roundtrip_witness :
  (suspendWorkload wd_soft api_up "db is down" : MW World _) ⊨ fun p tr => p.2 = None ->
    exists down rest, tr = EvPatch api_up down (Ok tt) :: rest /\
      (restoreWorkload p.1 down : MW World _) ⊨ fun _ tr' =>
        exists up r rest', tr' = EvPatch down up r :: rest' /\ scale up = (3, false).
Proof.
  eapply tspec_mono; [apply (suspend_restore_roundtrip wd_soft api_up "db is down")|].
  - split; [split; vm_compute; congruence|exact I].
  - vm_compute. reflexivity.
  - intros p tr Hp Hn. destruct (Hp Hn) as (down & rest & Ht & _ & _ & Hr).
    exists down, rest. split; [exact Ht|]. eapply tspec_mono; [exact Hr|].
    intros e tr' (up & r & rest' & Ht' & Hs & _). exists up, r, rest'.
    split; [exact Ht'|]. rewrite Hs. vm_compute. reflexivity.
Defined.

Lemma findWDs_exact_witness :
  (findWDsForWorkload api_up : MW World _) ⊨ fun reqs _ => NoDup reqs.
Proof.
  eapply tspec_mono; [apply (findWDs_exact api_up); vm_compute; reflexivity|].
  intros reqs tr [Hnd _]. exact Hnd.
Defined.

(** Deletion of the dependency while it holds three replicas. *)
Definition status_suspended : WorkloadDependencyStatus :=
  mkStatus PhaseSuspended (Some 3) (Some (900 * Second)) (Some (950 * Second)) None "" [].
Definition wd_deleted : WorkloadDependency :=
  needs_db "Deployment" ModeSoft 0 ∅ (Some (1000 * Second)) status_suspended.
Definition deletion_world : World :=
  cluster (1000 * Second) wd_deleted (deployment "api" 0 0) (deployment "db" 1 0).

Lemma deletion_completes_witness :
  run (Reconcile req0) deletion_world = ((noResult, None), world_after deletion_world) /\
  exists y, getReplicas y = 3 /\ sv_objects (world_after deletion_world) =
    on_wds (delete req0) (put_workload (key "api") y (sv_objects deletion_world)).
Proof.
  pose proof (deletion_completes deletion_world req0 wd_deleted
    (deploymentAccessor (deployment "api" 0 0)) 3) as Hdel.
  unfold wp in Hdel. edestruct (fun H1 H2 H3 H4 H5 H6 H7 H8 H9 H10 H11 H12 H13 H14 =>
    Hdel H1 H2 H3 H4 H5 H6 H7 H8 H9 H10 H11 H12 H13 H14 []) as (Hr & y & _ & Hg & Ho).
  1: apply mem_calm.
  1: apply mem_fresh.
  1,2,6,7,8,9,10: vm_compute; reflexivity.
  - apply (bool_decide_eq_true (crd_wd wd_deleted)). vm_compute. reflexivity.
  - eexists. vm_compute. reflexivity.
  - intros f ->%list_elem_of_singleton. reflexivity.
  - split; [split; vm_compute; congruence|exact I].
  - intros c. discriminate.
  - split; [|exists y; split; [exact Hg|exact Ho]].
    unfold run. rewrite Hr. reflexivity.
Defined.

Lemma deletion_gives_back_witness :
  (Reconcile req0 : MW World Ret) ⊨ fun ret tr => forall wd,
    head tr = Some (EvGetWD req0 (Ok wd)) -> is_Some (om_DeletionTimestamp (wd_Meta wd)) ->
    (exists pre wd' r, tr = pre ++ [EvUpdateWD wd' r] /\ (holds_replicas wd -> given_back wd pre)) \/
    ret = (after (5 * Second), None).
Proof.
  eapply tspec_mono; [apply (deletion_gives_back req0)|]. intros ret tr Ht wd Hh Hd.
  destruct (Ht wd Hh Hd) as [(pre & wd' & r & -> & _ & _ & Hg & _)|(_ & _ & _ & ->)].
  - left. exists pre, wd', r. split; [reflexivity|exact Hg].
  - right. reflexivity.
Defined.

Lemma first_admission_witness :
  (Reconcile req0 : MW World Ret) ⊨ fun ret tr => forall wd,
    head tr = Some (EvGetWD req0 (Ok wd)) -> unadmitted wd ->
    exists lr rest, tr = EvGetWD req0 (Ok wd) :: EvListWDs (InNamespace (wd_Namespace wd)) lr :: rest.
Proof.
  eapply tspec_mono; [apply (first_admission req0)|]. intros ret tr Ht wd Hh Hd.
  destruct (Ht wd Hh Hd) as (lr & rest & -> & _). exists lr, rest. reflexivity.
Defined.

(** ** Behaviours to know about

    Each run below is what the code does; the documentation suggests otherwise. *)

(** 29 of 100 ready replicas fail a threshold of 29 percent: the float64 quotient
    times 100 is just below 29 and is truncated to 28. *)
Example threshold_rounds_down :
  readyPercent 29 100 = 28 /\
  workload_ready (deploymentAccessor (mkDeployment "db" "prod" (Some 100) 29))
    (mkHealthCondition 29 0 0) = false.
Proof. split; vm_compute; reflexivity. Qed.

(** A conflict on the status write of a restore brings the saved replica count
    back: the fields cleared by the caller are not cleared in the fresh object. *)
Definition wd_newer : WorkloadDependency := bump (needs_db "Deployment" ModeSoft 0 ∅ None status_suspended).
Definition wd_restored : WorkloadDependency :=
  upd_Status (fun st => set_HealthySince None (set_SavedReplicas None st))
    (needs_db "Deployment" ModeSoft 0 ∅ None status_suspended).

Example conflict_loses_cleared_fields :
  exists wd', wds (snd (run (setStatus wd_restored PhaseHealthy "" None)
      (cluster 0 wd_newer (deployment "api" 3 3) (deployment "db" 1 1)))) !! req0 = Some wd' /\
    Phase (wd_Status wd') = PhaseHealthy /\ SavedReplicas (wd_Status wd') = Some 3.
Proof. eexists. split; [vm_compute; reflexivity|]. split; reflexivity. Qed.

(** Pausing a suspended dependency and unpausing it after the recovery leaves the
    dependent at zero replicas in phase Healthy. *)
Definition pause : gmap string string := {[ AnnotationPaused := "true" ]}.
Definition set_annotations (a : gmap string string) (wd : WorkloadDependency) : WorkloadDependency :=
  let m := wd_Meta wd in
  mkWD (mkMeta (om_Name m) (om_Namespace m) (om_ResourceVersion m) (om_Generation m)
          (om_DeletionTimestamp m) a (om_Finalizers m)) (wd_Spec wd) (wd_Status wd).

Definition paused_world : World :=
  world_after (cluster (1000 * Second) (needs_db "Deployment" ModeSoft 0 pause None status_suspended)
    (deployment "api" 0 0) (deployment "db" 1 1)).
Definition unpaused_world : World :=
  world_after (with_wds (fmap (set_annotations ∅)) (with_clock (2000 * Second) paused_world)).

Example pause_strands_suspended :
  deployments unpaused_world !! key "api" = Some (deployment "api" 0 0) /\
  exists wd', wds unpaused_world !! req0 = Some wd' /\ Phase (wd_Status wd') = PhaseHealthy.
Proof. split; [vm_compute; reflexivity|]. eexists. split; vm_compute; reflexivity. Qed.

(** Deleting the dependency of a suspended CronJob leaves the CronJob suspended. *)
Definition cron_suspended : WorkloadDependencyStatus :=
  mkStatus PhaseSuspended None (Some (900 * Second)) (Some (950 * Second)) None "" [].
Definition cron_world : World :=
  let wd := needs_db "CronJob" ModeSoft 0 ∅ (Some (1000 * Second)) cron_suspended in
  mkWorld (1000 * Second) {[ wd_key wd := wd ]} {[ key "db" := deployment "db" 1 0 ]} ∅
    {[ key "api" := mkCronJob "api" "prod" (Some true) ]} ∅ ∅.

Example deletion_leaves_cronjob_suspended :
  wds (world_after cron_world) !! req0 = None /\
  cronjobs (world_after cron_world) !! key "api" = Some (mkCronJob "api" "prod" (Some true)).
Proof. split; vm_compute; reflexivity. Qed.

(** A relapse does not restart the recovery window: HealthySince survives it, so
    the dependent is restored at the first healthy sight after the old window. *)
Definition relapse_status : WorkloadDependencyStatus :=
  mkStatus PhaseSuspended (Some 3) None (Some (900 * Second)) (Some (1000 * Second)) "" [].
Definition relapse1 : World :=
  world_after (cluster (1010 * Second) (needs_db "Deployment" ModeSoft 0 ∅ None relapse_status)
    (deployment "api" 0 0) (deployment "db" 1 0)).
Definition relapse2 : World := world_after (db_set 1 (1061 * Second) relapse1).

Example relapse_keeps_recovery_clock :
  deployments relapse1 !! key "api" = Some (deployment "api" 0 0) /\
  deployments relapse2 !! key "api" = Some (deployment "api" 3 0).
Proof. split; vm_compute; reflexivity. Qed.

(** With a maxSuspendDuration that has not run out, strict mode does not undo a
    manual scale-up. *)
Example strict_idle_before_max_suspend :
  deployments (world_after (cluster (1000 * Second)
    (needs_db "Deployment" ModeStrict Hour ∅ None status_suspended)
    (deployment "api" 2 2) (deployment "db" 1 0))) !! key "api" = Some (deployment "api" 2 2).
Proof. vm_compute. reflexivity. Qed.

(** Two workloads that need each other are not reported as a cycle. *)
Definition wd_edge_of (name src dst : string) : WorkloadDependency :=
  mkWD (mkMeta name "prod" "1" 1 None ∅ [])
    (mkSpec (mkRef "Deployment" src "") [mkDependsOn "Deployment" dst "" (mkHealthCondition 0 0 0)]
       (mkOnDegraded ActionScaleToZero 0) ModeSoft None) status0.

Example mutual_dependency_not_reported :
  findCycle [wd_edge_of "ba" "b" "a"] (wd_edge_of "ab" "a" "b") = Some None.
Proof. vm_compute. reflexivity. Qed.

Example three_cycle_reported :
  findCycle [wd_edge_of "bc" "b" "c"; wd_edge_of "ca" "c" "a"] (wd_edge_of "ab" "a" "b") =
  Some (Some [mkKey "Deployment" "prod" "a"; mkKey "Deployment" "prod" "b";
              mkKey "Deployment" "prod" "c"; mkKey "Deployment" "prod" "a"]).
Proof. vm_compute. reflexivity. Qed.

(** The suspension of a Deployment excuses a StatefulSet of the same name: the
    lookup of suspended dependents does not compare kinds. *)
Definition confused_world : World :=
  let wd1 := mkWD (mkMeta "db-needs-disk" "prod" "1" 1 None ∅ [FinalizerName])
    (mkSpec (mkRef "Deployment" "db" "") [] (mkOnDegraded ActionScaleToZero 0) ModeSoft None)
    status_suspended in
  mkWorld 0 {[ wd_key wd1 := wd1 ]} ∅
    {[ key "db" := mkStatefulSet "db" "prod" (Some 0) 0 ]} ∅ ∅ ∅.

Example co_suspension_ignores_kind :
  (run (depStatus (statefulSetAccessor (mkStatefulSet "db" "prod" (Some 0) 0))
     (mkHealthCondition 0 0 0) "prod") confused_world).1 = Ok depCoSuspended.
Proof. vm_compute. reflexivity. Qed.

(** When the status write after a scale-down is lost (an API error, or three
    conflicts), the replica count is lost with it: the next reconcile finds the
    dependent at zero, suspends without saving, and the recovery restores nothing. *)
Definition lost_status : WorkloadDependencyStatus :=
  mkStatus PhaseDegraded None (Some (900 * Second)) None None "" [].
Definition lost1 : World :=
  world_after (cluster (1000 * Second) (needs_db "Deployment" ModeSoft 0 ∅ None lost_status)
    (deployment "api" 0 0) (deployment "db" 1 0)).
Definition lost2 : World := world_after (db_set 1 (1100 * Second) lost1).
Definition lost3 : World := world_after (db_set 1 (1200 * Second) lost2).

Example lost_save_strands_dependent :
  deployments lost3 !! key "api" = Some (deployment "api" 0 0) /\
  exists wd', wds lost3 !! req0 = Some wd' /\ Phase (wd_Status wd') = PhaseHealthy /\
    SavedReplicas (wd_Status wd') = None.
Proof. split; [vm_compute; reflexivity|]. eexists. split; [|split]; vm_compute; reflexivity. Qed.

(** Each strict re-enforcement counts the workload as suspended once more. *)
Definition reenforce_world : World :=
  cluster (1000 * Second) (needs_db "Deployment" ModeStrict 0 ∅ None status_suspended)
    (deployment "api" 2 2) (deployment "db" 1 0).

Example strict_reenforcement_drifts_gauge :
  metric_value suspendedWorkloads ["prod"; "Deployment"] 1
    (out (Reconcile req0 (MkSys reenforce_world [])).2) = 2.
Proof. vm_compute. reflexivity. Qed.
