(* ===== verification/Tenancy.v ===== *)
(** * A manager's client in memory

    The API server of MemCluster read through a cache with given options: an
    instance of [CachedClient].  The flags of the Helm chart are parsed, and the
    theorems of Wiring are applied to a single-namespace installation. *)

From S2P Require Import Prelude Types GoFloat Cluster Workload Notify Status Health Reconciler.
From S2P Require Import Safety MemCluster Flags Manager Wiring Scenarios.

(** A read through the cache: only visible objects, under the key asked for. *)
Definition cache_read {A} (vis : bool) (same : A -> bool) (r : result A) : result A :=
  match r with
  | Ok a => if vis && same a then Ok a else Err (ErrOther "unknown namespace for the cache")
  | Err e => Err e
  end.

Lemma cache_read_ok {A} vis same (r : result A) a :
  cache_read vis same r = Ok a -> vis = true /\ same a = true.
Proof.
  destruct r as [x|e]; simpl; [|done]. destruct (vis && same x) eqn:E; [|done].
  intros [= <-]. by apply andb_true_iff.
Qed.

Definition cached_mem (o : CacheOptions) : KubeClient World :=
  let see kind k := bool_decide (visible o kind (nn_Namespace k)) in
  {| kc_Now := kc_Now;
     kc_GetWD k w := (cache_read (see "WorkloadDependency" k) (fun wd => bool_decide (wd_key wd = k))
       (kc_GetWD k w).1, w);
     kc_ListWDs := kc_ListWDs;
     kc_UpdateWD := kc_UpdateWD;
     kc_StatusUpdateWD := kc_StatusUpdateWD;
     kc_GetDeployment k w := (cache_read (see "Deployment" k)
       (fun d => bool_decide (dp_Namespace d = nn_Namespace k)) (kc_GetDeployment k w).1, w);
     kc_GetStatefulSet k w := (cache_read (see "StatefulSet" k)
       (fun s => bool_decide (ss_Namespace s = nn_Namespace k)) (kc_GetStatefulSet k w).1, w);
     kc_GetCronJob k w := (cache_read (see "CronJob" k)
       (fun c => bool_decide (cj_Namespace c = nn_Namespace k)) (kc_GetCronJob k w).1, w);
     kc_GetRollout k w := (cache_read true
       (fun u => bool_decide (uns_Namespace u = nn_Namespace k)) (kc_GetRollout k w).1, w);
     kc_Patch := kc_Patch;
     kc_GetSecret k w := (cache_read (see "Secret" k) (fun _ => true) (kc_GetSecret k w).1, w) |}.

Lemma cached_mem_laws o : CachedClient (KC := cached_mem o) o.
Proof.
  split; intros k w x Hx; cbn [kc_GetWD kc_GetDeployment kc_GetStatefulSet kc_GetCronJob kc_GetRollout
    kc_GetSecret cached_mem fst] in Hx; apply cache_read_ok in Hx as [Hv Hs];
    try apply bool_decide_eq_true in Hv; try apply bool_decide_eq_true in Hs; done.
Qed.

(** ** The installation of the chart, restricted to one namespace *)

#[local] Instance no_lib_flags : LibFlags := {| lib_flag _ := None; lib_accepts _ _ := false |}.

Definition chart_args : list string :=
  [ "--health-probe-bind-address=:8081"; "--metrics-bind-address=:8080"; "--namespace=klink-system";
    "--leader-elect"; "--enable-gate-webhook"; "--gate-webhook-service=klink-webhook";
    "--watch-namespace=prod" ].

Definition chart_flags : Flags :=
  mkFlags ":8080" ":8081" true false "" "tls.crt" "tls.key" "" "tls.crt" "tls.key" false true ":9443"
    "klink-webhook" "klink-system" "prod".

Example chart_args_parse : Parse chart_args = ParsedFlags chart_flags [] [].
Proof. vm_compute. reflexivity. Qed.

(** Spellings and mistakes. *)
Example parse_forms :
  Parse ["-namespace"; "ops"; "--"; "-leader-elect"] =
    ParsedFlags (set_operatorNamespace "ops" default_flags) [] ["-leader-elect"] /\
  Parse ["--leader-elect"; "false"] =
    ParsedFlags (set_enableLeaderElection true default_flags) [] ["false"] /\
  Parse ["--leader-elect=maybe"] = ParseError "invalid value for -leader-elect" /\
  Parse ["--namespace"] = ParseError "flag needs an argument: -namespace" /\
  Parse ["--nmaespace=ops"] = ParseError "flag provided but not defined: -nmaespace" /\
  Parse ["-h"] = ParseHelp.
Proof. repeat split; vm_compute; reflexivity. Qed.

#[local] Instance chart_client : KubeClient World := cached_mem (cacheOpts chart_flags).
#[local] Instance chart_client_laws : CachedClient (cacheOpts chart_flags) := cached_mem_laws _.

Lemma single_namespace_mode_witness :
  (Reconcile req0 : MW World Ret) ⊨ fun _ tr => forall b n, patched tr b n ->
    GetNamespace b = "prod" \/ exists u, b = rolloutAccessor u.
Proof.
  eapply tspec_mono; [apply (single_namespace_mode chart_flags req0); vm_compute; discriminate|].
  intros ret tr [_ Hp] b n Hb. destruct (Hp b n Hb) as [Hn|(u & wd & Hu & _)]; [left; exact Hn|].
  right. exists u. exact Hu.
Defined.

(** A dependency of production that keeps its URL in a Secret. *)
Definition wd_secret : WorkloadDependency :=
  mkWD (mkMeta "api-needs-db" "prod" "1" 1 None ∅ [FinalizerName])
    (mkSpec (mkRef "Deployment" "api" "") [mkDependsOn "Deployment" "db" "" (mkHealthCondition 0 0 0)]
       (mkOnDegraded ActionScaleToZero 0) ModeSoft
       (Some (mkNotify "" (Some (mkSecretKeyRef "hook" "")) []))) status0.

(** The Secret exists, and a direct client would read it. *)
Definition hook_world : World :=
  mkWorld 0 ∅ ∅ ∅ ∅ ∅ {[ key "hook" := {[ "url" := "https://hooks.example" ]} ]}.

Example secret_unread_through_cache :
  (resolveWebhookURL wd_secret (mkNotify "" (Some (mkSecretKeyRef "hook" "")) [])
     (MkSys hook_world [])).1 = Err (ErrOther "get webhook secret hook") /\
  (resolveWebhookURL (KC := mem_client) wd_secret (mkNotify "" (Some (mkSecretKeyRef "hook" "")) [])
     (MkSys hook_world [])).1 = Ok "https://hooks.example".
Proof. split; vm_compute; reflexivity. Qed.

(** A Rollout of another tenant, named by a dependency of [prod], is scaled down. *)
Definition wd_foreign : WorkloadDependency :=
  mkWD (mkMeta "api-needs-db" "prod" "1" 1 None ∅ [FinalizerName])
    (mkSpec (mkRef "Rollout" "shop" "other") [mkDependsOn "Deployment" "db" "" (mkHealthCondition 0 0 0)]
       (mkOnDegraded ActionScaleToZero 0) ModeSoft None)
    (mkStatus PhaseDegraded None (Some (900 * Second)) None None "" []).
Definition foreign_world : World :=
  mkWorld (1000 * Second) {[ req0 := wd_foreign ]} {[ key "db" := deployment "db" 1 0 ]} ∅ ∅
    {[ mkNN "other" "shop" := mkRollout "shop" "other" (Some 4) (Some "Healthy") ]} ∅.

Example foreign_rollout_scaled :
  rollouts (env (Reconcile req0 (MkSys foreign_world [])).2) !! mkNN "other" "shop" =
    Some (mkRollout "shop" "other" (Some 0) (Some "Healthy")).
Proof. vm_compute. reflexivity. Qed.
