(* ===== verification/MemWire.v ===== *)
(** * A validating API server in memory

    Toy codecs for durations, times and metadata that satisfy [MetaJSONLaws], and the
    API server of MemCluster with every answer checked against the schema, an
    instance of [TypedServer].  The theorems of Wire and Schema are applied to both. *)

From S2P Require Import Prelude Types GoFloat Cluster Workload Notify Status Health Reconciler.
From S2P Require Import Safety MemCluster Schema Validator Wire MemTls Scenarios.

(** ** Codecs *)

Definition enc_text_map (m : gmap string string) : jv := JMap ((fun p => (p.1, JText p.2)) <$> map_to_list m).
Definition dec_text_map (v : jv) : option (gmap string string) :=
  ms ← members v; list_to_map <$> mapM (fun p : string * jv => (fun s => (p.1, s)) <$> dec_phase p.2) ms.

Definition text_time (s : string) : option Z := trunc <$> text_z s.

Definition dec_time_list (l : list jv) : option (option Z) :=
  match l with
  | [] => Some None
  | [JText s] => Some <$> text_time s
  | _ => None
  end.

#[export] Instance mem_json : MetaJSON := {
  fmt_Duration := z_text;
  parse_Duration := text_z;
  fmt_Time := z_text;
  parse_Time := text_time;
  enc_Meta m := JList [JText (om_Name m); JText (om_Namespace m); JText (om_ResourceVersion m);
    JInt (om_Generation m); JList (option_list ((fun t => JText (z_text t)) <$> om_DeletionTimestamp m));
    enc_text_map (om_Annotations m); JList (JText <$> om_Finalizers m)];
  dec_Meta o :=
    match o with
    | None => Some zero_meta
    | Some (JList [JText n; JText ns; JText rv; JInt g; JList d; a; JList fs]) =>
        d' ← dec_time_list d; a' ← dec_text_map a; fs' ← mapM dec_phase fs;
        Some (mkMeta n ns rv g d' a' fs')
    | _ => None
    end;
  enc_Condition c := JList [JText (c_Type c); JText (c_Status c); JText (c_Reason c); JText (c_Message c);
    JText (z_text (c_LastTransitionTime c)); JInt (c_ObservedGeneration c)];
  dec_Condition v :=
    match v with
    | JList [JText t; JText s; JText r; JText m; JText lt; JInt g] =>
        (fun lt' => mkCondition t s r m lt' g) <$> text_time lt
    | _ => None
    end
}.

Lemma text_time_text t : text_time (z_text t) = Some (trunc t).
Proof. unfold text_time. by rewrite text_z_text. Qed.

Lemma text_map_roundtrip m : dec_text_map (enc_text_map m) = Some m.
Proof.
  unfold dec_text_map, enc_text_map. cbn.
  assert (forall l : list (string * string), mapM (fun p : string * jv => (fun s => (p.1, s)) <$> dec_phase p.2)
    ((fun p => (p.1, JText p.2)) <$> l) = Some l) as ->.
  { induction l as [|[k v] l IH]; [done|]. cbn in *. by rewrite IH. }
  cbn. by rewrite list_to_map_to_list.
Qed.

#[export] Instance mem_json_laws : MetaJSONLaws.
Proof.
  split.
  - intros d _. apply text_z_text.
  - intros t _. apply text_time_text.
  - done.
  - intros m _. cbn [dec_Meta enc_Meta mem_json].
    assert (mapM dec_phase (JText <$> om_Finalizers m) = Some (om_Finalizers m)) as ->
      by (induction (om_Finalizers m) as [|f fs IH]; [done|]; cbn; by rewrite IH).
    rewrite text_map_roundtrip. destruct m as [n ns rv g [t|] a fs]; cbn; [|done]. by rewrite text_time_text.
  - intros c _. cbn. by rewrite text_time_text.
Qed.

(** ** Validation *)

Definition checked {A} (ok : A -> bool) (r : result A) : result A :=
  match r with
  | Ok a => if ok a then Ok a else Err (ErrOther "invalid object")
  | Err e => Err e
  end.

Lemma checked_ok {A} ok (r : result A) a : checked ok r = Ok a -> ok a = true.
Proof. destruct r as [x|e]; simpl; [|done]. destruct (ok x) eqn:E; [|done]. by intros [= <-]. Qed.

Definition count_ok (o : option Z) : bool := match o with Some n => bool_decide (in_int32 n) | None => true end.

#[local] Instance typed_mem : KubeClient World := {|
  kc_Now := kc_Now (KubeClient := mem_client);
  kc_GetWD k w := (checked (fun wd => bool_decide (crd_wd wd)) (kc_GetWD (KubeClient := mem_client) k w).1, w);
  kc_ListWDs := kc_ListWDs (KubeClient := mem_client);
  kc_UpdateWD := kc_UpdateWD (KubeClient := mem_client);
  kc_StatusUpdateWD := kc_StatusUpdateWD (KubeClient := mem_client);
  kc_GetDeployment k w := (checked (fun d => count_ok (dp_Replicas d))
    (kc_GetDeployment (KubeClient := mem_client) k w).1, w);
  kc_GetStatefulSet k w := (checked (fun s => count_ok (ss_Replicas s))
    (kc_GetStatefulSet (KubeClient := mem_client) k w).1, w);
  kc_GetCronJob := kc_GetCronJob (KubeClient := mem_client);
  kc_GetRollout := kc_GetRollout (KubeClient := mem_client);
  kc_Patch := kc_Patch (KubeClient := mem_client);
  kc_GetSecret := kc_GetSecret (KubeClient := mem_client)
|}.

#[local] Instance typed_mem_laws : TypedServer.
Proof.
  split.
  - intros k w wd Hg. apply checked_ok in Hg. by apply bool_decide_eq_true in Hg.
  - intros k w d n Hg Hn. apply checked_ok in Hg. rewrite Hn in Hg. by apply bool_decide_eq_true in Hg.
  - intros k w s n Hg Hn. apply checked_ok in Hg. rewrite Hn in Hg. by apply bool_decide_eq_true in Hg.
Qed.

(** A dependency that suspends its dependent, with fields left out. *)
Definition wd_sparse : WorkloadDependency :=
  mkWD (mkMeta "api-needs-db" "prod" "1" 1 None ∅ [FinalizerName])
    (mkSpec (mkRef "Deployment" "api" "") [mkDependsOn "Deployment" "db" "" (mkHealthCondition 0 0 0)]
       (mkOnDegraded "" 0) "" (Some (mkNotify "" (Some (mkSecretKeyRef "hook" "")) [])))
    (mkStatus PhaseDegraded None (Some (900 * Second + 7)) None None "" []).

Definition sparse_world : World :=
  mkWorld (1000 * Second) {[ req0 := wd_sparse ]}
    (<[ key "db" := deployment "db" 1 0 ]> {[ key "api" := deployment "api" 3 3 ]}) ∅ ∅ ∅ ∅.

Lemma reconcile_stays_typed_witness :
  let '(_, sys) := (Reconcile req0 : MW World Ret) (MkSys sparse_world []) in
  Forall typed_write (out sys) /\
  (Phase ∘ wd_Status <$> wds (env sys) !! req0) = Some PhaseSuspended.
Proof.
  destruct (reconcile_stays_typed req0 (MkSys sparse_world [])) as (tr & Htr & HF).
  destruct ((Reconcile req0 : MW World Ret) (MkSys sparse_world [])) as [r sys] eqn:E.
  split.
  - simpl in Htr. rewrite Htr. exact HF.
  - assert (sys = ((Reconcile req0 : MW World Ret) (MkSys sparse_world [])).2) as -> by (rewrite E; reflexivity).
    vm_compute. reflexivity.
Defined.

Lemma wire_roundtrip_witness :
  dec_WD (default_WD (enc_WD wd_sparse)) = Some (normal_wd wd_sparse) /\
  normal_wd wd_sparse =
    mkWD (mkMeta "api-needs-db" "prod" "1" 1 None ∅ [FinalizerName])
      (mkSpec (mkRef "Deployment" "api" "") [mkDependsOn "Deployment" "db" "" (mkHealthCondition 100 0 0)]
         (mkOnDegraded "ScaleToZero" 0) "strict" (Some (mkNotify "" (Some (mkSecretKeyRef "hook" "url")) [])))
      (mkStatus PhaseDegraded None (Some (900 * Second)) None None "" []).
Proof.
  assert (schema_wd wd_sparse) as Hs by (apply (bool_decide_eq_true (schema_wd wd_sparse)); vm_compute; reflexivity).
  assert (storable_wd wd_sparse) as Ht by (repeat constructor; vm_compute; congruence).
  split; [exact (proj1 (wire_roundtrip (W := World) wd_sparse Hs Ht))|reflexivity].
Defined.
